(* ===== verification/_CoqProject ===== *)
-Q . S2P
Prelude.v
F64.v
Chars.v
Escape.v
Errors.v
Fmt.v
Types.v
Collections.v
TableOps.v
Distinct.v
Render.v
Formatter.v
FromStr.v
Syn.v
Macros.v
Io.v
Lexer.v
TokenFmt.v
Evaluate.v
Divide.v
Machine.v
Pipeline.v
Main.v
Tests.v
