(* ===== verification/Prelude.v ===== *)
(** * dax-rust: a verification development

    The repository is a small DAX-like formula evaluator over an in-memory
    column store.  A [Table] maps column names to vectors of [Value]s
    (numbers, texts, booleans, null); [Table::evaluate_dax] tokenizes an
    expression such as [SUM([Sales])] and applies the aggregate named by its
    first function to the first column that follows it.  The tokenizer
    lives in the crate [dax-macro-impl], which also backs two procedural
    macros: [parse_dax!] and [table!].

    ** The parts of the program and the files that model them

    - [Prelude] (this file): the notation [let? x := e in k] for Rust's [?]
      on options, [Ordering] and [Result] of the standard library, the
      tactics and the hint database [dax], and the loops that the sources
      write over iterators: [span] is the [while let Some(&c) = it.peek()]
      loop of the tokenizer, [filter_map] and [fold_sel] the filtered folds
      of the aggregates.
    - [F64]: [f64] as the kernel's binary64 floats, with the operations the
      sources call ([==], [partial_cmp], [is_nan], [is_infinite],
      [to_bits], [is_sign_positive]), the 64-bit patterns of the floats
      ([f64_from_bits], inverse of [f64_to_bits] away from the patterns of
      NaN), the casts [usize as f64] and
      [i32 as f64], the wrap-around of [i32] ([i32_wrap]), and the order
      theory of floats the aggregates need ([f64_le] is a total preorder
      away from NaN).
    - [Chars]: [char] as a Unicode scalar value, strings as lists of them;
      [char::is_digit(10)], [str::contains]; [char::is_alphabetic] is the
      class [Unicode], fixed on ASCII by a law and otherwise free.
    - [Escape]: strings as Rust source text: [<str as Debug>::fmt], which
      [main] prints errors with, and the compiler reading a string literal
      (the lexer up to the closing quote, then the escapes), which is how
      the expansion of [parse_dax!] is read.
    - [Errors] ([src/src/error.rs]): [DaxError], its [Display] and the
      conversion from [std::io::Error].
    - [Fmt]: the formatting the sources call: [String::len] in bytes,
      [{:.2}] on a float (exact decimal expansion, ties to even), [{}] and
      [{:?}] on a float (the shortest decimal that reads back, the closest
      of those), padding to a width, which counts characters.
    - [Types] ([src/src/types.rs]): [Value], [Value_eq] for
      [impl PartialEq], [Value_hash] for [impl Hash] as the list of writes
      made to the hasher, and the [From] conversions of [src/src/table.rs].
      The module [Bits] has the enum and the two methods on values as the
      machine holds them, a number being its 64 bits, so that the NaNs
      have their patterns and [to_bits] returns them.
    - [Collections]: [Iterator::reduce], [min_by], [max_by], [any], and
      [HashSet] as the list of its keys in insertion order.  What a lookup
      compares the key with depends on the hasher and the table; the class
      [Probe] says which stored keys a lookup may meet (always those of
      equal hash), and every theorem on sets holds for every instance.
    - [TableOps] ([src/src/table.rs], [impl Table]): the [HashMap] of
      columns as a [gmap]; [new], [get_column], [add_column], [sum],
      [average] (its loop with the [i32] counter at its width, wrapping
      as in a build without overflow checks; [average_checked] is the
      build with them, where the increment panics), [count],
      [distinctcount], [min], [max], [divide].
    - [Distinct]: the set that [distinctcount] builds, followed along the
      column for any probe together with the set of the classes of
      [Value_eq] ([tracks]).
    - [Render] ([src/src/table.rs], [impl fmt::Display for Table]): the
      text of a table as the list of the lines written, [None] for a
      panic.  The order in which the [HashMap] is iterated is the class
      [HashOrder], any listing of the entries of the map.
    - [Formatter] ([src/src/table.rs], the same [fmt]): the rendering
      write by write on a formatter that may refuse a write (the class
      [Writer]), in a monad of computations that return, fail or panic;
      every [?] of the source is a bind.
    - [FromStr]: [<f64 as FromStr>::from_str], which the tokenizer and the
      ingestion call: the grammar of the standard library and correct
      rounding of the decimal.
    - [Syn]: the input of a procedural macro as token trees, and the
      parsers of [syn] that the macros call ([LitStr], [=>], [,],
      [bracketed!], [parse_terminated], [parse_macro_input!]), each from
      the tokens left to its result and the tokens left after it.  The
      grammar of Rust expressions is the class [ExprSyntax]; the instance
      [literal_exprs] reads literals.
    - [Macros] ([src/dax-macro/src/lib.rs], [src/dax-macro-impl/src/lib.rs]):
      [table!] from its input tokens to the table its expansion builds:
      [TableData::parse] with its loop ([parse_column], [parse_columns]),
      and the expansion as the calls of [add_column] it makes
      ([generate_table]).  What an expression evaluates to is the class
      [ExprValue].
    - [Io] ([src/src/io.rs]): [parse_value] and [read_csv], on what opening
      and reading the file yields: the failure of [File::open], or the
      lines, each of them a line or a failure.  [read_line] is the body of
      the loop over the lines, [push_row] the loop over the fields,
      [build_table] the final loop.  [lines] is [BufRead::lines] on the
      text of a file, and [read_csv_text] is [read_csv] on a file that
      opens and is read without a failure.
    - [Lexer] ([src/dax-macro-impl/src/lib.rs]): [DaxToken] and [tokenize];
      [tokenize_step] is one iteration of the outer loop, arm by arm in the
      order of the [match], [tokenize_loop] the loop.
    - [Evaluate] ([src/src/table.rs], [evaluate_dax]; [src/src/main.rs],
      [eval_dax]): the scan over the tokens, with the one iterator that the
      outer loop and the inner loop of each arm share modelled as the list
      of tokens not yet taken ([evaluate_tokens], [function_arm],
      [column_loop]); [eval_spec] is the specification of the scan.
    - [TokenFmt] ([src/dax-macro-impl/src/lib.rs],
      [src/dax-macro/src/lib.rs]): [Display] and [ToTokens] for [DaxToken],
      as the texts they write, [parse_dax!] from its input to the texts
      of the elements of its expansion, and [read_token], the token such a
      text denotes when the compiler reads it.
    - [Divide] ([src/src/table.rs], [evaluate_divide]): the private method
      that divides the values of two argument tokens.
    - [Machine]: the same scan as a transition relation [step] over the
      control points of the loops, with its runs [run], and the modality
      [eventually] over the tokens still to read.
    - [Pipeline]: the components composed as a user of the library composes
      them: a file read by [read_csv], queried by [evaluate_dax] and written
      by [Display].
    - [Main] ([src/src/main.rs]): [main] as a computation on the standard
      output, a [Writer] of [Formatter] that may refuse a write, on which
      [println!] panics ([print], [println_args]).
    - [Tests] ([src/tests/table_test.rs], and [mod tests] of
      [src/src/table.rs] in the module [TableTests]): every test as the
      boolean its assertions compute.

    ** What the theorems show

    - Values: [Value_eq] is an equivalence that identifies all NaNs
      ([Value_eq_equivalence]); on the bits, [hash] sees of a number only
      the float it denotes, so the patterns of NaN hash alike, and equal
      values hash alike exactly when they are not the zeros of opposite
      sign ([Value_hash_consistent]), which are equal and hash differently
      ([Value_hash_zeros_differ]).
    - Table: the functional behaviour of every aggregate on every branch:
      [sum_spec], [average_spec], [min_max_absent], [min_max_bounds],
      [count_distinctcount], [distinctcount_classes], [divide_spec],
      [get_column_add_column]; and where the behaviour depends on what the
      specification leaves open: the order of a column with a NaN
      ([min_max_nan_unstable]), the hash table on a column with both zeros
      ([distinctcount_zeros_depend_on_table], for every probe: the number
      of classes of [Value_eq] or one more), the width of the counter
      ([average_counter_wraps], [average_overflow_checks]); when an
      aggregate has no result ([sum_None], [average_None], [min_None],
      [max_None], [distinctcount_None]).
    - Tokenizer: refinement of the grammar of the tokens [lex] in both
      directions ([tokenize_spec]), termination ([tokenize_terminates]),
      well-formed tokens ([tokenize_wf]), the number arm on every run it
      can meet ([tokenize_number]).
    - Evaluator: refinement of [eval_spec] in both directions
      ([evaluate_tokens_spec]), single dispatch on the text of an
      expression ([evaluate_dax_call]), the error of a function without a
      column ([evaluate_tokens_function_without_column]), the three errors
      and the causes of each ([evaluate_dax_errors]); the machine is total and
      deterministic and computes the result of the loops
      ([machine_evaluates]), never goes back ([machine_never_rescans]),
      and makes progress to its return exactly on the token lists that hold
      a call ([machine_finishes]).
    - Composition: a sum over a column of a file is the sum of the fields
      of that column that read as numbers ([csv_sum]); a file whose lines
      are complete gives a table with columns of one length, which prints
      as a grid with one row per line, and a file with a short line one
      that prints differently in different orders ([csv_fmt]).
    - Macro: [TableData::parse] accepts exactly the grammar [table_syntax]
      and fails exactly as [table_error] says ([TableData_parse_spec]); it
      reads back what is printed ([TableData_parse_tokens]); what [table!]
      does with any input, and which definition a column name reads
      ([table_spec]); what [parse_dax!] expands to and when the compiler
      reads the expansion as the tokens ([parse_dax_spec]).
    - Source text: what [{:?}] writes for a string reads back as the
      string ([read_str_debug]); a string between quotes as
      it is reads back exactly when it holds no backslash, quote or
      carriage return ([read_str_literal_quoted]), which is when the
      element that [ToTokens] writes for a column denotes the token
      ([read_token_to_tokens]).
    - Program: the text [main] prints, for every hasher, iteration order
      and Unicode table, and that it panics, having printed a prefix of
      that text, only when the standard output refuses a write
      ([main_prints]); its runs on an output that accepts everything and
      on one that is closed ([main_on_string], [main_on_closed_pipe]).
    - Ingestion: what every column of the table of a file holds
      ([read_csv_columns]), the classification of a field
      ([parse_value_spec]), failures ([read_csv_error]), the lengths of the
      columns ([column_of_length]), what an empty line does
      ([column_of_blank_line]), what the line ends of the file do under
      the model of [BufRead::lines] ([read_csv_line_ends]) and that the
      table of an empty file is not printed ([csv_empty_file]).
    - Rendering: when it panics ([fmt_panics]); that on a formatter which
      may fail it writes the grid or a prefix of it and returns the
      failure, a refinement of the pure rendering ([fmt_io_spec]), and
      that on a [String] it is the pure rendering ([to_string_fmt]); the
      shape of the grid of a table whose columns have one length, with the
      lengths of its lines ([fmt_grid]); that the text of such a table
      does not depend on the
      iteration order of the map ([fmt_order_independent]) and that the
      lines of every other table do ([fmt_order_dependent]).
    - Errors: the text of an error determines it ([DaxError_fmt_inj]).
    - Tokens as text: which tokens read back from their text
      ([DaxToken_fmt_tokenize]), what a digit run beyond the range of a
      float becomes ([tokenize_number_overflow]); [evaluate_divide]
      computes [divide] of the values of its arguments
      ([evaluate_divide_divide]) and succeeds on columns only
      ([evaluate_divide_columns]).
    - Tests: all of them pass, the example of the documentation included
      ([repository_tests]).

    ** Bounds and fuel

    - [tokenize_loop] takes fuel, one unit per iteration of the outer loop.
      Every iteration consumes at least one character
      ([tokenize_step_consumes]), so [length input] units are enough;
      [tokenize] supplies exactly that, and [tokenize_terminates] shows that
      the loop then returns.  The loops of [parse_terminated],
      [TableData::parse] and [unescape] take fuel in the same way, one unit
      per token or character, and their lemmas of fuel
      ([parse_terminated_loop_fuel], [parse_columns_terminated],
      [unescape_loop_escaped]) show that it is enough.  All other loops
      are structural recursion on the column or on the token list.
    - The counter of [average] is an [i32].  [average_spec] holds for
      columns of at most [i32_MAX] numbers, the range in which the counter
      is the count; [average_counter_wraps] shows what happens beyond it in
      a build without overflow checks, which is the build [average_step]
      models, and [average_overflow_checks] that a build with them
      ([average_checked]) panics there and agrees with the other build
      below.
    - [f64] is exact: the kernel's floats are IEEE 754 binary64 with
      round-to-nearest-even, as Rust's.  The kernel has one NaN where the
      machine has a NaN for every pattern with the exponent all ones and a
      fraction that is not zero.  The only operation of the sources that
      looks at the bits of a number is [to_bits] in [Value::hash];
      [Types.Bits] has values with the bits of their numbers, and
      [Value_hash_consistent] shows that [hash] and [eq] on them are
      [Value_hash] and [Value_eq] on the floats the bits denote, so that
      everything else is stated on the floats.
    - A [usize] length is a [nat]; lengths above [2^63] are not modelled.
      The one [usize] subtraction of the sources, in the rendering, is
      modelled with its overflow ([border_width]); the sum before it adds
      the lengths of strings that are in memory together, or of the texts
      of numbers, and its overflow is not modelled.
    - Classes stand for what the standard library leaves open: [Unicode]
      (the table of [char::is_alphabetic] outside ASCII), [UnicodeDebug]
      (the tables of [char::escape_debug]), [Probe] (the keys a hash lookup
      compares with), [HashOrder] (the iteration order of a map),
      [ExprSyntax], [ExprPrint] and [ExprValue] (the expressions of Rust:
      their parser, their printing, their values).  Theorems hold for
      every instance; the instances [ascii_unicode], [ascii_debug],
      [exact_probe], [colliding_probe], [gmap_order], [reverse_order],
      [front_order], [literal_exprs] and [literal_values] compute, for the
      witnesses and for the theorems that need an instance to exist.

    ** What is not modelled

    - The file system under [read_csv].  The writes of [Display] and of
      [println!] may fail, at the granularity of one [write!]: a failing
      write leaves some prefix of its text written; the buffer and the lock
      of the standard output are not modelled.
    - The compiler beyond literals: a macro input is token trees, a
      delimiter-less group never occurs in it, and an expression is read
      and valued through the classes above; a string literal token is
      represented by the string it denotes.
    - The lexer of the compiler in [ToTokens for DaxToken]
      ([TokenStream2::from_str(..).unwrap()], [src/dax-macro-impl/src/lib.rs]
      line 51): [DaxToken_to_tokens] is the text handed to it, and
      [parse_dax] the texts of the elements.  A text that does not lex,
      which only the name of a column can cause, is a panic of the macro
      in the program and shows in the model as [read_token] having no
      result.
    - [src/src/lib.rs]: module declarations and re-exports only.
    - That the shortest text of a float reads back as the float is checked
      on examples ([format_shortest_examples]), not proved: no theorem
      depends on it. *)

From Stdlib Require Export ZArith List Lia Bool.
From stdpp Require Export base tactics option list.

(** ** Notation

    Rust's [?] on an [Option]: [let? x := e in k] returns [None] at once
    when [e] is [None]. *)

Declare Scope rust_scope.
Delimit Scope rust_scope with rust.

Notation "'let?' x ':=' e 'in' k" :=
  (match e with Some x => k | None => None end)
  (at level 10, x pattern, e at level 100, k at level 200,
   format "'[v' 'let?'  x  ':='  e  'in' '/' k ']'") : rust_scope.

#[global] Open Scope rust_scope.

(** [std::cmp::Ordering]. *)
Inductive Ordering : Set := Less | Equal | Greater.

#[export] Instance Ordering_eq_dec : EqDecision Ordering.
Proof. solve_decision. Defined.

(** [std::result::Result]. *)
Inductive Result (T E : Type) : Type :=
| Ok (t : T)
| Err (e : E).

Arguments Ok {T E} t.
Arguments Err {T E} e.

(** [Result::map]. *)
Definition fmap_Result {T U E} (f : T -> U) (r : Result T E) : Result U E :=
  match r with
  | Ok t => Ok (f t)
  | Err e => Err e
  end.

(** Rust's [?] on a [Result]: [let! x := e in k] returns the error at
    once when [e] is [Err]. *)
Notation "'let!' x ':=' e 'in' k" :=
  (match e with Ok x => k | Err err => Err err end)
  (at level 10, x pattern, e at level 100, k at level 200,
   format "'[v' 'let!'  x  ':='  e  'in' '/' k ']'") : rust_scope.

(** ** Automation *)

Create HintDb dax discriminated.
Create Rewrite HintDb dax.

(** [invc H]: inversion that cleans up after itself. *)
Ltac invc H := inversion H; clear H; simplify_eq.

(** ** Iterator loops

    [span p l] is the loop
    [while let Some(&c) = it.peek() { if p(c) { buf.push(c); it.next(); } else { break } }]
    over a peekable iterator positioned at [l]: the pair of the characters
    pushed to [buf] and the position the iterator is left at. *)

Section Span.
Context {A : Type}.
Implicit Types (p : A -> bool) (l run rest : list A).

Fixpoint span p l : list A * list A :=
  match l with
  | [] => ([], [])
  | x :: xs =>
      if p x then let '(run, rest) := span p xs in (x :: run, rest)
      else ([], l)
  end.

Lemma span_app p l : (span p l).1 ++ (span p l).2 = l.
Proof.
  induction l as [|x xs IH]; simpl; [done|].
  destruct (p x); [|done].
  destruct (span p xs) as [run rest]; simpl in *. by f_equal.
Qed.

Lemma span_run_Forall p l : Forall (fun x => p x = true) (span p l).1.
Proof.
  induction l as [|x xs IH]; simpl; [constructor|].
  destruct (p x) eqn:E; [|constructor].
  destruct (span p xs) as [run rest]; simpl in *. by constructor.
Qed.

Lemma span_rest_head p l x rest :
  (span p l).2 = x :: rest -> p x = false.
Proof.
  induction l as [|y ys IH]; simpl; [done|].
  destruct (p y) eqn:E.
  - destruct (span p ys) as [run r]; simpl in *. exact IH.
  - simpl. by intros [= -> _].
Qed.

Lemma span_length p l :
  length (span p l).1 + length (span p l).2 = length l.
Proof. rewrite <- length_app, span_app. done. Qed.

Lemma span_rest_le p l : length (span p l).2 <= length l.
Proof. pose proof (span_length p l). lia. Qed.

Lemma span_cons_true p x l :
  p x = true -> span p (x :: l) = (x :: (span p l).1, (span p l).2).
Proof. intros E. simpl. rewrite E. by destruct (span p l). Qed.

Lemma span_all p l :
  Forall (fun x => p x = true) l -> span p l = (l, []).
Proof.
  induction 1 as [|x xs Hx _ IH]; simpl; [done|]. by rewrite Hx, IH.
Qed.

Lemma span_app_stop p l1 x l2 :
  Forall (fun y => p y = true) l1 -> p x = false ->
  span p (l1 ++ x :: l2) = (l1, x :: l2).
Proof.
  intros H Hx. induction H as [|y ys Hy _ IH]; simpl.
  - by rewrite Hx.
  - by rewrite Hy, IH.
Qed.

(** The loop stops at [rest]: at the end of the input, or at a character
    that fails the test. *)
Definition stops p rest : Prop :=
  match rest with
  | [] => True
  | x :: _ => p x = false
  end.

Lemma span_stops p l1 rest :
  Forall (fun y => p y = true) l1 -> stops p rest ->
  span p (l1 ++ rest) = (l1, rest).
Proof.
  intros Hl Hr. destruct rest as [|x rest].
  - rewrite app_nil_r. by apply span_all.
  - by apply span_app_stop.
Qed.

Lemma span_rest_stops p l : stops p (span p l).2.
Proof.
  destruct (span p l).2 as [|x rest] eqn:E; simpl; [done|].
  by eapply span_rest_head.
Qed.

(** The rest is the end of the list: a loop only moves forward. *)
Lemma span_rest_suffix p l : suffix (span p l).2 l.
Proof. exists (span p l).1. by rewrite span_app. Qed.

(** Two tests that agree on the list run the same loop. *)
Lemma span_ext p q l : Forall (fun x => p x = q x) l -> span p l = span q l.
Proof.
  induction 1 as [|x xs Hx _ IH]; simpl; [done|]. by rewrite Hx, IH.
Qed.

End Span.

Lemma Forall_suffix {A} (P : A -> Prop) (l k : list A) :
  suffix k l -> Forall P l -> Forall P k.
Proof. intros [pre ->] Hl. by apply Forall_app in Hl as [_ ?]. Qed.

#[export] Hint Resolve span_rest_le span_run_Forall span_rest_stops : dax.
#[export] Hint Rewrite @span_app @span_length : dax.

(** ** Folds that skip entries

    A loop that updates an accumulator only on the entries a partial
    projection [sel] accepts is the fold over the projected entries. *)

Section FoldSel.
Context {A B C : Type}.
Implicit Types (sel : A -> option B) (f : C -> B -> C) (l : list A).

(** [filter_map] of Rust's iterators. *)
Definition filter_map sel l : list B := omap sel l.

Definition fold_sel sel f (acc : C) l : C :=
  fold_left (fun acc x => match sel x with Some b => f acc b | None => acc end)
            l acc.

Lemma fold_sel_filter_map sel f l acc :
  fold_sel sel f acc l = fold_left f (filter_map sel l) acc.
Proof.
  unfold fold_sel, filter_map. revert acc.
  induction l as [|x xs IH]; intros acc; simpl; [done|].
  rewrite IH. by destruct (sel x).
Qed.

Lemma filter_map_app sel l1 l2 :
  filter_map sel (l1 ++ l2) = filter_map sel l1 ++ filter_map sel l2.
Proof. apply omap_app. Qed.

Lemma filter_map_length sel l : length (filter_map sel l) <= length l.
Proof.
  induction l as [|x xs IH]; simpl; [done|].
  destruct (sel x); simpl; lia.
Qed.

Lemma elem_of_filter_map sel l b :
  b ∈ filter_map sel l <-> exists a, a ∈ l /\ sel a = Some b.
Proof. apply list_elem_of_omap. Qed.

End FoldSel.

#[export] Hint Rewrite @fold_sel_filter_map @filter_map_app : dax.
#[export] Hint Resolve filter_map_length : dax.

(** ** The last element that passes a test *)

Section LastFilter.
Context {A : Type} (P : A -> Prop) `{forall x, Decision (P x)}.
Implicit Types (l : list A).

Lemma filter_nil_Forall l : Forall (fun x => ~ P x) l -> filter P l = [].
Proof.
  induction 1 as [|x l Hx _ IH]; [done|]. rewrite filter_cons.
  by destruct (decide (P x)).
Qed.

Lemma last_filter_app_cons l1 x l2 :
  P x -> Forall (fun z => ~ P z) l2 -> last (filter P (l1 ++ x :: l2)) = Some x.
Proof.
  intros Hx Hl2.
  rewrite filter_app, filter_cons. destruct (decide (P x)); [|done].
  rewrite (filter_nil_Forall l2 Hl2). apply last_snoc.
Qed.

Lemma last_filter_lookup l j x :
  l !! j = Some x -> P x ->
  (forall k y, j < k -> l !! k = Some y -> ~ P y) ->
  last (filter P l) = Some x.
Proof.
  intros Hj Hx Hlater. rewrite <- (take_drop_middle l j x Hj).
  apply last_filter_app_cons; [done|]. apply Forall_lookup.
  intros i y. rewrite lookup_drop. apply Hlater. lia.
Qed.

End LastFilter.

(** ** [it.enumerate()] *)

Definition enumerate {A} (l : list A) : list (nat * A) := imap pair l.

Lemma enumerate_snoc {A} (l : list A) x :
  enumerate (l ++ [x]) = enumerate l ++ [(length l, x)].
Proof. unfold enumerate. rewrite imap_app. simpl. by rewrite Nat.add_0_r. Qed.

Lemma fmap_enumerate {A B} (f : nat * A -> B) (l : list A) :
  f <$> enumerate l = imap (fun i x => f (i, x)) l.
Proof. unfold enumerate. by rewrite fmap_imap. Qed.

(** ** A fallible map

    [mapM f l] fails exactly when [f] fails on an element. *)

Lemma mapM_None {A B} (f : A -> option B) (l : list A) :
  mapM f l = None <-> exists x, x ∈ l /\ f x = None.
Proof.
  induction l as [|a l IH]; simpl.
  - split; [done|]. by intros (x & ?%elem_of_nil & _).
  - destruct (f a) as [b|] eqn:Ea; simpl.
    + destruct (mapM f l); simpl.
      * split; [done|]. intros (x & [->|Hx]%elem_of_cons & Hf); [congruence|].
        by assert (Some l0 = None) by (apply IH; eauto).
      * split; [|done]. intros _. destruct (proj1 IH eq_refl) as (x & ? & ?).
        exists x. by rewrite elem_of_cons; eauto.
    + split; [|done]. intros _. exists a. by rewrite elem_of_cons; eauto.
Qed.

(** ** Lengths of filtered lists *)

Lemma length_omap_le {A B C} (f : A -> option B) (g : A -> option C) (l : list A) :
  (forall x, is_Some (f x) -> is_Some (g x)) ->
  length (omap f l) <= length (omap g l).
Proof.
  intros Hfg. induction l as [|x l IH]; [done|]. cbn.
  destruct (f x) eqn:Ef; [|destruct (g x); cbn; lia].
  destruct (Hfg x) as [c ->]; [by rewrite Ef|]. cbn. lia.
Qed.

Lemma length_omap_all {A B} (f : A -> option B) (l : list A) :
  Forall (fun x => is_Some (f x)) l -> length (omap f l) = length l.
Proof.
  induction 1 as [|x l [b Hx] _ IH]; [done|]. cbn. rewrite Hx. cbn. lia.
Qed.

Lemma length_omap {A B} (f : A -> option B) (l : list A) :
  length (omap f l) <= length l.
Proof.
  induction l as [|x l IH]; [done|]. cbn. destruct (f x); cbn; lia.
Qed.

Lemma length_omap_all_inv {A B} (f : A -> option B) (l : list A) :
  length (omap f l) = length l -> Forall (fun x => is_Some (f x)) l.
Proof.
  induction l as [|x l IH]; [done|]. cbn.
  pose proof (length_omap f l) as Hle.
  destruct (f x) as [b|] eqn:Hx; cbn; intros Hl; [|lia].
  constructor; [by rewrite Hx|]. apply IH. lia.
Qed.
