(* ===== verification/F64.v ===== *)
(** * F64: the program's numbers

    Rust's [f64] is IEEE 754 binary64, which is what the kernel's primitive
    [float] is; the operations of the standard library that the sources call
    on numbers ([==], [partial_cmp], [is_nan], [is_infinite],
    [is_sign_positive], [to_bits], [as f64]) are defined here on it, with
    the facts about them the components share.

    The primitive type has a single NaN, where the machine has one for
    every pattern of bits with the exponent all ones and a fraction that
    is not zero.  A number of the machine is its 64 bits: [f64_from_bits]
    is the float that bits denote, [f64_to_bits] the bits of a float that
    is not a NaN, and the two are inverse of each other
    ([f64_to_bits_from_bits], [f64_from_bits_to_bits]).  The only
    operation of the sources that observes the bits of a number is
    [to_bits] in [Value::hash]; [Types] models it on the bits and shows
    that it never reaches a NaN.

    The integers the sources convert to [f64] ([i32] for the counter of
    [average], [usize] for a distinct count) are [Z] with the wrap-around of
    their width written out. *)

From Stdlib Require Export Floats.
From S2P Require Import Prelude.

#[local] Open Scope Z_scope.

Abbreviation f64 := float (only parsing).

(** ** Equality on floats is decidable (Leibniz equality of the values). *)

#[export] Instance f64_eq_dec : EqDecision float.
Proof.
  intros x y. destruct (PrimFloat.Leibniz.eqb x y) eqn:E.
  - left. by apply FloatAxioms.Leibniz.eqb_spec.
  - right. intros H. apply FloatAxioms.Leibniz.eqb_spec in H. congruence.
Defined.

(** ** Operations of [core::f64] *)

(** [a == b] of [PartialEq for f64]. *)
Definition f64_eq (a b : f64) : bool := PrimFloat.eqb a b.

(** [a.partial_cmp(&b)]. *)
Definition f64_partial_cmp (a b : f64) : option Ordering :=
  match PrimFloat.compare a b with
  | FEq => Some Equal
  | FLt => Some Less
  | FGt => Some Greater
  | FNotComparable => None
  end.

(** [x.is_nan()], which the standard library defines as [x != x]. *)
Definition f64_is_nan (x : f64) : bool := negb (f64_eq x x).

(** [x.is_infinite()]: [x] is [INFINITY] or [NEG_INFINITY]. *)
Definition f64_is_infinite (x : f64) : bool :=
  f64_eq x infinity || f64_eq x neg_infinity.

Definition sign_bit (s : bool) : Z := if s then 2 ^ 63 else 0.

(** The binary64 encoding: sign, biased exponent and fraction; of the
    NaNs, the canonical quiet one. *)
Definition SF_to_bits (x : spec_float) : Z :=
  match x with
  | S754_zero s => sign_bit s
  | S754_infinity s => sign_bit s + 0x7FF0000000000000
  | S754_nan => 0x7FF8000000000000
  | S754_finite s m e =>
      sign_bit s + (if Z.pos m <? 2 ^ 52 then Z.pos m
                    else (e + 1075) * 2 ^ 52 + (Z.pos m - 2 ^ 52))
  end.

(** [x.to_bits()] for a float that is not a NaN. *)
Definition f64_to_bits (x : f64) : Z := SF_to_bits (Prim2SF x).

(** The 64-bit patterns. *)
Definition u64 (w : Z) : Prop := 0 <= w < 2 ^ 64.

(** The binary64 value of a pattern: the sign is bit 63, the biased
    exponent the eleven bits below it, the fraction the low 52 bits. *)
Definition SF_from_bits (w : Z) : spec_float :=
  let s := 2 ^ 63 <=? w in
  let e := (w / 2 ^ 52) mod 2 ^ 11 in
  let f := w mod 2 ^ 52 in
  if e =? 0 then
    if f =? 0 then S754_zero s else S754_finite s (Z.to_pos f) (-1074)
  else if e =? 2047 then
    if f =? 0 then S754_infinity s else S754_nan
  else S754_finite s (Z.to_pos (f + 2 ^ 52)) (e - 1075).

(** [f64::from_bits(w)]. *)
Definition f64_from_bits (w : Z) : f64 := SF2Prim (SF_from_bits w).

(** The patterns of the NaNs. *)
Definition is_nan_bits (w : Z) : bool :=
  ((w / 2 ^ 52) mod 2 ^ 11 =? 2047) && negb (w mod 2 ^ 52 =? 0).

(** [x.is_sign_positive()]: the sign bit of the encoding is clear. *)
Definition f64_is_sign_positive (x : f64) : bool :=
  negb (Z.testbit (f64_to_bits x) 63).

(** ** Machine integers *)

(** An [i32] after an arithmetic operation that may overflow, as a release
    build computes it (two's complement wrap-around). *)
Definition i32_wrap (z : Z) : Z := (z + 2 ^ 31) mod 2 ^ 32 - 2 ^ 31.

Definition i32_MAX : Z := 2 ^ 31 - 1.

(** [a + b] on [i32] in a build with overflow checks: [None] is the panic
    "attempt to add with overflow". *)
Definition i32_add_checked (a b : Z) : option Z :=
  if (- 2 ^ 31 <=? a + b) && (a + b <=? i32_MAX) then Some (a + b) else None.

(** [n as f64] for a [usize] below [2^63] (a [Vec]'s length is at most
    [isize::MAX]): rounding to nearest, ties to even. *)
Definition usize_as_f64 (n : Z) : f64 := PrimFloat.of_uint63 (Uint63.of_Z n).

(** [n as f64] for an [i32]: exact. *)
Definition i32_as_f64 (n : Z) : f64 :=
  if n <? 0 then PrimFloat.opp (usize_as_f64 (- n)) else usize_as_f64 n.

(** ** Facts about the specification floats *)

Section SpecFloat.
Implicit Types (x y z : spec_float).

Definition SF_is_zero x : bool :=
  match x with S754_zero _ => true | _ => false end.

Definition SF_is_nan x : bool :=
  match x with S754_nan => true | _ => false end.

Lemma compare_cont_Eq_eq (m n : positive) :
  Pos.compare_cont Eq m n = Eq -> m = n.
Proof. apply Pos.compare_eq. Qed.

Lemma SFcompare_Eq_inv x y :
  SFcompare x y = Some Eq ->
  (SF_is_zero x = true /\ SF_is_zero y = true) \/ (x = y /\ SF_is_nan x = false).
Proof.
  destruct x as [s1|s1| |s1 m1 e1], y as [s2|s2| |s2 m2 e2]; simpl;
    try discriminate; auto;
    destruct s1, s2; try discriminate; auto; intros H; right;
    destruct (Z.compare_spec e1 e2) as [->| |]; try discriminate;
    destruct (Pos.compare_cont Eq m1 m2) eqn:E; try discriminate;
    apply compare_cont_Eq_eq in E; subst; auto.
Qed.

Lemma SFcompare_refl x : SF_is_nan x = false -> SFcompare x x = Some Eq.
Proof.
  destruct x as [s|s| |s m e]; simpl; try done; destruct s; try done;
    intros _; rewrite Z.compare_refl;
    change (Pos.compare_cont Eq m m) with (Pos.compare m m);
    by rewrite Pos.compare_refl.
Qed.

Lemma SFcompare_nan_l x y : SF_is_nan x = true -> SFcompare x y = None.
Proof. by destruct x. Qed.

Lemma SFcompare_nan_r x y : SF_is_nan y = true -> SFcompare x y = None.
Proof. by destruct x, y. Qed.

Lemma SFcompare_zero_zero x y :
  SF_is_zero x = true -> SF_is_zero y = true -> SFcompare x y = Some Eq.
Proof. by destruct x, y. Qed.

Lemma SFeqb_sym x y : SFeqb x y = SFeqb y x.
Proof.
  unfold SFeqb.
  destruct (SFcompare x y) as [[]|] eqn:E1, (SFcompare y x) as [[]|] eqn:E2;
    try done.
  all: try (apply SFcompare_Eq_inv in E1 as [[Hx Hy]|[-> Hn]];
            [by rewrite (SFcompare_zero_zero _ _ Hy Hx) in E2
            |by rewrite (SFcompare_refl _ Hn) in E2]).
  all: apply SFcompare_Eq_inv in E2 as [[Hx Hy]|[-> Hn]];
       [by rewrite (SFcompare_zero_zero _ _ Hy Hx) in E1
       |by rewrite (SFcompare_refl _ Hn) in E1].
Qed.

Lemma SFeqb_trans x y z :
  SFeqb x y = true -> SFeqb y z = true -> SFeqb x z = true.
Proof.
  unfold SFeqb.
  destruct (SFcompare x y) as [[]|] eqn:E1; try done.
  destruct (SFcompare y z) as [[]|] eqn:E2; try done. intros _ _.
  apply SFcompare_Eq_inv in E1 as [[Hx Hy]|[-> Hn]]; [|by rewrite E2].
  apply SFcompare_Eq_inv in E2 as [[_ Hz]|[<- _]];
    by rewrite (SFcompare_zero_zero x) by done.
Qed.

End SpecFloat.

(** ** The order of the specification floats

    On two finite numbers of the same sign [SFcompare] is the lexicographic
    comparison of exponent and mantissa; [lexcmp] is that comparison, with
    its specification in arithmetic. *)

Section SpecOrder.
Implicit Types (x y z : spec_float) (e : Z) (m : positive).

Definition lexcmp e1 m1 e2 m2 : comparison :=
  match (e1 ?= e2)%Z with
  | Eq => Pos.compare_cont Eq m1 m2
  | c => c
  end.

Definition lexlt e1 m1 e2 m2 : Prop :=
  e1 < e2 \/ (e1 = e2 /\ (m1 < m2)%positive).

Lemma lexcmp_spec e1 m1 e2 m2 :
  CompareSpec (e1 = e2 /\ m1 = m2) (lexlt e1 m1 e2 m2) (lexlt e2 m2 e1 m1)
    (lexcmp e1 m1 e2 m2).
Proof.
  unfold lexcmp, lexlt. destruct (Z.compare_spec e1 e2) as [->| |].
  - change (Pos.compare_cont Eq m1 m2) with (Pos.compare m1 m2).
    destruct (Pos.compare_spec m1 m2); constructor; auto.
  - constructor. by left.
  - constructor. by left.
Qed.

(** [SFcompare] on the four shapes of a number. *)
Lemma SFcompare_finite s1 m1 e1 s2 m2 e2 :
  SFcompare (S754_finite s1 m1 e1) (S754_finite s2 m2 e2) =
  Some (match s1, s2 with
        | true, true => CompOpp (lexcmp e1 m1 e2 m2)
        | true, false => Lt
        | false, true => Gt
        | false, false => lexcmp e1 m1 e2 m2
        end).
Proof. unfold lexcmp. simpl. by destruct s1, s2, (e1 ?= e2)%Z. Qed.

(** [lex_cases]: replace every [lexcmp] of the goal and the context by the
    arithmetic fact it stands for. *)
Ltac lex_cases :=
  repeat match goal with
  | H : context [lexcmp ?e1 ?m1 ?e2 ?m2] |- _ =>
      destruct (lexcmp_spec e1 m1 e2 m2)
  | |- context [lexcmp ?e1 ?m1 ?e2 ?m2] =>
      destruct (lexcmp_spec e1 m1 e2 m2)
  end;
  unfold lexlt in *; simpl in *; try done; try lia.

(** [sf_cases x]: the shapes and signs of [x]. *)
Ltac sf_cases x := destruct x as [[]|[]| |[] ? ?].

Lemma SFcompare_antisym x y :
  SFcompare y x = CompOpp <$> SFcompare x y.
Proof.
  sf_cases x; sf_cases y; rewrite ?SFcompare_finite; try done;
    simpl; f_equal; lex_cases.
Qed.

Lemma SFcompare_is_Some x y :
  SF_is_nan x = false -> SF_is_nan y = false -> is_Some (SFcompare x y).
Proof. sf_cases x; sf_cases y; rewrite ?SFcompare_finite; by eauto. Qed.

Lemma SFleb_refl x : SF_is_nan x = false -> SFleb x x = true.
Proof. intros Hx. unfold SFleb. by rewrite SFcompare_refl. Qed.

Lemma SFleb_trans x y z :
  SFleb x y = true -> SFleb y z = true -> SFleb x z = true.
Proof.
  unfold SFleb.
  sf_cases x; sf_cases y; try done; sf_cases z; try done;
    rewrite ?SFcompare_finite; lex_cases.
Qed.

Lemma SFleb_total x y :
  SF_is_nan x = false -> SF_is_nan y = false ->
  SFleb x y = true \/ SFleb y x = true.
Proof.
  intros Hx Hy. unfold SFleb. rewrite (SFcompare_antisym x y).
  destruct (SFcompare_is_Some x y Hx Hy) as [[] ->]; simpl; auto.
Qed.

Lemma SFcompare_Gt_leb x y : SFcompare x y = Some Gt -> SFleb y x = true.
Proof. intros E. unfold SFleb. by rewrite SFcompare_antisym, E. Qed.

Lemma SFcompare_not_Gt_leb x y :
  SF_is_nan x = false -> SF_is_nan y = false ->
  SFcompare x y <> Some Gt -> SFleb x y = true.
Proof.
  intros Hx Hy. unfold SFleb.
  by destruct (SFcompare_is_Some x y Hx Hy) as [[] ->].
Qed.

End SpecOrder.

(** ** Facts about the machine integers *)

Lemma i32_add_checked_Some a b :
  - 2 ^ 31 <= a + b <= i32_MAX -> i32_add_checked a b = Some (a + b).
Proof.
  intros [Hlo Hhi]. unfold i32_add_checked.
  apply Z.leb_le in Hlo, Hhi. by rewrite Hlo, Hhi.
Qed.

Lemma i32_add_checked_None a b : i32_MAX < a + b -> i32_add_checked a b = None.
Proof.
  intros Hhi. unfold i32_add_checked. apply Z.leb_gt in Hhi. rewrite Hhi.
  by rewrite andb_false_r.
Qed.

Lemma i32_wrap_small z : - 2 ^ 31 <= z <= i32_MAX -> i32_wrap z = z.
Proof. unfold i32_wrap, i32_MAX. intros Hz. rewrite Z.mod_small; lia. Qed.

Lemma i32_wrap_add_l a b : i32_wrap (i32_wrap a + b) = i32_wrap (a + b).
Proof.
  unfold i32_wrap. f_equal.
  replace ((a + 2 ^ 31) mod 2 ^ 32 - 2 ^ 31 + b + 2 ^ 31)
    with ((a + 2 ^ 31) mod 2 ^ 32 + b) by lia.
  rewrite Zplus_mod_idemp_l. f_equal. lia.
Qed.

Lemma i32_wrap_range z : - 2 ^ 31 <= i32_wrap z <= i32_MAX.
Proof.
  unfold i32_wrap, i32_MAX.
  pose proof (Z.mod_pos_bound (z + 2 ^ 31) (2 ^ 32)). lia.
Qed.

(** ** Facts about [f64] *)

Section F64Facts.
Implicit Types (a b c : float).

Definition f64_is_zero a : bool := SF_is_zero (Prim2SF a).

Lemma f64_is_nan_spec a : f64_is_nan a = SF_is_nan (Prim2SF a).
Proof.
  unfold f64_is_nan, f64_eq. rewrite FloatAxioms.eqb_spec. unfold SFeqb.
  destruct (SF_is_nan (Prim2SF a)) eqn:E.
  - by rewrite SFcompare_nan_l.
  - by rewrite SFcompare_refl.
Qed.

Lemma f64_eq_refl a : f64_is_nan a = false -> f64_eq a a = true.
Proof. unfold f64_is_nan. by destruct (f64_eq a a). Qed.

Lemma f64_eq_sym a b : f64_eq a b = f64_eq b a.
Proof. unfold f64_eq. rewrite !FloatAxioms.eqb_spec. apply SFeqb_sym. Qed.

Lemma f64_eq_trans a b c :
  f64_eq a b = true -> f64_eq b c = true -> f64_eq a c = true.
Proof. unfold f64_eq. rewrite !FloatAxioms.eqb_spec. apply SFeqb_trans. Qed.

(** IEEE equality holds between a number and itself and between the two
    zeros, and nowhere else. *)
Lemma f64_eq_inv a b :
  f64_eq a b = true ->
  (f64_is_zero a = true /\ f64_is_zero b = true) \/
  (a = b /\ f64_is_nan a = false).
Proof.
  unfold f64_eq, f64_is_zero. rewrite FloatAxioms.eqb_spec, f64_is_nan_spec. unfold SFeqb.
  destruct (SFcompare _ _) as [[]|] eqn:E; try done. intros _.
  apply SFcompare_Eq_inv in E as [?|[E ?]]; [by left|right].
  split; [by apply Prim2SF_inj|done].
Qed.

Lemma f64_eq_not_nan_l a b : f64_eq a b = true -> f64_is_nan a = false.
Proof.
  intros H. apply f64_eq_inv in H as [[H _]|[_ H]]; [|done].
  rewrite f64_is_nan_spec. unfold f64_is_zero in H.
  by destruct (Prim2SF a).
Qed.

Lemma f64_eq_not_nan_r a b : f64_eq a b = true -> f64_is_nan b = false.
Proof. rewrite f64_eq_sym. apply f64_eq_not_nan_l. Qed.

Lemma f64_eq_zero_zero a b :
  f64_is_zero a = true -> f64_is_zero b = true -> f64_eq a b = true.
Proof.
  unfold f64_is_zero, f64_eq. intros Ha Hb. rewrite FloatAxioms.eqb_spec. unfold SFeqb.
  by rewrite SFcompare_zero_zero.
Qed.

(** There are two zeros. *)
Lemma f64_is_zero_inv a : f64_is_zero a = true -> a = 0%float \/ a = (-0)%float.
Proof.
  unfold f64_is_zero. intros E. rewrite <- (SF2Prim_Prim2SF a).
  destruct (Prim2SF a) as [[|]| | |]; try done; [by right|by left].
Qed.

Lemma f64_is_infinite_not_nan a : f64_is_infinite a = true -> f64_is_nan a = false.
Proof.
  unfold f64_is_infinite. intros [H|H]%orb_true_iff;
    by apply f64_eq_not_nan_l in H.
Qed.

Lemma f64_is_infinite_spec a :
  f64_is_infinite a = match Prim2SF a with S754_infinity _ => true | _ => false end.
Proof.
  unfold f64_is_infinite, f64_eq. rewrite !FloatAxioms.eqb_spec.
  unfold SFeqb. by destruct (Prim2SF a) as [[]|[]| |[] m e].
Qed.

(** *** Order *)

(** [a <= b] of [PartialOrd for f64]. *)
Definition f64_le a b : bool := PrimFloat.leb a b.

Lemma f64_partial_cmp_spec a b :
  f64_partial_cmp a b =
  match SFcompare (Prim2SF a) (Prim2SF b) with
  | Some Eq => Some Equal
  | Some Lt => Some Less
  | Some Gt => Some Greater
  | None => None
  end.
Proof.
  unfold f64_partial_cmp. rewrite FloatAxioms.compare_spec.
  by destruct (SFcompare _ _) as [[]|].
Qed.

Lemma f64_partial_cmp_None a b :
  f64_partial_cmp a b = None <-> f64_is_nan a = true \/ f64_is_nan b = true.
Proof.
  rewrite f64_partial_cmp_spec, !f64_is_nan_spec. split.
  - destruct (SF_is_nan (Prim2SF a)) eqn:Ea, (SF_is_nan (Prim2SF b)) eqn:Eb; auto.
    by destruct (SFcompare_is_Some _ _ Ea Eb) as [[] ->].
  - intros [E|E]; [by rewrite SFcompare_nan_l|by rewrite SFcompare_nan_r].
Qed.

Lemma f64_le_refl a : f64_is_nan a = false -> f64_le a a = true.
Proof.
  unfold f64_le. rewrite FloatAxioms.leb_spec, f64_is_nan_spec. apply SFleb_refl.
Qed.

Lemma f64_le_trans a b c :
  f64_le a b = true -> f64_le b c = true -> f64_le a c = true.
Proof. unfold f64_le. rewrite !FloatAxioms.leb_spec. apply SFleb_trans. Qed.

Lemma f64_le_total a b :
  f64_is_nan a = false -> f64_is_nan b = false ->
  f64_le a b = true \/ f64_le b a = true.
Proof.
  unfold f64_le. rewrite !FloatAxioms.leb_spec, !f64_is_nan_spec. apply SFleb_total.
Qed.

Lemma f64_partial_cmp_Greater_le a b :
  f64_partial_cmp a b = Some Greater -> f64_le b a = true.
Proof.
  rewrite f64_partial_cmp_spec. unfold f64_le. rewrite FloatAxioms.leb_spec. intros E.
  apply SFcompare_Gt_leb. by destruct (SFcompare _ _) as [[]|].
Qed.

Lemma f64_partial_cmp_not_Greater_le a b :
  f64_is_nan a = false -> f64_is_nan b = false ->
  f64_partial_cmp a b <> Some Greater -> f64_le a b = true.
Proof.
  rewrite f64_partial_cmp_spec, !f64_is_nan_spec. unfold f64_le.
  rewrite FloatAxioms.leb_spec. intros Ha Hb E. apply SFcompare_not_Gt_leb; [done..|].
  by destruct (SFcompare _ _) as [[]|].
Qed.

End F64Facts.

(** ** The bits of a float *)

(** The powers of two of the encoding, as numerals for [lia]. *)
Ltac pow2_numerals :=
  unfold u64 in *;
  change (2 ^ 64) with 18446744073709551616 in *;
  change (2 ^ 63) with 9223372036854775808 in *;
  change (2 ^ 53) with 9007199254740992 in *;
  change (2 ^ 52) with 4503599627370496 in *;
  change (2 ^ 11) with 2048 in *.

Section Bits.
Implicit Types (w e f : Z) (m : positive) (s : bool).

(** *** The mantissas of binary64 *)

Lemma digits2_pos_bounds m :
  2 ^ (Z.pos (digits2_pos m) - 1) <= Z.pos m < 2 ^ Z.pos (digits2_pos m).
Proof.
  induction m as [m IH|m IH|]; simpl digits2_pos; [| |done].
  all: rewrite Pos2Z.inj_succ, Z.pow_succ_r by lia.
  all: replace (Z.succ (Z.pos (digits2_pos m)) - 1)
         with (Z.succ (Z.pos (digits2_pos m) - 1)) by lia.
  all: rewrite Z.pow_succ_r by lia; lia.
Qed.

Lemma digits2_pos_le m n : 0 <= n -> Z.pos m < 2 ^ n -> Z.pos (digits2_pos m) <= n.
Proof.
  intros Hn Hm. destruct (Z.le_gt_cases (Z.pos (digits2_pos m)) n) as [|Hgt]; [done|].
  pose proof (digits2_pos_bounds m) as [Hlo _].
  pose proof (Z.pow_le_mono_r 2 n (Z.pos (digits2_pos m) - 1)). lia.
Qed.

Lemma digits2_pos_ge m n : 0 <= n -> 2 ^ n <= Z.pos m -> n < Z.pos (digits2_pos m).
Proof.
  intros Hn Hm. destruct (Z.lt_ge_cases n (Z.pos (digits2_pos m))) as [|Hge]; [done|].
  pose proof (digits2_pos_bounds m) as [_ Hhi].
  pose proof (Z.pow_le_mono_r 2 (Z.pos (digits2_pos m)) n). lia.
Qed.

Lemma bounded_subnormal m : Z.pos m < 2 ^ 52 -> bounded 53 1024 m (-1074) = true.
Proof.
  intros Hm. pose proof (digits2_pos_le m 52).
  unfold bounded, canonical_mantissa, fexp, emin. apply andb_true_intro.
  split; [|done]. apply Z.eqb_eq. lia.
Qed.

Lemma bounded_normal m e :
  2 ^ 52 <= Z.pos m < 2 ^ 53 -> -1074 <= e <= 971 -> bounded 53 1024 m e = true.
Proof.
  intros [Hlo Hhi] He. pose proof (digits2_pos_le m 53). pose proof (digits2_pos_ge m 52).
  unfold bounded, canonical_mantissa, fexp, emin. apply andb_true_intro.
  split; [apply Z.eqb_eq|apply Z.leb_le]; lia.
Qed.

(** The finite floats of binary64 are the subnormal and the normal
    ones. *)
Lemma bounded_inv m e :
  bounded 53 1024 m e = true ->
  (Z.pos m < 2 ^ 52 /\ e = -1074) \/
  (2 ^ 52 <= Z.pos m < 2 ^ 53 /\ -1074 <= e <= 971).
Proof.
  unfold bounded, canonical_mantissa, fexp, emin.
  intros [Hc%Z.eqb_eq He%Z.leb_le]%andb_prop.
  pose proof (digits2_pos_bounds m) as [Hlo Hhi].
  destruct (Z.lt_ge_cases (Z.pos m) (2 ^ 52)) as [Hm|Hm].
  - left. pose proof (digits2_pos_le m 52). lia.
  - right. pose proof (digits2_pos_ge m 52).
    assert (Z.pos (digits2_pos m) = 53) as Hd by lia. rewrite Hd in Hhi. lia.
Qed.

(** *** The fields of a pattern *)

Lemma bits_fields w :
  u64 w ->
  w = sign_bit (2 ^ 63 <=? w) + (w / 2 ^ 52) mod 2 ^ 11 * 2 ^ 52 + w mod 2 ^ 52.
Proof.
  intros Hw. unfold sign_bit. destruct (Z.leb_spec (2 ^ 63) w); pow2_numerals;
    Z.div_mod_to_equations; lia.
Qed.

Lemma fields_bits s e f :
  0 <= e < 2 ^ 11 -> 0 <= f < 2 ^ 52 ->
  let w := sign_bit s + e * 2 ^ 52 + f in
  u64 w /\ (2 ^ 63 <=? w) = s /\ (w / 2 ^ 52) mod 2 ^ 11 = e /\ w mod 2 ^ 52 = f.
Proof.
  intros He Hf w. subst w. unfold sign_bit.
  destruct s;
    (split_and!; [|by (apply Z.leb_le || apply Z.leb_gt); pow2_numerals; lia|..]);
    pow2_numerals; Z.div_mod_to_equations; lia.
Qed.

(** [SF_from_bits] in terms of the fields. *)
Definition SF_of_fields s e f : spec_float :=
  if e =? 0 then
    if f =? 0 then S754_zero s else S754_finite s (Z.to_pos f) (-1074)
  else if e =? 2047 then
    if f =? 0 then S754_infinity s else S754_nan
  else S754_finite s (Z.to_pos (f + 2 ^ 52)) (e - 1075).

Lemma SF_from_bits_fields s e f :
  0 <= e < 2 ^ 11 -> 0 <= f < 2 ^ 52 ->
  SF_from_bits (sign_bit s + e * 2 ^ 52 + f) = SF_of_fields s e f.
Proof.
  intros He Hf. destruct (fields_bits s e f He Hf) as (_ & Hs & He' & Hf').
  unfold SF_from_bits. cbv zeta. by rewrite Hs, He', Hf'.
Qed.

(** A pattern and its fields; the cases of [SF_of_fields] are those of
    the exponent and of the fraction. *)
Lemma SF_from_bits_cases w :
  u64 w ->
  exists s e f,
    0 <= e < 2 ^ 11 /\ 0 <= f < 2 ^ 52 /\ w = sign_bit s + e * 2 ^ 52 + f /\
    SF_from_bits w = SF_of_fields s e f /\ is_nan_bits w = (e =? 2047) && negb (f =? 0).
Proof.
  intros Hw. exists (2 ^ 63 <=? w), ((w / 2 ^ 52) mod 2 ^ 11), (w mod 2 ^ 52).
  split_and!; try done; [by apply Z.mod_pos_bound..|by apply bits_fields].
Qed.

Lemma SF_of_fields_valid s e f :
  0 <= e < 2 ^ 11 -> 0 <= f < 2 ^ 52 -> valid_binary (SF_of_fields s e f) = true.
Proof.
  intros He Hf. unfold SF_of_fields.
  destruct (Z.eqb_spec e 0); [|destruct (Z.eqb_spec e 2047)];
    destruct (Z.eqb_spec f 0); try done; simpl valid_binary.
  - apply bounded_subnormal. rewrite Z2Pos.id; lia.
  - apply bounded_normal; [rewrite Z2Pos.id by lia|]; pow2_numerals; lia.
  - apply bounded_normal; [rewrite Z2Pos.id by lia|]; pow2_numerals; lia.
Qed.

Lemma SF_to_bits_of_fields s e f :
  0 <= e < 2 ^ 11 -> 0 <= f < 2 ^ 52 -> (e =? 2047) && negb (f =? 0) = false ->
  SF_to_bits (SF_of_fields s e f) = sign_bit s + e * 2 ^ 52 + f.
Proof.
  intros He Hf. unfold SF_of_fields, SF_to_bits.
  destruct (Z.eqb_spec e 0); [|destruct (Z.eqb_spec e 2047)];
    destruct (Z.eqb_spec f 0); try done; intros _; subst;
    rewrite ?Z2Pos.id by lia; try case_match;
    rewrite ?Z.ltb_lt, ?Z.ltb_ge in *; pow2_numerals; lia.
Qed.

(** *** [from_bits] and [to_bits] *)

Lemma SF_from_bits_valid w : u64 w -> valid_binary (SF_from_bits w) = true.
Proof.
  intros (s & e & f & He & Hf & _ & -> & _)%SF_from_bits_cases.
  by apply SF_of_fields_valid.
Qed.

Lemma Prim2SF_from_bits w : u64 w -> Prim2SF (f64_from_bits w) = SF_from_bits w.
Proof. intros Hw. by apply Prim2SF_SF2Prim, SF_from_bits_valid. Qed.

(** The patterns that denote the NaN. *)
Lemma f64_is_nan_from_bits w : u64 w -> f64_is_nan (f64_from_bits w) = is_nan_bits w.
Proof.
  intros Hw. rewrite f64_is_nan_spec, Prim2SF_from_bits by done.
  destruct (SF_from_bits_cases w Hw) as (s & e & f & He & Hf & _ & -> & ->).
  unfold SF_of_fields.
  destruct (Z.eqb_spec e 0) as [->|_]; [|destruct (Z.eqb_spec e 2047)];
    by destruct (Z.eqb_spec f 0).
Qed.

(** The bits of the float of a pattern that is not a NaN are the
    pattern. *)
Lemma f64_to_bits_from_bits w :
  u64 w -> is_nan_bits w = false -> f64_to_bits (f64_from_bits w) = w.
Proof.
  intros Hw. unfold f64_to_bits. rewrite Prim2SF_from_bits by done.
  destruct (SF_from_bits_cases w Hw) as (s & e & f & He & Hf & Hw' & -> & ->).
  intros Hn. by rewrite SF_to_bits_of_fields.
Qed.

Lemma SF_from_bits_to_bits x : valid_binary x = true -> SF_from_bits (SF_to_bits x) = x.
Proof.
  destruct x as [[]|[]| |s m e]; [done..|]. simpl valid_binary. unfold SF_to_bits.
  intros [[Hm ->]|[Hm He]]%bounded_inv.
  - apply Z.ltb_lt in Hm as Hlt. rewrite Hlt.
    rewrite <- (Z.add_0_l (Z.pos m)) at 1. change 0 with (0 * 2 ^ 52) at 1.
    rewrite Z.add_assoc, SF_from_bits_fields by lia. unfold SF_of_fields. simpl (0 =? 0).
    destruct (Z.eqb_spec (Z.pos m) 0); [lia|]. by rewrite Pos2Z.id.
  - destruct (Z.ltb_spec (Z.pos m) (2 ^ 52)) as [|_]; [lia|].
    rewrite Z.add_assoc, SF_from_bits_fields by (pow2_numerals; lia).
    unfold SF_of_fields.
    destruct (Z.eqb_spec (e + 1075) 0); [lia|].
    destruct (Z.eqb_spec (e + 1075) 2047); [lia|].
    f_equal; [|lia]. replace (Z.pos m - 2 ^ 52 + 2 ^ 52) with (Z.pos m) by lia.
    apply Pos2Z.id.
Qed.

(** Every float is the float of its bits. *)
Lemma f64_from_bits_to_bits x : f64_from_bits (f64_to_bits x) = x.
Proof.
  unfold f64_from_bits, f64_to_bits.
  rewrite SF_from_bits_to_bits by apply Prim2SF_valid. apply SF2Prim_Prim2SF.
Qed.

Lemma f64_to_bits_range x : u64 (f64_to_bits x).
Proof.
  unfold f64_to_bits. pose proof (Prim2SF_valid x) as Hv.
  destruct (Prim2SF x) as [[]|[]| |s m e]; [by vm_compute..|].
  unfold SF_to_bits, sign_bit. apply bounded_inv in Hv as [[Hm ->]|[Hm He]].
  - apply Z.ltb_lt in Hm as Hlt. rewrite Hlt. destruct s; pow2_numerals; lia.
  - destruct (Z.ltb_spec (Z.pos m) (2 ^ 52)) as [|_]; [lia|].
    destruct s; pow2_numerals; lia.
Qed.

End Bits.

#[export] Hint Resolve f64_eq_refl f64_eq_zero_zero f64_eq_not_nan_l
  f64_eq_not_nan_r f64_is_infinite_not_nan f64_le_refl
  f64_partial_cmp_Greater_le f64_partial_cmp_not_Greater_le : dax.
