(* ===== verification/Chars.v ===== *)
(** * Chars: characters and strings

    A Rust [char] is a Unicode scalar value, modelled as its code point in
    [N]; a [String] or [&str] is the sequence of its [char]s (what
    [s.chars()] yields and [String::push] builds).  Literals of the sources
    are written [ch "("] and [str "SUM"].

    The character predicates of the standard library that the sources call
    are defined here.  [char::is_alphabetic] is the Unicode [Alphabetic]
    property: on ASCII it is the test for a letter, and beyond ASCII it is a
    table of the Unicode standard, which the class [Unicode] stands for. *)

From Stdlib Require Import Ascii String.
From S2P Require Import Prelude.

#[local] Open Scope N_scope.

Abbreviation char := N (only parsing).
Abbreviation rstring := (list N) (only parsing).

(** ** Literals *)

Definition ch (s : string) : char :=
  match s with
  | String a _ => N_of_ascii a
  | EmptyString => 0
  end.

Fixpoint str (s : string) : rstring :=
  match s with
  | EmptyString => []
  | String a s' => N_of_ascii a :: str s'
  end.

(** [lo..=hi] as a pattern on a [char]. *)
Definition in_range (lo hi c : char) : bool := (lo <=? c) && (c <=? hi).

(** ** Predicates of [core::char] *)

(** [c.is_digit(10)]: the ASCII digits and nothing else. *)
Definition is_digit10 (c : char) : bool := in_range (ch "0") (ch "9") c.

(** The pattern ['A'..='Z' | 'a'..='z']. *)
Definition is_ascii_letter (c : char) : bool :=
  in_range (ch "A") (ch "Z") c || in_range (ch "a") (ch "z") c.

(** [c.is_alphabetic()]. *)
Class Unicode : Type := {
  is_alphabetic : char -> bool;
  is_alphabetic_ascii c : c < 128 -> is_alphabetic c = is_ascii_letter c
}.

(** The instance that computes: it is [char::is_alphabetic] on every
    string that has no alphabetic character outside ASCII. *)
Definition ascii_unicode : Unicode :=
  {| is_alphabetic := is_ascii_letter;
     is_alphabetic_ascii := fun _ _ => eq_refl |}.

(** [s.starts_with(pat)] and [s.contains(pat)] for a pattern that is a
    string. *)
Fixpoint starts_with (s pat : rstring) : bool :=
  match pat, s with
  | [], _ => true
  | p :: pat', c :: s' => (c =? p) && starts_with s' pat'
  | _ :: _, [] => false
  end.

Fixpoint contains (s pat : rstring) : bool :=
  starts_with s pat ||
  match s with
  | [] => false
  | _ :: s' => contains s' pat
  end.

(** [a == b] on strings. *)
Fixpoint str_eqb (a b : rstring) : bool :=
  match a, b with
  | [], [] => true
  | x :: a', y :: b' => (x =? y) && str_eqb a' b'
  | _, _ => false
  end.

(** [s.strip_prefix(pat)] and [s.strip_suffix(pat)]. *)
Fixpoint strip_prefix (pat s : rstring) : option rstring :=
  match pat, s with
  | [], _ => Some s
  | p :: pat', c :: s' => if c =? p then strip_prefix pat' s' else None
  | _ :: _, [] => None
  end.

Definition strip_suffix (pat s : rstring) : option rstring :=
  reverse <$> strip_prefix (reverse pat) (reverse s).

(** [eval_ch]: replace the character literals by their code points. *)
Ltac eval_ch :=
  repeat match goal with
  | |- context [ch ?s] =>
      let v := eval vm_compute in (ch s) in change (ch s) with v
  | H : context [ch ?s] |- _ =>
      let v := eval vm_compute in (ch s) in change (ch s) with v in H
  end.

(** [eval_str]: replace the string literals by their lists of code
    points. *)
Ltac eval_str :=
  repeat match goal with
  | |- context [str ?s] =>
      let v := eval vm_compute in (str s) in change (str s) with v
  | H : context [str ?s] |- _ =>
      let v := eval vm_compute in (str s) in change (str s) with v in H
  end.

(** ** Facts *)

Lemma str_app (s t : string) : str (s ++ t) = str s ++ str t.
Proof. induction s as [|a s IH]; simpl; [done|]. by rewrite IH. Qed.

Lemma str_length (s : string) : length (str s) = String.length s.
Proof. induction s as [|a s IH]; simpl; [done|]. by rewrite IH. Qed.

Lemma starts_with_spec s pat :
  starts_with s pat = true <-> exists post, s = pat ++ post.
Proof.
  revert s. induction pat as [|p pat IH]; intros [|c s]; simpl;
    try (split; [by eauto|done]).
  { split; [done|]. by intros [post [=]]. }
  rewrite andb_true_iff, N.eqb_eq, IH. split.
  - intros [-> [post ->]]. by exists post.
  - intros [post [= -> ->]]. eauto.
Qed.

Lemma contains_spec s pat :
  contains s pat = true <-> exists pre post, s = pre ++ pat ++ post.
Proof.
  induction s as [|c s IH].
  - change (contains [] pat) with (starts_with [] pat || false).
    rewrite orb_false_r, starts_with_spec. split.
    + intros [post E]. by exists [], post.
    + intros (pre & post & E). symmetry in E.
      apply app_eq_nil in E as [_ E]. by exists post.
  - change (contains (c :: s) pat) with (starts_with (c :: s) pat || contains s pat).
    rewrite orb_true_iff, IH, starts_with_spec. split.
    + intros [[post E]|(pre & post & ->)]; [by exists [], post|by exists (c :: pre), post].
    + intros ([|c' pre] & post & E); [left; by exists post|right].
      injection E as -> ->. eauto.
Qed.

Lemma str_eqb_spec a b : str_eqb a b = true <-> a = b.
Proof.
  revert b. induction a as [|x a IH]; intros [|y b]; simpl; try done.
  rewrite andb_true_iff, N.eqb_eq, IH. split; [by intros [-> ->]|by intros [= -> ->]].
Qed.

Lemma strip_prefix_spec pat s r : strip_prefix pat s = Some r <-> s = pat ++ r.
Proof.
  revert s. induction pat as [|p pat IH]; intros [|c s]; simpl; try done.
  - split; [by intros [= <-]|by intros <-].
  - split; [by intros [= <-]|by intros <-].
  - destruct (N.eqb_spec c p) as [->|Hne].
    + rewrite IH. split; [by intros ->|by intros [= ->]].
    + split; [done|]. by intros [= ? _].
Qed.

Lemma strip_suffix_spec pat s r : strip_suffix pat s = Some r <-> s = r ++ pat.
Proof.
  unfold strip_suffix. rewrite fmap_Some. split.
  - intros (r' & E%strip_prefix_spec & ->).
    by rewrite <- (reverse_involutive s), E, reverse_app, reverse_involutive.
  - intros ->. exists (reverse r). rewrite reverse_involutive. split; [|done].
    apply strip_prefix_spec. by rewrite reverse_app.
Qed.

Lemma in_range_spec lo hi c : in_range lo hi c = true <-> lo <= c <= hi.
Proof. unfold in_range. rewrite andb_true_iff, !N.leb_le. done. Qed.

Lemma is_ascii_letter_lt c : is_ascii_letter c = true -> c < 128.
Proof.
  unfold is_ascii_letter. rewrite orb_true_iff, !in_range_spec.
  eval_ch. lia.
Qed.

Lemma is_digit10_lt c : is_digit10 c = true -> c < 128.
Proof. unfold is_digit10. rewrite in_range_spec. eval_ch. lia. Qed.

Lemma is_digit10_not_letter c : is_digit10 c = true -> is_ascii_letter c = false.
Proof.
  unfold is_digit10, is_ascii_letter. rewrite in_range_spec. intros H.
  apply orb_false_iff. split; apply not_true_is_false;
    rewrite in_range_spec; eval_ch; lia.
Qed.

Section Unicode.
Context `{Unicode}.

(** The letter that starts a name is alphabetic, so the loop that collects
    the name consumes it. *)
Lemma is_alphabetic_letter c : is_ascii_letter c = true -> is_alphabetic c = true.
Proof.
  intros Hc. rewrite is_alphabetic_ascii; [done|]. by apply is_ascii_letter_lt.
Qed.

End Unicode.

(** Literals and ranges stay folded under [simpl]. *)
Arguments ch : simpl never.
Arguments str : simpl never.
Arguments in_range : simpl never.

#[export] Hint Resolve is_alphabetic_letter is_ascii_letter_lt : dax.
#[export] Hint Rewrite str_app str_length : dax.
