(* ===== verification/Escape.v ===== *)
(** * Escape: strings as Rust source text

    Two directions between a string and the text of a string literal.

    [str_debug] is [<str as fmt::Debug>::fmt], which [main] calls when it
    prints an error with [{:?}]: the string between double quotes, every
    character escaped by [char::escape_debug].  Which characters outside
    ASCII are printable is the class [UnicodeDebug].

    [read_str_literal] is the compiler reading a string literal: the
    lexer finds the closing quote ([double_quoted_string]) and the escapes
    are resolved ([unescape]).  The expansion of [parse_dax!] is source
    text that the compiler reads this way.

    The theorems show that reading the text that [str_debug] writes gives
    the string back, and which strings read back when they are written
    between quotes as they are. *)

From Stdlib Require Import String.
From S2P Require Import Prelude Chars.

#[local] Open Scope N_scope.

(** ** Characters *)

(** The double quote and the backslash. *)
Definition QUOTE : char := 34.
Definition BACKSLASH : char := 92.

(** [char::from_u32(v).is_some()]: a Unicode scalar value. *)
Definition is_scalar (v : N) : bool :=
  (v <? 0xD800) || ((0xDFFF <? v) && (v <=? 0x10FFFF)).

(** ** Writing *)

(** The digit of a value below sixteen, in lower case. *)
Definition hex_digit (d : N) : char :=
  if d <? 10 then 48 + d else 87 + d.

(** The hexadecimal digits of [n], the most significant first, in front of
    [acc].  [fuel] bounds the digits after the first: seven for a [u32]. *)
Fixpoint hex_values (fuel : nat) (n : N) (acc : list N) : list N :=
  match fuel with
  | O => n `mod` 16 :: acc
  | S fuel => if n <? 16 then n :: acc else hex_values fuel (n / 16) (n `mod` 16 :: acc)
  end.

(** [format!("{:x}", n)] for a [u32]. *)
Definition hex (n : N) : rstring := hex_digit <$> hex_values 7 n [].

(** [c.escape_unicode()]. *)
Definition escape_unicode (c : char) : rstring :=
  [BACKSLASH; ch "u"; ch "{"] ++ hex c ++ [ch "}"].

(** The tables of [char::escape_debug] outside ASCII. *)
Class UnicodeDebug : Type := {
  is_grapheme_extended : char -> bool;
  is_printable : char -> bool;
  is_grapheme_extended_ascii c : c < 128 -> is_grapheme_extended c = false;
  is_printable_ascii c : c < 128 -> is_printable c = in_range 32 126 c;
}.

Definition ascii_debug : UnicodeDebug.
Proof.
  refine {| is_grapheme_extended := fun _ => false;
            is_printable := in_range 32 126 |}; done.
Defined.

Section Debug.
Context `{UnicodeDebug}.

(** [c.escape_debug_ext(args)] as [<str as Debug>::fmt] calls it: the
    double quote is escaped, the single quote is not. *)
Definition escape_debug (c : char) : rstring :=
  if c =? 0 then [BACKSLASH; ch "0"]
  else if c =? 9 then [BACKSLASH; ch "t"]
  else if c =? 13 then [BACKSLASH; ch "r"]
  else if c =? 10 then [BACKSLASH; ch "n"]
  else if c =? BACKSLASH then [BACKSLASH; BACKSLASH]
  else if c =? QUOTE then [BACKSLASH; QUOTE]
  else if is_grapheme_extended c then escape_unicode c
  else if is_printable c then [c]
  else escape_unicode c.

(** [format!("{:?}", s)]. *)
Definition str_debug (s : rstring) : rstring :=
  QUOTE :: concat (escape_debug <$> s) ++ [QUOTE].

End Debug.

(** ** Reading *)

(** The errors of [unescape]. *)
Inductive EscapeError : Set :=
| LoneSlash
| InvalidEscape
| BareCarriageReturn
| EscapeOnlyChar
| TooShortHexEscape
| InvalidCharInHexEscape
| OutOfRangeHexEscape
| NoBraceInUnicodeEscape
| InvalidCharInUnicodeEscape
| EmptyUnicodeEscape
| UnclosedUnicodeEscape
| LeadingUnderscoreUnicodeEscape
| OverlongUnicodeEscape
| LoneSurrogateUnicodeEscape
| OutOfRangeUnicodeEscape.

(** [c.to_digit(16)]. *)
Definition to_digit16 (c : char) : option N :=
  if in_range (ch "0") (ch "9") c then Some (c - 48)
  else if in_range (ch "a") (ch "f") c then Some (c - 87)
  else if in_range (ch "A") (ch "F") c then Some (c - 55)
  else None.

(** The loop of [scan_unicode], after the first digit: digits and
    underscores up to the closing brace. *)
Fixpoint scan_unicode_loop (chars : rstring) (n_digits : nat) (value : N) :
    Result (char * rstring) EscapeError :=
  match chars with
  | [] => Err UnclosedUnicodeEscape
  | c :: chars =>
      if c =? ch "_" then scan_unicode_loop chars n_digits value
      else if c =? ch "}" then
        if (6 <? n_digits)%nat then Err OverlongUnicodeEscape
        else if is_scalar value then Ok (value, chars)
        else if 0x10FFFF <? value then Err OutOfRangeUnicodeEscape
        else Err LoneSurrogateUnicodeEscape
      else
        match to_digit16 c with
        | None => Err InvalidCharInUnicodeEscape
        | Some digit =>
            let n_digits := S n_digits in
            if (6 <? n_digits)%nat then scan_unicode_loop chars n_digits value
            else scan_unicode_loop chars n_digits (value * 16 + digit)
        end
  end.

(** [scan_unicode]: what follows [\u]. *)
Definition scan_unicode (chars : rstring) : Result (char * rstring) EscapeError :=
  match chars with
  | c :: chars =>
      if c =? ch "{" then
        match chars with
        | [] => Err UnclosedUnicodeEscape
        | c :: chars =>
            if c =? ch "_" then Err LeadingUnderscoreUnicodeEscape
            else if c =? ch "}" then Err EmptyUnicodeEscape
            else
              match to_digit16 c with
              | None => Err InvalidCharInUnicodeEscape
              | Some value => scan_unicode_loop chars 1 value
              end
        end
      else Err NoBraceInUnicodeEscape
  | [] => Err NoBraceInUnicodeEscape
  end.

(** [scan_escape]: what follows a backslash, in a string literal. *)
Definition scan_escape (chars : rstring) : Result (char * rstring) EscapeError :=
  match chars with
  | [] => Err LoneSlash
  | c :: chars =>
      if c =? QUOTE then Ok (QUOTE, chars)
      else if c =? ch "n" then Ok (10, chars)
      else if c =? ch "r" then Ok (13, chars)
      else if c =? ch "t" then Ok (9, chars)
      else if c =? BACKSLASH then Ok (BACKSLASH, chars)
      else if c =? ch "'" then Ok (ch "'", chars)
      else if c =? ch "0" then Ok (0, chars)
      else if c =? ch "x" then
        match chars with
        | hi :: lo :: chars =>
            match to_digit16 hi, to_digit16 lo with
            | Some hi, Some lo =>
                let value := hi * 16 + lo in
                if value <? 128 then Ok (value, chars) else Err OutOfRangeHexEscape
            | _, _ => Err InvalidCharInHexEscape
            end
        | [hi] =>
            match to_digit16 hi with
            | Some _ => Err TooShortHexEscape
            | None => Err InvalidCharInHexEscape
            end
        | [] => Err TooShortHexEscape
        end
      else if c =? ch "u" then scan_unicode chars
      else Err InvalidEscape
  end.

(** The blanks that a backslash at the end of a line skips. *)
Definition is_ascii_whitespace (c : char) : bool :=
  (c =? 32) || (c =? 9) || (c =? 10) || (c =? 13).

Definition skip_ascii_whitespace (chars : rstring) : rstring :=
  (span is_ascii_whitespace chars).2.

(** The loop of [unescape], with the first error as its result.  [fuel]
    bounds the iterations; each one reads at least one character. *)
Fixpoint unescape_loop (fuel : nat) (chars : rstring) (acc : rstring) :
    Result rstring EscapeError :=
  match fuel, chars with
  | _, [] => Ok acc
  | O, _ => Ok acc
  | S fuel, c :: chars =>
      if c =? BACKSLASH then
        if bool_decide (head chars = Some 10) then
          unescape_loop fuel (skip_ascii_whitespace chars) acc
        else
          let! (r, chars) := scan_escape chars in
          unescape_loop fuel chars (acc ++ [r])
      else if c =? QUOTE then Err EscapeOnlyChar
      else if c =? 13 then Err BareCarriageReturn
      else unescape_loop fuel chars (acc ++ [c])
  end.

(** [unescape]: the string that the body of a literal denotes. *)
Definition unescape (src : rstring) : Result rstring EscapeError :=
  unescape_loop (length src) src [].

(** The lexer after an opening quote: the body up to the closing quote,
    a backslash taking a backslash or a quote after it along, and what
    follows the closing quote; [None] when the quote is not closed. *)
Fixpoint double_quoted_string (chars : rstring) : option (rstring * rstring) :=
  match chars with
  | [] => None
  | c :: chars' =>
      if c =? QUOTE then Some ([], chars')
      else
        match chars' with
        | c' :: chars'' =>
            if (c =? BACKSLASH) && ((c' =? BACKSLASH) || (c' =? QUOTE)) then
              let? (body, rest) := double_quoted_string chars'' in
              Some (c :: c' :: body, rest)
            else
              let? (body, rest) := double_quoted_string chars' in
              Some (c :: body, rest)
        | [] => None
        end
  end.

(** [unescape_char]: the character that the body of a character literal
    denotes, [None] for an error. *)
Definition unescape_char (src : rstring) : option char :=
  match src with
  | [] => None
  | c :: chars =>
      let? (r, rest) :=
        if c =? BACKSLASH then
          match scan_escape chars with
          | Ok res => Some res
          | Err _ => None
          end
        else if (c =? 10) || (c =? 9) || (c =? ch "'") || (c =? 13) then None
        else Some (c, chars) in
      match rest with
      | [] => Some r
      | _ => None
      end
  end.

(** A text read as one character literal. *)
Definition read_char_literal (text : rstring) : option char :=
  let? body := strip_prefix [ch "'"] text in
  let? body := strip_suffix [ch "'"] body in
  unescape_char body.

(** A text read as one string literal: the string it denotes, or [None]
    when the text is not a string literal. *)
Definition read_str_literal (text : rstring) : option rstring :=
  match text with
  | c :: chars =>
      if c =? QUOTE then
        match double_quoted_string chars with
        | Some (body, []) =>
            match unescape body with
            | Ok s => Some s
            | Err _ => None
            end
        | _ => None
        end
      else None
  | [] => None
  end.

(** ** Facts: hexadecimal digits *)

(** The number that digits denote, after [v]. *)
Definition hex_fold (ds : list N) (v : N) : N :=
  fold_left (fun v d => v * 16 + d) ds v.

Lemma hex_values_fold fuel n acc :
  n < 16 ^ N.of_nat (S fuel) -> hex_fold (hex_values fuel n acc) 0 = hex_fold acc n.
Proof.
  revert n acc. induction fuel as [|fuel IH]; intros n acc Hn.
  - simpl. by rewrite N.mod_small.
  - cbn [hex_values]. destruct (N.ltb_spec n 16); [done|].
    rewrite IH.
    + simpl. f_equal. rewrite N.mul_comm. symmetry. apply N.div_mod'.
    + apply N.Div0.div_lt_upper_bound. by rewrite <- N.pow_succ_r', <- Nat2N.inj_succ.
Qed.

Lemma hex_values_lt fuel n acc :
  Forall (fun d => d < 16) acc -> Forall (fun d => d < 16) (hex_values fuel n acc).
Proof.
  revert n acc. induction fuel as [|fuel IH]; intros n acc Hacc; simpl.
  - constructor; [by apply N.mod_lt|done].
  - destruct (N.ltb_spec n 16); [by constructor|].
    apply IH. constructor; [by apply N.mod_lt|done].
Qed.

Lemma hex_values_length fuel n acc k :
  n < 16 ^ N.of_nat (S k) ->
  (length (hex_values fuel n acc) <= S k + length acc)%nat.
Proof.
  revert n acc k. induction fuel as [|fuel IH]; intros n acc k Hn; simpl; [lia|].
  destruct (N.ltb_spec n 16); [simpl; lia|].
  destruct k as [|k]; [simpl in Hn; lia|].
  etrans; [apply (IH _ _ k)|simpl; lia].
  apply N.Div0.div_lt_upper_bound. by rewrite <- N.pow_succ_r', <- Nat2N.inj_succ.
Qed.

Lemma hex_values_cons fuel n acc : exists d ds, hex_values fuel n acc = d :: ds.
Proof.
  revert n acc. induction fuel as [|fuel IH]; intros n acc; simpl; [by eauto|].
  destruct (n <? 16); by eauto.
Qed.

(** A digit is a character from [0] to [9] or from [a] to [f]. *)
Lemma hex_digit_range d :
  d < 16 -> 48 <= hex_digit d <= 57 \/ 97 <= hex_digit d <= 102.
Proof. unfold hex_digit. destruct (N.ltb_spec d 10); lia. Qed.

Lemma to_digit16_hex_digit d : d < 16 -> to_digit16 (hex_digit d) = Some d.
Proof.
  intros Hd. unfold to_digit16, hex_digit, in_range. eval_ch.
  destruct (N.ltb_spec d 10).
  - rewrite (proj2 (N.leb_le 48 (48 + d))), (proj2 (N.leb_le (48 + d) 57)) by lia.
    simpl. f_equal. lia.
  - rewrite (proj2 (N.leb_gt (87 + d) 57)), andb_false_r by lia.
    rewrite (proj2 (N.leb_le 97 (87 + d))), (proj2 (N.leb_le (87 + d) 102)) by lia.
    simpl. f_equal. lia.
Qed.

(** ** Facts: reading an escape *)

Lemma scan_unicode_loop_hex ds rest n_digits v :
  Forall (fun d => d < 16) ds -> (n_digits + length ds <= 6)%nat ->
  scan_unicode_loop ((hex_digit <$> ds) ++ ch "}" :: rest) n_digits v =
  scan_unicode_loop (ch "}" :: rest) (n_digits + length ds) (hex_fold ds v).
Proof.
  intros Hds. revert n_digits v.
  induction Hds as [|d ds Hd _ IH]; intros n_digits v Hn; [by rewrite Nat.add_0_r|].
  cbn [fmap list_fmap app scan_unicode_loop length] in *.
  pose proof (hex_digit_range d Hd).
  rewrite !(proj2 (N.eqb_neq _ _)) by (eval_ch; lia).
  rewrite to_digit16_hex_digit by done.
  rewrite (proj2 (Nat.ltb_ge 6 (S n_digits))) by lia.
  rewrite IH by lia. by rewrite Nat.add_succ_r.
Qed.

Lemma scalar_lt c : is_scalar c = true -> c < 16 ^ N.of_nat 6.
Proof.
  unfold is_scalar. rewrite orb_true_iff, andb_true_iff, !N.ltb_lt, N.leb_le.
  change (16 ^ N.of_nat 6) with 16777216. lia.
Qed.

Lemma scan_unicode_hex c rest :
  is_scalar c = true -> scan_unicode (ch "{" :: hex c ++ ch "}" :: rest) = Ok (c, rest).
Proof.
  intros Hc. unfold scan_unicode, hex. rewrite N.eqb_refl.
  pose proof (hex_values_fold 7 c [] ltac:(apply scalar_lt in Hc; simpl in *; lia)) as Hv.
  pose proof (hex_values_lt 7 c [] ltac:(constructor)) as Hlt.
  pose proof (hex_values_length 7 c [] 5 (scalar_lt c Hc)) as Hlen.
  destruct (hex_values_cons 7 c []) as (d & ds & E). rewrite E in *.
  apply Forall_cons in Hlt as [Hd Hds]. pose proof (hex_digit_range d Hd).
  cbn [fmap list_fmap app].
  rewrite !(proj2 (N.eqb_neq _ _)) by (eval_ch; lia).
  rewrite to_digit16_hex_digit, scan_unicode_loop_hex by (done || simpl in *; lia).
  cbn [scan_unicode_loop]. rewrite N.eqb_refl.
  rewrite (proj2 (N.eqb_neq (ch "}") (ch "_"))) by done.
  rewrite (proj2 (Nat.ltb_ge 6 _)) by (simpl in *; lia).
  change (hex_fold ds d = c) in Hv. by rewrite Hv, Hc.
Qed.

Lemma scan_escape_unicode c rest :
  is_scalar c = true ->
  scan_escape (ch "u" :: ch "{" :: hex c ++ ch "}" :: rest) = Ok (c, rest).
Proof. intros Hc. rewrite <- (scan_unicode_hex c rest Hc). done. Qed.

(** ** Facts: reading what was written *)

Lemma unescape_loop_escape fuel chars acc r rest :
  head chars <> Some 10 -> scan_escape chars = Ok (r, rest) ->
  unescape_loop (S fuel) (BACKSLASH :: chars) acc = unescape_loop fuel rest (acc ++ [r]).
Proof.
  intros Hh He. cbn [unescape_loop]. rewrite N.eqb_refl.
  by rewrite bool_decide_eq_false_2, He.
Qed.

Lemma unescape_loop_plain fuel c chars acc :
  c <> BACKSLASH -> c <> QUOTE -> c <> 13 ->
  unescape_loop (S fuel) (c :: chars) acc = unescape_loop fuel chars (acc ++ [c]).
Proof.
  intros. cbn [unescape_loop]. by rewrite !(proj2 (N.eqb_neq _ _)).
Qed.

Lemma double_quoted_string_cons c c' chars :
  double_quoted_string (c :: c' :: chars) =
  if c =? QUOTE then Some ([], c' :: chars)
  else if (c =? BACKSLASH) && ((c' =? BACKSLASH) || (c' =? QUOTE)) then
    let? (body, rest) := double_quoted_string chars in Some (c :: c' :: body, rest)
  else
    let? (body, rest) := double_quoted_string (c' :: chars) in Some (c :: body, rest).
Proof. done. Qed.

(** The lexer takes characters that are neither quotes nor backslashes
    into the body. *)
Lemma double_quoted_string_plain c chars :
  c <> BACKSLASH -> c <> QUOTE -> chars <> [] ->
  double_quoted_string (c :: chars) =
  let? (body, rest) := double_quoted_string chars in Some (c :: body, rest).
Proof.
  intros Hb Hq Hne. destruct chars as [|c' chars]; [done|].
  by rewrite double_quoted_string_cons, !(proj2 (N.eqb_neq c _)).
Qed.

(** After a backslash it takes the next character, whatever it is. *)
Lemma double_quoted_string_escape c chars :
  chars <> [] ->
  double_quoted_string (BACKSLASH :: c :: chars) =
  let? (body, rest) := double_quoted_string chars in Some (BACKSLASH :: c :: body, rest).
Proof.
  intros Hne. rewrite double_quoted_string_cons.
  change (BACKSLASH =? QUOTE) with false. rewrite N.eqb_refl. cbv iota. simpl andb.
  destruct ((c =? BACKSLASH) || (c =? QUOTE)) eqn:E; [done|].
  apply orb_false_iff in E as [Hb%N.eqb_neq Hq%N.eqb_neq].
  rewrite double_quoted_string_plain by done.
  by destruct (double_quoted_string chars) as [[]|].
Qed.

Lemma double_quoted_string_plain_run l chars :
  Forall (fun c => c <> BACKSLASH /\ c <> QUOTE) l -> chars <> [] ->
  double_quoted_string (l ++ chars) =
  let? (body, rest) := double_quoted_string chars in Some (l ++ body, rest).
Proof.
  intros Hl Hne. induction Hl as [|c l [Hb Hq] _ IH]; [by destruct (double_quoted_string _) as [[]|]|].
  rewrite <- app_comm_cons, double_quoted_string_plain, IH by (done || by destruct l).
  by destruct (double_quoted_string chars) as [[]|].
Qed.

Section RoundTrip.
Context `{UnicodeDebug}.

(** The three shapes of an escaped character: a backslash and a letter
    that reads back as the character, a Unicode escape, or the character
    itself when it needs no escape. *)
Lemma escape_debug_shape c :
  (exists e, escape_debug c = [BACKSLASH; e] /\ e <> 10 /\
             forall rest, scan_escape (e :: rest) = Ok (c, rest)) \/
  escape_debug c = escape_unicode c \/
  (escape_debug c = [c] /\ c <> BACKSLASH /\ c <> QUOTE /\ c <> 13).
Proof.
  unfold escape_debug.
  destruct (N.eqb_spec c 0) as [->|?]; [left; by exists (ch "0")|].
  destruct (N.eqb_spec c 9) as [->|?]; [left; by exists (ch "t")|].
  destruct (N.eqb_spec c 13) as [->|?]; [left; by exists (ch "r")|].
  destruct (N.eqb_spec c 10) as [->|?]; [left; by exists (ch "n")|].
  destruct (N.eqb_spec c BACKSLASH) as [->|?]; [left; by exists BACKSLASH|].
  destruct (N.eqb_spec c QUOTE) as [->|?]; [left; by exists QUOTE|].
  destruct (is_grapheme_extended c); [by auto|].
  destruct (is_printable c); [|by auto]. right; right. by repeat split.
Qed.

Lemma hex_plain c : Forall (fun x => x <> BACKSLASH /\ x <> QUOTE) (hex c).
Proof.
  unfold hex. apply Forall_fmap.
  eapply Forall_impl; [apply (hex_values_lt 7 c []); constructor|].
  intros d Hd%hex_digit_range. unfold BACKSLASH, QUOTE. simpl. lia.
Qed.

Lemma unescape_loop_escape_debug fuel c rest acc :
  is_scalar c = true ->
  unescape_loop (S fuel) (escape_debug c ++ rest) acc =
  unescape_loop fuel rest (acc ++ [c]).
Proof.
  intros Hc.
  destruct (escape_debug_shape c) as [(e & -> & He & Hs)|[->|(-> & ? & ? & ?)]].
  - apply unescape_loop_escape; [by intros [= ?]|apply Hs].
  - unfold escape_unicode. rewrite <- !app_assoc.
    apply unescape_loop_escape; [done|]. by apply scan_escape_unicode.
  - by apply unescape_loop_plain.
Qed.

Lemma double_quoted_string_escape_debug c chars :
  chars <> [] ->
  double_quoted_string (escape_debug c ++ chars) =
  let? (body, rest) := double_quoted_string chars in Some (escape_debug c ++ body, rest).
Proof.
  intros Hne.
  destruct (escape_debug_shape c) as [(e & -> & _)|[->|(-> & ? & ? & _)]].
  - by apply double_quoted_string_escape.
  - change (escape_unicode c) with (BACKSLASH :: ch "u" :: (ch "{" :: hex c ++ [ch "}"])).
    rewrite <- !app_comm_cons, double_quoted_string_escape by done.
    rewrite app_comm_cons, double_quoted_string_plain_run
      by (done || (constructor; [done|]; apply Forall_app; split;
                     [apply hex_plain|by repeat constructor])).
    by destruct (double_quoted_string chars) as [[]|].
  - by apply double_quoted_string_plain.
Qed.

Lemma escape_debug_length c : (1 <= length (escape_debug c))%nat.
Proof.
  destruct (escape_debug_shape c) as [(e & -> & _)|[->|(-> & _)]]; simpl; lia.
Qed.

(** The body that [str_debug] writes, read back. *)
Lemma unescape_loop_escaped s fuel acc :
  Forall (fun c => is_scalar c = true) s -> (length s <= fuel)%nat ->
  unescape_loop fuel (concat (escape_debug <$> s)) acc = Ok (acc ++ s).
Proof.
  intros Hs. revert fuel acc.
  induction Hs as [|c s Hc _ IH]; intros fuel acc Hf.
  { rewrite app_nil_r. by destruct fuel. }
  destruct fuel as [|fuel]; [simpl in Hf; lia|]. cbn [fmap list_fmap concat].
  rewrite unescape_loop_escape_debug, IH by (done || simpl in Hf; lia).
  by rewrite <- app_assoc.
Qed.

Lemma length_escaped s : (length s <= length (concat (escape_debug <$> s)))%nat.
Proof.
  induction s as [|c s IH]; [done|]. cbn [fmap list_fmap concat]. rewrite length_app.
  pose proof (escape_debug_length c). simpl. lia.
Qed.

Lemma double_quoted_string_escaped s rest :
  double_quoted_string (concat (escape_debug <$> s) ++ QUOTE :: rest) =
  Some (concat (escape_debug <$> s), rest).
Proof.
  induction s as [|c s IH]; [done|]. cbn [fmap list_fmap concat].
  rewrite <- app_assoc, double_quoted_string_escape_debug, IH; [done|].
  by destruct (concat _).
Qed.

End RoundTrip.

(** ** Facts: what reading loses *)

Lemma scan_unicode_loop_shorter chars n_digits value r rest :
  scan_unicode_loop chars n_digits value = Ok (r, rest) ->
  (length rest < length chars)%nat.
Proof.
  revert n_digits value. induction chars as [|c chars IH]; intros n_digits value; [done|].
  cbn [scan_unicode_loop length]. repeat case_match; try done;
    (intros [= <- <-]; lia) || (intros ?%IH; lia).
Qed.

Lemma scan_escape_shorter chars r rest :
  scan_escape chars = Ok (r, rest) -> (length rest < length chars)%nat.
Proof.
  unfold scan_escape, scan_unicode. repeat case_match; try done; subst; simpl;
    (intros [= <- <-]; lia) || (intros ?%scan_unicode_loop_shorter; lia).
Qed.

Lemma skip_ascii_whitespace_length chars :
  (length (skip_ascii_whitespace chars) <= length chars)%nat.
Proof. apply span_rest_le. Qed.

(** A string is never longer than the body it is read from. *)
Lemma unescape_loop_length fuel chars acc r :
  unescape_loop fuel chars acc = Ok r -> (length r <= length acc + length chars)%nat.
Proof.
  revert chars acc. induction fuel as [|fuel IH]; intros chars acc.
  { destruct chars; intros [= <-]; lia. }
  destruct chars as [|c chars]; [intros [= <-]; lia|]. cbn [unescape_loop length].
  repeat case_match; try done; intros Hr%IH; rewrite ?length_app in Hr; simpl in Hr.
  - pose proof (skip_ascii_whitespace_length chars). lia.
  - match goal with E : scan_escape _ = _ |- _ => apply scan_escape_shorter in E end. lia.
  - lia.
Qed.

(** The characters that a string literal holds as they are. *)
Definition plain_char (c : char) : Prop := c <> BACKSLASH /\ c <> QUOTE /\ c <> 13.

#[export] Instance plain_char_dec c : Decision (plain_char c).
Proof. unfold plain_char. apply _. Defined.

(** When nothing is lost, nothing was escaped. *)
Lemma unescape_loop_plain_inv fuel chars acc r :
  unescape_loop fuel chars acc = Ok r -> (length chars <= fuel)%nat ->
  length r = (length acc + length chars)%nat -> Forall plain_char chars.
Proof.
  revert chars acc. induction fuel as [|fuel IH]; intros chars acc.
  { destruct chars; [constructor|simpl; lia]. }
  destruct chars as [|c chars]; [constructor|]. cbn [unescape_loop length].
  repeat case_match; try done; intros Hr Hf Hlen.
  - apply unescape_loop_length in Hr.
    pose proof (skip_ascii_whitespace_length chars). lia.
  - apply unescape_loop_length in Hr. rewrite length_app in Hr. simpl in Hr.
    match goal with E : scan_escape _ = _ |- _ => apply scan_escape_shorter in E end. lia.
  - constructor; [by repeat split; apply N.eqb_neq|].
    apply (IH _ _ Hr); [lia|]. rewrite length_app. simpl. lia.
Qed.

Lemma unescape_loop_plain_run fuel chars acc :
  Forall plain_char chars -> (length chars <= fuel)%nat ->
  unescape_loop fuel chars acc = Ok (acc ++ chars).
Proof.
  intros Hp. revert fuel acc. induction Hp as [|c chars (? & ? & ?) _ IH]; intros fuel acc Hf.
  { rewrite app_nil_r. by destruct fuel. }
  destruct fuel as [|fuel]; [simpl in Hf; lia|].
  rewrite unescape_loop_plain, IH by (done || simpl in Hf; lia). by rewrite <- app_assoc.
Qed.

(** The lexer splits its input at the closing quote. *)
Lemma double_quoted_string_split chars body rest :
  double_quoted_string chars = Some (body, rest) -> chars = body ++ QUOTE :: rest.
Proof.
  revert body rest. remember (length chars) as n eqn:Hn. revert chars Hn.
  induction (lt_wf n) as [n _ IH]. intros chars -> body rest.
  destruct chars as [|c [|c' chars]]; [done|..].
  - simpl. destruct (N.eqb_spec c QUOTE) as [->|?]; [|done]. by intros [= <- <-].
  - rewrite double_quoted_string_cons.
    destruct (N.eqb_spec c QUOTE) as [->|?]; [by intros [= <- <-]|].
    destruct (_ && _).
    + destruct (double_quoted_string chars) as [[body' rest']|] eqn:E; [|done].
      intros [= <- <-]. by rewrite (IH (length chars) ltac:(simpl; lia) chars eq_refl body' rest').
    + destruct (double_quoted_string (c' :: chars)) as [[body' rest']|] eqn:E; [|done].
      intros [= <- <-].
      by rewrite (IH (S (length chars)) ltac:(simpl; lia) (c' :: chars) eq_refl body' rest').
Qed.

(** ** Properties *)

Section EscapeProperties.
Context `{UnicodeDebug}.

(** The text that [{:?}] writes for a string is a string literal
    that denotes the string: the lexer finds its closing quote at the end,
    and every escape reads back as the character it was written for,
    whatever the tables of printable characters are. *)
Lemma read_str_debug s :
  Forall (fun c => is_scalar c = true) s -> read_str_literal (str_debug s) = Some s.
Proof.
  intros Hs. unfold read_str_literal, str_debug. rewrite N.eqb_refl.
  rewrite double_quoted_string_escaped. unfold unescape.
  by rewrite unescape_loop_escaped by (done || apply length_escaped).
Qed.

End EscapeProperties.

(** A string written between double quotes as it is denotes the string
    exactly when it holds no backslash, no double quote and no carriage
    return. *)
Lemma read_str_literal_quoted s :
  read_str_literal (QUOTE :: s ++ [QUOTE]) = Some s <-> Forall plain_char s.
Proof.
  unfold read_str_literal. rewrite N.eqb_refl. split.
  - destruct (double_quoted_string (s ++ [QUOTE])) as [[body rest]|] eqn:E; [|done].
    destruct rest; [|done].
    apply double_quoted_string_split in E. apply app_inj_tail in E as [-> _].
    unfold unescape. destruct (unescape_loop _ _ _) as [r|] eqn:Eu; [|done].
    intros [= ->]. by eapply unescape_loop_plain_inv.
  - intros Hp. rewrite double_quoted_string_plain_run;
      [|apply (Forall_impl _ _ _ Hp); by intros c (? & ? & _)|done].
    simpl. rewrite app_nil_r. unfold unescape.
    by rewrite unescape_loop_plain_run by (done || lia).
Qed.
