(* ===== verification/Errors.v ===== *)
(** * Errors: the error type of the library ([src/src/error.rs])

    [DaxError.t] is the enum [DaxError]; [DaxError_fmt] is its [Display],
    as the text written; [DaxError_from] is [impl From<std::io::Error>],
    which the [?] of the ingestion calls.  An [std::io::Error] is
    represented by the message it displays.  The theorem shows that the
    text of an error determines the error. *)

From Stdlib Require Import String.
From S2P Require Import Prelude Chars.

(** ** Data *)

(** [std::io::Error], as far as the library looks at it. *)
Record io_Error : Type := { io_message : rstring }.

#[export] Instance io_Error_eq_dec : EqDecision io_Error.
Proof. solve_decision. Defined.

Module DaxError.

Inductive t : Type :=
| ParseError (msg : rstring)
| EvaluationError (msg : rstring)
| IoError (err : io_Error).

End DaxError.

Abbreviation DaxError := DaxError.t (only parsing).

#[export] Instance DaxError_eq_dec : EqDecision DaxError.t.
Proof. solve_decision. Defined.

(** ** Operations *)

(** [impl fmt::Display for DaxError]. *)
Definition DaxError_fmt (self : DaxError) : rstring :=
  match self with
  | DaxError.ParseError msg => str "Parse error: " ++ msg
  | DaxError.EvaluationError msg => str "Evaluation error: " ++ msg
  | DaxError.IoError err => str "IO error: " ++ io_message err
  end.

(** [impl From<std::io::Error> for DaxError]. *)
Definition DaxError_from (err : io_Error) : DaxError := DaxError.IoError err.

(** ** Properties *)

(** C29: the text of an error determines the error: two errors that
    display alike are the same variant with the same message. *)
Theorem DaxError_fmt_inj (a b : DaxError) :
  DaxError_fmt a = DaxError_fmt b <-> a = b.
Proof.
  split; [|by intros ->].
  destruct a as [m|m|[m]], b as [m'|m'|[m']]; simpl; eval_str;
    intros E; simplify_eq; done.
Qed.
