(* ===== verification/Fmt.v ===== *)
(** * Fmt: formatting, as the sources use [std::fmt]

    The pieces of [format!] and [write!] that the rendering of a table
    calls: the byte length of a string ([String::len], in UTF-8), decimal
    digits, a float with two decimals ([{:.2}]), a boolean, and padding to
    a width ([{:<w$}], [{:>w$}]), which counts characters. *)

From Stdlib Require Import String.
From S2P Require Import Prelude F64 Chars.

(** ** Lengths *)

(** The number of bytes of a character in UTF-8. *)
Definition len_utf8 (c : N) : nat :=
  if (c <? 0x80)%N then 1
  else if (c <? 0x800)%N then 2
  else if (c <? 0x10000)%N then 3
  else 4.

(** [s.len()]: the length in bytes. *)
Definition String_len (s : rstring) : nat := sum_list (len_utf8 <$> s).

(** ** Digits *)

Fixpoint uint_digits (u : Decimal.uint) : rstring :=
  match u with
  | Decimal.Nil => []
  | Decimal.D0 u' => 48%N :: uint_digits u'
  | Decimal.D1 u' => 49%N :: uint_digits u'
  | Decimal.D2 u' => 50%N :: uint_digits u'
  | Decimal.D3 u' => 51%N :: uint_digits u'
  | Decimal.D4 u' => 52%N :: uint_digits u'
  | Decimal.D5 u' => 53%N :: uint_digits u'
  | Decimal.D6 u' => 54%N :: uint_digits u'
  | Decimal.D7 u' => 55%N :: uint_digits u'
  | Decimal.D8 u' => 56%N :: uint_digits u'
  | Decimal.D9 u' => 57%N :: uint_digits u'
  end.

(** The decimal digits of a natural number. *)
Definition decimal (n : N) : rstring := uint_digits (N.to_uint n).

(** ** Floats with two decimals *)

(** [m * 2^e * 100] rounded to the nearest integer, ties to even. *)
Definition hundredths (m : positive) (e : Z) : Z :=
  if (0 <=? e)%Z then Z.pos m * 2 ^ e * 100
  else
    let num := (Z.pos m * 100)%Z in
    let den := (2 ^ (- e))%Z in
    let q := (num / den)%Z in
    let r := (num mod den)%Z in
    match (2 * r ?= den)%Z with
    | Lt => q
    | Gt => (q + 1)%Z
    | Eq => if Z.even q then q else (q + 1)%Z
    end.

(** The digits of a count of hundredths: [1234] is [12.34]. *)
Definition fixed2 (q : Z) : rstring :=
  decimal (Z.to_N (q / 100)) ++ ch "." ::
  [(48 + Z.to_N (q mod 100 / 10))%N; (48 + Z.to_N (q mod 10))%N].

(** [format!("{:.2}", x)]. *)
Definition format_fixed2 (x : f64) : rstring :=
  match Prim2SF x with
  | S754_nan => str "NaN"
  | S754_infinity s => if s then str "-inf" else str "inf"
  | S754_zero s => if s then str "-0.00" else str "0.00"
  | S754_finite s m e =>
      (if s then [ch "-"] else []) ++ fixed2 (hundredths m e)
  end.

(** [format!("{}", b)]. *)
Definition format_bool (b : bool) : rstring := if b then str "true" else str "false".

(** ** Padding *)

(** [format!("{:<width$}", s)]: the text, then spaces up to the width. *)
Definition fmt_left (width : nat) (s : rstring) : rstring :=
  s ++ replicate (width - length s) (ch " ").

(** [format!("{:>width$}", s)]: spaces up to the width, then the text. *)
Definition fmt_right (width : nat) (s : rstring) : rstring :=
  replicate (width - length s) (ch " ") ++ s.

(** ** Facts *)

Lemma len_utf8_pos c : 1 <= len_utf8 c.
Proof. unfold len_utf8. repeat case_match; lia. Qed.

Lemma String_len_cons c s : String_len (c :: s) = len_utf8 c + String_len s.
Proof. done. Qed.

(** A string has at most as many characters as bytes. *)
Lemma length_String_len s : length s <= String_len s.
Proof.
  induction s as [|c s IH]; [done|]. rewrite String_len_cons.
  pose proof (len_utf8_pos c). simpl. lia.
Qed.

Lemma length_fmt_left width s : length (fmt_left width s) = Nat.max width (length s).
Proof. unfold fmt_left. rewrite length_app, length_replicate. lia. Qed.

Lemma length_fmt_right width s : length (fmt_right width s) = Nat.max width (length s).
Proof. unfold fmt_right. rewrite length_app, length_replicate. lia. Qed.

(** A text that fits its width fills it exactly. *)
Lemma length_fmt_left_fit width s :
  length s <= width -> length (fmt_left width s) = width.
Proof. rewrite length_fmt_left. lia. Qed.

Lemma length_fmt_right_fit width s :
  length s <= width -> length (fmt_right width s) = width.
Proof. rewrite length_fmt_right. lia. Qed.

Lemma length_format_bool b : length (format_bool b) = if b then 4 else 5.
Proof. by destruct b. Qed.

(** ** Floats in their shortest form

    [format!("{}", x)] writes the shortest decimal that reads back as [x],
    and of those the closest to [x], without an exponent.  The decimals that
    read back as [x] are those between the midpoints to its neighbours, the
    midpoints included when the mantissa of [x] is even. *)

(** A positive float [m * 2^e] with the midpoints to its neighbours, as
    numerators over the denominator [iv_den]. *)
Record Interval : Type := {
  iv_below : Z;
  iv_value : Z;
  iv_above : Z;
  iv_den : Z;
  iv_closed : bool;
}.

Definition interval (m : positive) (e : Z) : Interval :=
  let s := Z.max 0 (- e) in
  let unit := (2 ^ (e + s))%Z in
  let v := (4 * Z.pos m * unit)%Z in
  (* the neighbour below is half as far when [m] is the least mantissa *)
  let gap := if ((Z.pos m =? 2 ^ 52) && (-1074 <? e))%Z then unit else (2 * unit)%Z in
  {| iv_below := v - gap; iv_value := v; iv_above := v + 2 * unit;
     iv_den := 2 ^ (s + 2); iv_closed := Z.even (Z.pos m) |}.

(** [c * 10^p] against the numerator [x] of the interval. *)
Definition cmp_decimal (i : Interval) (c p x : Z) : comparison :=
  if (0 <=? p)%Z then (c * 10 ^ p * iv_den i ?= x)%Z
  else (c * iv_den i ?= x * 10 ^ (- p))%Z.

(** [c * 10^p] reads back as the float. *)
Definition reads_back (i : Interval) (c p : Z) : bool :=
  match cmp_decimal i c p (iv_below i), cmp_decimal i c p (iv_above i) with
  | Gt, Lt => true
  | Eq, Lt | Gt, Eq => iv_closed i
  | _, _ => false
  end.

(** The largest [q] with [10^q <= value]. *)
Definition log10_floor (i : Interval) : Z :=
  let q := ((Z.log2 (iv_value i) - Z.log2 (iv_den i)) * 30103 / 100000)%Z in
  let le q := match cmp_decimal i 1 q (iv_value i) with Gt => false | _ => true end in
  if le (q + 2)%Z then (q + 2)%Z
  else if le (q + 1)%Z then (q + 1)%Z
  else if le q then q
  else if le (q - 1)%Z then (q - 1)%Z
  else (q - 2)%Z.

(** The largest [c] with [c * 10^p <= value]. *)
Definition decimal_floor (i : Interval) (p : Z) : Z :=
  if (0 <=? p)%Z then (iv_value i / (10 ^ p * iv_den i))%Z
  else (iv_value i * 10 ^ (- p) / iv_den i)%Z.

(** Twice the distance of [c * 10^p] from the value, over a common
    denominator, to compare two candidates at the same [p]. *)
Definition distance (i : Interval) (c p : Z) : Z :=
  if (0 <=? p)%Z then Z.abs (c * 10 ^ p * iv_den i - iv_value i)
  else Z.abs (c * iv_den i - iv_value i * 10 ^ (- p)).

(** The decimal with digits down to [10^p] that reads back as the float
    and is closest to it, if there is one. *)
Definition candidate (i : Interval) (p : Z) : option Z :=
  let c0 := decimal_floor i p in
  let c1 := (c0 + 1)%Z in
  match reads_back i c0 p, reads_back i c1 p with
  | true, true =>
      match (distance i c0 p ?= distance i c1 p)%Z with
      | Lt => Some c0
      | Gt => Some c1
      | Eq => Some (if Z.even c0 then c0 else c1)
      end
  | true, false => Some c0
  | false, true => Some c1
  | false, false => None
  end.

(** The first of [p], [p - 1], ... at which a decimal reads back. *)
Fixpoint shortest_from (i : Interval) (p : Z) (fuel : nat) : Z * Z :=
  match fuel with
  | O => (decimal_floor i p, p)
  | S fuel' =>
      match candidate i p with
      | Some c => (c, p)
      | None => shortest_from i (p - 1) fuel'
      end
  end.

(** Zeros at the end of a decimal move into its exponent. *)
Fixpoint strip_zeros (fuel : nat) (c p : Z) : Z * Z :=
  match fuel with
  | O => (c, p)
  | S fuel' =>
      if ((c mod 10 =? 0) && negb (c =? 0))%Z then strip_zeros fuel' (c / 10) (p + 1)
      else (c, p)
  end.

(** The digits of the shortest decimal and the power of ten of its last
    digit.  Seventeen digits always read back, so the search has seventeen
    steps; a decimal of that many digits ends in fewer than eighteen
    zeros. *)
Definition shortest (m : positive) (e : Z) : rstring * Z :=
  let i := interval m e in
  let '(c, p) := shortest_from i (log10_floor i) 17 in
  let '(c, p) := strip_zeros 18 c p in
  (decimal (Z.to_N c), p).

(** The digits with the point in its place, or with zeros up to it. *)
Definition place_point (digits : rstring) (p : Z) : rstring :=
  let n := Z.of_nat (length digits) in
  if (0 <=? p)%Z then digits ++ replicate (Z.to_nat p) (ch "0")
  else if (- p <? n)%Z then
    take (Z.to_nat (n + p)) digits ++ ch "." :: drop (Z.to_nat (n + p)) digits
  else str "0." ++ replicate (Z.to_nat (- p - n)) (ch "0") ++ digits.

(** [format!("{}", x)]. *)
Definition format_shortest (x : f64) : rstring :=
  match Prim2SF x with
  | S754_nan => str "NaN"
  | S754_infinity s => if s then str "-inf" else str "inf"
  | S754_zero s => if s then str "-0" else str "0"
  | S754_finite s m e =>
      let '(digits, p) := shortest m e in
      (if s then [ch "-"] else []) ++ place_point digits p
  end.

(** [format!("{:?}", x)]: the shortest form with at least one digit after
    the point, or with an exponent when the number is at least [1e16] or
    less than [1e-4] (the double [0x1.a36e2eb1c432dp-14]). *)
Definition place_exponent (digits : rstring) (p : Z) : rstring :=
  let n := Z.of_nat (length digits) in
  let e := (p + n - 1)%Z in
  take 1 digits
  ++ (if (1 <? n)%Z then ch "." :: drop 1 digits else [])
  ++ ch "e" :: (if (e <? 0)%Z then [ch "-"] else []) ++ decimal (Z.to_N (Z.abs e)).

Definition with_fraction (s : rstring) : rstring :=
  if bool_decide (ch "." ∈ s) then s else s ++ str ".0".

Definition format_debug (x : f64) : rstring :=
  match Prim2SF x with
  | S754_nan => str "NaN"
  | S754_infinity s => if s then str "-inf" else str "inf"
  | S754_zero s => if s then str "-0.0" else str "0.0"
  | S754_finite s m e =>
      let '(digits, p) := shortest m e in
      let a := PrimFloat.abs x in
      (if s then [ch "-"] else []) ++
      (if PrimFloat.leb 1e16 a || PrimFloat.ltb a 0x1.a36e2eb1c432dp-14
       then place_exponent digits p
       else with_fraction (place_point digits p))
  end.

(** ** The characters of a float *)

(** The characters of a number in decimal notation. *)
Definition decimal_char (c : N) : bool :=
  is_digit10 c || (c =? ch ".")%N || (c =? ch "-")%N.

Abbreviation decimal_chars := (Forall (fun c => decimal_char c = true)).

Section FloatChars.

Lemma uint_digits_chars u : decimal_chars (uint_digits u).
Proof. induction u; by constructor. Qed.

Lemma decimal_chars_decimal n : decimal_chars (decimal n).
Proof. apply uint_digits_chars. Qed.

Lemma place_point_chars digits p :
  decimal_chars digits -> decimal_chars (place_point digits p).
Proof.
  intros Hd. unfold place_point. repeat case_match;
    rewrite ?Forall_app, ?Forall_cons; split_and?;
    auto using Forall_take, Forall_drop, Forall_replicate.
  by repeat constructor.
Qed.

(** What a float prints as: one of three names, or digits with a point
    and a sign. *)
Lemma format_shortest_cases x :
  format_shortest x = str "NaN" \/ format_shortest x = str "inf" \/
  format_shortest x = str "-inf" \/ decimal_chars (format_shortest x).
Proof.
  unfold format_shortest.
  destruct (Prim2SF x) as [[]|[]| |s m e]; auto; try (by repeat right; repeat constructor).
  repeat right. unfold shortest. destruct (shortest_from _ _ _) as [c p].
  destruct (strip_zeros _ _ _) as [c' p'].
  apply Forall_app. split; [by destruct s; repeat constructor|].
  apply place_point_chars, decimal_chars_decimal.
Qed.

Lemma decimal_char_not_letter c : decimal_char c = true -> is_ascii_letter c = false.
Proof.
  unfold decimal_char, is_ascii_letter, is_digit10. rewrite !orb_true_iff, !in_range_spec, !N.eqb_eq.
  intros Hc. apply orb_false_iff. split; apply not_true_iff_false;
    rewrite in_range_spec; revert Hc; eval_ch; lia.
Qed.

End FloatChars.
