(* ===== verification/Types.v ===== *)
(** * Types: the values of a table ([src/src/types.rs])

    [Value] with its [PartialEq] and [Hash] implementations, and the
    conversions into it ([impl From<_> for Value] of [src/src/table.rs]).

    [Value_eq] is the method [eq]; [Value_hash] is the sequence of writes
    the method [hash] makes to the [Hasher] it is given.  Both are on
    values whose numbers are the kernel's floats, with their one NaN.

    [Bits.Value] is a value as the machine holds it, a number being its 64
    bits, where a NaN has many patterns; [Bits.eq] and [Bits.hash] are the
    two methods on it, [to_bits] returning the bits as they are, and
    [Bits.value] is the value of the model that a machine value stands
    for.

    The theorems show that [Value_eq] is an equivalence that identifies
    all NaNs; that the two methods see of the bits of a number only the
    float they denote, so that the patterns of NaN are equal and hash
    alike; and that equal values make the same writes except the two
    zeros, which [eq] identifies and [hash] tells apart. *)

From S2P Require Import Prelude F64 Chars.

#[local] Open Scope Z_scope.

(** ** Data *)

Inductive Value : Type :=
| Number (n : f64)
| Text (s : rstring)
| Boolean (b : bool)
| Null.

#[export] Instance Value_eq_dec : EqDecision Value.
Proof. solve_decision. Defined.

(** A call of the [Hasher] a value is hashed into. *)
Inductive HasherWrite : Type :=
| write_u8 (b : Z)
| write_u64 (w : Z)
| write_str (s : rstring).

#[export] Instance HasherWrite_eq_dec : EqDecision HasherWrite.
Proof. solve_decision. Defined.

(** ** Operations *)

(** [impl PartialEq for Value]: [self.eq(other)]. *)
Definition Value_eq (self other : Value) : bool :=
  match self, other with
  | Number a, Number b =>
      if f64_is_nan a && f64_is_nan b then true else f64_eq a b
  | Text a, Text b => bool_decide (a = b)
  | Boolean a, Boolean b => Bool.eqb a b
  | Null, Null => true
  | _, _ => false
  end.

(** [impl Hash for Value]: the writes of [self.hash(state)].  A [String]
    hashes itself with [write_str], a [bool] with [write_u8]. *)
Definition Value_hash (self : Value) : list HasherWrite :=
  match self with
  | Number n =>
      if f64_is_nan n then [write_u8 0]
      else if f64_is_infinite n then
        if f64_is_sign_positive n then [write_u8 1] else [write_u8 2]
      else [write_u64 (f64_to_bits n)]
  | Text s => [write_str s]
  | Boolean b => [write_u8 (if b then 1 else 0)]
  | Null => [write_u8 3]
  end.

(** [impl From<f64> for Value], [From<&str>], [From<String>], [From<bool>]. *)
Definition Value_from_f64 (n : f64) : Value := Number n.
Definition Value_from_str (s : rstring) : Value := Text s.
Definition Value_from_String (s : rstring) : Value := Text s.
Definition Value_from_bool (b : bool) : Value := Boolean b.

(** ** Values with the bits of their numbers *)

Module Bits.

Inductive Value : Type :=
| Number (w : Z)
| Text (s : rstring)
| Boolean (b : bool)
| Null.

(** The numbers are 64-bit patterns. *)
Definition wf (v : Value) : Prop :=
  match v with
  | Number w => u64 w
  | _ => True
  end.

(** The value that a machine value stands for. *)
Definition value (v : Value) : Types.Value :=
  match v with
  | Number w => Types.Number (f64_from_bits w)
  | Text s => Types.Text s
  | Boolean b => Types.Boolean b
  | Null => Types.Null
  end.

(** [impl PartialEq for Value]: [self.eq(other)]. *)
Definition eq (self other : Value) : bool :=
  match self, other with
  | Number a, Number b =>
      let a := f64_from_bits a in
      let b := f64_from_bits b in
      if f64_is_nan a && f64_is_nan b then true else f64_eq a b
  | Text a, Text b => bool_decide (a = b)
  | Boolean a, Boolean b => Bool.eqb a b
  | Null, Null => true
  | _, _ => false
  end.

(** [impl Hash for Value]: the writes of [self.hash(state)];
    [n.to_bits()] is the pattern of [n]. *)
Definition hash (self : Value) : list HasherWrite :=
  match self with
  | Number w =>
      let n := f64_from_bits w in
      if f64_is_nan n then [write_u8 0]
      else if f64_is_infinite n then
        if f64_is_sign_positive n then [write_u8 1] else [write_u8 2]
      else [write_u64 w]
  | Text s => [write_str s]
  | Boolean b => [write_u8 (if b then 1 else 0)]
  | Null => [write_u8 3]
  end.

End Bits.

(** ** The equivalence [eq] decides *)

#[export] Instance Value_equiv : Equiv Value := fun a b => Value_eq a b = true.

(** The two values [eq] identifies and [hash] separates. *)
Definition opposite_zeros (a b : Value) : Prop :=
  match a, b with
  | Number x, Number y => f64_is_zero x = true /\ f64_is_zero y = true /\ x <> y
  | _, _ => False
  end.

Section ValueFacts.
Implicit Types (a b c : Value) (x y : float).

Lemma Value_eq_Number x y :
  Value_eq (Number x) (Number y) = true <->
  (f64_is_nan x = true /\ f64_is_nan y = true) \/ f64_eq x y = true.
Proof.
  simpl. destruct (f64_is_nan x) eqn:Ex, (f64_is_nan y) eqn:Ey; simpl;
    intuition congruence.
Qed.

Lemma Value_eq_refl a : Value_eq a a = true.
Proof.
  destruct a as [x|s|b|]; simpl; [|by apply bool_decide_eq_true|by destruct b|done].
  destruct (f64_is_nan x) eqn:E; simpl; [done|by apply f64_eq_refl].
Qed.

Lemma Value_eq_sym a b : Value_eq a b = Value_eq b a.
Proof.
  destruct a as [x|s|p|], b as [y|t|q|]; simpl; try done.
  - by rewrite andb_comm, f64_eq_sym.
  - apply bool_decide_ext. split; congruence.
  - by destruct p, q.
Qed.

Lemma Value_eq_trans a b c :
  Value_eq a b = true -> Value_eq b c = true -> Value_eq a c = true.
Proof.
  destruct a as [x|s|p|], b as [y|t|q|], c as [z|u|r|]; try done.
  - rewrite !Value_eq_Number. intros [[Hx Hy]|Hxy] [[Hy' Hz]|Hyz]; auto.
    + apply f64_eq_not_nan_l in Hyz. congruence.
    + apply f64_eq_not_nan_r in Hxy. congruence.
    + right. by eapply f64_eq_trans.
  - simpl. rewrite !bool_decide_eq_true. congruence.
  - simpl. by destruct p, q, r.
Qed.

#[export] Instance Value_equivalence : Equivalence (≡@{Value}).
Proof.
  split.
  - intros a. apply Value_eq_refl.
  - intros a b H. unfold equiv, Value_equiv in *. by rewrite Value_eq_sym.
  - intros a b c. apply Value_eq_trans.
Qed.

(** [Value::eq] does not tell equal values apart. *)
#[export] Instance Value_eq_proper : Proper ((≡) ==> (≡) ==> (=)) Value_eq.
Proof.
  intros a a' Ha b b' Hb. unfold equiv, Value_equiv in *.
  destruct (Value_eq a' b') eqn:E.
  - eapply Value_eq_trans; [done|]. eapply Value_eq_trans; [done|].
    by rewrite Value_eq_sym.
  - apply not_true_iff_false. intros E'. apply not_true_iff_false in E. apply E.
    eapply Value_eq_trans; [by rewrite Value_eq_sym|]. by eapply Value_eq_trans.
Qed.

#[export] Instance Value_equiv_dec : RelDecision (≡@{Value}).
Proof. intros a b. unfold equiv, Value_equiv. apply _. Defined.

Lemma Value_eq_Text s t : Value_eq (Text s) (Text t) = true <-> s = t.
Proof. simpl. apply bool_decide_eq_true. Qed.

Lemma Value_eq_Boolean p q : Value_eq (Boolean p) (Boolean q) = true <-> p = q.
Proof. simpl. by destruct p, q. Qed.

(** Equal values are the same value, two NaNs, or two zeros. *)
Lemma Value_eq_inv a b :
  Value_eq a b = true ->
  a = b \/
  (exists x y, a = Number x /\ b = Number y /\
     ((f64_is_nan x = true /\ f64_is_nan y = true) \/
      (f64_is_zero x = true /\ f64_is_zero y = true))).
Proof.
  destruct a as [x|s|p|], b as [y|t|q|]; try done.
  - rewrite Value_eq_Number. intros [?|[?|[-> _]]%f64_eq_inv]; eauto 8.
  - rewrite Value_eq_Text. intros ->. by left.
  - rewrite Value_eq_Boolean. intros ->. by left.
  - by left.
Qed.

Lemma Value_hash_nan x : f64_is_nan x = true -> Value_hash (Number x) = [write_u8 0].
Proof. intros E. simpl. by rewrite E. Qed.

Lemma Value_hash_respects_eq a b :
  Value_eq a b = true -> ~ opposite_zeros a b -> Value_hash a = Value_hash b.
Proof.
  intros [->|(x & y & -> & -> & [[Hx Hy]|[Hx Hy]])]%Value_eq_inv Hz; [done|..].
  - by rewrite !Value_hash_nan.
  - destruct (decide (x = y)) as [->|Hne]; [done|]. by destruct Hz.
Qed.

(** The zeros of opposite sign are [0.0] and [-0.0]; they are equal and
    hash differently. *)
Lemma opposite_zeros_inv a b :
  opposite_zeros a b <->
  (a = Number 0 /\ b = Number (-0)) \/ (a = Number (-0) /\ b = Number 0).
Proof.
  split; [|by intros [[-> ->]|[-> ->]]].
  destruct a as [x| | |], b as [y| | |]; try done.
  intros (Hx%f64_is_zero_inv & Hy%f64_is_zero_inv & Hne).
  destruct Hx, Hy; subst; auto; done.
Qed.

Lemma opposite_zeros_eq a b : opposite_zeros a b -> Value_eq a b = true.
Proof. by intros [[-> ->]|[-> ->]]%opposite_zeros_inv. Qed.

Lemma opposite_zeros_hash a b : opposite_zeros a b -> Value_hash a <> Value_hash b.
Proof. by intros [[-> ->]|[-> ->]]%opposite_zeros_inv. Qed.

(** Equal values with equal hashes that are not NaN are the same value. *)
Lemma Value_eq_hash_inv a b :
  Value_eq a b = true -> Value_hash a = Value_hash b ->
  a = b \/ exists x y, a = Number x /\ b = Number y /\
                     f64_is_nan x = true /\ f64_is_nan y = true.
Proof.
  intros Heq Hh. pose proof (opposite_zeros_hash a b) as Hz.
  apply Value_eq_inv in Heq as [->|(x & y & -> & -> & [?|[Hx Hy]])]; [by left|eauto 8|].
  left. destruct (decide (x = y)) as [->|Hne]; [done|]. by destruct Hz.
Qed.

End ValueFacts.

(** ** The bits of the numbers *)

Section BitsFacts.
Implicit Types (a b : Bits.Value) (w : Z).

(** [eq] looks at the floats, not at their bits. *)
Lemma Bits_eq_value a b : Bits.eq a b = Value_eq (Bits.value a) (Bits.value b).
Proof. by destruct a, b. Qed.

(** [hash] writes the bits of a number only when it is not a NaN, and
    they are then the bits of its float. *)
Lemma Bits_hash_value a : Bits.wf a -> Bits.hash a = Value_hash (Bits.value a).
Proof.
  destruct a as [w| | |]; [|done..]. intros Hw. simpl.
  destruct (f64_is_nan (f64_from_bits w)) eqn:En; [done|].
  rewrite f64_to_bits_from_bits; [done..|by rewrite <- f64_is_nan_from_bits].
Qed.

(** Every value of the model is held by the machine. *)
Lemma Bits_value_surj v : exists a, Bits.wf a /\ Bits.value a = v.
Proof.
  destruct v as [x|s|b|];
    [exists (Bits.Number (f64_to_bits x))|by exists (Bits.Text s)
    |by exists (Bits.Boolean b)|by exists Bits.Null].
  split; [apply f64_to_bits_range|]. simpl. by rewrite f64_from_bits_to_bits.
Qed.

(** The patterns of NaN are one value. *)
Lemma Bits_value_nan w :
  u64 w -> is_nan_bits w = true -> Bits.value (Bits.Number w) = Number nan.
Proof.
  intros Hw Hn. simpl. f_equal. rewrite <- (SF2Prim_Prim2SF (f64_from_bits w)).
  rewrite <- f64_is_nan_from_bits, f64_is_nan_spec in Hn by done.
  by destruct (Prim2SF (f64_from_bits w)).
Qed.

End BitsFacts.

#[export] Instance opposite_zeros_dec a b : Decision (opposite_zeros a b).
Proof. destruct a, b; simpl; apply _. Defined.

#[export] Hint Resolve Value_eq_refl : dax.
#[export] Hint Rewrite Value_eq_Text Value_eq_Boolean : dax.

(** ** Properties *)

(** C7: [Value::eq] is an equivalence relation (so [impl Eq for Value] is
    justified): it is reflexive, NaN included, symmetric and transitive;
    all NaNs are equal, and the two infinities are different. *)
Theorem Value_eq_equivalence :
  (forall a, Value_eq a a = true) /\
  (forall a b, Value_eq a b = Value_eq b a) /\
  (forall a b c, Value_eq a b = true -> Value_eq b c = true -> Value_eq a c = true) /\
  (forall x y, f64_is_nan x = true -> f64_is_nan y = true ->
               Value_eq (Number x) (Number y) = true) /\
  Value_eq (Number infinity) (Number neg_infinity) = false.
Proof.
  split_and!; [apply Value_eq_refl|apply Value_eq_sym|apply Value_eq_trans| |done].
  intros x y Hx Hy. apply Value_eq_Number. auto.
Qed.

(** C23: [hash] is consistent with [eq] except on the zeros, on values as
    the machine holds them, where a NaN has many bit patterns.  [hash]
    sees of the bits of a number only the float they denote: a NaN never
    reaches [to_bits], so all the patterns of NaN, which [eq] identifies,
    make the same write.  Two equal values make the same writes to the
    hasher exactly when they are not the zeros of opposite sign. *)
Theorem Value_hash_consistent a b :
  Bits.wf a -> Bits.wf b ->
  Bits.hash a = Value_hash (Bits.value a) /\
  (Bits.eq a b = true ->
   (Bits.hash a = Bits.hash b <-> ~ opposite_zeros (Bits.value a) (Bits.value b))).
Proof.
  intros Ha Hb. split; [by apply Bits_hash_value|].
  rewrite Bits_eq_value, !Bits_hash_value by done. intros Heq.
  split; [intros Hh Hz; by apply opposite_zeros_hash in Hz|].
  by apply Value_hash_respects_eq.
Qed.

(** Two patterns of NaN, the canonical quiet one and a signalling one with
    the sign set. *)
Lemma Value_hash_consistent_witness :
  let a := Bits.Number 0x7FF8000000000000 in
  let b := Bits.Number 0xFFF0000000000001 in
  Bits.hash a = Value_hash (Bits.value a) /\
  (Bits.eq a b = true ->
   (Bits.hash a = Bits.hash b <-> ~ opposite_zeros (Bits.value a) (Bits.value b))).
Proof.
  exact (Value_hash_consistent (Bits.Number 0x7FF8000000000000)
           (Bits.Number 0xFFF0000000000001) ltac:(by vm_compute) ltac:(by vm_compute)).
Defined.

(** Hashing does not agree with equality on the zeros: [0.0] and
    [-0.0] are equal values whose hashes are made from different bits, so
    [Hash] breaks the contract of [Eq] that a hash set relies on. *)
Theorem Value_hash_zeros_differ :
  Value_eq (Number 0) (Number (-0)) = true /\
  Value_hash (Number 0) = [write_u64 0] /\
  Value_hash (Number (-0)) = [write_u64 (2 ^ 63)].
Proof. by vm_compute. Qed.
