(* ===== verification/Collections.v ===== *)
(** * Collections: the iterator adaptors and the hash set the table calls

    [Iterator::reduce], [min_by] and [max_by] as the standard library
    defines them, and [HashSet] as far as [distinctcount] uses it: a set is
    built by inserting the keys one by one, and an insertion looks the key
    up first.

    A lookup compares the key, with [eq], against the stored keys its probe
    meets.  Which keys those are depends on the hasher and on the layout of
    the table; the one thing a hash table guarantees is that a key stored
    under the same hash is met.  The class [Probe] is that guarantee and
    nothing more, so a theorem proved for every [Probe] holds for every
    hasher and table layout. *)

From S2P Require Import Prelude.

(** ** Iterator adaptors *)

Section Iter.
Context {A : Type}.
Implicit Types (l : list A) (f : A -> A -> A).

(** [it.reduce(f)]. *)
Definition reduce f l : option A :=
  match l with
  | [] => None
  | x :: xs => Some (fold_left f xs x)
  end.

(** The closures [min_by] and [max_by] reduce with: [min_by] keeps the
    earlier element unless it is [Greater], [max_by] the later one unless
    the earlier is [Greater]. *)
Definition min_step (compare : A -> A -> Ordering) (x y : A) : A :=
  match compare x y with Greater => y | _ => x end.

Definition max_step (compare : A -> A -> Ordering) (x y : A) : A :=
  match compare x y with Greater => x | _ => y end.

(** [it.min_by(compare)] and [it.max_by(compare)]. *)
Definition min_by (compare : A -> A -> Ordering) l : option A :=
  reduce (min_step compare) l.

Definition max_by (compare : A -> A -> Ordering) l : option A :=
  reduce (max_step compare) l.

(** [it.any(p)]: the answer, and the iterator after the call; the call
    stops after the first element that passes the test. *)
Fixpoint iter_any (p : A -> bool) l : bool * list A :=
  match l with
  | [] => (false, [])
  | x :: l' => if p x then (true, l') else iter_any p l'
  end.

Lemma iter_any_existsb p l : (iter_any p l).1 = existsb p l.
Proof. induction l as [|x l IH]; simpl; [done|]. by destruct (p x). Qed.

Lemma iter_any_suffix p l : suffix (iter_any p l).2 l.
Proof.
  induction l as [|x l IH]; simpl; [done|].
  destruct (p x); simpl; [by apply suffix_cons_r|by apply suffix_cons_r].
Qed.

Lemma reduce_None f l : reduce f l = None <-> l = [].
Proof. by destruct l. Qed.

(** A fold that always returns one of its two arguments returns an element
    of the list or the initial value. *)
Lemma fold_left_select f l x :
  (forall a b, f a b = a \/ f a b = b) -> fold_left f l x = x \/ fold_left f l x ∈ l.
Proof.
  intros Hf. revert x. induction l as [|y ys IH]; intros x; simpl; [by left|].
  destruct (IH (f x y)) as [E|E]; [|right; by constructor].
  rewrite E. destruct (Hf x y) as [->| ->]; [by left|right; constructor].
Qed.

Lemma reduce_select f l r :
  (forall a b, f a b = a \/ f a b = b) -> reduce f l = Some r -> r ∈ l.
Proof.
  intros Hf. destruct l as [|x xs]; simpl; [done|]. intros [= <-].
  destruct (fold_left_select f xs x Hf) as [-> | ?]; by constructor.
Qed.

End Iter.

(** ** [min_by] and [max_by] under a comparison that decides an order

    [le] is a preorder on the elements that satisfy [ok], and [compare]
    answers [Greater] exactly against it.  Then [min_by] returns a lower
    bound of the list and [max_by] an upper bound. *)

Section MinMax.
Context {A : Type} (compare : A -> A -> Ordering) (le : A -> A -> Prop)
  (ok : A -> Prop).
Context (le_refl : forall a, ok a -> le a a)
  (le_trans : forall a b c, le a b -> le b c -> le a c)
  (compare_Greater : forall a b, compare a b = Greater -> le b a)
  (compare_other : forall a b, ok a -> ok b -> compare a b <> Greater -> le a b).
Implicit Types (l seen : list A).

#[local] Abbreviation min_step := (min_step compare).
#[local] Abbreviation max_step := (max_step compare).

Lemma min_step_le x y : ok x -> ok y -> le (min_step x y) x /\ le (min_step x y) y.
Proof.
  intros Hx Hy. unfold min_step. destruct (compare x y) eqn:E; auto.
  - split; [auto|]. apply compare_other; [done..|by rewrite E].
  - split; [auto|]. apply compare_other; [done..|by rewrite E].
Qed.

Lemma max_step_le x y : ok x -> ok y -> le x (max_step x y) /\ le y (max_step x y).
Proof.
  intros Hx Hy. unfold max_step. destruct (compare x y) eqn:E; auto.
  - split; [|auto]. apply compare_other; [done..|by rewrite E].
  - split; [|auto]. apply compare_other; [done..|by rewrite E].
Qed.

Lemma min_step_ok x y : ok x -> ok y -> ok (min_step x y).
Proof. unfold min_step. by destruct (compare x y). Qed.

Lemma max_step_ok x y : ok x -> ok y -> ok (max_step x y).
Proof. unfold max_step. by destruct (compare x y). Qed.

Lemma fold_min_step_le l acc :
  ok acc -> Forall ok l ->
  le (fold_left min_step l acc) acc /\
  forall x, x ∈ l -> le (fold_left min_step l acc) x.
Proof.
  revert acc. induction l as [|y l IH]; intros acc Ha Hl; simpl.
  { split; [auto|]. intros x Hx. by apply not_elem_of_nil in Hx. }
  apply Forall_cons in Hl as [Hy Hl].
  destruct (min_step_le acc y) as [H1 H2]; [done..|].
  destruct (IH (min_step acc y)) as [H3 H4]; [by apply min_step_ok|done|].
  split; [eauto|]. intros x Hx. invc Hx; eauto.
Qed.

Lemma fold_max_step_le l acc :
  ok acc -> Forall ok l ->
  le acc (fold_left max_step l acc) /\
  forall x, x ∈ l -> le x (fold_left max_step l acc).
Proof.
  revert acc. induction l as [|y l IH]; intros acc Ha Hl; simpl.
  { split; [auto|]. intros x Hx. by apply not_elem_of_nil in Hx. }
  apply Forall_cons in Hl as [Hy Hl].
  destruct (max_step_le acc y) as [H1 H2]; [done..|].
  destruct (IH (max_step acc y)) as [H3 H4]; [by apply max_step_ok|done|].
  split; [eauto|]. intros x Hx. invc Hx; eauto.
Qed.

Lemma min_by_lower_bound l m :
  Forall ok l -> min_by compare l = Some m -> forall x, x ∈ l -> le m x.
Proof.
  destruct l as [|x0 l]; [done|]. intros [H0 Hl]%Forall_cons [= <-] x Hx.
  destruct (fold_min_step_le l x0) as [H1 H2]; [done..|].
  invc Hx; auto.
Qed.

Lemma max_by_upper_bound l m :
  Forall ok l -> max_by compare l = Some m -> forall x, x ∈ l -> le x m.
Proof.
  destruct l as [|x0 l]; [done|]. intros [H0 Hl]%Forall_cons [= <-] x Hx.
  destruct (fold_max_step_le l x0) as [H1 H2]; [done..|].
  invc Hx; auto.
Qed.

End MinMax.

Lemma min_by_elem_of {A} (compare : A -> A -> Ordering) (l : list A) m :
  min_by compare l = Some m -> m ∈ l.
Proof.
  apply reduce_select. intros a b. unfold min_step, max_step.
  destruct (compare a b); auto.
Qed.

Lemma max_by_elem_of {A} (compare : A -> A -> Ordering) (l : list A) m :
  max_by compare l = Some m -> m ∈ l.
Proof.
  apply reduce_select. intros a b. unfold min_step, max_step.
  destruct (compare a b); auto.
Qed.

(** ** Hash sets *)

(** [probe_hit h h']: a lookup under hash [h] meets a key stored under [h']. *)
Class Probe (H : Type) : Type := {
  probe_hit : H -> H -> bool;
  probe_hit_refl h : probe_hit h h = true
}.

(** The table in which a lookup meets exactly the keys of the same hash. *)
Definition exact_probe (H : Type) `{EqDecision H} : Probe H :=
  {| probe_hit := fun h h' => bool_decide (h = h');
     probe_hit_refl := fun h => bool_decide_eq_true_2 _ eq_refl |}.

(** The table in which a lookup meets every key (all hashes collide). *)
Definition colliding_probe (H : Type) : Probe H :=
  {| probe_hit := fun _ _ => true; probe_hit_refl := fun _ => eq_refl |}.

Section HashSet.
Context {K H : Type} (eq : K -> K -> bool) (hash : K -> H).

Section WithProbe.
Context `{Probe H}.
Implicit Types (s : list K) (k : K).

(** [set.contains(&k)]: some stored key the probe meets is [eq] to [k]. *)
Definition hs_contains s k : bool :=
  existsb (fun k' => probe_hit (hash k) (hash k') && eq k k') s.

(** [set.insert(k)]: the set, as the list of its keys in insertion order. *)
Definition hs_insert s k : list K := if hs_contains s k then s else s ++ [k].

(** [it.collect::<HashSet<_>>()]. *)
Definition hs_collect (l : list K) : list K := fold_left hs_insert l [].

End WithProbe.

(** The keys of [l] up to [eq], first occurrences: what [collect] builds
    when the probe meets every key. *)
Definition nub (l : list K) : list K :=
  hs_collect (H0 := colliding_probe H) l.

(** [hash] agrees with [eq] on the keys of [l]. *)
Definition hash_consistent_on (l : list K) : Prop :=
  forall a b, a ∈ l -> b ∈ l -> eq a b = true -> hash a = hash b.

Section Facts.
Context `{Probe H}.
Implicit Types (s l : list K) (k : K).

Lemma hs_insert_subseteq s k : hs_insert s k ⊆ k :: s.
Proof.
  unfold hs_insert. destruct (hs_contains s k).
  - by apply list_subseteq_cons.
  - intros x [?| ->%list_elem_of_singleton]%elem_of_app;
      [by constructor|constructor].
Qed.

Lemma fold_hs_insert_subseteq l s : fold_left hs_insert l s ⊆ s ++ l.
Proof.
  revert s. induction l as [|k l IH]; intros s; simpl.
  - by rewrite app_nil_r.
  - etrans; [apply IH|]. intros x [Hx|Hx]%elem_of_app.
    + apply hs_insert_subseteq in Hx. apply elem_of_app.
      invc Hx; [right; constructor|by left].
    + apply elem_of_app. right. by constructor.
Qed.

Lemma hs_collect_subseteq l : hs_collect l ⊆ l.
Proof. apply (fold_hs_insert_subseteq l []). Qed.

Lemma hs_insert_length s k :
  length s <= length (hs_insert s k) <= S (length s).
Proof.
  unfold hs_insert. destruct (hs_contains s k); [lia|].
  rewrite length_app. simpl. lia.
Qed.

Lemma fold_hs_insert_length l s :
  length s <= length (fold_left hs_insert l s) <= length s + length l.
Proof.
  revert s. induction l as [|k l IH]; intros s; simpl; [lia|].
  pose proof (IH (hs_insert s k)). pose proof (hs_insert_length s k). lia.
Qed.

(** Where [hash] agrees with [eq], the probe does not matter. *)
Lemma hs_contains_consistent l s k :
  hash_consistent_on l -> k ∈ l -> s ⊆ l ->
  hs_contains s k = existsb (eq k) s.
Proof.
  intros Hc Hk Hs. unfold hs_contains.
  induction s as [|k' s IH]; simpl; [done|].
  rewrite IH by (intros x Hx; apply Hs; by constructor). f_equal.
  destruct (eq k k') eqn:E; [|by rewrite andb_false_r].
  rewrite (Hc k k'), probe_hit_refl; [done..|apply Hs; constructor|done].
Qed.

End Facts.

Lemma fold_hs_insert_consistent `{Probe H} l0 l s :
  hash_consistent_on l0 -> l ⊆ l0 -> s ⊆ l0 ->
  fold_left hs_insert l s =
  fold_left (hs_insert (H0 := colliding_probe H)) l s.
Proof.
  intros Hc. revert s. induction l as [|k l IH]; intros s Hl Hs; simpl; [done|].
  assert (k ∈ l0) as Hk by (apply Hl; constructor).
  assert (l ⊆ l0) as Hl' by (intros x Hx; apply Hl; by constructor).
  assert (hs_insert s k = hs_insert (H0 := colliding_probe H) s k) as E.
  { unfold hs_insert.
    rewrite (hs_contains_consistent l0), (hs_contains_consistent (H0 := colliding_probe H) l0);
      done. }
  rewrite <- E. apply IH; [done|].
  etrans; [apply hs_insert_subseteq|]. intros x Hx. invc Hx; auto.
Qed.

(** *** What a set contains, with any probe *)

Section Contains.
Context `{Probe H} (eq_refl : forall k, eq k k = true).
Implicit Types (s l : list K) (k x : K).

Lemma hs_contains_covered s k : hs_contains s k = true -> existsb (eq k) s = true.
Proof.
  unfold hs_contains. rewrite !existsb_exists.
  intros (k' & Hin & [_ He]%andb_true_iff). eauto.
Qed.

Lemma hs_contains_elem s k : k ∈ s -> hs_contains s k = true.
Proof.
  intros Hk%list_elem_of_In. apply existsb_exists. exists k.
  by rewrite probe_hit_refl, eq_refl.
Qed.

Lemma hs_contains_insert s k x :
  hs_contains s x = true -> hs_contains (hs_insert s k) x = true.
Proof.
  intros Hx. unfold hs_insert. destruct (hs_contains s k); [done|].
  unfold hs_contains in *. by rewrite existsb_app, Hx.
Qed.

Lemma hs_contains_insert_new s k : hs_contains (hs_insert s k) k = true.
Proof.
  unfold hs_insert. destruct (hs_contains s k) eqn:E; [done|].
  apply hs_contains_elem, elem_of_app. right. constructor.
Qed.

Lemma fold_hs_insert_contains l s x :
  x ∈ l \/ hs_contains s x = true -> hs_contains (fold_left hs_insert l s) x = true.
Proof.
  revert s. induction l as [|k l IH]; intros s [Hx|Hx]; simpl;
    [by apply not_elem_of_nil in Hx|done| |by apply IH; right; apply hs_contains_insert].
  apply IH. invc Hx; [right; apply hs_contains_insert_new|by left].
Qed.

(** A set contains every key collected into it. *)
Lemma hs_collect_contains l x : x ∈ l -> hs_contains (hs_collect l) x = true.
Proof. intros Hx. apply fold_hs_insert_contains. by left. Qed.

End Contains.

(** *** The keys a set holds

    With a probe that meets every key the set holds one key of each class
    of [eq]: no key is [eq] to an earlier one ([distinct_up_to]), and every
    key collected is [eq] to a key of the set. *)

Inductive distinct_up_to : list K -> Prop :=
| distinct_nil : distinct_up_to []
| distinct_snoc s k :
    distinct_up_to s -> existsb (eq k) s = false -> distinct_up_to (s ++ [k]).

Section Nub.
Context (eq_refl : forall k, eq k k = true).
Implicit Types (s l : list K) (k x : K).

#[local] Existing Instance colliding_probe.

Lemma hs_contains_colliding s k : hs_contains s k = existsb (eq k) s.
Proof. done. Qed.

Lemma hs_insert_distinct s k : distinct_up_to s -> distinct_up_to (hs_insert s k).
Proof.
  intros Hs. unfold hs_insert. rewrite hs_contains_colliding.
  destruct (existsb (eq k) s) eqn:E; [done|by constructor].
Qed.

Lemma hs_insert_covers_new s k : existsb (eq k) (hs_insert s k) = true.
Proof.
  unfold hs_insert. rewrite hs_contains_colliding.
  destruct (existsb (eq k) s) eqn:E; [done|].
  rewrite existsb_app. simpl. by rewrite eq_refl, orb_true_r.
Qed.

Lemma hs_insert_covers_old s k x :
  existsb (eq x) s = true -> existsb (eq x) (hs_insert s k) = true.
Proof.
  intros Hx. unfold hs_insert. destruct (hs_contains s k); [done|].
  rewrite existsb_app, Hx. done.
Qed.

Lemma fold_hs_insert_distinct l s :
  distinct_up_to s -> distinct_up_to (fold_left hs_insert l s).
Proof.
  revert s. induction l as [|k l IH]; intros s Hs; simpl; [done|].
  by apply IH, hs_insert_distinct.
Qed.

Lemma fold_hs_insert_covers_old l s x :
  existsb (eq x) s = true -> existsb (eq x) (fold_left hs_insert l s) = true.
Proof.
  revert s. induction l as [|k l IH]; intros s Hs; simpl; [done|].
  by apply IH, hs_insert_covers_old.
Qed.

Lemma fold_hs_insert_covers l s x :
  x ∈ l -> existsb (eq x) (fold_left hs_insert l s) = true.
Proof.
  revert s. induction l as [|k l IH]; intros s Hx; simpl; invc Hx.
  - apply fold_hs_insert_covers_old, hs_insert_covers_new.
  - by apply IH.
Qed.

Lemma nub_distinct l : distinct_up_to (nub l).
Proof. apply fold_hs_insert_distinct. constructor. Qed.

Lemma nub_covers l x : x ∈ l -> existsb (eq x) (nub l) = true.
Proof. apply fold_hs_insert_covers. Qed.

End Nub.

End HashSet.

Arguments hs_contains {K H} eq hash {_} s k.
Arguments hs_insert {K H} eq hash {_} s k.
Arguments hs_collect {K H} eq hash {_} l.
Arguments nub {K H} eq hash l.
Arguments hash_consistent_on {K H} eq hash l.
Arguments distinct_up_to {K} eq s.

#[export] Hint Resolve hs_collect_subseteq : dax.
