(* ===== verification/TableOps.v ===== *)
(** * TableOps: the column store and its aggregates ([src/src/table.rs])

    [Table] is the struct of the sources: a [HashMap] from column name to
    the column's values, modelled as a [gmap].  Module [Table] holds one
    definition per method of [impl Table], each returning what the method
    returns ([None] where it returns [None]).

    The mutable locals of [average] are the pair threaded through
    [average_loop]; its counter is an [i32], kept at that width: it wraps,
    as in a build without overflow checks.  [average_checked] is the same
    method in a build with overflow checks, where the increment of the
    counter panics instead. *)

From Stdlib Require Import String.
From stdpp Require Import gmap.
From S2P Require Import Prelude F64 Chars Types Collections.

#[local] Open Scope float_scope.

(** ** Data *)

Record Table : Type := { columns : gmap rstring (list Value) }.

(** The pattern [Value::Number(n)] of [if let]. *)
Definition as_number (value : Value) : option f64 :=
  match value with
  | Number n => Some n
  | _ => None
  end.

(** [a.partial_cmp(b).unwrap_or(std::cmp::Ordering::Equal)], the comparison
    [min] and [max] pass to [min_by] and [max_by]. *)
Definition cmp_or_equal (a b : f64) : Ordering :=
  default Equal (f64_partial_cmp a b).

Module Table.

(** ** Construction and access *)

Definition new : Table := {| columns := ∅ |}.

Definition get_column (self : Table) (name : rstring) : option (list Value) :=
  columns self !! name.

Definition add_column (self : Table) (name : rstring) (values : list Value) : Table :=
  {| columns := <[name := values]> (columns self) |}.

(** ** Aggregates *)

(** The closure [sum] folds with. *)
Definition sum_step (acc : f64) (value : Value) : f64 :=
  match value with
  | Number n => acc + n
  | _ => acc
  end.

Definition sum (self : Table) (column_name : rstring) : option f64 :=
  let? column := get_column self column_name in
  Some (fold_left sum_step column 0).

(** One iteration of the loop of [average] on the locals [(sum, count)]. *)
Definition average_step (st : f64 * Z) (value : Value) : f64 * Z :=
  match value with
  | Number n => (fst st + n, i32_wrap (snd st + 1))
  | _ => st
  end.

Definition average_loop (column : list Value) : f64 * Z :=
  fold_left average_step column (0, 0%Z).

Definition average (self : Table) (column_name : rstring) : option f64 :=
  let? column := get_column self column_name in
  let '(sum, count) := average_loop column in
  if (0 <? count)%Z then Some (sum / i32_as_f64 count) else Some 0.

(** The same loop in a build with overflow checks, where [count += 1]
    panics instead of wrapping: [None] is the panic. *)
Definition average_step_checked (st : f64 * Z) (value : Value) : option (f64 * Z) :=
  match value with
  | Number n =>
      let? count := i32_add_checked (snd st) 1 in
      Some (fst st + n, count)
  | _ => Some st
  end.

Definition average_loop_checked (column : list Value) : option (f64 * Z) :=
  fold_left (fun st value => st ≫= fun st => average_step_checked st value)
    column (Some (0, 0%Z)).

(** [average] in a build with overflow checks: the outer [None] is the
    panic, the inner one the result for a column that does not exist. *)
Definition average_checked (self : Table) (column_name : rstring) : option (option f64) :=
  match get_column self column_name with
  | None => Some None
  | Some column =>
      let? (sum, count) := average_loop_checked column in
      Some (if (0 <? count)%Z then Some (sum / i32_as_f64 count) else Some 0)
  end.

Definition count (self : Table) (column_name : rstring) : option nat :=
  (fun column => length column) <$> get_column self column_name.

Definition distinctcount `{Probe (list HasherWrite)}
    (self : Table) (column_name : rstring) : option nat :=
  (fun column => length (hs_collect Value_eq Value_hash column))
    <$> get_column self column_name.

Definition min (self : Table) (column_name : rstring) : option f64 :=
  get_column self column_name ≫= fun column =>
    min_by cmp_or_equal (filter_map as_number column).

Definition max (self : Table) (column_name : rstring) : option f64 :=
  get_column self column_name ≫= fun column =>
    max_by cmp_or_equal (filter_map as_number column).

Definition divide (self : Table) (numerator denominator : f64)
    (alternate_result : option f64) : option f64 :=
  if f64_eq denominator 0 then alternate_result
  else Some (numerator / denominator).

End Table.

(** ** Reference definitions *)

(** The numbers of a column, in order. *)
Definition numbers (column : list Value) : list f64 := filter_map as_number column.

(** The sum of a list of numbers, added left to right from [0.0]. *)
Definition fsum (l : list f64) : f64 := fold_left PrimFloat.add l 0.

(** ** Lemmas *)

Section TableFacts.
Implicit Types (t : Table) (name : rstring) (column : list Value).

Lemma get_column_new name : Table.get_column Table.new name = None.
Proof. apply lookup_empty. Qed.

Lemma get_column_add_eq t name values :
  Table.get_column (Table.add_column t name values) name = Some values.
Proof. apply lookup_insert_eq. Qed.

Lemma get_column_add_ne t name name' values :
  name <> name' ->
  Table.get_column (Table.add_column t name values) name' = Table.get_column t name'.
Proof. intros. by apply lookup_insert_ne. Qed.

(** A sequence of [add_column] calls: a name reads the last column added
    under it. *)
Lemma get_column_fold {A} (key : A -> rstring) (val : A -> list Value)
    (l : list A) t name :
  Table.get_column
    (fold_left (fun t a => Table.add_column t (key a) (val a)) l t) name =
  match last (filter (fun a => key a = name) l) with
  | Some a => Some (val a)
  | None => Table.get_column t name
  end.
Proof.
  induction l as [|a l IH] using rev_ind; [done|].
  rewrite fold_left_app, filter_app, filter_cons, filter_nil. simpl.
  destruct (decide (key a = name)) as [<-|Hne].
  - by rewrite last_snoc, get_column_add_eq.
  - by rewrite app_nil_r, get_column_add_ne.
Qed.

Lemma sum_step_fold column acc :
  fold_left Table.sum_step column acc = fold_left PrimFloat.add (numbers column) acc.
Proof.
  revert acc. induction column as [|v column IH]; intros acc; simpl; [done|].
  rewrite IH. by destruct v.
Qed.

Lemma average_loop_fst column st :
  fst (fold_left Table.average_step column st) = fold_left Table.sum_step column (fst st).
Proof.
  revert st. induction column as [|v column IH]; intros st; simpl; [done|].
  rewrite IH. by destruct v.
Qed.

Lemma numbers_cons v column :
  numbers (v :: column) =
  match v with Number n => n :: numbers column | _ => numbers column end.
Proof. by destruct v. Qed.

Lemma numbers_app c1 c2 : numbers (c1 ++ c2) = numbers c1 ++ numbers c2.
Proof. apply filter_map_app. Qed.

Lemma numbers_length column : length (numbers column) <= length column.
Proof. apply filter_map_length. Qed.

Lemma elem_of_numbers n column : n ∈ numbers column <-> Number n ∈ column.
Proof.
  unfold numbers. rewrite elem_of_filter_map. split.
  - intros ([] & Hin & [= ->]). done.
  - intros Hin. by exists (Number n).
Qed.

End TableFacts.

#[export] Hint Rewrite get_column_new get_column_add_eq : dax.
#[export] Hint Resolve numbers_length : dax.

(** ** The counter of [average] *)

Section AverageFacts.
Implicit Types (column : list Value).

Lemma average_loop_snd column st :
  (- 2 ^ 31 <= snd st <= i32_MAX)%Z ->
  snd (fold_left Table.average_step column st) =
  i32_wrap (snd st + Z.of_nat (length (numbers column))).
Proof.
  revert st. induction column as [|v column IH]; intros st Hst.
  { simpl. rewrite i32_wrap_small; lia. }
  rewrite numbers_cons. simpl fold_left.
  destruct v; try (by rewrite IH); simpl.
  rewrite IH by apply i32_wrap_range. simpl.
  rewrite i32_wrap_add_l. f_equal. lia.
Qed.

Lemma average_loop_count column :
  snd (Table.average_loop column) = i32_wrap (Z.of_nat (length (numbers column))).
Proof.
  unfold Table.average_loop. rewrite average_loop_snd; [done|].
  unfold i32_MAX. simpl. lia.
Qed.

Lemma average_loop_sum column :
  fst (Table.average_loop column) = fsum (numbers column).
Proof. unfold Table.average_loop. by rewrite average_loop_fst, sum_step_fold. Qed.

(** [average] on every branch, the wrap-around of its counter included. *)
Lemma average_unfold t name column :
  Table.get_column t name = Some column ->
  Table.average t name =
  Some (if (0 <? i32_wrap (Z.of_nat (length (numbers column))))%Z
        then (fsum (numbers column)
              / i32_as_f64 (i32_wrap (Z.of_nat (length (numbers column)))))%float
        else 0%float).
Proof.
  intros Hc. unfold Table.average. rewrite Hc.
  pose proof (average_loop_count column) as Hn.
  pose proof (average_loop_sum column) as Hs.
  destruct (Table.average_loop column) as [sum count]; simpl in *; subst.
  by destruct (0 <? _)%Z.
Qed.

(** Once the loop has panicked it is over. *)
Lemma average_checked_fold_None column :
  fold_left (fun st value => st ≫= fun st => Table.average_step_checked st value)
    column None = None.
Proof. by induction column. Qed.

(** With overflow checks the loop panics when the counter would pass
    [i32_MAX], and is the loop without them otherwise. *)
Lemma average_checked_fold column st :
  (0 <= snd st <= i32_MAX)%Z ->
  fold_left (fun st value => st ≫= fun st => Table.average_step_checked st value)
    column (Some st) =
  if (snd st + Z.of_nat (length (numbers column)) <=? i32_MAX)%Z
  then Some (fold_left Table.average_step column st) else None.
Proof.
  revert st. induction column as [|v column IH]; intros [sum count] Hst.
  { simpl in *. case_match eqn:E; [done|]. apply Z.leb_gt in E. lia. }
  rewrite numbers_cons. simpl in Hst.
  destruct v as [n| | |]; try by apply IH.
  cbn [fold_left mbind option_bind Table.average_step_checked Table.average_step fst snd
       as_number option_list app length].
  destruct (Z.lt_ge_cases count i32_MAX) as [Hlt|Hge].
  - rewrite i32_add_checked_Some, IH by (simpl; unfold i32_MAX in *; lia). cbn [fst snd].
    rewrite i32_wrap_small by (unfold i32_MAX in *; lia).
    match goal with |- (if ?a <=? _ then _ else _)%Z = (if ?b <=? _ then _ else _)%Z =>
      by replace a with b by lia end.
  - rewrite i32_add_checked_None, average_checked_fold_None by lia.
    case_match eqn:E; [|done]. apply Z.leb_le in E. lia.
Qed.

End AverageFacts.

(** ** Hashing and equality on a column *)

(** No two values of the column are zeros of opposite sign. *)
Definition zeros_agree (column : list Value) : Prop :=
  Forall (fun a => Forall (fun b => ~ opposite_zeros a b) column) column.

#[export] Instance zeros_agree_dec column : Decision (zeros_agree column).
Proof. unfold zeros_agree. apply _. Defined.

Lemma zeros_agree_consistent column :
  zeros_agree column -> hash_consistent_on Value_eq Value_hash column.
Proof.
  unfold zeros_agree. rewrite Forall_forall. intros Hz a b Ha Hb Heq.
  apply Value_hash_respects_eq; [done|].
  specialize (Hz a Ha). rewrite Forall_forall in Hz. by apply Hz.
Qed.

Lemma distinctcount_unfold `{Probe (list HasherWrite)} t name :
  Table.distinctcount t name =
  (fun column => length (hs_collect Value_eq Value_hash column))
    <$> Table.get_column t name.
Proof. done. Qed.

Lemma hs_collect_zeros_agree `{Probe (list HasherWrite)} column :
  zeros_agree column ->
  hs_collect Value_eq Value_hash column = nub Value_eq Value_hash column.
Proof.
  intros Hz. unfold nub, hs_collect.
  apply (fold_hs_insert_consistent Value_eq Value_hash column);
    [by apply zeros_agree_consistent|done|].
  intros x Hx. by apply not_elem_of_nil in Hx.
Qed.

Lemma distinctcount_zeros_agree `{Probe (list HasherWrite)} t name column :
  Table.get_column t name = Some column -> zeros_agree column ->
  Table.distinctcount t name = Some (length (nub Value_eq Value_hash column)).
Proof.
  intros Hc Hz. by rewrite distinctcount_unfold, Hc, <- hs_collect_zeros_agree.
Qed.

(** ** [min] and [max] *)

Section MinMaxFacts.
Implicit Types (l : list float) (a b : float).

Lemma cmp_or_equal_Greater a b : cmp_or_equal a b = Greater -> f64_le b a = true.
Proof.
  unfold cmp_or_equal. destruct (f64_partial_cmp a b) as [[]|] eqn:E; try done.
  intros _. by apply f64_partial_cmp_Greater_le.
Qed.

Lemma cmp_or_equal_other a b :
  f64_is_nan a = false -> f64_is_nan b = false ->
  cmp_or_equal a b <> Greater -> f64_le a b = true.
Proof.
  intros Ha Hb. unfold cmp_or_equal. intros Hc.
  apply f64_partial_cmp_not_Greater_le; [done..|]. intros E. by rewrite E in Hc.
Qed.

(** A comparison against a NaN is never [Greater]. *)
Lemma cmp_or_equal_nan_l a b : f64_is_nan a = true -> cmp_or_equal a b = Equal.
Proof.
  intros Ha. unfold cmp_or_equal.
  by rewrite (proj2 (f64_partial_cmp_None a b)) by auto.
Qed.

Lemma cmp_or_equal_nan_r a b : f64_is_nan b = true -> cmp_or_equal a b = Equal.
Proof.
  intros Hb. unfold cmp_or_equal.
  by rewrite (proj2 (f64_partial_cmp_None a b)) by auto.
Qed.

Lemma cmp_or_equal_min l m x :
  Forall (fun a => f64_is_nan a = false) l ->
  min_by cmp_or_equal l = Some m -> x ∈ l -> f64_le m x = true.
Proof.
  intros Hl Hm. revert x.
  by apply (min_by_lower_bound cmp_or_equal (fun a b => f64_le a b = true)
              (fun a => f64_is_nan a = false) f64_le_refl f64_le_trans
              cmp_or_equal_Greater cmp_or_equal_other).
Qed.

Lemma cmp_or_equal_max l m x :
  Forall (fun a => f64_is_nan a = false) l ->
  max_by cmp_or_equal l = Some m -> x ∈ l -> f64_le x m = true.
Proof.
  intros Hl Hm. revert x.
  by apply (max_by_upper_bound cmp_or_equal (fun a b => f64_le a b = true)
              (fun a => f64_is_nan a = false) f64_le_refl f64_le_trans
              cmp_or_equal_Greater cmp_or_equal_other).
Qed.

(** [min_by] keeps a NaN it starts from; [max_by] drops what it has for
    a NaN it meets. *)
Lemma min_by_nan_first n l :
  f64_is_nan n = true -> min_by cmp_or_equal (n :: l) = Some n.
Proof.
  intros Hn. unfold min_by. simpl. f_equal.
  induction l as [|b l IH]; simpl; [done|].
  unfold min_step at 2. by rewrite cmp_or_equal_nan_l.
Qed.

Lemma max_by_nan_forgets l1 n l2 :
  f64_is_nan n = true ->
  max_by cmp_or_equal (l1 ++ n :: l2) = max_by cmp_or_equal (n :: l2).
Proof.
  intros Hn. destruct l1 as [|x l1]; [done|]. unfold max_by. simpl.
  rewrite fold_left_app. simpl. do 2 f_equal.
  unfold max_step. by rewrite cmp_or_equal_nan_r.
Qed.

End MinMaxFacts.

(** ** Properties *)

(** The table of [main] ([src/src/main.rs]) and the columns of the tests. *)
Definition main_table : Table :=
  let table := Table.new in
  let table := Table.add_column table (str "Sales")
                 [Number 100; Number 150; Number 200] in
  let table := Table.add_column table (str "Discount")
                 [Number 0; Number 0; Number 0] in
  let table := Table.add_column table (str "Quantity")
                 [Number 10; Number 15; Number 15] in
  Table.add_column table (str "Product")
    [Text (str "Apple"); Text (str "Banana"); Text (str "Orange")].

Definition mixed_table : Table :=
  Table.add_column Table.new (str "Mixed")
    [Number 100; Text (str "Not a number"); Number 300].

Definition special_table : Table :=
  Table.add_column Table.new (str "special")
    [Number nan; Number nan; Number infinity; Number neg_infinity].

(** ** When an operation has no result *)

Section Absent.
Implicit Types (t : Table) (name : rstring) (column : list Value).

Lemma sum_None t name : Table.sum t name = None <-> Table.get_column t name = None.
Proof. unfold Table.sum. by destruct (Table.get_column t name). Qed.

Lemma average_None t name :
  Table.average t name = None <-> Table.get_column t name = None.
Proof.
  unfold Table.average. destruct (Table.get_column t name) as [column|]; [|done].
  simpl. destruct (Table.average_loop column). by case_match.
Qed.

Lemma distinctcount_None `{Probe (list HasherWrite)} t name :
  Table.distinctcount t name = None <-> Table.get_column t name = None.
Proof. unfold Table.distinctcount. apply fmap_None. Qed.

Lemma min_None t name :
  Table.min t name = None <->
  Table.get_column t name = None \/
  exists column, Table.get_column t name = Some column /\ numbers column = [].
Proof.
  unfold Table.min. destruct (Table.get_column t name) as [column|]; simpl.
  - fold (numbers column). unfold min_by. rewrite reduce_None.
    split; [eauto|by intros [|(? & [= <-] & ?)]].
  - split; [by left|done].
Qed.

Lemma max_None t name :
  Table.max t name = None <->
  Table.get_column t name = None \/
  exists column, Table.get_column t name = Some column /\ numbers column = [].
Proof.
  unfold Table.max. destruct (Table.get_column t name) as [column|]; simpl.
  - fold (numbers column). unfold max_by. rewrite reduce_None.
    split; [eauto|by intros [|(? & [= <-] & ?)]].
  - split; [by left|done].
Qed.

End Absent.

Section TableProperties.
Implicit Types (t : Table) (name : rstring) (column : list Value).

(** C3: [sum] adds the numbers of the column, left to right from [0.0],
    and skips every other value; it answers [None] exactly when the column
    does not exist, so a column without numbers sums to [0.0]. *)
Theorem sum_spec t name :
  Table.sum t name = (fun column => fsum (numbers column)) <$> Table.get_column t name.
Proof.
  unfold Table.sum, fsum. destruct (Table.get_column t name); simpl; [|done].
  by rewrite sum_step_fold.
Qed.

(** C4: [average] of an existing column with fewer than [2^31] numbers is
    their sum divided by their count, and [0.0] (not an absent result) when
    the column has no number. *)
Theorem average_spec t name column :
  Table.get_column t name = Some column ->
  (Z.of_nat (length (numbers column)) <= i32_MAX)%Z ->
  Table.average t name =
  Some (match numbers column with
        | [] => 0
        | ns => fsum ns / i32_as_f64 (Z.of_nat (length ns))
        end).
Proof.
  intros Hc Hlen. rewrite (average_unfold _ _ _ Hc). f_equal.
  rewrite i32_wrap_small by lia.
  destruct (numbers column) as [|n ns]; [done|].
  by replace (0 <? _)%Z with true by (symmetry; apply Z.ltb_lt; simpl; lia).
Qed.

(** C39: [average] in a build with overflow checks: on an existing column
    it panics exactly when the column holds [2^31] numbers or more, at the
    increment of the counter, and otherwise returns what the build
    without the checks returns. *)
Theorem average_overflow_checks t name column :
  Table.get_column t name = Some column ->
  Table.average_checked t name =
  if (Z.of_nat (length (numbers column)) <=? i32_MAX)%Z
  then Some (Table.average t name) else None.
Proof.
  intros Hc. unfold Table.average_checked, Table.average, Table.average_loop_checked.
  rewrite Hc, average_checked_fold by (unfold i32_MAX; simpl; lia). simpl.
  destruct (_ <=? _)%Z; [|done]. fold (Table.average_loop column).
  by destruct (Table.average_loop column).
Qed.

(** C37: the counter of [average] is an [i32]: on a column with exactly
    [2^31] numbers it has wrapped to [-2^31] when the loop ends, the test
    [count > 0] fails, and [average] answers [0.0] whatever the numbers
    are (a build with overflow checks panics instead). *)
Theorem average_counter_wraps t name column :
  Table.get_column t name = Some column ->
  Z.of_nat (length (numbers column)) = (2 ^ 31)%Z ->
  Table.average t name = Some 0.
Proof. intros Hc Hlen. by rewrite (average_unfold _ _ _ Hc), Hlen. Qed.

(** C24: [min] and [max] of an existing column are absent exactly when the
    column has no number (never zero), and otherwise are one of the
    column's numbers. *)
Theorem min_max_absent t name column :
  Table.get_column t name = Some column ->
  (Table.min t name = None <-> numbers column = []) /\
  (Table.max t name = None <-> numbers column = []) /\
  (forall m, Table.min t name = Some m \/ Table.max t name = Some m ->
             Number m ∈ column).
Proof.
  intros Hc. unfold Table.min, Table.max. rewrite Hc. simpl.
  split_and!; [apply reduce_None..|].
  intros m [Hm|Hm]; apply elem_of_numbers;
    [by eapply min_by_elem_of|by eapply max_by_elem_of].
Qed.

(** C5: on a column whose numbers include no NaN, [min] is a lower bound
    and [max] an upper bound of the column's numbers. *)
Theorem min_max_bounds t name column lo hi :
  Table.get_column t name = Some column ->
  Forall (fun x => f64_is_nan x = false) (numbers column) ->
  Table.min t name = Some lo -> Table.max t name = Some hi ->
  forall x, Number x ∈ column -> f64_le lo x = true /\ f64_le x hi = true.
Proof.
  intros Hc Hnan. unfold Table.min, Table.max. rewrite Hc. simpl.
  intros Hlo Hhi x Hx%elem_of_numbers. split.
  - by apply (cmp_or_equal_min (numbers column)).
  - by apply (cmp_or_equal_max (numbers column)).
Qed.

(** C36: a NaN makes [min] and [max] depend on the order of the column:
    [max] forgets every number before a NaN (so it can return a number
    smaller than one of the column), and [min] returns the NaN when the
    NaN comes first. *)
Theorem min_max_nan_unstable t name c1 c2 n :
  f64_is_nan n = true ->
  Table.get_column t name = Some (c1 ++ Number n :: c2) ->
  Table.max t name = max_by cmp_or_equal (n :: numbers c2) /\
  (numbers c1 = [] -> Table.min t name = Some n).
Proof.
  intros Hn Hc. unfold Table.min, Table.max. rewrite Hc. simpl.
  fold (numbers (c1 ++ Number n :: c2)). rewrite numbers_app, numbers_cons.
  split; [by apply max_by_nan_forgets|].
  intros ->. by apply min_by_nan_first.
Qed.


(** C6: on a column that does not hold zeros of both signs,
    [distinctcount] does not depend on the hasher and counts the values up
    to [Value_eq]: it is the size of a set of values of the column in which
    no value equals an earlier one and to which every value of the column
    is equal; all NaNs count once. *)
Theorem distinctcount_classes `{Probe (list HasherWrite)} t name column :
  Table.get_column t name = Some column -> zeros_agree column ->
  exists s,
    Table.distinctcount t name = Some (length s) /\
    s ⊆ column /\ distinct_up_to Value_eq s /\
    forall v, v ∈ column -> existsb (Value_eq v) s = true.
Proof.
  intros Hc Hz. exists (nub Value_eq Value_hash column).
  split_and!; [by apply distinctcount_zeros_agree|apply hs_collect_subseteq|..].
  - apply nub_distinct.
  - apply nub_covers, Value_eq_refl.
Qed.

(** On a column that holds both zeros the result of [distinctcount]
    depends on the hash table: they count twice when the lookup of one does
    not meet the other, and once when it does. *)
Lemma distinctcount_zeros_example :
  let t := Table.add_column Table.new (str "z") [Number 0; Number (-0)] in
  Table.distinctcount (H := exact_probe _) t (str "z") = Some 2%nat /\
  Table.distinctcount (H := colliding_probe _) t (str "z") = Some 1%nat.
Proof. by vm_compute. Qed.

(** [add_column] then [get_column]: the column just added is read
    back, a previous column of that name is overwritten, and every other
    column is unchanged; a new table has no column. *)
Theorem get_column_add_column t name name' values :
  Table.get_column (Table.add_column t name values) name' =
    (if decide (name = name') then Some values else Table.get_column t name') /\
  Table.get_column Table.new name' = None.
Proof.
  split; [|apply get_column_new].
  destruct (decide (name = name')) as [->|Hne];
    [apply get_column_add_eq|by apply get_column_add_ne].
Qed.

(** [divide] returns the alternate result exactly when the
    denominator is a zero of either sign, and the quotient otherwise (a NaN
    denominator included). *)
Theorem divide_spec t numerator denominator alternate_result :
  Table.divide t numerator denominator alternate_result =
  if f64_is_zero denominator then alternate_result
  else Some (numerator / denominator)%float.
Proof.
  unfold Table.divide. destruct (f64_is_zero denominator) eqn:Ez.
  - by rewrite f64_eq_zero_zero.
  - destruct (f64_eq denominator 0) eqn:E; [|done].
    apply f64_eq_inv in E as [[E _]|[-> _]]; [congruence|done].
Qed.

End TableProperties.

Lemma numbers_replicate n x : numbers (replicate n (Number x)) = replicate n x.
Proof. induction n as [|n IH]; simpl; [done|]. by rewrite <- IH. Qed.

(** ** Witnesses *)

Definition nan_table : Table :=
  Table.add_column Table.new (str "c") [Number 5; Number nan; Number 1].

(** A column of [2^31] numbers. *)
Definition big_column : list Value := replicate (Z.to_nat (2 ^ 31)) (Number 1).
Definition big_table : Table := Table.add_column Table.new (str "big") big_column.

Lemma big_column_length : Z.of_nat (length (numbers big_column)) = (2 ^ 31)%Z.
Proof.
  unfold big_column. rewrite numbers_replicate, length_replicate.
  apply Z2Nat.id. apply Z.pow_nonneg. lia.
Defined.

Lemma average_spec_witness :
  Table.average main_table (str "Quantity") =
  Some (fsum [10; 15; 15] / i32_as_f64 3)%float.
Proof.
  exact (average_spec main_table (str "Quantity")
           [Number 10; Number 15; Number 15] eq_refl ltac:(by vm_compute)).
Defined.

Lemma average_overflow_checks_witness :
  Table.average_checked big_table (str "big") =
  if (Z.of_nat (length (numbers big_column)) <=? i32_MAX)%Z
  then Some (Table.average big_table (str "big")) else None.
Proof.
  exact (average_overflow_checks big_table (str "big") big_column
           (get_column_add_eq _ _ _)).
Defined.

Lemma average_counter_wraps_witness :
  Table.average big_table (str "big") = Some 0%float.
Proof.
  exact (average_counter_wraps big_table (str "big") big_column
           (get_column_add_eq _ _ _) big_column_length).
Defined.

Lemma min_max_absent_witness :
  (Table.min main_table (str "Product") = None <-> @nil float = []) /\
  (Table.max main_table (str "Product") = None <-> @nil float = []) /\
  (forall m, Table.min main_table (str "Product") = Some m \/
             Table.max main_table (str "Product") = Some m ->
             Number m ∈ [Text (str "Apple"); Text (str "Banana"); Text (str "Orange")]).
Proof.
  exact (min_max_absent main_table (str "Product")
           [Text (str "Apple"); Text (str "Banana"); Text (str "Orange")] eq_refl).
Defined.

Lemma min_max_bounds_witness :
  f64_le 100 150 = true /\ f64_le 150 200 = true.
Proof.
  refine (min_max_bounds main_table (str "Sales")
            [Number 100; Number 150; Number 200] 100 200 eq_refl _ eq_refl eq_refl
            150 _).
  - by repeat constructor.
  - by repeat constructor.
Defined.

Lemma min_max_nan_unstable_witness :
  Table.max nan_table (str "c") = Some 1%float.
Proof.
  exact (proj1 (min_max_nan_unstable nan_table (str "c") [Number 5] [Number 1] nan
                  eq_refl eq_refl)).
Defined.


Lemma distinctcount_classes_witness :
  exists s,
    Table.distinctcount (H := exact_probe _) special_table (str "special") = Some (length s) /\
    s ⊆ [Number nan; Number nan; Number infinity; Number neg_infinity] /\
    distinct_up_to Value_eq s /\
    forall v, v ∈ [Number nan; Number nan; Number infinity; Number neg_infinity] ->
              existsb (Value_eq v) s = true.
Proof.
  exact (distinctcount_classes (H := exact_probe _) special_table (str "special")
           [Number nan; Number nan; Number infinity; Number neg_infinity] eq_refl
           (bool_decide_unpack
              (zeros_agree [Number nan; Number nan; Number infinity; Number neg_infinity])
              I)).
Defined.
