(* ===== verification/Distinct.v ===== *)
(** * Distinct: [distinctcount] and the hash table ([src/src/table.rs],
      [src/src/types.rs])

    [Table::distinctcount] collects the column into a [HashSet<Value>] and
    returns its size.  [Value::eq] identifies [0.0] and [-0.0] and
    [Value::hash] separates them, so the size depends on whether the lookup
    of one zero meets the other, which the hasher and the layout of the
    table decide: the class [Probe].

    [classes column] is the number of classes of [Value::eq] in the column,
    [both_zeros] says that the column holds the two zeros.  The set built
    with any probe is followed along the column together with the set
    built when every lookup meets every key ([tracks]): the two cover the
    same values, and the first is larger by one exactly when it holds both
    zeros.  The theorem gives the result of [distinctcount] for every
    probe. *)

From Stdlib Require Import String.
From stdpp Require Import gmap.
From S2P Require Import Prelude F64 Chars Types Collections TableOps.

(** ** Reference *)

(** The number of values of the column up to [Value::eq]. *)
Definition classes (column : list Value) : nat :=
  length (nub Value_eq Value_hash column).

(** The column holds the two zeros. *)
Definition both_zeros (column : list Value) : Prop :=
  Number 0 ∈ column /\ Number (-0) ∈ column.

#[export] Instance both_zeros_dec column : Decision (both_zeros column).
Proof. unfold both_zeros. apply _. Defined.

(** What the zeros add to the size of a set. *)
Definition extra (s : list Value) : nat := if decide (both_zeros s) then 1 else 0.

(** ** The zeros of a column *)

Section Zeros.
Implicit Types (s column : list Value) (v w k : Value).

Lemma zero_neq_neg_zero : Number 0 <> Number (-0).
Proof.
  intros E. apply (f_equal (fun v => if v is Number x then Prim2SF x else S754_nan)) in E.
  by vm_compute in E.
Qed.

Lemma zeros_agree_both_zeros column : zeros_agree column <-> ~ both_zeros column.
Proof.
  unfold zeros_agree, both_zeros. rewrite Forall_forall. split.
  - intros Hz [H0 H1]. specialize (Hz _ H0). rewrite Forall_forall in Hz.
    apply (Hz _ H1), opposite_zeros_inv. by left.
  - intros Hb a Ha. apply Forall_forall.
    intros b Hb' [[-> ->]|[-> ->]]%opposite_zeros_inv; by apply Hb.
Qed.

Lemma both_zeros_subseteq s column : s ⊆ column -> both_zeros s -> both_zeros column.
Proof. intros Hs [? ?]. split; by apply Hs. Qed.

Lemma existsb_Value_eq_elem s v : v ∈ s -> existsb (Value_eq v) s = true.
Proof.
  intros Hv%list_elem_of_In. apply existsb_exists. exists v.
  by rewrite Value_eq_refl.
Qed.

(** Membership up to [Value::eq] does not tell equal values apart, in the
    value and in the set. *)
Lemma existsb_Value_eq_proper s s' v v' :
  Forall2 (≡) s s' -> v ≡ v' -> existsb (Value_eq v) s = existsb (Value_eq v') s'.
Proof.
  intros Hs Hv. induction Hs as [|k k' s s' Hk _ IH]; [done|].
  cbn. by rewrite IH, Hv, Hk.
Qed.

Lemma existsb_Value_eq_trans s v w :
  existsb (Value_eq v) s = true -> Value_eq w v = true ->
  existsb (Value_eq w) s = true.
Proof.
  intros Hv Hw. rewrite <- Hv. by apply existsb_Value_eq_proper; [reflexivity|].
Qed.

(** The set of the classes follows the column up to [Value::eq]. *)
Lemma fold_insert_class_proper l l' s s' :
  Forall2 (≡) l l' -> Forall2 (≡) s s' ->
  Forall2 (≡) (fold_left (hs_insert (H0 := colliding_probe _) Value_eq Value_hash) l s)
    (fold_left (hs_insert (H0 := colliding_probe _) Value_eq Value_hash) l' s').
Proof.
  intros Hl. revert s s'.
  induction Hl as [|v v' l l' Hv _ IH]; intros s s' Hs; [done|].
  apply IH. unfold hs_insert. rewrite !hs_contains_colliding.
  rewrite (existsb_Value_eq_proper s s' v v') by done.
  destruct (existsb _ _); [done|]. apply Forall2_app; [done|by constructor].
Qed.

(** The number of classes is a function of the column up to
    [Value::eq]. *)
#[export] Instance classes_proper : Proper (Forall2 (≡) ==> (=)) classes.
Proof.
  intros l l' Hl. eapply Forall2_length, fold_insert_class_proper; [done|constructor].
Qed.

(** A value that no value of the set is equal to adds no pair of zeros. *)
Lemma both_zeros_snoc_new s v :
  existsb (Value_eq v) s = false -> both_zeros (s ++ [v]) <-> both_zeros s.
Proof.
  intros Hv. split; [|by apply both_zeros_subseteq, list_subseteq_app_l].
  assert (forall z, Value_eq v z = true -> z ∉ s) as Hn.
  { intros z Hz Hin%existsb_Value_eq_elem.
    by rewrite (existsb_Value_eq_trans s z v) in Hv. }
  intros [[H0|<-%list_elem_of_singleton]%elem_of_app
          [H1|E%list_elem_of_singleton]%elem_of_app]; [done|..].
  - subst v. by destruct (Hn (Number 0) eq_refl).
  - by destruct (Hn (Number (-0)) eq_refl).
  - by destruct zero_neq_neg_zero.
Qed.

End Zeros.

(** ** The set of a probe and the set of the classes *)

Section Tracks.
Context `{Probe (list HasherWrite)}.
Implicit Types (s sc column : list Value) (v w k : Value).

#[local] Abbreviation insert := (hs_insert Value_eq Value_hash).
#[local] Abbreviation insert_class :=
  (hs_insert (H0 := colliding_probe _) Value_eq Value_hash).

(** A value that the lookup misses although the set holds an equal one is
    a zero, and the set holds the other zero and not this one. *)
Lemma missed_zero s v :
  hs_contains Value_eq Value_hash s v = false -> existsb (Value_eq v) s = true ->
  ~ both_zeros s /\ both_zeros (s ++ [v]).
Proof.
  intros Hc (k & Hin%list_elem_of_In & He)%existsb_exists.
  assert (v ∉ s) as Hv.
  { intros Hv. by rewrite (hs_contains_elem _ _ Value_eq_refl) in Hc. }
  assert (opposite_zeros v k) as Hz.
  { destruct (decide (opposite_zeros v k)) as [|Hn]; [done|]. exfalso.
    apply not_true_iff_false in Hc. apply Hc. unfold hs_contains.
    apply existsb_exists. exists k.
    rewrite (Value_hash_respects_eq v k He Hn), probe_hit_refl, He.
    split; [by apply list_elem_of_In|done]. }
  apply opposite_zeros_inv in Hz as [[-> ->]|[-> ->]].
  - split; [by intros [? _]|]. split; apply elem_of_app; [right; constructor|by left].
  - split; [by intros [_ ?]|]. split; apply elem_of_app; [by left|right; constructor].
Qed.

(** The set built with the probe and the set built when every lookup
    meets every key, after the same values: they cover the same values, and
    the first is larger by what the zeros add. *)
Definition tracks s sc : Prop :=
  (forall w, existsb (Value_eq w) s = existsb (Value_eq w) sc) /\
  length s = length sc + extra s.

Lemma tracks_insert s sc v : tracks s sc -> tracks (insert s v) (insert_class sc v).
Proof.
  intros [Hc Hl]. unfold hs_insert at 2. rewrite hs_contains_colliding, <- Hc.
  unfold hs_insert. destruct (hs_contains _ _ s v) eqn:Ec.
  { by rewrite (hs_contains_covered _ _ _ _ Ec). }
  destruct (existsb (Value_eq v) s) eqn:Ee.
  - destruct (missed_zero s v Ec Ee) as [Hn Hb]. split.
    + intros w. rewrite existsb_app, <- Hc. cbn. rewrite orb_false_r.
      destruct (Value_eq w v) eqn:Ew; [|by rewrite orb_false_r].
      by rewrite (existsb_Value_eq_trans s v w).
    + rewrite length_app, Hl. unfold extra.
      rewrite decide_False, decide_True by done. simpl. lia.
  - split.
    + intros w. by rewrite !existsb_app, Hc.
    + rewrite !length_app, Hl. unfold extra.
      by rewrite (decide_ext _ _ _ _ (both_zeros_snoc_new s v Ee)), Nat.add_shuffle0.
Qed.

Lemma tracks_fold l s sc :
  tracks s sc -> tracks (fold_left insert l s) (fold_left insert_class l sc).
Proof.
  revert s sc. induction l as [|v l IH]; intros s sc Ht; [done|].
  by apply IH, tracks_insert.
Qed.

(** The size of the set of a column. *)
Lemma hs_collect_length column :
  length (hs_collect Value_eq Value_hash column) =
  classes column + extra (hs_collect Value_eq Value_hash column).
Proof. by apply (tracks_fold column [] []). Qed.

End Tracks.

(** With the probe that meets the keys of the same hash only, the set
    holds every zero of the column. *)
Lemma exact_collect_zero column z :
  z = Number 0 \/ z = Number (-0) -> z ∈ column ->
  z ∈ hs_collect (H0 := exact_probe _) Value_eq Value_hash column.
Proof.
  intros Hz Hin.
  pose proof (hs_collect_contains (H0 := exact_probe _) Value_eq Value_hash
                Value_eq_refl column z Hin) as Hc.
  apply existsb_exists in Hc as (k & Hk%list_elem_of_In & [Hh%bool_decide_eq_true He]%andb_true_iff).
  destruct (Value_eq_hash_inv z k He Hh) as [->|(x & y & -> & _ & Hx & _)]; [done|].
  by destruct Hz as [[= ->]|[= ->]].
Qed.

(** ** Properties *)

(** C18: the result of [distinctcount] for every hasher and table
    layout: it is the number of classes of [Value::eq] in the column, or
    one more, and it can be one more only when the column holds both
    [0.0] and [-0.0], which are equal and hash differently.  Both results
    occur: a table in which every lookup meets every key gives the number
    of classes, and a table in which a lookup meets the keys of the same
    hash only counts the two zeros of a column twice. *)
Theorem distinctcount_zeros_depend_on_table `{Probe (list HasherWrite)} t name column :
  Table.get_column t name = Some column ->
  (Table.distinctcount t name = Some (classes column) \/
   Table.distinctcount t name = Some (S (classes column)) /\ both_zeros column) /\
  Table.distinctcount (H := colliding_probe _) t name = Some (classes column) /\
  (both_zeros column ->
   Table.distinctcount (H := exact_probe _) t name = Some (S (classes column))).
Proof.
  intros Hc. rewrite !distinctcount_unfold, Hc. cbn. split_and!; [|done|].
  - rewrite hs_collect_length. unfold extra. case_decide as Hb; [right|left; f_equal; lia].
    split; [f_equal; lia|]. eapply both_zeros_subseteq, Hb. apply hs_collect_subseteq.
  - intros [H0 H1]. rewrite hs_collect_length. unfold extra.
    rewrite decide_True; [f_equal; lia|]. split; apply exact_collect_zero; auto.
Qed.

(** ** Witnesses *)

Lemma distinctcount_zeros_depend_on_table_witness :
  let t := Table.add_column Table.new (str "z") [Number 0; Number (-0); Number 1] in
  (Table.distinctcount (H := exact_probe _) t (str "z") = Some 2%nat \/
   Table.distinctcount (H := exact_probe _) t (str "z") = Some 3%nat /\
   both_zeros [Number 0; Number (-0); Number 1]) /\
  Table.distinctcount (H := colliding_probe _) t (str "z") = Some 2%nat /\
  (both_zeros [Number 0; Number (-0); Number 1] ->
   Table.distinctcount (H := exact_probe _) t (str "z") = Some 3%nat).
Proof.
  exact (distinctcount_zeros_depend_on_table (H := exact_probe _)
           (Table.add_column Table.new (str "z") [Number 0; Number (-0); Number 1])
           (str "z") [Number 0; Number (-0); Number 1] (get_column_add_eq _ _ _)).
Defined.
