(* ===== verification/Render.v ===== *)
(** * Render: the rendering of a table ([impl fmt::Display for Table],
    [src/src/table.rs])

    [fmt] writes a grid: a top border, the column names in sorted order, a
    separator, one line per row and a bottom border.  It iterates over the
    [HashMap] of the columns three times; the order of that iteration is not
    specified, and is the class [HashOrder] here: any listing of the entries
    of the map.  [gmap_order], [reverse_order] and [front_order k], which
    meets the column [k] first, are such listings.  The text written is the
    list of its lines ([fmt_lines]), each ended by [writeln!]; [None] is a
    panic.

    The theorems show when the rendering panics, what the lengths of the
    lines are, and that the lines do not depend on the order of the
    iteration exactly when the columns have one length. *)

From Stdlib Require Import String.
From stdpp Require Import gmap sorting.
From S2P Require Import Prelude F64 Chars Fmt Types Collections TableOps.

(** ** The standard library *)

(** [a <= b] on strings: the lexicographic order of the code points, which
    is the order of their UTF-8 bytes. *)
Fixpoint str_le (a b : rstring) : bool :=
  match a, b with
  | [], _ => true
  | _ :: _, [] => false
  | x :: a', y :: b' => (x <? y)%N || ((x =? y)%N && str_le a' b')
  end.

Definition str_order : relation rstring := fun a b => str_le a b = true.

#[export] Instance str_order_dec : RelDecision str_order.
Proof. intros a b. unfold str_order. apply _. Defined.

(** [v.sort()] on strings. *)
Definition sort (v : list rstring) : list rstring := merge_sort str_order v.

(** The order in which a [HashMap] is iterated: some listing of its
    entries, the same at every iteration of an unchanged map. *)
Class HashOrder : Type := {
  hash_iter : Table -> list (rstring * list Value);
  hash_iter_perm t : hash_iter t ≡ₚ map_to_list (columns t);
}.

(** The listing of the map of the model, which computes. *)
Definition gmap_order : HashOrder :=
  {| hash_iter t := map_to_list (columns t);
     hash_iter_perm t := reflexivity _ |}.

(** The same listing backwards. *)
Definition reverse_order : HashOrder :=
  {| hash_iter t := reverse (map_to_list (columns t));
     hash_iter_perm t := reverse_Permutation _ |}.

(** The listing that meets the column [k] first, when there is one. *)
Definition front_iter (k : rstring) (t : Table) : list (rstring * list Value) :=
  match columns t !! k with
  | Some values => (k, values) :: map_to_list (delete k (columns t))
  | None => map_to_list (columns t)
  end.

Lemma front_iter_perm k t : front_iter k t ≡ₚ map_to_list (columns t).
Proof.
  unfold front_iter. destruct (columns t !! k) as [values|] eqn:E; [|done].
  rewrite <- (insert_delete_id (columns t) k values E) at 2.
  by rewrite map_to_list_insert by apply lookup_delete_eq.
Qed.

Definition front_order (k : rstring) : HashOrder :=
  {| hash_iter := front_iter k; hash_iter_perm := front_iter_perm k |}.

(** ** The characters of the grid *)

Definition HBAR : N := 0x2500.
Definition VBAR : N := 0x2502.
Definition TOP_LEFT : N := 0x250C.
Definition TOP_RIGHT : N := 0x2510.
Definition MID_LEFT : N := 0x251C.
Definition MID_RIGHT : N := 0x2524.
Definition BOTTOM_LEFT : N := 0x2514.
Definition BOTTOM_RIGHT : N := 0x2518.

(** ** Operations *)

(** The width a value asks of its column. *)
Definition value_width (value : Value) : nat :=
  match value with
  | Text s => String_len s
  | Number n => String_len (format_fixed2 n)
  | Boolean b => if b then 4 else 5
  | Null => 0
  end.

(** The first loop: [column_widths.insert(column_name, column_name.len())]. *)
Definition widths_init (entries : list (rstring * list Value)) : gmap rstring nat :=
  fold_left (fun w entry => <[entry.1 := String_len entry.1]> w) entries ∅.

(** The body of the inner loop of the second loop. *)
Definition widths_value (column_name : rstring) (w : gmap rstring nat)
    (value : Value) : gmap rstring nat :=
  let current_max := default 0 (w !! column_name) in
  <[column_name := Nat.max current_max (value_width value)]> w.

(** The second loop. *)
Definition widths_update (entries : list (rstring * list Value))
    (w : gmap rstring nat) : gmap rstring nat :=
  fold_left (fun w entry => fold_left (widths_value entry.1) entry.2 w) entries w.

Definition column_widths (entries : list (rstring * list Value)) : gmap rstring nat :=
  widths_update entries (widths_init entries).

(** [column_widths[name]], which panics on a name that is not a key; the
    names it is called with are keys ([column_widths_lookup]). *)
Definition width_of (w : gmap rstring nat) (name : rstring) : nat :=
  default 0 (w !! name).

(** The argument of [repeat]:
    [names.map(|name| column_widths[name] + 2).sum() + names.len() - 1];
    the subtraction overflows when there is no column. *)
Definition border_width (w : gmap rstring nat) (column_names : list rstring) :
    option nat :=
  let total := sum_list ((fun name => width_of w name + 2) <$> column_names)
               + length column_names in
  if (total =? 0)%nat then None else Some (total - 1).

(** [format!("┌{}┐", "─".repeat(n))] and the like. *)
Definition border (left right : N) (n : nat) : rstring :=
  left :: replicate n HBAR ++ [right].

(** [if i > 0 { write!(f, "│") }]. *)
Definition cell_sep (i : nat) : rstring := if (0 <? i)%nat then [VBAR] else [].

(** A cell between its spaces. *)
Definition cell (text : rstring) : rstring := ch " " :: text ++ [ch " "].

Definition name_cell (w : gmap rstring nat) (i : nat) (column_name : rstring) : rstring :=
  cell_sep i ++ cell (fmt_left (width_of w column_name) column_name).

(** The line of the column names. *)
Definition name_row (w : gmap rstring nat) (column_names : list rstring) : rstring :=
  concat (imap (name_cell w) column_names).

(** The text of a value in a column of a width. *)
Definition value_text (width : nat) (value : Value) : rstring :=
  match value with
  | Text s => fmt_left width s
  | Number n => fmt_right width (format_fixed2 n)
  | Boolean b => fmt_right width (format_bool b)
  | Null => fmt_right width []
  end.

(** One cell of a data row: nothing is written for a column that has no
    value at the row. *)
Definition value_cell (self : Table) (w : gmap rstring nat) (row : nat) (i : nat)
    (column_name : rstring) : rstring :=
  cell_sep i ++
  match Table.get_column self column_name with
  | Some values =>
      match values !! row with
      | Some value => cell (value_text (width_of w column_name) value)
      | None => []
      end
  | None => []
  end.

Definition data_row (self : Table) (w : gmap rstring nat)
    (column_names : list rstring) (row : nat) : rstring :=
  concat (imap (value_cell self w row) column_names).

(** The writes, once the widths, the names and the number of rows are
    known: the borders, the names and the rows. *)
Definition write_lines (self : Table) (w : gmap rstring nat)
    (column_names : list rstring) (row_count : nat) : option (list rstring) :=
  let? n := border_width w column_names in
  Some ([border TOP_LEFT TOP_RIGHT n; name_row w column_names;
         border MID_LEFT MID_RIGHT n]
        ++ (data_row self w column_names <$> seq 0 row_count)
        ++ [border BOTTOM_LEFT BOTTOM_RIGHT n]).

Section Fmt.
Context `{HashOrder}.

(** [self.columns.values().next().map(|v| v.len()).unwrap_or(0)]. *)
Definition row_count (self : Table) : nat :=
  default 0 (length <$> head (hash_iter self).*2).

(** The lines [fmt] writes; [None] when it panics. *)
Definition fmt_lines (self : Table) : option (list rstring) :=
  let entries := hash_iter self in
  let w := column_widths entries in
  let column_names := sort entries.*1 in
  write_lines self w column_names (row_count self).

(** The text: every line ended by a line feed. *)
Definition fmt (self : Table) : option rstring :=
  (fun lines => concat ((fun line => line ++ [10%N]) <$> lines)) <$> fmt_lines self.

End Fmt.

(** ** The order of the names *)

Section StrOrder.
Implicit Types (a b c : rstring).

Lemma str_le_refl a : str_le a a = true.
Proof.
  induction a as [|x a IH]; [done|]. simpl.
  by rewrite N.eqb_refl, IH, orb_true_r.
Qed.

Lemma str_le_cons x a y b :
  str_le (x :: a) (y :: b) = true <-> (x < y)%N \/ (x = y /\ str_le a b = true).
Proof.
  simpl. by rewrite orb_true_iff, andb_true_iff, N.ltb_lt, N.eqb_eq.
Qed.

Lemma str_le_total a b : str_le a b = true \/ str_le b a = true.
Proof.
  revert b. induction a as [|x a IH]; intros [|y b]; try by auto.
  rewrite !str_le_cons. destruct (IH b); destruct (N.lt_trichotomy x y) as [|[|]];
    auto.
Qed.

Lemma str_le_trans a b c :
  str_le a b = true -> str_le b c = true -> str_le a c = true.
Proof.
  revert b c. induction a as [|x a IH]; intros [|y b] [|z c]; try done.
  rewrite !str_le_cons. intros [?|[-> ?]] [?|[-> ?]]; eauto; left; lia.
Qed.

Lemma str_le_antisym a b : str_le a b = true -> str_le b a = true -> a = b.
Proof.
  revert b. induction a as [|x a IH]; intros [|y b]; try done.
  rewrite !str_le_cons. intros [?|[E ?]] [?|[E' ?]]; try lia.
  subst. f_equal. by apply IH.
Qed.

#[export] Instance str_order_total : Total str_order.
Proof. intros a b. apply str_le_total. Qed.

#[export] Instance str_order_trans : Transitive str_order.
Proof. intros a b c. apply str_le_trans. Qed.

#[export] Instance str_order_antisym : AntiSymm eq str_order.
Proof. intros a b. apply str_le_antisym. Qed.

#[export] Instance str_order_refl : Reflexive str_order.
Proof. intros a. apply str_le_refl. Qed.

Lemma sort_perm v : sort v ≡ₚ v.
Proof. apply merge_sort_Permutation. Qed.

Lemma sort_sorted v : StronglySorted str_order (sort v).
Proof. apply StronglySorted_merge_sort; apply _. Qed.

(** The sorted names do not depend on the order they are collected in. *)
#[export] Instance sort_proper : Proper ((≡ₚ) ==> (=)) sort.
Proof.
  intros v v' Hv.
  apply (StronglySorted_unique str_order); [apply sort_sorted..|].
  by rewrite !sort_perm.
Qed.

End StrOrder.

(** ** The widths *)

(** Reference: the width of a column is the largest of the byte length of
    its name and the widths of its values. *)
Definition column_width (name : rstring) (values : list Value) : nat :=
  fold_left Nat.max (value_width <$> values) (String_len name).

Section Widths.
Implicit Types (entries : list (rstring * list Value)) (w : gmap rstring nat)
  (name k : rstring) (values vs : list Value).

Lemma fold_max_le (l : list nat) x : x <= fold_left Nat.max l x.
Proof.
  revert x. induction l as [|y l IH]; intros x; simpl; [done|].
  etrans; [|apply IH]. lia.
Qed.

Lemma fold_max_elem (l : list nat) x y : y ∈ l -> y <= fold_left Nat.max l x.
Proof.
  revert x. induction l as [|z l IH]; intros x; [by intros ?%elem_of_nil|].
  intros [->|Hy]%elem_of_cons; simpl; [|by apply IH].
  etrans; [|apply fold_max_le]. lia.
Qed.

Lemma column_width_name name values : String_len name <= column_width name values.
Proof. apply fold_max_le. Qed.

Lemma column_width_value name values value :
  value ∈ values -> value_width value <= column_width name values.
Proof. intros Hv. apply fold_max_elem. by apply list_elem_of_fmap_2. Qed.

(** The inner loop on a key that is present. *)
Lemma fold_widths_value k vs w x :
  w !! k = Some x ->
  fold_left (widths_value k) vs w =
  <[k := fold_left Nat.max (value_width <$> vs) x]> w.
Proof.
  revert w x. induction vs as [|v vs IH]; intros w x Hw; simpl.
  { by rewrite insert_id. }
  unfold widths_value at 2. rewrite Hw. simpl.
  rewrite (IH _ (Nat.max x (value_width v))) by apply lookup_insert_eq.
  by rewrite insert_insert_eq.
Qed.

Lemma widths_init_fold entries w name :
  fold_left (fun w entry => <[entry.1 := String_len entry.1]> w) entries w !! name =
  if decide (name ∈ entries.*1) then Some (String_len name) else w !! name.
Proof.
  revert w. induction entries as [|[k vs] entries IH]; intros w; [done|].
  simpl. rewrite IH. destruct (decide (name ∈ entries.*1)) as [Hin|Hin].
  { rewrite decide_True; [done|by apply elem_of_cons; right]. }
  destruct (decide (name = k)) as [->|Hne].
  - rewrite lookup_insert_eq, decide_True; [done|by apply elem_of_cons; left].
  - rewrite lookup_insert_ne, decide_False; [done| |done].
    by intros [?|?]%elem_of_cons.
Qed.

Lemma widths_init_lookup entries name :
  name ∈ entries.*1 -> widths_init entries !! name = Some (String_len name).
Proof. intros Hn. unfold widths_init. by rewrite widths_init_fold, decide_True. Qed.

Lemma widths_update_cons k vs entries w :
  w !! k = Some (String_len k) ->
  widths_update ((k, vs) :: entries) w =
  widths_update entries (<[k := column_width k vs]> w).
Proof. intros Hk. unfold widths_update. simpl. by rewrite (fold_widths_value _ _ _ _ Hk). Qed.

(** The maps the second loop runs on: they hold the name length of every
    key still to come. *)
Definition holds_names entries w : Prop :=
  forall k, k ∈ entries.*1 -> w !! k = Some (String_len k).

Lemma holds_names_cons k vs entries w x :
  k ∉ entries.*1 -> holds_names ((k, vs) :: entries) w ->
  w !! k = Some (String_len k) /\ holds_names entries (<[k := x]> w).
Proof.
  intros Hk Hw. split; [apply Hw; by left|].
  intros k' Hk'. rewrite lookup_insert_ne by (by intros ->). apply Hw. by right.
Qed.

(** A name that is not a key of the entries is not touched. *)
Lemma widths_update_other entries w name :
  NoDup entries.*1 -> holds_names entries w -> name ∉ entries.*1 ->
  widths_update entries w !! name = w !! name.
Proof.
  revert w. induction entries as [|[k vs] entries IH]; intros w Hnd Hw Hn; [done|].
  apply NoDup_cons in Hnd as [Hk Hnd].
  apply (holds_names_cons _ _ _ _ (column_width k vs) Hk) in Hw as [Hwk Hw].
  apply not_elem_of_cons in Hn as [Hne Hn].
  by rewrite widths_update_cons, IH, lookup_insert_ne.
Qed.

(** Every key reads the width of its column. *)
Lemma widths_update_lookup entries w name values :
  NoDup entries.*1 -> holds_names entries w -> (name, values) ∈ entries ->
  widths_update entries w !! name = Some (column_width name values).
Proof.
  revert w. induction entries as [|[k vs] entries IH]; intros w Hnd Hw Hin;
    [by apply elem_of_nil in Hin|].
  apply NoDup_cons in Hnd as [Hk Hnd].
  apply (holds_names_cons _ _ _ _ (column_width k vs) Hk) in Hw as [Hwk Hw].
  rewrite widths_update_cons by done.
  apply elem_of_cons in Hin as [[= -> ->]|Hin]; [|by apply IH].
  rewrite widths_update_other by done. apply lookup_insert_eq.
Qed.

Lemma column_widths_lookup entries name values :
  NoDup entries.*1 -> (name, values) ∈ entries ->
  width_of (column_widths entries) name = column_width name values.
Proof.
  intros Hnd Hin. unfold width_of, column_widths.
  rewrite (widths_update_lookup _ _ name values); [done|done| |done].
  intros k Hk. by apply widths_init_lookup.
Qed.

End Widths.

(** ** The lines *)

Section Lines.
Implicit Types (w : gmap rstring nat) (names : list rstring) (text : rstring).

Lemma length_cell text : length (cell text) = length text + 2.
Proof. unfold cell. simpl. rewrite length_app. simpl. lia. Qed.

Lemma length_border left right n : length (border left right n) = n + 2.
Proof. unfold border. simpl. rewrite length_app, length_replicate. simpl. lia. Qed.

Lemma length_concat_imap {A} (g : nat -> A -> rstring) (h : A -> nat) (l : list A) :
  (forall i x, length (g i x) = h x) ->
  length (concat (imap g l)) = sum_list (h <$> l).
Proof.
  revert g. induction l as [|x l IH]; intros g Hg; [done|].
  rewrite imap_cons. simpl. rewrite length_app, Hg, (IH (g ∘ S)); [done|].
  intros i y. apply Hg.
Qed.

Lemma sum_list_succ {A} (h : A -> nat) (l : list A) :
  sum_list ((fun x => S (h x)) <$> l) = sum_list (h <$> l) + length l.
Proof. induction l as [|x l IH]; [done|]. cbn. rewrite IH. lia. Qed.

(** A line of cells with a bar between them. *)
Lemma length_cells {A} (f : A -> rstring) (l : list A) :
  length (concat (imap (fun i x => cell_sep i ++ f x) l)) =
  sum_list (length ∘ f <$> l) + (length l - 1).
Proof.
  destruct l as [|x l]; [done|]. rewrite imap_cons. cbn.
  rewrite length_app, (length_concat_imap _ (fun x => S (length (f x)))) by done.
  rewrite sum_list_succ. unfold compose. lia.
Qed.

(** A value fits the width it asked for, and then fills it. *)
Lemma length_value_text width value :
  value_width value <= width -> length (value_text width value) = width.
Proof.
  destruct value as [n|s|b|]; simpl; intros Hw.
  - apply length_fmt_right_fit. etrans; [apply length_String_len|done].
  - apply length_fmt_left_fit. etrans; [apply length_String_len|done].
  - apply length_fmt_right_fit. by rewrite length_format_bool.
  - by apply length_fmt_right_fit.
Qed.

Lemma sum_list_fmap_ext {A} (f g : A -> nat) (l : list A) :
  Forall (fun x => f x = g x) l -> sum_list (f <$> l) = sum_list (g <$> l).
Proof. induction 1 as [|x l Hx _ IH]; [done|]. cbn. by rewrite Hx, IH. Qed.

Lemma border_width_Some w names :
  names <> [] ->
  border_width w names =
  Some (sum_list ((fun name => width_of w name + 2) <$> names) + (length names - 1)).
Proof.
  intros Hne. unfold border_width.
  assert (0 < length names) by (destruct names; simpl; [done|lia]).
  cbv zeta. case_match eqn:E; [apply Nat.eqb_eq in E; lia|f_equal; lia].
Qed.

Lemma border_width_None w names : border_width w names = None <-> names = [].
Proof.
  split; [|by intros ->]. destruct names as [|name names]; [done|].
  by rewrite border_width_Some.
Qed.

(** The line of the names is as wide as the widths say. *)
Lemma length_name_row w names :
  Forall (fun name => length name <= width_of w name) names ->
  length (name_row w names) =
  sum_list ((fun name => width_of w name + 2) <$> names) + (length names - 1).
Proof.
  intros Hfit. unfold name_row, name_cell.
  rewrite (length_cells (fun name => cell (fmt_left (width_of w name) name))).
  f_equal. apply sum_list_fmap_ext. eapply Forall_impl; [done|].
  intros name Hn. unfold compose. by rewrite length_cell, length_fmt_left_fit.
Qed.

(** So is a row, when every column has a value at the row that fits. *)
Lemma length_data_row self w names row :
  Forall (fun name => exists values value,
            Table.get_column self name = Some values /\ values !! row = Some value /\
            value_width value <= width_of w name) names ->
  length (data_row self w names row) =
  sum_list ((fun name => width_of w name + 2) <$> names) + (length names - 1).
Proof.
  intros Hfit. unfold data_row, value_cell.
  rewrite (length_cells (fun name =>
    match Table.get_column self name with
    | Some values =>
        match values !! row with
        | Some value => cell (value_text (width_of w name) value)
        | None => []
        end
    | None => []
    end)).
  f_equal. apply sum_list_fmap_ext. eapply Forall_impl; [done|].
  intros name (values & value & Hc & Hv & Hw). unfold compose.
  by rewrite Hc, Hv, length_cell, length_value_text.
Qed.

End Lines.

(** ** The lines depend on the widths of the names only *)

Section Ext.
Implicit Types (w : gmap rstring nat) (names : list rstring).

Definition widths_agree names w w' : Prop :=
  Forall (fun name => width_of w name = width_of w' name) names.

Lemma concat_imap_ext {A B} (f g : nat -> A -> list B) (l : list A) :
  (forall i, Forall (fun x => f i x = g i x) l) ->
  concat (imap f l) = concat (imap g l).
Proof.
  intros Hfg. f_equal. apply imap_ext. intros i x Hx.
  specialize (Hfg i). rewrite Forall_lookup in Hfg. by eapply Hfg.
Qed.

Lemma border_width_ext w w' names :
  widths_agree names w w' -> border_width w names = border_width w' names.
Proof.
  intros Hw. unfold border_width.
  rewrite (sum_list_fmap_ext _ (fun name => width_of w' name + 2) names); [done|].
  eapply Forall_impl; [done|]. by intros name ->.
Qed.

Lemma name_row_ext w w' names :
  widths_agree names w w' -> name_row w names = name_row w' names.
Proof.
  intros Hw. apply concat_imap_ext. intros i. eapply Forall_impl; [done|].
  unfold name_cell. by intros name ->.
Qed.

Lemma data_row_ext self w w' names row :
  widths_agree names w w' -> data_row self w names row = data_row self w' names row.
Proof.
  intros Hw. apply concat_imap_ext. intros i. eapply Forall_impl; [done|].
  unfold value_cell. by intros name ->.
Qed.

Lemma write_lines_ext self w w' names n :
  widths_agree names w w' -> write_lines self w names n = write_lines self w' names n.
Proof.
  intros Hw. unfold write_lines.
  rewrite (border_width_ext w w'), (name_row_ext w w') by done.
  destruct (border_width w' names); [|done]. do 3 f_equal.
  apply list_fmap_ext. intros _ row _. by apply data_row_ext.
Qed.

End Ext.

(** ** The iteration of the map *)

(** The columns have one length. *)
Definition rectangular (n : nat) (self : Table) : Prop :=
  map_Forall (fun _ values => length values = n) (columns self).

#[export] Instance rectangular_dec n self : Decision (rectangular n self).
Proof. unfold rectangular. apply _. Defined.

Section Orders.
Context `{HashOrder}.
Implicit Types (self : Table) (name : rstring) (values : list Value).

Lemma hash_iter_keys self : (hash_iter self).*1 ≡ₚ (map_to_list (columns self)).*1.
Proof. by rewrite hash_iter_perm. Qed.

Lemma hash_iter_NoDup self : NoDup (hash_iter self).*1.
Proof. rewrite hash_iter_keys. apply NoDup_fst_map_to_list. Qed.

Lemma elem_of_hash_iter self name values :
  (name, values) ∈ hash_iter self <-> Table.get_column self name = Some values.
Proof. rewrite hash_iter_perm. apply elem_of_map_to_list. Qed.

Lemma elem_of_names self name :
  name ∈ sort (hash_iter self).*1 <-> is_Some (Table.get_column self name).
Proof.
  rewrite sort_perm, list_elem_of_fmap. split.
  - intros [[k vs] [-> Hin]]. apply elem_of_hash_iter in Hin. eauto.
  - intros [vs Hvs]. exists (name, vs). split; [done|by apply elem_of_hash_iter].
Qed.

Lemma hash_iter_nil self : hash_iter self = [] <-> columns self = ∅.
Proof.
  rewrite <- map_to_list_empty_iff. split; intros E.
  - apply Permutation_nil_r. by rewrite <- hash_iter_perm, E.
  - apply Permutation_nil_r. by rewrite hash_iter_perm, E.
Qed.

Lemma names_nil self : sort (hash_iter self).*1 = [] <-> columns self = ∅.
Proof.
  rewrite <- hash_iter_nil. split.
  - intros E. apply fmap_nil_inv with (f := fst), Permutation_nil_r.
    by rewrite <- sort_perm, E.
  - by intros ->.
Qed.

Lemma width_of_column self name values :
  Table.get_column self name = Some values ->
  width_of (column_widths (hash_iter self)) name = column_width name values.
Proof.
  intros Hc. apply column_widths_lookup; [apply hash_iter_NoDup|].
  by apply elem_of_hash_iter.
Qed.

Lemma row_count_rectangular self n :
  columns self <> ∅ -> rectangular n self -> row_count self = n.
Proof.
  intros Hne Hrect. unfold row_count.
  destruct (hash_iter self) as [|[k vs] entries] eqn:E; [by apply hash_iter_nil in E|].
  simpl. apply (Hrect k), elem_of_hash_iter. rewrite E. by left.
Qed.

(** Every name fits its column. *)
Lemma names_fit self :
  Forall (fun name => length name <= width_of (column_widths (hash_iter self)) name)
    (sort (hash_iter self).*1).
Proof.
  apply Forall_forall. intros name [values Hc]%elem_of_names.
  rewrite (width_of_column _ _ _ Hc).
  etrans; [apply length_String_len|apply column_width_name].
Qed.

(** Every value of a row of a rectangular table fits its column. *)
Lemma values_fit self n row :
  rectangular n self -> row < n ->
  Forall (fun name => exists values value,
            Table.get_column self name = Some values /\ values !! row = Some value /\
            value_width value <= width_of (column_widths (hash_iter self)) name)
    (sort (hash_iter self).*1).
Proof.
  intros Hrect Hrow. apply Forall_forall. intros name [values Hc]%elem_of_names.
  destruct (lookup_lt_is_Some_2 values row) as [value Hv]; [by rewrite (Hrect _ _ Hc)|].
  exists values, value. split_and!; [done..|].
  rewrite (width_of_column _ _ _ Hc).
  eapply column_width_value, list_elem_of_lookup_2, Hv.
Qed.

End Orders.

(** On a rectangular table the order of the iteration plays no part. *)
Lemma fmt_lines_order (o1 o2 : HashOrder) self n :
  rectangular n self -> fmt_lines (H := o1) self = fmt_lines (H := o2) self.
Proof.
  intros Hrect. unfold fmt_lines. cbv zeta.
  assert (sort (hash_iter (HashOrder := o1) self).*1 =
          sort (hash_iter (HashOrder := o2) self).*1) as Hn
    by (apply sort_proper; by rewrite !hash_iter_keys).
  destruct (decide (columns self = ∅)) as [Hempty|Hne].
  { by rewrite !(proj2 (names_nil self) Hempty). }
  rewrite !(row_count_rectangular self n) by done. rewrite <- Hn.
  apply write_lines_ext, Forall_forall. intros name [values Hc]%elem_of_names.
  by rewrite !(width_of_column _ _ _ Hc).
Qed.

(** The lines are the grid around as many rows as the first column met
    has values. *)
Lemma fmt_lines_length `{HashOrder} self :
  columns self <> ∅ -> length <$> fmt_lines self = Some (row_count self + 4).
Proof.
  intros Hne. unfold fmt_lines, write_lines. cbv zeta.
  rewrite border_width_Some by (by rewrite names_nil). cbn.
  rewrite length_app, length_fmap, length_seq. f_equal. simpl. lia.
Qed.

(** In the order that meets a column first, that column gives the number
    of rows. *)
Lemma row_count_front self k values :
  columns self !! k = Some values -> row_count (H := front_order k) self = length values.
Proof. intros Hk. unfold row_count. simpl. unfold front_iter. by rewrite Hk. Qed.

Lemma fmt_lines_front self k values :
  columns self !! k = Some values ->
  length <$> fmt_lines (H := front_order k) self = Some (length values + 4).
Proof.
  intros Hk. rewrite fmt_lines_length, (row_count_front _ _ _ Hk); [done|].
  intros He. by rewrite He, lookup_empty in Hk.
Qed.

(** A table that is written in the same way in every order has columns
    of one length. *)
Lemma fmt_lines_rectangular self :
  (forall o1 o2, fmt_lines (H := o1) self = fmt_lines (H := o2) self) ->
  exists n, rectangular n self.
Proof.
  intros Hall. destruct (map_choose_or_empty (columns self)) as [(k & values & Hk)|He].
  - exists (length values). intros k' values' Hk'.
    specialize (Hall (front_order k') (front_order k)).
    apply (f_equal (fmap length)) in Hall.
    rewrite (fmt_lines_front _ _ _ Hk), (fmt_lines_front _ _ _ Hk') in Hall.
    injection Hall. lia.
  - exists 0. unfold rectangular. rewrite He. apply map_Forall_empty.
Qed.

(** A table with columns of two lengths: the test of ragged columns. *)
Definition ragged_table : Table :=
  let table := Table.new in
  let table := Table.add_column table (str "a") [Number 1; Number 2] in
  Table.add_column table (str "b") [Number 3].

(** ** Properties *)

Section RenderProperties.
Context `{HashOrder}.
Implicit Types (self : Table).

(** Rendering a table without columns panics, and only that: the
    length of the borders is computed as a sum minus one in [usize], which
    overflows when there is no column; with at least one column the lines
    are written. *)
Theorem fmt_panics self : fmt_lines self = None <-> columns self = ∅.
Proof.
  unfold fmt_lines, write_lines. cbv zeta.
  rewrite <- names_nil, <- (border_width_None (column_widths (hash_iter self))).
  by destruct (border_width _ _).
Qed.

(** C12: the grid of a table whose columns have one length [n]: a top
    border, the line of the names, a separator, [n] rows and a bottom
    border; the line of the names and the rows have one length, no cell
    being wider than its column, and the three borders are two characters
    longer, because the lines between them are written without the bars at
    their ends. *)
Theorem fmt_grid self n :
  columns self <> ∅ -> rectangular n self ->
  exists b top names sep rows bottom,
    fmt_lines self = Some ([top; names; sep] ++ rows ++ [bottom]) /\
    length rows = n /\
    length top = b + 2 /\ length sep = b + 2 /\ length bottom = b + 2 /\
    length names = b /\ Forall (fun row => length row = b) rows.
Proof.
  intros Hne Hrect. unfold fmt_lines, write_lines. cbv zeta.
  rewrite border_width_Some by (by rewrite names_nil).
  rewrite (row_count_rectangular self n) by done.
  do 6 eexists. split_and!; [done|..]; rewrite ?length_border; try done.
  - by rewrite length_fmap, length_seq.
  - apply length_name_row, names_fit.
  - apply Forall_fmap, Forall_forall. intros row [_ Hrow]%elem_of_seq.
    by eapply length_data_row, values_fit.
Qed.

End RenderProperties.

(** The text of a table whose columns have one length does not
    depend on the order in which the hash map is iterated: the names are
    sorted, and the widths are those of the columns. *)
Theorem fmt_order_independent (o1 o2 : HashOrder) self n :
  rectangular n self -> fmt (H := o1) self = fmt (H := o2) self.
Proof. intros Hrect. unfold fmt. by rewrite (fmt_lines_order o1 o2 self n). Qed.

(** C38: the lines written depend on the order in which the hash map
    is iterated exactly when the columns have different lengths: the
    number of rows is the length of the column the iteration meets first,
    so a table is written in the same way in every order if and only if
    its columns have one length. *)
Theorem fmt_order_dependent self :
  (forall o1 o2, fmt_lines (H := o1) self = fmt_lines (H := o2) self) <->
  exists n, rectangular n self.
Proof.
  split; [apply fmt_lines_rectangular|intros [n Hrect] o1 o2; by eapply fmt_lines_order].
Qed.

(** The table of the test is written with one row or with two. *)
Lemma ragged_table_rows :
  length <$> fmt_lines (H := gmap_order) ragged_table = Some 5%nat /\
  length <$> fmt_lines (H := reverse_order) ragged_table = Some 6%nat.
Proof. by vm_compute. Qed.

Lemma fmt_grid_witness :
  exists b top names sep rows bottom,
    fmt_lines (H := gmap_order) main_table = Some ([top; names; sep] ++ rows ++ [bottom]) /\
    length rows = 3%nat /\
    length top = b + 2 /\ length sep = b + 2 /\ length bottom = b + 2 /\
    length names = b /\ Forall (fun row => length row = b) rows.
Proof.
  exact (fmt_grid (H := gmap_order) main_table 3
           (insert_non_empty _ _ _)
           (bool_decide_unpack (rectangular 3 main_table) I)).
Defined.
