(* ===== verification/Formatter.v ===== *)
(** * Formatter: the rendering write by write ([impl fmt::Display for
      Table], [src/src/table.rs])

    [Display::fmt] writes to a formatter with [write!] and [writeln!], each
    followed by [?]: a write that fails ends [fmt] with that failure, and a
    formatter may fail at any write.  [Render] gives the text that a
    formatter which never fails receives; here the writes are made one
    after another on a formatter that may refuse them.

    What a formatter is is the class [Writer]: it keeps what it has
    accepted, a write that succeeds appends its text, and a write that
    fails appends some prefix of its text.  [Fmt W A] is a computation on
    a writer that returns, fails with [fmt::Error] or panics; [fmt_io] is
    [fmt] in it, statement by statement.  [string_writer] is a [String],
    which accepts everything, and [bounded_writer] a buffer of a fixed
    capacity.

    The theorems show that [fmt_io] writes the text of [Render.fmt] and
    returns, or fails having written a prefix of that text, and that it
    panics before its first write exactly when [Render.fmt] does; on a
    [String] it is [Render.fmt]. *)

From Stdlib Require Import String.
From stdpp Require Import gmap.
From S2P Require Import Prelude F64 Chars Fmt Types Collections TableOps Render.

(** ** The writer *)

(** [std::fmt::Error]. *)
Inductive fmt_Error : Set := FmtError.

(** How a computation on a formatter ends: by returning a result, or by a
    panic. *)
Inductive Outcome (A : Type) : Type :=
| Returned (r : Result A fmt_Error)
| Panicked.

Arguments Returned {A} r.
Arguments Panicked {A}.

(** What [fmt::Write] promises.  [write_fmt w text] is [w.write_fmt(args)]
    for arguments that format to [text]; [written] is what the writer has
    accepted since it was made. *)
Class Writer (W : Type) : Type := {
  written : W -> rstring;
  write_fmt : W -> rstring -> W * bool;
  write_fmt_Ok w text w' :
    write_fmt w text = (w', true) -> written w' = written w ++ text;
  write_fmt_Err w text w' :
    write_fmt w text = (w', false) ->
    exists pre, pre `prefix_of` text /\ written w' = written w ++ pre;
}.

(** [String]: every write succeeds. *)
#[export, refine] Instance string_writer : Writer rstring :=
  {| written w := w; write_fmt w text := (w ++ text, true) |}.
Proof. all: by intros w text w' [= <-]. Defined.

(** A buffer that holds [capacity] more characters: a write that does not
    fit fills the buffer and fails. *)
Record Bounded : Type := { capacity : nat; buffer : rstring }.

#[export, refine] Instance bounded_writer : Writer Bounded :=
  {| written w := buffer w;
     write_fmt w text :=
       if (length text <=? capacity w)%nat
       then ({| capacity := capacity w - length text; buffer := buffer w ++ text |}, true)
       else ({| capacity := 0; buffer := buffer w ++ take (capacity w) text |}, false) |}.
Proof.
  - intros w text w'. case_match; [by intros [= <-]|done].
  - intros w text w'. case_match; [done|intros [= <-]].
    exists (take (capacity w) text). split; [apply prefix_take|done].
Defined.

(** ** Computations on a writer *)

Definition Fmt (W A : Type) : Type := W -> W * Outcome A.

#[export] Instance Fmt_ret {W} : MRet (Fmt W) :=
  fun A a w => (w, Returned (Ok a)).

(** [c?] and what follows it. *)
#[export] Instance Fmt_bind {W} : MBind (Fmt W) :=
  fun A B k c w =>
    match c w with
    | (w', Returned (Ok a)) => k a w'
    | (w', Returned (Err e)) => (w', Returned (Err e))
    | (w', Panicked) => (w', Panicked)
    end.

Definition panic {W A} : Fmt W A := fun w => (w, Panicked).

(** [for x in l { body(x)?; }]. *)
Fixpoint for_each {W A} (l : list A) (body : A -> Fmt W unit) : Fmt W unit :=
  match l with
  | [] => mret tt
  | x :: l' => body x;; for_each l' body
  end.

Section Write.
Context `{Writer W}.

(** [write!(f, ..)], for arguments that format to [text]. *)
Definition write (text : rstring) : Fmt W unit :=
  fun w =>
    let '(w', ok) := write_fmt w text in
    (w', Returned (if ok then Ok tt else Err FmtError)).

(** [writeln!(f, ..)]. *)
Definition writeln (text : rstring) : Fmt W unit := write (text ++ [10%N]).

End Write.

(** ** [fmt], statement by statement *)

Section Display.
Context `{HashOrder} `{Writer W}.

(** The argument of [repeat]; the subtraction panics when there is no
    column. *)
Definition border_arg (w : gmap rstring nat) (column_names : list rstring) : Fmt W nat :=
  match border_width w column_names with
  | Some n => mret n
  | None => panic
  end.

(** [writeln!(f, "┌{}┐", "─".repeat(..))?] and the like. *)
Definition write_border (left right : N) (w : gmap rstring nat)
    (column_names : list rstring) : Fmt W unit :=
  n ← border_arg w column_names;
  writeln (border left right n).

(** [if i > 0 { write!(f, "│")?; }]. *)
Definition write_sep (i : nat) : Fmt W unit :=
  if (0 <? i)%nat then write [VBAR] else mret tt.

(** The loop that writes the column names. *)
Definition write_names (w : gmap rstring nat) (column_names : list rstring) : Fmt W unit :=
  for_each (enumerate column_names) (fun '(i, column_name) =>
    write_sep i;;
    write (cell (fmt_left (width_of w column_name) column_name))).

(** The body of the loop over the rows. *)
Definition write_row (self : Table) (w : gmap rstring nat)
    (column_names : list rstring) (row : nat) : Fmt W unit :=
  for_each (enumerate column_names) (fun '(i, column_name) =>
    write_sep i;;
    match Table.get_column self column_name with
    | Some values =>
        match values !! row with
        | Some value => write (cell (value_text (width_of w column_name) value))
        | None => mret tt
        end
    | None => mret tt
    end);;
  writeln [].

(** [<Table as Display>::fmt]. *)
Definition fmt_io (self : Table) : Fmt W unit :=
  let entries := hash_iter self in
  let w := column_widths entries in
  let column_names := sort entries.*1 in
  write_border TOP_LEFT TOP_RIGHT w column_names;;
  write_names w column_names;;
  writeln [];;
  write_border MID_LEFT MID_RIGHT w column_names;;
  let row_count := row_count self in
  for_each (seq 0 row_count) (write_row self w column_names);;
  write_border BOTTOM_LEFT BOTTOM_RIGHT w column_names;;
  mret tt.

End Display.

(** [table.to_string()]: [fmt] on a [String]; it panics when [fmt] returns
    an error. *)
Definition to_string `{HashOrder} (self : Table) : option rstring :=
  match fmt_io (W := rstring) self [] with
  | (text, Returned (Ok _)) => Some text
  | _ => None
  end.

(** ** What a computation writes *)

Section Writes.
Context `{Writer W}.
Implicit Types (c : Fmt W unit) (text : rstring) (w : W).

(** The writer refuses some write. *)
Definition can_fail : Prop := exists w text, (write_fmt w text).2 = false.

(** [c] writes [text] and returns, or ends with [fail], because a write of
    the writer has failed, having written a prefix of [text]. *)
Definition writes_or (fail : Outcome unit) c text : Prop :=
  forall w,
    (exists w', c w = (w', Returned (Ok tt)) /\ written w' = written w ++ text) \/
    (exists w' pre,
       c w = (w', fail) /\ pre `prefix_of` text /\
       written w' = written w ++ pre /\ can_fail).

(** [c] writes [text] and returns, or fails with [fmt::Error]; it does not
    panic. *)
Definition writes : Fmt W unit -> rstring -> Prop :=
  writes_or (Returned (Err FmtError)).

(** The ends that [?] passes on. *)
Definition failure (fail : Outcome unit) : Prop := fail <> Returned (Ok tt).

Lemma writes_or_ret fail : writes_or fail (mret tt) [].
Proof. intros w. left. exists w. by rewrite app_nil_r. Qed.

Lemma writes_or_bind fail c1 c2 text1 text2 :
  failure fail ->
  writes_or fail c1 text1 -> writes_or fail c2 text2 ->
  writes_or fail (c1;; c2) (text1 ++ text2).
Proof.
  intros Hfail H1 H2 w. unfold mbind, Fmt_bind.
  destruct (H1 w) as [(w1 & -> & Hw1)|(w1 & pre & -> & Hpre & Hw1 & Hf)].
  - destruct (H2 w1) as [(w2 & -> & Hw2)|(w2 & pre & -> & Hpre & Hw2 & Hf)].
    + left. exists w2. by rewrite Hw2, Hw1, <- app_assoc.
    + right. exists w2, (text1 ++ pre). rewrite Hw2, Hw1, <- app_assoc.
      split_and!; [done|by apply prefix_app|done..].
  - right. exists w1, pre.
    split_and!; [by destruct fail as [[[]|[]]|]|by apply prefix_app_r|done..].
Qed.

Lemma writes_or_eq fail c text text' :
  writes_or fail c text -> text = text' -> writes_or fail c text'.
Proof. by intros Hc <-. Qed.

Lemma writes_ret : writes (mret tt) [].
Proof. apply writes_or_ret. Qed.

Lemma writes_write text : writes (write text) text.
Proof.
  intros w. unfold write. destruct (write_fmt w text) as [w' [|]] eqn:E.
  - left. exists w'. split; [done|by eapply write_fmt_Ok].
  - right. destruct (write_fmt_Err _ _ _ E) as (pre & ? & ?). exists w', pre.
    split_and!; [done..|]. exists w, text. by rewrite E.
Qed.

Lemma writes_bind c1 c2 text1 text2 :
  writes c1 text1 -> writes c2 text2 -> writes (c1;; c2) (text1 ++ text2).
Proof. by apply writes_or_bind. Qed.

Lemma writes_eq c text text' : writes c text -> text = text' -> writes c text'.
Proof. apply writes_or_eq. Qed.

Lemma writes_for_each {A} (l : list A) (body : A -> Fmt W unit) (f : A -> rstring) :
  (forall x, writes (body x) (f x)) -> writes (for_each l body) (concat (f <$> l)).
Proof.
  intros Hb. induction l as [|x l IH]; [apply writes_ret|].
  by apply writes_bind.
Qed.

Lemma writes_writeln text : writes (writeln text) (text ++ [10%N]).
Proof. apply writes_write. Qed.

Lemma writes_sep i : writes (write_sep i) (cell_sep i).
Proof. unfold write_sep, cell_sep. case_match; [apply writes_write|apply writes_ret]. Qed.

End Writes.

#[export] Hint Resolve writes_ret writes_write writes_bind writes_writeln writes_sep : dax.

(** ** The writes of [fmt] *)

Section DisplayFacts.
Context `{HashOrder} `{Writer W}.
Implicit Types (self : Table) (w : gmap rstring nat) (column_names : list rstring).

Lemma writes_border left right w column_names n :
  border_width w column_names = Some n ->
  writes (write_border (W := W) left right w column_names) (border left right n ++ [10%N]).
Proof. intros Hn. unfold write_border, border_arg. rewrite Hn. apply writes_writeln. Qed.

Lemma writes_names w column_names :
  writes (write_names (W := W) w column_names) (name_row w column_names).
Proof.
  eapply writes_eq; [|unfold name_row; by rewrite <- (fmap_enumerate (uncurry (name_cell w)))].
  apply writes_for_each. intros [i column_name]. unfold name_cell. simpl. auto with dax.
Qed.

Lemma writes_row self w column_names row :
  writes (write_row (W := W) self w column_names row)
    (data_row self w column_names row ++ [10%N]).
Proof.
  apply writes_bind; [|apply (writes_writeln [])].
  eapply writes_eq;
    [|unfold data_row; by rewrite <- (fmap_enumerate (uncurry (value_cell self w row)))].
  apply writes_for_each. intros [i column_name]. unfold value_cell. simpl.
  apply writes_bind; [apply writes_sep|]. repeat case_match; auto with dax.
Qed.

(** [fmt_io] writes the text of [fmt]. *)
Lemma fmt_io_writes self text : fmt self = Some text -> writes (fmt_io (W := W) self) text.
Proof.
  unfold fmt, fmt_lines, write_lines, fmt_io. cbv zeta.
  destruct (border_width _ _) as [n|] eqn:En; [|done]. intros [= <-].
  eapply writes_eq.
  - apply writes_bind; [eapply writes_border, En|].
    apply writes_bind; [apply writes_names|].
    apply writes_bind; [apply (writes_writeln [])|].
    apply writes_bind; [eapply writes_border, En|].
    apply writes_bind; [|apply writes_bind; [eapply writes_border, En|apply writes_ret]].
    apply writes_for_each. intros row. apply writes_row.
  - cbn [fmap list_fmap app concat]. rewrite !fmap_app, !concat_app, <- list_fmap_compose.
    cbn. by rewrite !app_nil_r, <- !app_assoc.
Qed.

(** [fmt_io] panics before its first write when [fmt] panics. *)
Lemma fmt_io_panics self (v : W) : fmt self = None -> fmt_io self v = (v, Panicked).
Proof.
  unfold fmt, fmt_lines, write_lines, fmt_io, write_border, border_arg. cbv zeta.
  by destruct (border_width _ _).
Qed.

End DisplayFacts.

(** ** Properties *)

Section FormatterProperties.
Context `{HashOrder} `{Writer W}.

(** C25: [fmt] on a formatter that may fail.  On a table without columns
    it panics before it writes.  On any other table it writes the grid of
    [Render.fmt] and returns, or it returns an error having written a
    prefix of the grid: nothing is written after the write that failed,
    and an error is returned only by a formatter that refuses a write. *)
Theorem fmt_io_spec self (v : W) :
  match fmt self with
  | None => columns self = ∅ /\ fmt_io self v = (v, Panicked)
  | Some text =>
      columns self <> ∅ /\
      ((exists v', fmt_io self v = (v', Returned (Ok tt)) /\
                   written v' = written v ++ text) \/
       (exists v' pre, fmt_io self v = (v', Returned (Err FmtError)) /\
                       pre `prefix_of` text /\ written v' = written v ++ pre /\
                       can_fail))
  end.
Proof.
  pose proof (fmt_panics self) as Hp. unfold fmt in *.
  destruct (fmt_lines self) as [lines|] eqn:E; simpl.
  - split; [intros He; by apply Hp in He|]. apply fmt_io_writes. unfold fmt. by rewrite E.
  - split; [by apply Hp|]. apply fmt_io_panics. unfold fmt. by rewrite E.
Qed.

End FormatterProperties.

(** A [String] refuses no write. *)
Lemma string_writer_total : ~ can_fail (W := rstring).
Proof. by intros (w & text & ?). Qed.

(** [to_string] is the text of [Render.fmt]: a [String] accepts
    every write, so the rendering returns with the whole grid, or panics
    on a table without columns. *)
Theorem to_string_fmt `{HashOrder} self : to_string self = fmt self.
Proof.
  unfold to_string. destruct (fmt self) as [text|] eqn:E.
  - destruct (fmt_io_writes (W := rstring) self text E [])
      as [(v' & -> & Hv)|(v' & pre & _ & _ & _ & Hf)]; [exact (f_equal Some Hv)|].
    by destruct string_writer_total.
  - by rewrite fmt_io_panics.
Qed.

(** ** A run on a buffer that is too small *)

(** The table of [main] on a buffer of fifty characters: the top border is
    written, the write of the first name fails and ends the rendering, and
    the buffer holds the first fifty characters of the grid. *)
Lemma fmt_io_bounded_main :
  exists v text,
    fmt_io (H := gmap_order) main_table {| capacity := 50; buffer := [] |} =
      (v, Returned (Err FmtError)) /\
    fmt (H := gmap_order) main_table = Some text /\
    buffer v = take 50 text /\ capacity v = 0%nat.
Proof. do 2 eexists. by vm_compute. Qed.
