(* ===== verification/FromStr.v ===== *)
(** * FromStr: [str::parse::<f64>]

    The sources parse numbers with [<f64 as FromStr>::from_str], in the
    tokenizer and in the CSV reader.  Its documented grammar is
<<
      Float  ::= Sign? ( 'inf' | 'infinity' | 'nan' | Number )
      Number ::= ( Digit+ | Digit+ '.' Digit* | Digit* '.' Digit+ ) Exp?
      Exp    ::= 'e' Sign? Digit+
>>
    matched without regard to case, and its result is the binary64 number
    nearest to the decimal (ties to even).  [f64_from_str] is that function:
    the decimal [d * 10^e] is rounded once, by the rounding of the
    specification floats, from the exact integer or the exact quotient. *)

From Stdlib Require Import String.
From S2P Require Import Prelude F64 Chars.

#[local] Open Scope Z_scope.

(** [c.to_ascii_lowercase()]. *)
Definition to_ascii_lowercase (c : char) : char :=
  if in_range (ch "A") (ch "Z") c then (c + 32)%N else c.

(** [a.eq_ignore_ascii_case(b)]. *)
Definition eq_ignore_ascii_case (a b : rstring) : bool :=
  bool_decide (map to_ascii_lowercase a = map to_ascii_lowercase b).

(** The value of a run of decimal digits. *)
Definition digit_value (c : char) : Z := Z.of_N c - 48.

Definition digits_value (ds : list N) : Z :=
  fold_left (fun acc c => 10 * acc + digit_value c) ds 0.

(** The binary64 number nearest to [(-1)^neg * d * 10^e], for [0 <= d]. *)
Definition decimal_to_f64 (neg : bool) (d e : Z) : f64 :=
  SF2Prim
    (match d with
     | Z.pos p =>
         if 0 <=? e
         then binary_normalize prec emax
                (if neg then - (d * 10 ^ e) else d * 10 ^ e) 0 false
         else SFdiv prec emax (S754_finite neg p 0)
                (S754_finite false (Z.to_pos (10 ^ (- e))) 0)
     | _ => S754_zero neg
     end).

(** An optional sign: whether it is [-], and what follows it. *)
Definition split_sign (s : list N) : bool * list N :=
  match s with
  | c :: s' =>
      if (c =? ch "-")%N then (true, s')
      else if (c =? ch "+")%N then (false, s')
      else (false, s)
  | [] => (false, [])
  end.

(** The exponent part, [None] when it is malformed. *)
Definition parse_exp (s : list N) : option Z :=
  match s with
  | [] => Some 0
  | c :: s' =>
      if (c =? ch "e")%N then
        let '(eneg, s'') := split_sign s' in
        let '(ds, rest) := span is_digit10 s'' in
        match ds, rest with
        | _ :: _, [] => Some (if eneg then - digits_value ds else digits_value ds)
        | _, _ => None
        end
      else None
  end.

Definition parse_number (neg : bool) (s : list N) : option f64 :=
  let '(int_part, s1) := span is_digit10 s in
  let '(frac_part, s2) :=
    match s1 with
    | c :: s' => if (c =? ch ".")%N then span is_digit10 s' else ([], s1)
    | [] => ([], [])
    end in
  match int_part ++ frac_part with
  | [] => None
  | ds =>
      let? e := parse_exp s2 in
      Some (decimal_to_f64 neg (digits_value ds) (e - Z.of_nat (length frac_part)))
  end.

(** [s.parse::<f64>().ok()]. *)
Definition f64_from_str (s : rstring) : option f64 :=
  let '(neg, body) := split_sign (map to_ascii_lowercase s) in
  if bool_decide (body = str "inf") || bool_decide (body = str "infinity")
  then Some (if neg then neg_infinity else infinity)
  else if bool_decide (body = str "nan") then Some nan
  else parse_number neg body.

(** ** Facts *)

(** ** Runs of digits and full stops

    What the tokenizer hands to [f64_from_str]: a run that starts with a
    digit and holds digits and full stops.  It parses exactly when it holds
    at most one full stop. *)

Abbreviation digits := (Forall (fun c => is_digit10 c = true)).

Section NumberRuns.
Implicit Types (int frac more : list N).

Lemma split_sign_digit c s : is_digit10 c = true -> split_sign (c :: s) = (false, c :: s).
Proof.
  unfold is_digit10. rewrite in_range_spec. intros Hc. simpl.
  replace (c =? ch "-")%N with false by (symmetry; apply N.eqb_neq; eval_ch; lia).
  by replace (c =? ch "+")%N with false by (symmetry; apply N.eqb_neq; eval_ch; lia).
Qed.

(** A string that starts with a digit is a [Number] of the grammar or
    nothing. *)
Lemma f64_from_str_digit_first c s :
  is_digit10 c = true ->
  map to_ascii_lowercase (c :: s) = c :: s ->
  f64_from_str (c :: s) = parse_number false (c :: s).
Proof.
  intros Hc Hlow. unfold f64_from_str. rewrite Hlow, split_sign_digit by done.
  unfold is_digit10 in Hc. apply in_range_spec in Hc.
  rewrite !bool_decide_eq_false_2; [done|..];
    intros [= E _]; revert Hc; rewrite E; vm_compute; intros [? ?]; congruence.
Qed.

Lemma parse_number_digits neg int :
  int <> [] -> digits int ->
  parse_number neg int = Some (decimal_to_f64 neg (digits_value int) 0).
Proof.
  intros Hne Hint. unfold parse_number.
  rewrite span_all by done. rewrite app_nil_r.
  destruct int as [|c int]; [done|]. simpl. by rewrite Z.sub_0_r.
Qed.

Lemma parse_number_decimal neg int frac :
  int <> [] -> digits int -> digits frac ->
  parse_number neg (int ++ ch "." :: frac) =
  Some (decimal_to_f64 neg (digits_value (int ++ frac)) (- Z.of_nat (length frac))).
Proof.
  intros Hne Hint Hfrac. unfold parse_number.
  rewrite span_app_stop, N.eqb_refl, span_all by done.
  destruct int as [|c int]; [done|]. by rewrite <- app_comm_cons.
Qed.

Lemma parse_number_two_dots neg int frac more :
  int <> [] -> digits int -> digits frac ->
  parse_number neg (int ++ ch "." :: frac ++ ch "." :: more) = None.
Proof.
  intros Hne Hint Hfrac. unfold parse_number.
  rewrite span_app_stop, N.eqb_refl, span_app_stop by done.
  destruct int as [|c int]; [done|]. by rewrite <- app_comm_cons.
Qed.

End NumberRuns.

(** ** The parser on known values

    Decimal texts with the floats they denote (in hexadecimal, exact): the
    nearest float, ties to even, with overflow to infinity and gradual
    underflow; and texts that are not floats. *)

Lemma f64_from_str_examples :
  Forall (fun '(s, x) => f64_from_str (str s) = Some x)
    [("0.1", 0x1.999999999999ap-4); ("0.3", 0x1.3333333333333p-2);
     ("1e23", 0x1.52d02c7e14af6p+76); ("9007199254740993", 0x1p+53);
     ("9007199254740995", 0x1.0000000000002p+53);
     ("1.7976931348623157e308", 0x1.fffffffffffffp+1023);
     ("2.2250738585072014e-308", 0x1p-1022); ("5e-324", 0x1p-1074);
     ("2.4703282292062328e-324", 0x1p-1074); ("2.4703282292062327e-324", 0);
     ("1e309", infinity); ("-1e309", neg_infinity); ("1e-400", 0);
     (".5", 0x1p-1); ("5.", 0x1.4p+2); ("+1.5E2", 0x1.2cp+7); ("-0", (-0));
     ("inf", infinity); ("-Infinity", neg_infinity); ("NaN", nan);
     ("00012", 0x1.8p+3); ("1e+2", 0x1.9p+6); ("100.000", 0x1.9p+6)]%string%float.
Proof. repeat (constructor; [by vm_compute|]). constructor. Qed.

Lemma f64_from_str_rejects :
  Forall (fun s => f64_from_str (str s) = None)
    [""; "."; "e5"; "1e"; "1e+"; "1.2.3"; " 1"; "1 "; "0x10"; "1_0"; "+"; "-";
     "infinit"; "+-1"; "1,5"; "in"; "nanx"; "1e5.5"; ".e1"]%string.
Proof. repeat (constructor; [by vm_compute|]). constructor. Qed.
