(* ===== verification/Syn.v ===== *)
(** * Syn: token streams and the parsers the macros call

    A procedural macro receives its input as a [proc_macro::TokenStream], a
    sequence of token trees, and reads it with the parsers of [syn].
    [TokenTree] is the token tree of [proc_macro2], a literal represented
    by what it denotes; [parse_LitStr], [parse_FatArrow], [parse_Comma],
    [bracketed] and [parse_terminated] are the calls
    [input.parse::<syn::LitStr>()], [input.parse::<Token![=>]>()],
    [input.parse::<Token![,]>()], [bracketed!(content in input)] and
    [content.parse_terminated(syn::Expr::parse, Token![,])], each from the
    tokens not yet read to its result and the tokens left.  An error
    carries the message of [syn] and the tokens at which it was raised.

    The grammar of Rust expressions is the class [ExprSyntax]: a parser
    that reads at least one token when it succeeds.  [literal_exprs] is the
    instance of the expressions that are literals, negated literals and
    booleans. *)

From Stdlib Require Import String.
From S2P Require Import Prelude Chars.

(** ** Token trees *)

Inductive Delimiter : Set := Parenthesis | Brace | Bracket.

Inductive Spacing : Set := Alone | Joint.

(** A literal token: a string literal by the string it denotes
    ([LitStr::value]), a number by its digits. *)
Inductive Lit : Type :=
| LitStr (value : rstring)
| LitFloat (digits : rstring)
| LitInt (digits : rstring).

#[warnings="-register-all"]
Inductive TokenTree : Type :=
| Group (delimiter : Delimiter) (stream : list TokenTree)
| Ident (sym : rstring)
| Punct (c : char) (spacing : Spacing)
| Literal (lit : Lit).

Abbreviation TokenStream := (list TokenTree).

(** [syn::Error]: the message and the place, as the tokens from there on. *)
Record SynError : Type := {
  syn_message : rstring;
  syn_span : TokenStream;
}.

Abbreviation Parsed T := (Result (T * TokenStream) SynError).

(** ** The parsers of [syn] *)

(** [input.error(message)]: at the end of the input the message says so. *)
Definition error_at (input : TokenStream) (message : string) : SynError :=
  {| syn_message :=
       match input with
       | [] => str "unexpected end of input, " ++ str message
       | _ => str message
       end;
     syn_span := input |}.

(** [input.parse::<syn::LitStr>()]. *)
Definition parse_LitStr (input : TokenStream) : Parsed rstring :=
  match input with
  | Literal (LitStr value) :: rest => Ok (value, rest)
  | _ => Err (error_at input "expected string literal")
  end.

(** [input.parse::<Token![=>]>()]: an [=] joined to a [>]. *)
Definition parse_FatArrow (input : TokenStream) : Parsed unit :=
  match input with
  | Punct c Joint :: Punct c' _ :: rest =>
      if (c =? ch "=")%N && (c' =? ch ">")%N then Ok (tt, rest)
      else Err (error_at input "expected `=>`")
  | _ => Err (error_at input "expected `=>`")
  end.

(** [input.parse::<Token![,]>()]. *)
Definition parse_Comma (input : TokenStream) : Parsed unit :=
  match input with
  | Punct c _ :: rest =>
      if (c =? ch ",")%N then Ok (tt, rest)
      else Err (error_at input "expected `,`")
  | _ => Err (error_at input "expected `,`")
  end.

(** [bracketed!(content in input)]: the stream inside the brackets and
    the tokens after them. *)
Definition bracketed (input : TokenStream) : Parsed TokenStream :=
  match input with
  | Group Bracket content :: rest => Ok (content, rest)
  | _ => Err (error_at input "expected square brackets")
  end.

(** [parse_macro_input!(input as T)]: the parser of [T], and nothing left
    after it. *)
Definition parse_macro_input {T} (parse : TokenStream -> Parsed T)
    (input : TokenStream) : Result T SynError :=
  let! (t, rest) := parse input in
  match rest with
  | [] => Ok t
  | _ => Err {| syn_message := str "unexpected token"; syn_span := rest |}
  end.

(** ** Expressions *)

(** [syn::Expr] and [syn::Expr::parse].  A successful parse reads a
    non-empty prefix of its input. *)
Class ExprSyntax : Type := {
  Expr : Type;
  Expr_parse : TokenStream -> Parsed Expr;
  Expr_parse_consumes input e rest :
    Expr_parse input = Ok (e, rest) -> exists taken, taken <> [] /\ input = taken ++ rest;
}.

(** Where an expression of a list ends: at the end of the stream or at a
    comma. *)
Definition expr_end (rest : TokenStream) : Prop :=
  match rest with
  | [] => True
  | Punct c _ :: _ => c = ch ","
  | _ => False
  end.

(** [ToTokens for syn::Expr]: the tokens of an expression read back as
    the expression, where the expression ends. *)
Class ExprPrint `{ExprSyntax} : Type := {
  Expr_tokens : Expr -> TokenStream;
  Expr_parse_tokens e rest :
    expr_end rest -> Expr_parse (Expr_tokens e ++ rest) = Ok (e, rest);
}.

(** ** Lists with separating commas *)

(** A parser reads something when each of its successes leaves fewer
    tokens than it was given. *)
Definition consumes {T} (parser : TokenStream -> Parsed T) : Prop :=
  forall input t rest, parser input = Ok (t, rest) -> (length rest < length input)%nat.

(** The grammar of a list: [punctuated item content ts] when [content] is
    the values [ts], each of them an [item], separated by commas, with or
    without a comma after the last. *)
Inductive punctuated {T} (item : TokenStream -> T -> TokenStream -> Prop) :
    TokenStream -> list T -> Prop :=
| punctuated_nil : punctuated item [] []
| punctuated_last input t :
    item input t [] -> punctuated item input [t]
| punctuated_cons input t sp rest ts :
    item input t (Punct (ch ",") sp :: rest) ->
    punctuated item rest ts -> punctuated item input (t :: ts).

Lemma punctuated_mono {T} (item item' : TokenStream -> T -> TokenStream -> Prop) content ts :
  (forall input t rest, item input t rest -> item' input t rest) ->
  punctuated item content ts -> punctuated item' content ts.
Proof. intros Hi. induction 1; econstructor; eauto. Qed.

#[export] Instance punctuated_proper {T} :
  Proper (pointwise_relation _ (pointwise_relation _ (pointwise_relation _ iff)) ==>
          eq ==> eq ==> iff) (@punctuated T).
Proof.
  intros item item' Hi content _ <- ts _ <-.
  split; apply punctuated_mono; intros input t rest; by apply Hi.
Qed.

Section Terminated.
Context {T : Type} (parser : TokenStream -> Parsed T).
Implicit Types (input content rest : TokenStream) (punctuated ts : list T) (t : T).

(** The loop of [parse_terminated]: a value, then the end or a comma.
    [fuel] bounds the iterations; each one reads at least one token. *)
Fixpoint parse_terminated_loop (fuel : nat) input punctuated :
    Result (list T) SynError :=
  match fuel, input with
  | _, [] => Ok punctuated
  | O, _ => Ok punctuated
  | S fuel, _ =>
      let! (value, input) := parser input in
      let punctuated := punctuated ++ [value] in
      match input with
      | [] => Ok punctuated
      | _ =>
          let! (_, input) := parse_Comma input in
          parse_terminated_loop fuel input punctuated
      end
  end.

(** [content.parse_terminated(parser, Token![,])]. *)
Definition parse_terminated content : Result (list T) SynError :=
  parse_terminated_loop (length content) content [].

(** What the parser accepts, as a relation: the tokens, the value and the
    tokens left. *)
Definition parses : TokenStream -> T -> TokenStream -> Prop :=
  fun input t rest => parser input = Ok (t, rest).

(** The values separated by commas; [trailing] puts a comma after the
    last. *)
Fixpoint punctuated_tokens (tokens : T -> TokenStream) (trailing : bool) ts :
    TokenStream :=
  match ts with
  | [] => []
  | [t] => tokens t ++ if trailing then [Punct (ch ",") Alone] else []
  | t :: ts => tokens t ++ Punct (ch ",") Alone :: punctuated_tokens tokens trailing ts
  end.

(** ** Facts *)

Lemma parse_Comma_Ok input rest :
  parse_Comma input = Ok (tt, rest) <-> exists sp, input = Punct (ch ",") sp :: rest.
Proof.
  unfold parse_Comma. destruct input as [|[| |c sp|] input]; try by (split; [|intros [? ?]]).
  destruct (N.eqb_spec c (ch ",")) as [->|Hc]; split.
  - intros [= ->]. eauto.
  - by intros [? [= <- <-]].
  - done.
  - by intros [? [= ? _ _]].
Qed.

Lemma parse_Comma_length input u rest :
  parse_Comma input = Ok (u, rest) -> length input = S (length rest).
Proof. destruct u. by intros [sp ->]%parse_Comma_Ok. Qed.

(** The values read so far stay in front. *)
Lemma parse_terminated_loop_acc fuel input punctuated :
  parse_terminated_loop fuel input punctuated =
  match parse_terminated_loop fuel input [] with
  | Ok ts => Ok (punctuated ++ ts)
  | Err err => Err err
  end.
Proof.
  revert input punctuated. induction fuel as [|fuel IH]; intros input punctuated.
  { destruct input; simpl; by rewrite app_nil_r. }
  destruct input as [|tok input]; [simpl; by rewrite app_nil_r|].
  cbn [parse_terminated_loop].
  destruct (parser (tok :: input)) as [[value rest]|err]; [|done].
  destruct rest as [|tok' rest]; [done|].
  destruct (parse_Comma (tok' :: rest)) as [[u rest']|err']; [|done].
  rewrite (IH rest' (punctuated ++ [value])), (IH rest' ([] ++ [value])).
  destruct (parse_terminated_loop fuel rest' []); [|done]. by rewrite <- app_assoc.
Qed.

Section Consumes.
Hypothesis Hconsumes : consumes parser.

Lemma parser_nil t rest : parser [] <> Ok (t, rest).
Proof. intros ?%Hconsumes. simpl in *. lia. Qed.

(** More fuel than the tokens does not change the loop. *)
Lemma parse_terminated_loop_fuel fuel input punctuated :
  (length input <= fuel)%nat ->
  parse_terminated_loop fuel input punctuated =
  parse_terminated_loop (length input) input punctuated.
Proof.
  revert input punctuated.
  induction (lt_wf fuel) as [fuel _ IH]. intros input punctuated Hf.
  destruct input as [|tok input]; [by destruct fuel|].
  destruct fuel as [|fuel]; [simpl in Hf; lia|].
  cbn [parse_terminated_loop length].
  destruct (parser (tok :: input)) as [[value rest]|err] eqn:E; [|done].
  apply Hconsumes in E. simpl in E.
  destruct rest as [|tok' rest]; [done|].
  destruct (parse_Comma (tok' :: rest)) as [[u rest']|err] eqn:Ec; [|done].
  apply parse_Comma_length in Ec. simpl in *.
  rewrite (IH fuel) by lia. by rewrite (IH (length input)) by lia.
Qed.

(** One iteration of [parse_terminated], on a stream that is not empty. *)
Lemma parse_terminated_cons tok content :
  parse_terminated (tok :: content) =
  let! (value, rest) := parser (tok :: content) in
  match rest with
  | [] => Ok [value]
  | _ =>
      let! (_, rest') := parse_Comma rest in
      match parse_terminated rest' with
      | Ok ts => Ok (value :: ts)
      | Err err => Err err
      end
  end.
Proof.
  unfold parse_terminated. cbn [parse_terminated_loop length].
  destruct (parser (tok :: content)) as [[value rest]|err] eqn:E; [|done].
  apply Hconsumes in E. simpl in E.
  destruct rest as [|tok' rest]; [done|].
  destruct (parse_Comma (tok' :: rest)) as [[u rest']|err] eqn:Ec; [|done].
  apply parse_Comma_length in Ec. simpl in *.
  rewrite parse_terminated_loop_acc, parse_terminated_loop_fuel by lia. done.
Qed.

Lemma punctuated_parse content ts :
  punctuated parses content ts -> parse_terminated content = Ok ts.
Proof.
  induction 1 as [|input t Ht|input t sp rest ts Ht _ IH]; [done|..].
  - destruct input as [|tok input]; [by apply parser_nil in Ht|].
    by rewrite parse_terminated_cons, Ht.
  - destruct input as [|tok input]; [by apply parser_nil in Ht|].
    rewrite parse_terminated_cons, Ht. cbn [parse_Comma].
    by rewrite N.eqb_refl, IH.
Qed.

Lemma parse_terminated_syntax content ts :
  parse_terminated content = Ok ts -> punctuated parses content ts.
Proof.
  revert ts. remember (length content) as n eqn:Hn. revert content Hn.
  induction (lt_wf n) as [n _ IH]. intros content -> ts.
  destruct content as [|tok content]; [intros [= <-]; constructor|].
  rewrite parse_terminated_cons.
  destruct (parser (tok :: content)) as [[value rest]|err] eqn:E; [|done].
  destruct rest as [|tok' rest]; [intros [= <-]; by constructor|].
  destruct (parse_Comma (tok' :: rest)) as [[[] rest']|err] eqn:Ec; [|done].
  apply parse_Comma_Ok in Ec as [sp Ec]. rewrite Ec in E.
  destruct (parse_terminated rest') as [ts'|] eqn:Er; [|done]. intros [= <-].
  eapply punctuated_cons; [done|].
  apply (IH (length rest')); [|done..]. apply Hconsumes in E. simpl in *. lia.
Qed.

(** The loop reads exactly the lists of the grammar. *)
Lemma parse_terminated_spec content ts :
  parse_terminated content = Ok ts <-> punctuated parses content ts.
Proof. split; [apply parse_terminated_syntax|apply punctuated_parse]. Qed.

End Consumes.

(** What is printed is in the grammar, when the parser reads back what
    [tokens] prints before a comma and before the end. *)
Lemma punctuated_tokens_syntax (tokens : T -> TokenStream) trailing ts :
  (forall t rest, expr_end rest -> parser (tokens t ++ rest) = Ok (t, rest)) ->
  punctuated parses (punctuated_tokens tokens trailing ts) ts.
Proof.
  intros Hprint. induction ts as [|t [|t' ts] IH]; [constructor|..].
  - destruct trailing; simpl.
    + eapply punctuated_cons; [by apply Hprint|constructor].
    + apply punctuated_last. unfold parses. rewrite <- (Hprint t []) by done.
      by rewrite app_nil_r.
  - eapply punctuated_cons; [|exact IH].
    by apply (Hprint t (Punct (ch ",") Alone :: _)).
Qed.

End Terminated.

Lemma Expr_parse_shorter `{ExprSyntax} : consumes Expr_parse.
Proof.
  intros input e rest (taken & Hne & ->)%Expr_parse_consumes. rewrite length_app.
  destruct taken; [done|simpl; lia].
Qed.

(** ** The expressions that are literals *)

Inductive LitExpr : Type :=
| ExprLit (lit : Lit)
| ExprBool (b : bool)
| ExprNeg (e : LitExpr).

(** [syn::Expr::parse] on a literal, a boolean or a negation of one.  It
    reads one such expression and leaves the tokens after it; on other
    tokens it fails, where [syn] goes on to the rest of the grammar. *)
Fixpoint LitExpr_parse (input : TokenStream) : Parsed LitExpr :=
  match input with
  | Literal lit :: rest => Ok (ExprLit lit, rest)
  | Ident sym :: rest =>
      if bool_decide (sym = str "true") then Ok (ExprBool true, rest)
      else if bool_decide (sym = str "false") then Ok (ExprBool false, rest)
      else Err (error_at input "unsupported expression")
  | Punct c _ :: rest =>
      if (c =? ch "-")%N then
        let! (e, rest) := LitExpr_parse rest in
        Ok (ExprNeg e, rest)
      else Err (error_at input "expected an expression")
  | _ => Err (error_at input "unsupported expression")
  end.

Fixpoint LitExpr_tokens (e : LitExpr) : TokenStream :=
  match e with
  | ExprLit lit => [Literal lit]
  | ExprBool b => [Ident (if b then str "true" else str "false")]
  | ExprNeg e => Punct (ch "-") Alone :: LitExpr_tokens e
  end.

Lemma LitExpr_parse_consumes input e rest :
  LitExpr_parse input = Ok (e, rest) -> exists taken, taken <> [] /\ input = taken ++ rest.
Proof.
  revert e rest. induction input as [|t input IH]; intros e rest; [done|].
  destruct t as [|sym|c sp|lit]; simpl; try done.
  - repeat case_bool_decide; intros [= <- <-] || done; by exists [Ident sym].
  - destruct (c =? ch "-")%N; [|done].
    destruct (LitExpr_parse input) as [[e' rest']|] eqn:E; [|done].
    intros [= <- <-]. destruct (IH _ _ eq_refl) as (taken & _ & ->).
    by exists (Punct c sp :: taken).
  - intros [= <- <-]. by exists [Literal lit].
Qed.

Lemma LitExpr_parse_tokens e rest :
  LitExpr_parse (LitExpr_tokens e ++ rest) = Ok (e, rest).
Proof.
  induction e as [lit|[]|e IH]; try done. simpl. by rewrite IH.
Qed.

#[export] Instance literal_exprs : ExprSyntax :=
  {| Expr := LitExpr;
     Expr_parse := LitExpr_parse;
     Expr_parse_consumes := LitExpr_parse_consumes |}.

#[export] Instance literal_print : ExprPrint :=
  {| Expr_tokens := LitExpr_tokens;
     Expr_parse_tokens e rest _ := LitExpr_parse_tokens e rest |}.
