(* ===== verification/Macros.v ===== *)
(** * Macros: the macro [table!]
    ([src/dax-macro/src/lib.rs], [src/dax-macro-impl/src/lib.rs])

    The macro reads its input as a list of column definitions,
    [name => [values]], separated by commas, and expands to a block that
    creates a table and calls [add_column] once per definition, in the
    order they are written, each value converted with [Value::from].

    [parse_column] is the body of the loop of [TableData::parse],
    [parse_columns] the loop, [TableData_parse] the method;
    [generate_table] is the table that the expansion builds, when every
    expression has a type that [Value::from] accepts, and [table] the
    macro from its input to that table.  What an expression evaluates to is
    the class [ExprValue]; [literal_values] gives literals their values.

    The theorems show that the parser accepts exactly the grammar
    [table_syntax], that it reads back what [TableData_tokens] prints, where
    it fails, and which definition a column name reads in the built
    table: the last of that name. *)

From Stdlib Require Import String.
From stdpp Require Import gmap.
From S2P Require Import Prelude F64 Chars Types Collections TableOps FromStr Syn.

(** ** Values of expressions *)

(** An argument of [Value::from]: a value of one of the types the
    conversion is implemented for. *)
Inductive FromArg : Type :=
| ArgF64 (n : f64)
| ArgStr (s : rstring)
| ArgString (s : rstring)
| ArgBool (b : bool).

(** [Value::from(expr)], by the type of the expression. *)
Definition Value_from (a : FromArg) : Value :=
  match a with
  | ArgF64 n => Value_from_f64 n
  | ArgStr s => Value_from_str s
  | ArgString s => Value_from_String s
  | ArgBool b => Value_from_bool b
  end.

(** What an expression evaluates to; [None] when its type is not one that
    [Value::from] accepts, and the expansion does not compile. *)
Class ExprValue `{ExprSyntax} : Type := {
  expr_value : Expr -> option FromArg;
}.

(** Literals: a string literal is a [&str], a float literal the nearest
    [f64], a boolean a [bool]; a negation negates a float.  An integer
    literal is an [i32], which [Value::from] does not accept. *)
Fixpoint LitExpr_value (e : LitExpr) : option FromArg :=
  match e with
  | ExprLit (LitStr s) => Some (ArgStr s)
  | ExprLit (LitFloat digits) => ArgF64 <$> f64_from_str digits
  | ExprLit (LitInt _) => None
  | ExprBool b => Some (ArgBool b)
  | ExprNeg e =>
      match LitExpr_value e with
      | Some (ArgF64 n) => Some (ArgF64 (- n))
      | _ => None
      end
  end.

#[export] Instance literal_values : ExprValue := {| expr_value := LitExpr_value |}.

Section Macros.
Context `{ExprValue}.

(** ** Data *)

Record ColumnDef : Type := {
  name : rstring;
  values : list Expr;
}.

Record TableData : Type := {
  tcolumns : list ColumnDef;
}.

Implicit Types (input rest content : TokenStream) (col : ColumnDef)
  (columns cols : list ColumnDef) (table_data : TableData).

(** ** Parsing *)

(** The body of [while !input.is_empty()], up to the column pushed. *)
Definition parse_column input : Parsed ColumnDef :=
  let! (name, input) := parse_LitStr input in
  let! (_, input) := parse_FatArrow input in
  let! (content, input) := bracketed input in
  let! values := parse_terminated Expr_parse content in
  Ok ({| name := name; values := values |}, input).

(** The loop of [TableData::parse]: a column, then a comma unless the
    input has ended.  [fuel] bounds the iterations. *)
Fixpoint parse_columns (fuel : nat) input columns : Parsed TableData :=
  match fuel, input with
  | _, [] => Ok ({| tcolumns := columns |}, input)
  | O, _ => Ok ({| tcolumns := columns |}, input)
  | S fuel, _ =>
      let! (col, input) := parse_column input in
      let columns := columns ++ [col] in
      match input with
      | [] => parse_columns fuel input columns
      | _ =>
          let! (_, input) := parse_Comma input in
          parse_columns fuel input columns
      end
  end.

(** [<TableData as Parse>::parse]. *)
Definition TableData_parse input : Parsed TableData :=
  parse_columns (length input) input [].

(** ** Expansion *)

(** [vec![Value::from(v), ..]] for the values of a column. *)
Definition column_values col : option (list Value) :=
  mapM (fun e => Value_from <$> expr_value e) (values col).

(** The arguments of the calls of [add_column] in the expansion, when all
    of them have a type. *)
Definition typed_columns table_data : option (list (rstring * list Value)) :=
  mapM (fun col => pair (name col) <$> column_values col) (tcolumns table_data).

(** One repetition of the expansion:
    [table.add_column(name.to_string(), vec![..])]. *)
Definition add_column_def (table : Table) (col : rstring * list Value) : Table :=
  Table.add_column table col.1 col.2.

(** The block the macro expands to: the table it evaluates to. *)
Definition generate_table table_data : option Table :=
  (fun typed => fold_left add_column_def typed Table.new) <$> typed_columns table_data.

(** What an invocation of the macro is: an error of the macro, an
    expansion that does not compile, or a table. *)
Inductive Expansion : Type :=
| MacroError (e : SynError)
| TypeError
| Built (table : Table).

(** [table!]. *)
Definition table (input : TokenStream) : Expansion :=
  match parse_macro_input TableData_parse input with
  | Err e => MacroError e
  | Ok table_data =>
      match generate_table table_data with
      | None => TypeError
      | Some table => Built table
      end
  end.

(** ** Reference: the grammar of the input *)

(** A column definition: a string literal, [=>], and a bracketed list of
    expressions. *)
Inductive column_syntax : TokenStream -> ColumnDef -> TokenStream -> Prop :=
| column_syntax_intro name sp content values rest :
    punctuated (parses Expr_parse) content values ->
    column_syntax
      (Literal (LitStr name) :: Punct (ch "=") Joint :: Punct (ch ">") sp ::
       Group Bracket content :: rest)
      {| name := name; values := values |} rest.

(** The input of the macro: column definitions separated by commas. *)
Definition table_syntax : TokenStream -> list ColumnDef -> Prop :=
  punctuated column_syntax.

(** Where the parser fails: at a column definition that is malformed, or
    at what follows a column definition when that is neither the end nor a
    comma. *)
Inductive table_error : TokenStream -> SynError -> Prop :=
| table_error_column input e :
    input <> [] -> parse_column input = Err e -> table_error input e
| table_error_comma input col rest e :
    column_syntax input col rest -> rest <> [] -> parse_Comma rest = Err e ->
    table_error input e
| table_error_later input col sp rest e :
    column_syntax input col (Punct (ch ",") sp :: rest) -> table_error rest e ->
    table_error input e.

(** The last definition of [n] in the list. *)
Definition last_def (n : rstring) cols : option ColumnDef :=
  last (filter (fun col => name col = n) cols).

(** ** Facts about the parser *)

Lemma parse_FatArrow_Ok input rest :
  parse_FatArrow input = Ok (tt, rest) <->
  exists sp, input = Punct (ch "=") Joint :: Punct (ch ">") sp :: rest.
Proof.
  unfold parse_FatArrow. split.
  - destruct input as [|[| |c []|] [|[| |c' sp|] input]]; try done.
    destruct (N.eqb_spec c (ch "=")) as [->|]; [|done].
    destruct (N.eqb_spec c' (ch ">")) as [->|]; [|done]. intros [= <-]. eauto.
  - by intros [sp ->].
Qed.

Lemma parse_column_spec input col rest :
  parse_column input = Ok (col, rest) <-> column_syntax input col rest.
Proof.
  unfold parse_column, parse_LitStr, bracketed. split.
  - destruct input as [|[| | |[n| |]] input]; try done.
    destruct (parse_FatArrow input) as [[[] input1]|] eqn:Ea; [|done].
    apply parse_FatArrow_Ok in Ea as [sp ->].
    destruct input1 as [|[[]| | |] input2]; try done.
    destruct (parse_terminated Expr_parse stream) as [vs|] eqn:Ev; [|done].
    intros [= <- <-]. constructor.
    by apply (parse_terminated_syntax _ Expr_parse_shorter).
  - destruct 1 as [n sp content vs rest Hvs].
    rewrite (proj2 (parse_FatArrow_Ok _ _)) by eauto. cbv beta iota.
    by rewrite (punctuated_parse _ Expr_parse_shorter content vs).
Qed.

Lemma parse_column_consumes : consumes parse_column.
Proof.
  intros input col rest [n sp content vs ? _]%parse_column_spec. simpl. lia.
Qed.

(** The loop is the loop of [parse_terminated] on [parse_column]. *)
Lemma parse_columns_terminated fuel input columns :
  (length input <= fuel)%nat ->
  parse_columns fuel input columns =
  match parse_terminated_loop parse_column fuel input columns with
  | Ok cols => Ok ({| tcolumns := cols |}, [])
  | Err err => Err err
  end.
Proof.
  revert input columns. induction fuel as [|fuel IH]; intros input columns Hf.
  { destruct input; [done|simpl in Hf; lia]. }
  destruct input as [|tok input]; [done|]. cbn [parse_columns parse_terminated_loop].
  destruct (parse_column (tok :: input)) as [[col rest]|] eqn:E; [|done].
  apply parse_column_consumes in E. simpl in *.
  destruct rest as [|tok' rest]; [by destruct fuel|].
  destruct (parse_Comma (tok' :: rest)) as [[u rest']|] eqn:Ec; [|done].
  apply parse_Comma_length in Ec. simpl in *. apply IH. lia.
Qed.

Lemma TableData_parse_terminated input :
  TableData_parse input =
  match parse_terminated parse_column input with
  | Ok cols => Ok ({| tcolumns := cols |}, [])
  | Err err => Err err
  end.
Proof. by apply parse_columns_terminated. Qed.

Lemma table_syntax_parses input cols :
  table_syntax input cols <-> punctuated (parses parse_column) input cols.
Proof.
  unfold table_syntax. apply punctuated_proper; [|done..].
  intros i c r. symmetry. apply parse_column_spec.
Qed.

Lemma TableData_parse_Ok input table_data rest :
  TableData_parse input = Ok (table_data, rest) <->
  rest = [] /\ table_syntax input (tcolumns table_data).
Proof.
  rewrite TableData_parse_terminated, table_syntax_parses.
  rewrite <- (parse_terminated_spec _ parse_column_consumes).
  destruct (parse_terminated parse_column input) as [cols|]; destruct table_data as [cols'].
  - simpl. split; [by intros [= <- <-]|by intros [-> [= <-]]].
  - simpl. split; [done|]. by intros [_ ?].
Qed.

Lemma table_error_parse input e :
  table_error input e -> parse_terminated parse_column input = Err e.
Proof.
  induction 1 as [input e Hne He|input col rest e Hc Hne He|input col sp rest e Hc _ IH];
    (destruct input as [|tok input]; [done || by inversion Hc|]);
    rewrite (parse_terminated_cons _ parse_column_consumes).
  - by rewrite He.
  - apply parse_column_spec in Hc. rewrite Hc. destruct rest; [done|]. by rewrite He.
  - apply parse_column_spec in Hc. rewrite Hc. cbn [parse_Comma].
    by rewrite N.eqb_refl, IH.
Qed.

Lemma parse_table_error input e :
  parse_terminated parse_column input = Err e -> table_error input e.
Proof.
  remember (length input) as n eqn:Hn. revert input Hn.
  induction (lt_wf n) as [n _ IH]. intros input ->.
  destruct input as [|tok input]; [done|].
  rewrite (parse_terminated_cons _ parse_column_consumes).
  destruct (parse_column (tok :: input)) as [[col rest]|e'] eqn:E;
    [|intros [= <-]; by apply table_error_column].
  pose proof (parse_column_consumes _ _ _ E) as Hlen. apply parse_column_spec in E.
  destruct rest as [|tok' rest]; [done|].
  destruct (parse_Comma (tok' :: rest)) as [[[] rest']|e'] eqn:Ec;
    [|intros [= <-]; by eapply table_error_comma].
  apply parse_Comma_Ok in Ec as [sp Ec]. rewrite Ec in E.
  destruct (parse_terminated parse_column rest') eqn:Er; [done|]. intros [= <-].
  eapply table_error_later; [done|]. apply (IH (length rest')); [|done..].
  injection Ec as _ <-. simpl in *. lia.
Qed.

Lemma TableData_parse_Err input e :
  TableData_parse input = Err e <-> table_error input e.
Proof.
  rewrite TableData_parse_terminated. split.
  - destruct (parse_terminated parse_column input) eqn:E; [done|].
    intros [= <-]. by apply parse_table_error.
  - by intros ->%table_error_parse.
Qed.

(** ** Facts about the expansion *)

Lemma typed_columns_Forall2 table_data typed :
  typed_columns table_data = Some typed <->
  Forall2 (fun col ty => name col = ty.1 /\ column_values col = Some ty.2)
    (tcolumns table_data) typed.
Proof.
  unfold typed_columns. rewrite mapM_Some.
  split; intros Hf; (eapply Forall2_impl; [exact Hf|]); intros col [n vs]; simpl;
    destruct (column_values col); simpl; (intros [= <- <-] || intros [<- [= <-]]); done.
Qed.

(** The last entry of a name among the typed columns is the typed last
    definition of the name. *)
Lemma last_typed n cols typed :
  Forall2 (fun col ty => name col = ty.1 /\ column_values col = Some ty.2) cols typed ->
  snd <$> last (filter (fun ty => ty.1 = n) typed) = last_def n cols ≫= column_values.
Proof.
  intros Hty. unfold last_def.
  eapply (Forall2_filter _ (fun col => name col = n) (fun ty => ty.1 = n)) in Hty;
    [|by intros col ty [-> _]].
  apply Forall2_last in Hty. destruct Hty as [col ty [_ Hv]|]; [|done].
  simpl. by rewrite Hv.
Qed.

Lemma generate_table_Some table_data table :
  generate_table table_data = Some table <->
  exists typed, typed_columns table_data = Some typed /\
                table = fold_left add_column_def typed Table.new.
Proof.
  unfold generate_table. destruct (typed_columns table_data) as [typed|]; simpl.
  - split; [intros [= <-]; eauto|]. by intros (? & [= <-] & ->).
  - split; [done|]. by intros (? & ? & _).
Qed.

Lemma column_values_None col :
  column_values col = None <-> exists e, e ∈ values col /\ expr_value e = None.
Proof.
  unfold column_values. rewrite mapM_None. by setoid_rewrite fmap_None.
Qed.

Lemma generate_table_None table_data :
  generate_table table_data = None <->
  exists col e, col ∈ tcolumns table_data /\ e ∈ values col /\ expr_value e = None.
Proof.
  unfold generate_table, typed_columns. rewrite fmap_None, mapM_None.
  setoid_rewrite fmap_None. setoid_rewrite column_values_None.
  split; [intros (col & ? & e & ? & ?)|intros (col & e & ? & ? & ?)]; eauto 6.
Qed.

Lemma generate_table_get_column table_data table n :
  generate_table table_data = Some table ->
  Table.get_column table n = last_def n (tcolumns table_data) ≫= column_values.
Proof.
  intros (typed & Hty & ->)%generate_table_Some.
  apply typed_columns_Forall2 in Hty. rewrite <- (last_typed n _ _ Hty).
  unfold add_column_def. rewrite (get_column_fold fst snd), get_column_new.
  by destruct (last _).
Qed.

(** The parser leaves nothing, so the check of [parse_macro_input!] that
    nothing is left never fails. *)
Lemma parse_macro_input_TableData input :
  parse_macro_input TableData_parse input = fmap_Result fst (TableData_parse input).
Proof.
  unfold parse_macro_input.
  destruct (TableData_parse input) as [[table_data rest]|] eqn:E; [|done].
  by apply TableData_parse_Ok in E as [-> _].
Qed.

End Macros.

(** ** Printing *)

Section MacrosPrint.
Context `{ExprValue} `{!ExprPrint}.
Implicit Types (col : ColumnDef) (table_data : TableData).

(** A column definition as tokens; [trailing] puts a comma after the last
    value. *)
Definition ColumnDef_tokens (trailing : bool) col : TokenStream :=
  [Literal (LitStr (name col)); Punct (ch "=") Joint; Punct (ch ">") Alone;
   Group Bracket (punctuated_tokens Expr_tokens trailing (values col))].

(** The input that spells a list of column definitions; [trailing] puts a
    comma after the last value of each column and after the last column. *)
Definition TableData_tokens (trailing : bool) table_data : TokenStream :=
  punctuated_tokens (ColumnDef_tokens trailing) trailing (tcolumns table_data).

Lemma parse_column_tokens trailing col rest :
  parse_column (ColumnDef_tokens trailing col ++ rest) = Ok (col, rest).
Proof.
  apply parse_column_spec. destruct col as [n vs]. constructor.
  apply punctuated_tokens_syntax, @Expr_parse_tokens.
Qed.

Lemma TableData_tokens_syntax trailing table_data :
  table_syntax (TableData_tokens trailing table_data) (tcolumns table_data).
Proof.
  apply table_syntax_parses, punctuated_tokens_syntax.
  intros col rest _. apply parse_column_tokens.
Qed.

End MacrosPrint.

(** ** The table of [main] *)

(** The column definitions of the invocation of [src/src/main.rs]. *)
Definition main_table_data : TableData (H := literal_exprs) :=
  {| tcolumns :=
       [ {| name := str "Sales";
            values := ExprLit <$> [LitFloat (str "100.0"); LitFloat (str "150.0");
                                   LitFloat (str "200.0")] |};
         {| name := str "Discount";
            values := ExprLit <$> [LitFloat (str "0.0"); LitFloat (str "0.0");
                                   LitFloat (str "0.0")] |};
         {| name := str "Quantity";
            values := ExprLit <$> [LitFloat (str "10.0"); LitFloat (str "15.0");
                                   LitFloat (str "15.0")] |};
         {| name := str "Product";
            values := ExprLit <$> [LitStr (str "Apple"); LitStr (str "Banana");
                                   LitStr (str "Orange")] |} ] |}.

#[local] Abbreviation arrow := [Punct (ch "=") Joint; Punct (ch ">") Alone].
#[local] Abbreviation comma := (Punct (ch ",") Alone).
#[local] Abbreviation float s := (Literal (LitFloat (str s))).
#[local] Abbreviation text s := (Literal (LitStr (str s))).

(** Its input, token by token. *)
Definition main_tokens : TokenStream :=
  [text "Sales"] ++ arrow ++
    [Group Bracket [float "100.0"; comma; float "150.0"; comma; float "200.0"]; comma] ++
  [text "Discount"] ++ arrow ++
    [Group Bracket [float "0.0"; comma; float "0.0"; comma; float "0.0"]; comma] ++
  [text "Quantity"] ++ arrow ++
    [Group Bracket [float "10.0"; comma; float "15.0"; comma; float "15.0"]; comma] ++
  [text "Product"] ++ arrow ++
    [Group Bracket [text "Apple"; comma; text "Banana"; comma; text "Orange"]].

Lemma main_tokens_parse : TableData_parse main_tokens = Ok (main_table_data, []).
Proof. done. Qed.

(** The invocation in [main] expands to the table [main] evaluates its
    expressions on. *)
Lemma table_main : table main_tokens = Built main_table.
Proof. by vm_compute. Qed.

(** ** Properties *)

Section MacrosProperties.
Context `{ExprValue}.
Implicit Types (table_data : TableData) (input : TokenStream).

(** C19: [TableData::parse] accepts exactly the inputs of the grammar
    [table_syntax], column definitions separated by commas with or without
    a comma after the last, reads all of an input it accepts, and returns
    the definitions in the order they are written; it fails exactly as
    [table_error] says: with the error of the first malformed definition,
    or with the error of the comma that is missing after a definition. *)
Theorem TableData_parse_spec input :
  (forall table_data rest,
     TableData_parse input = Ok (table_data, rest) <->
     rest = [] /\ table_syntax input (tcolumns table_data)) /\
  (forall e, TableData_parse input = Err e <-> table_error input e).
Proof. split; intros; [apply TableData_parse_Ok|apply TableData_parse_Err]. Qed.

(** C20: what [table!] does with an input: it reports the error of the
    parser; or the input is a list of definitions one of whose expressions
    has no type that [Value::from] accepts, and the expansion does not
    compile; or it builds the table in which every name reads the values
    of its last definition. *)
Theorem table_spec input :
  match table input with
  | MacroError e => table_error input e
  | TypeError =>
      exists cols col e,
        table_syntax input cols /\ col ∈ cols /\ e ∈ values col /\ expr_value e = None
  | Built t =>
      exists cols,
        table_syntax input cols /\
        forall n, Table.get_column t n = last_def n cols ≫= column_values
  end.
Proof.
  unfold table. rewrite parse_macro_input_TableData.
  destruct (TableData_parse input) as [[table_data rest]|e] eqn:E; simpl;
    [|by apply TableData_parse_Err].
  apply TableData_parse_Ok in E as [_ Hs].
  destruct (generate_table table_data) as [t|] eqn:Et.
  - exists (tcolumns table_data). split; [done|]. intros n.
    by apply generate_table_get_column.
  - apply generate_table_None in Et as (col & e & ? & ? & ?). by exists (tcolumns table_data), col, e.
Qed.

End MacrosProperties.

Section MacrosRoundTrip.
Context `{ExprValue} `{!ExprPrint}.

(** C33: the parser reads back what is printed: the tokens of a list of
    column definitions, with or without trailing commas, parse to that
    list, for every grammar of expressions that reads back its own
    printing. *)
Theorem TableData_parse_tokens trailing (table_data : TableData) :
  TableData_parse (TableData_tokens trailing table_data) = Ok (table_data, []).
Proof. apply TableData_parse_Ok. split; [done|apply TableData_tokens_syntax]. Qed.

End MacrosRoundTrip.
