(* ===== verification/Io.v ===== *)
(** * Io: ingestion of delimited text ([src/src/io.rs])

    [read_csv] opens a file and reads it line by line: the first line gives
    the column names, each later line one value per column.  The file is
    represented by what reading it yields: the failure of [File::open], or
    the lines of [BufReader::lines], each of them a line or a failure.
    [lines] gives the lines of a text that is read without a failure, and
    [read_csv_text] is [read_csv] on such a file.

    [parse_value] is the function of that name; [read_line] is the body of
    the loop over the lines, [push_row] its inner loop over the fields of a
    line, [read_lines] the loop with its early return, [build_table] the
    final loop that adds the columns.  The theorems show what each column of
    the table holds, how a value is classified, that the first failure is
    the result, and what the line ends of the file do. *)

From Stdlib Require Import String.
From stdpp Require Import gmap.
From S2P Require Import Prelude F64 Chars Errors Types Collections TableOps FromStr.

(** ** The standard library *)

(** [s.split(sep)] for a separator that is a character: the fields between
    the separators, at least one. *)
Fixpoint split (sep : N) (s : rstring) : list rstring :=
  match s with
  | [] => [[]]
  | c :: s' =>
      if (c =? sep)%N then [] :: split sep s'
      else match split sep s' with
           | [] => [[c]]
           | field :: fields => (c :: field) :: fields
           end
  end.

(** [a.join(sep)], the inverse of [split]. *)
Fixpoint join (sep : N) (fields : list rstring) : rstring :=
  match fields with
  | [] => []
  | [field] => field
  | field :: fields' => field ++ sep :: join sep fields'
  end.

(** [if buf.ends_with('\r') { buf.pop(); }]. *)
Definition pop_cr (buf : rstring) : rstring :=
  match last buf with
  | Some 13%N => removelast buf
  | _ => buf
  end.

(** [BufRead::lines] on a text that is read without a failure, [buf]
    being what has been read of the present line: a line ends at a line
    feed, which is removed, and so is a carriage return before it; what
    follows the last line feed is a line when it is not empty. *)
Fixpoint lines_from (buf s : rstring) : list rstring :=
  match s with
  | [] => if bool_decide (buf = []) then [] else [buf]
  | c :: s' =>
      if (c =? 10)%N then pop_cr buf :: lines_from [] s'
      else lines_from (buf ++ [c]) s'
  end.

Definition lines (content : rstring) : list rstring := lines_from [] content.

(** ** Operations *)

(** [parse_value]. *)
Definition parse_value (value : rstring) : Value :=
  match f64_from_str value with
  | Some num => Number num
  | None =>
      if eq_ignore_ascii_case value (str "true") then Boolean true
      else if eq_ignore_ascii_case value (str "false") then Boolean false
      else if bool_decide (value = []) then Null
      else Text value
  end.

(** The variables of the loop. *)
Record CsvState : Type := {
  headers : list rstring;
  columns : list (list Value);
}.

(** [if j < columns.len() { columns[j].push(parse_value(value)); }]. *)
Definition push_cell (columns : list (list Value)) (cell : nat * rstring) :
    list (list Value) :=
  let '(j, value) := cell in
  if (j <? length columns)%nat
  then alter (fun column => column ++ [parse_value value]) j columns
  else columns.

(** [for (j, value) in values.iter().enumerate() { .. }]. *)
Definition push_row (columns : list (list Value)) (values : list rstring) :
    list (list Value) :=
  fold_left push_cell (enumerate values) columns.

(** The body of [for (i, line) in reader.lines().enumerate()], after
    [let line = line?]. *)
Definition read_line (st : CsvState) (i : nat) (line : rstring) : CsvState :=
  let values := split (ch ",") line in
  if (i =? 0)%nat then
    {| headers := values; columns := replicate (length values) [] |}
  else
    {| headers := headers st; columns := push_row (columns st) values |}.

(** The loop over the lines, from line [i]; [line?] returns the failure. *)
Fixpoint read_lines (st : CsvState) (i : nat)
    (lines : list (Result rstring io_Error)) : Result CsvState DaxError :=
  match lines with
  | [] => Ok st
  | Err e :: _ => Err (DaxError_from e)
  | Ok line :: lines' => read_lines (read_line st i line) (S i) lines'
  end.

(** [table.add_column(header, column)] of the final loop. *)
Definition add_header_column (table : Table) (hc : rstring * list Value) : Table :=
  Table.add_column table hc.1 hc.2.

(** [for (header, column) in headers.into_iter().zip(columns.into_iter())]. *)
Definition build_table (st : CsvState) : Table :=
  fold_left add_header_column (zip (headers st) (columns st)) Table.new.

(** [read_csv], on what opening and reading the file yields. *)
Definition read_csv (file : Result (list (Result rstring io_Error)) io_Error) :
    Result Table DaxError :=
  match file with
  | Err e => Err (DaxError_from e)
  | Ok lines =>
      match read_lines {| headers := []; columns := [] |} 0 lines with
      | Err e => Err e
      | Ok st => Ok (build_table st)
      end
  end.

(** [read_csv] on a file that opens and whose text is read without a
    failure. *)
Definition read_csv_text (content : rstring) : Result Table DaxError :=
  read_csv (Ok (Ok <$> lines content)).

(** ** Reference: the columns of a file *)

(** The text of lines that end with [line_end]. *)
Definition unlines (line_end : rstring) (rows : list rstring) : rstring :=
  concat ((fun row => row ++ line_end) <$> rows).

Definition LF : rstring := [10%N].
Definition CRLF : rstring := [13%N; 10%N].

(** Field [j] of a line, when the line has one. *)
Definition field (j : nat) (line : rstring) : option rstring :=
  split (ch ",") line !! j.

(** Column [j] of the data lines: the values of the lines that have a
    field [j], in order. *)
Definition column_of (j : nat) (rows : list rstring) : list Value :=
  omap (fun row => parse_value <$> field j row) rows.

(** ** [lines] *)

Section LinesFacts.
Implicit Types (buf s row : rstring) (rows : list rstring).

Lemma pop_cr_snoc buf : pop_cr (buf ++ [13%N]) = buf.
Proof. unfold pop_cr. by rewrite last_snoc, removelast_last. Qed.

(** A line without a carriage return at its end is kept. *)
Lemma pop_cr_id buf : last buf <> Some 13%N -> pop_cr buf = buf.
Proof. unfold pop_cr. intros Hl. by repeat case_match; simplify_eq. Qed.

Lemma lines_from_line buf row s :
  10%N ∉ row -> lines_from buf (row ++ 10%N :: s) = pop_cr (buf ++ row) :: lines_from [] s.
Proof.
  revert buf. induction row as [|c row IH]; intros buf Hrow; simpl.
  - by rewrite app_nil_r.
  - apply not_elem_of_cons in Hrow as [Hc Hrow].
    destruct (N.eqb_spec c 10) as [->|_]; [done|]. by rewrite IH, <- app_assoc.
Qed.

(** What follows the last line feed. *)
Lemma lines_from_last buf row :
  10%N ∉ row ->
  lines_from buf row = if bool_decide (buf ++ row = []) then [] else [buf ++ row].
Proof.
  revert buf. induction row as [|c row IH]; intros buf Hrow; simpl.
  - by rewrite app_nil_r.
  - apply not_elem_of_cons in Hrow as [Hc Hrow].
    destruct (N.eqb_spec c 10) as [->|_]; [done|]. by rewrite IH, <- app_assoc.
Qed.

Lemma unlines_cons line_end row rows :
  unlines line_end (row :: rows) = row ++ line_end ++ unlines line_end rows.
Proof. unfold unlines. simpl. by rewrite <- app_assoc. Qed.

Lemma lines_from_unlines line_end rows pre s :
  line_end = pre ++ [10%N] -> 10%N ∉ pre -> Forall (fun row => 10%N ∉ row) rows ->
  lines_from [] (unlines line_end rows ++ s) =
    ((fun row => pop_cr (row ++ pre)) <$> rows) ++ lines_from [] s.
Proof.
  intros -> Hpre. induction 1 as [|row rows Hrow _ IH]; [done|].
  rewrite unlines_cons, <- !app_assoc, (app_assoc row pre). simpl.
  rewrite lines_from_line, IH; [done|]. rewrite elem_of_app. tauto.
Qed.

(** The lines of a text whose lines end with [pre] and a line feed. *)
Lemma lines_unlines pre rows last_row :
  10%N ∉ pre -> Forall (fun row => 10%N ∉ row) rows -> 10%N ∉ last_row ->
  lines (unlines (pre ++ [10%N]) rows ++ last_row) =
    ((fun row => pop_cr (row ++ pre)) <$> rows) ++
    (if bool_decide (last_row = []) then [] else [last_row]).
Proof.
  intros Hpre Hrows Hlast. unfold lines.
  by rewrite (lines_from_unlines _ rows pre), (lines_from_last [] last_row).
Qed.

End LinesFacts.

(** ** [split] *)

Section SplitFacts.
Implicit Types (sep c : N) (s : rstring).

Lemma split_cons sep c s :
  split sep (c :: s) =
  if (c =? sep)%N then [] :: split sep s
  else match split sep s with
       | [] => [[c]]
       | field :: fields => (c :: field) :: fields
       end.
Proof. done. Qed.

Lemma split_not_nil sep s : split sep s <> [].
Proof.
  destruct s as [|c s]; [done|]. rewrite split_cons.
  destruct (c =? sep)%N; [done|]. by destruct (split sep s).
Qed.

Lemma join_split sep s : join sep (split sep s) = s.
Proof.
  induction s as [|c s IH]; [done|]. rewrite split_cons.
  pose proof (split_not_nil sep s) as Hne.
  destruct (c =? sep)%N eqn:E.
  - apply N.eqb_eq in E as ->. simpl. destruct (split sep s); [done|]. by rewrite IH.
  - destruct (split sep s) as [|field fields]; [done|].
    rewrite <- IH. by destruct fields.
Qed.

Lemma split_fields sep s :
  Forall (Forall (fun c => c <> sep)) (split sep s).
Proof.
  induction s as [|c s IH]; [by repeat constructor|]. rewrite split_cons.
  destruct (c =? sep)%N eqn:E; [by constructor|]. apply N.eqb_neq in E.
  destruct IH as [|field fields Hf Hfs]; by repeat constructor.
Qed.

End SplitFacts.

(** ** [parse_value] *)

(** ** The loops *)

Section LoopFacts.
Implicit Types (cols : list (list Value)) (values : list rstring) (j : nat)
  (rows : list rstring).

Lemma push_row_snoc cols values value :
  push_row cols (values ++ [value]) =
  push_cell (push_row cols values) (length values, value).
Proof. unfold push_row. by rewrite enumerate_snoc, fold_left_app. Qed.

Lemma length_push_cell cols cell : length (push_cell cols cell) = length cols.
Proof.
  destruct cell as [j value]. unfold push_cell.
  destruct (j <? length cols)%nat; [apply length_alter|done].
Qed.

Lemma length_push_row cols values : length (push_row cols values) = length cols.
Proof.
  induction values as [|value values IH] using rev_ind; [done|].
  by rewrite push_row_snoc, length_push_cell.
Qed.

Lemma push_cell_lookup cols i value j :
  push_cell cols (i, value) !! j =
  (fun column => if decide (i = j) then column ++ [parse_value value] else column)
    <$> cols !! j.
Proof.
  unfold push_cell. destruct (i <? length cols)%nat eqn:E.
  - rewrite list_lookup_alter. destruct (decide (i = j)) as [->|]; [done|].
    by destruct (cols !! j).
  - apply Nat.ltb_ge in E. destruct (decide (i = j)) as [->|].
    + by rewrite (proj2 (lookup_ge_None cols j)).
    + by destruct (cols !! j).
Qed.

(** One line: column [j] gets the value of field [j], when the line has
    one. *)
Lemma push_row_lookup cols values j :
  push_row cols values !! j =
  (fun column => column ++ option_list (parse_value <$> values !! j)) <$> cols !! j.
Proof.
  induction values as [|value values IH] using rev_ind.
  { rewrite lookup_nil. change (push_row cols []) with cols.
    destruct (cols !! j); simpl; [by rewrite app_nil_r|done]. }
  rewrite push_row_snoc, push_cell_lookup, IH, lookup_app.
  destruct (cols !! j) as [column|]; [simpl|done]. f_equal.
  destruct (decide (length values = j)) as [<-|Hne].
  - rewrite (proj2 (lookup_ge_None values _)) by done.
    rewrite Nat.sub_diag. simpl. by rewrite app_nil_r.
  - destruct (values !! j) eqn:Ej; [done|].
    apply lookup_ge_None in Ej.
    by rewrite (proj2 (lookup_ge_None [value] (j - length values))) by (simpl; lia).
Qed.

(** All the data lines. *)
Lemma fold_push_row_lookup cols (table : list (list rstring)) j :
  fold_left push_row table cols !! j =
  (fun column => column ++ omap (fun values => parse_value <$> values !! j) table)
    <$> cols !! j.
Proof.
  revert cols. induction table as [|values table IH]; intros cols; simpl.
  { destruct (cols !! j); simpl; [by rewrite app_nil_r|done]. }
  rewrite IH, push_row_lookup. destruct (cols !! j) as [column|]; [simpl|done].
  rewrite <- app_assoc. by destruct (values !! j).
Qed.

(** The loop over the lines after the first, when none fails. *)
Lemma read_lines_data st i rows :
  read_lines st (S i) (Ok <$> rows) =
  Ok {| headers := headers st;
        columns := fold_left push_row (split (ch ",") <$> rows) (columns st) |}.
Proof.
  revert st i. induction rows as [|row rows IH]; intros st i; [by destruct st|].
  simpl. by rewrite IH.
Qed.

(** The first failure ends the loop. *)
Lemma read_lines_error st i pre e post :
  read_lines st i ((Ok <$> pre) ++ Err e :: post) = Err (DaxError.IoError e).
Proof.
  revert st i. induction pre as [|line pre IH]; intros st i; [done|apply IH].
Qed.

Lemma column_of_lookup rows j :
  omap (fun values : list rstring => parse_value <$> values !! j)
    (split (ch ",") <$> rows) = column_of j rows.
Proof.
  unfold column_of, field. induction rows as [|row rows IH]; [done|].
  cbn. rewrite IH. done.
Qed.

End LoopFacts.

(** ** The table of a file *)

(** The variables of the loop after the lines [header :: rows]. *)
Definition csv_state (header : rstring) (rows : list rstring) : CsvState :=
  let hs := split (ch ",") header in
  {| headers := hs;
     columns := fold_left push_row (split (ch ",") <$> rows) (replicate (length hs) []) |}.

Section TableFacts.
Implicit Types (st : CsvState) (header name h : rstring) (rows : list rstring) (j : nat).

Lemma read_csv_lines header rows :
  read_csv (Ok (Ok <$> header :: rows)) = Ok (build_table (csv_state header rows)).
Proof. unfold read_csv. simpl. by rewrite read_lines_data. Qed.

Lemma csv_state_column header rows j :
  j < length (split (ch ",") header) ->
  columns (csv_state header rows) !! j = Some (column_of j rows).
Proof.
  intros Hj. simpl. rewrite fold_push_row_lookup, lookup_replicate_2 by done.
  simpl. by rewrite column_of_lookup.
Qed.

Lemma build_table_lookup st j h column :
  headers st !! j = Some h -> columns st !! j = Some column ->
  (forall k, j < k -> headers st !! k <> Some h) ->
  Table.get_column (build_table st) h = Some column.
Proof.
  intros Hh Hc Hlast. unfold build_table, add_header_column.
  rewrite (get_column_fold fst snd).
  rewrite (last_filter_lookup _ _ j (h, column)); [done| |done|].
  - by apply lookup_zip_Some.
  - intros k [h' c'] Hk [Hh' _]%lookup_zip_Some ?. simplify_eq/=. by eapply Hlast.
Qed.

Lemma build_table_absent st name :
  name ∉ headers st -> Table.get_column (build_table st) name = None.
Proof.
  intros Hn. unfold build_table, add_header_column.
  rewrite (get_column_fold fst snd), filter_nil_Forall; [apply get_column_new|].
  apply Forall_lookup. intros k [h c] [Hh _]%lookup_zip_Some ?. simplify_eq/=.
  by eapply Hn, list_elem_of_lookup_2.
Qed.

(** Every column of the table is the column of a position of the first
    line. *)
Lemma build_table_columns st name values :
  Table.get_column (build_table st) name = Some values ->
  exists j, headers st !! j = Some name /\ columns st !! j = Some values.
Proof.
  unfold build_table, add_header_column. rewrite (get_column_fold fst snd).
  destruct (last _) as [[h c]|] eqn:El; [|by rewrite get_column_new].
  intros [= <-]. apply last_Some_elem_of in El.
  apply list_elem_of_filter in El as [Hn Hel].
  apply list_elem_of_lookup in Hel as [j [Hh Hc]%lookup_zip_Some].
  exists j. simpl in *. by subst.
Qed.

Lemma column_of_app rows rows' j :
  column_of j (rows ++ rows') = column_of j rows ++ column_of j rows'.
Proof. apply omap_app. Qed.

Lemma column_of_cons row rows j :
  column_of j (row :: rows) =
  option_list (parse_value <$> field j row) ++ column_of j rows.
Proof. unfold column_of. cbn. by destruct (field j row). Qed.

Lemma field_le j k row : j <= k -> is_Some (field k row) -> is_Some (field j row).
Proof.
  unfold field. rewrite !lookup_lt_is_Some. lia.
Qed.

End TableFacts.

(** ** Properties *)

(** C11: the table [read_csv] returns for a file that is read without a
    failure: a column name reads the values of its last position among the
    names of the first line, and at position [j] the values are the fields
    [j] of the later lines that have one, each classified by
    [parse_value], in the order of the lines; a name that is not in the
    first line has no column. *)
Theorem read_csv_columns header rows :
  exists table,
    read_csv (Ok (Ok <$> header :: rows)) = Ok table /\
    (forall j h,
       split (ch ",") header !! j = Some h ->
       (forall k, j < k -> split (ch ",") header !! k <> Some h) ->
       Table.get_column table h = Some (column_of j rows)) /\
    (forall name,
       name ∉ split (ch ",") header -> Table.get_column table name = None).
Proof.
  exists (build_table (csv_state header rows)).
  split_and!; [apply read_csv_lines| |intros name Hn; by apply build_table_absent].
  intros j h Hh Hlast. eapply build_table_lookup; [done| |done].
  apply csv_state_column. by eapply lookup_lt_Some.
Qed.

(** the line ends of a file.  [read_csv] reads a file whose lines
    end with a carriage return and a line feed as the lines between them;
    in a file whose lines end with a line feed alone, a line loses one
    carriage return at its end, so that a last field which ends with one
    is read without it; what follows the last line feed is a line when it
    is not empty, and keeps its carriage return. *)
Lemma read_csv_line_ends rows last_row :
  Forall (fun row => 10%N ∉ row) rows -> 10%N ∉ last_row ->
  let rest := if bool_decide (last_row = []) then [] else [last_row] in
  read_csv_text (unlines CRLF rows ++ last_row) = read_csv (Ok (Ok <$> rows ++ rest)) /\
  read_csv_text (unlines LF rows ++ last_row) =
    read_csv (Ok (Ok <$> (pop_cr <$> rows) ++ rest)).
Proof.
  intros Hrows Hlast rest. unfold read_csv_text.
  rewrite (lines_unlines [13%N] rows), (lines_unlines [] rows)
    by (done || by apply (bool_decide_unpack _)).
  split; do 4 f_equal.
  - rewrite <- (list_fmap_id rows) at 2. apply list_fmap_ext. intros _ row _. apply pop_cr_snoc.
  - apply list_fmap_ext. intros _ row _. by rewrite app_nil_r.
Qed.

(** C28: the first failure is the result: when the file cannot be opened,
    or when reading a line fails, [read_csv] returns that failure as an
    [IoError], whatever was read before and whatever follows. *)
Theorem read_csv_error e :
  read_csv (Err e) = Err (DaxError.IoError e) /\
  forall pre post,
    read_csv (Ok ((Ok <$> pre) ++ Err e :: post)) = Err (DaxError.IoError e).
Proof.
  split; [done|]. intros pre post. unfold read_csv.
  by rewrite read_lines_error.
Qed.

(** C27: [parse_value] classifies a field: a number when the field parses
    as a float (before anything else, so [inf] and [nan] are numbers), a
    boolean when it is [true] or [false] in any case, null when it is
    empty, and otherwise a text, which is the field unchanged. *)
Theorem parse_value_spec value :
  match parse_value value with
  | Number n => f64_from_str value = Some n
  | Boolean b =>
      f64_from_str value = None /\
      eq_ignore_ascii_case value (str (if b then "true" else "false")) = true
  | Null => value = []
  | Text s =>
      s = value /\ value <> [] /\ f64_from_str value = None /\
      eq_ignore_ascii_case value (str "true") = false /\
      eq_ignore_ascii_case value (str "false") = false
  end.
Proof.
  unfold parse_value. destruct (f64_from_str value); [done|].
  destruct (eq_ignore_ascii_case value (str "true")) eqn:Et; [done|].
  destruct (eq_ignore_ascii_case value (str "false")) eqn:Ef; [done|].
  by case_bool_decide.
Qed.

(** The columns of a file are as long as the lines allow: a column
    is never longer than a column to its left, no column is longer than
    the number of data lines, and a column has one value per line when
    every line has a field for it. *)
Theorem column_of_length rows j k :
  j <= k ->
  length (column_of k rows) <= length (column_of j rows) /\
  length (column_of j rows) <= length rows /\
  (Forall (fun row => is_Some (field j row)) rows ->
   length (column_of j rows) = length rows).
Proof.
  intros Hjk. split_and!.
  - apply length_omap_le. intros row [v Hv]%fmap_is_Some.
    apply fmap_is_Some. eapply field_le; [done|by rewrite Hv].
  - apply length_omap.
  - intros Hall. apply length_omap_all.
    eapply Forall_impl; [done|]. intros row Hr. by apply fmap_is_Some.
Qed.

(** an empty line is a line with one empty field: it puts a null in
    the first column and nothing in the others, so the columns of the
    table no longer line up. *)
Lemma column_of_blank_line rows rows' j :
  column_of j (rows ++ [] :: rows') =
  column_of j rows ++ (if decide (j = 0) then [Null] else []) ++ column_of j rows'.
Proof.
  rewrite column_of_app, column_of_cons. do 2 f_equal. by destruct j.
Qed.
