(* ===== verification/Lexer.v ===== *)
(** * Lexer: the tokenizer ([src/dax-macro-impl/src/lib.rs])

    [DaxToken.t] is the enum [DaxToken]; [tokenize] is the function of that
    name.  The peekable iterator [chars] is the list of characters not yet
    consumed.  [tokenize_step] is one iteration of the outer [while let]:
    given the character [peek] returns and what follows it, the token pushed
    (if any) and the position the iterator is left at; the inner loops are
    [span]s.  [tokenize_loop] iterates it, with fuel; one unit of fuel per
    character of the input is enough, since every iteration consumes a
    character ([tokenize_terminates]).  [lex] is the grammar of the
    tokens, the specification of the tokenizer ([tokenize_spec]). *)

From Stdlib Require Import String.
From S2P Require Import Prelude F64 Chars FromStr.

#[local] Open Scope N_scope.

(** ** Data *)

Module DaxToken.

Inductive t : Type :=
| Function (name : rstring)
| Number (n : f64)
| Operator (op : N)
| Column (name : rstring)
| Comma
| ParenOpen
| ParenClose
| Whitespace.

End DaxToken.

Abbreviation DaxToken := DaxToken.t (only parsing).

#[export] Instance DaxToken_eq_dec : EqDecision DaxToken.t.
Proof. solve_decision. Defined.

(** ** Operations *)

(** The tests of the inner loops. *)
Definition number_char (d : N) : bool := is_digit10 d || (d =? ch ".").
Definition column_char (c : N) : bool := negb (c =? ch "]").

(** The arm ['+' | '-' | '*' | '/']. *)
Definition is_operator (c : N) : bool :=
  (c =? ch "+") || (c =? ch "-") || (c =? ch "*") || (c =? ch "/").

(** The arm [' ' | '\t' | '\n' | '\r']. *)
Definition is_space (c : N) : bool :=
  (c =? ch " ") || (c =? 9) || (c =? 10) || (c =? 13).

(** [char_arith]: turn the character tests in the context and the goal into
    arithmetic on code points, and decide it. *)
Ltac char_arith :=
  unfold number_char, column_char, is_operator, is_space, is_ascii_letter,
    is_digit10, in_range in *;
  eval_ch;
  repeat rewrite ?orb_true_iff, ?orb_false_iff, ?andb_true_iff,
    ?andb_false_iff, ?negb_true_iff, ?negb_false_iff, ?N.eqb_eq, ?N.eqb_neq,
    ?N.leb_le, ?N.leb_gt in *;
  lia.

(** [arm_false]: the first test of the goal fails, by [char_arith]. *)
Ltac arm_false :=
  match goal with
  | |- context [if ?b then _ else _] =>
      replace b with false by (symmetry; char_arith)
  end.

(** The runs of the number arm. *)
Abbreviation number_chars := (Forall (fun c => number_char c = true)).

Section Tokenize.
Context `{Unicode}.

(** One iteration of the outer loop, entered with [chars.peek() = Some(c)]
    and [rest] after [c]. *)
Definition tokenize_step (c : N) (rest : list N) : option DaxToken * list N :=
  if in_range (ch "0") (ch "9") c then
    let '(num, chars) := span number_char (c :: rest) in
    (DaxToken.Number <$> f64_from_str num, chars)
  else if c =? ch "[" then
    let '(column, chars) := span column_char rest in
    (Some (DaxToken.Column column), match chars with [] => [] | _ :: chars' => chars' end)
  else if c =? ch "(" then (Some DaxToken.ParenOpen, rest)
  else if c =? ch ")" then (Some DaxToken.ParenClose, rest)
  else if c =? ch "," then (Some DaxToken.Comma, rest)
  else if is_operator c then (Some (DaxToken.Operator c), rest)
  else if is_space c then (Some DaxToken.Whitespace, rest)
  else if is_ascii_letter c then
    let '(function, chars) := span is_alphabetic (c :: rest) in
    (Some (DaxToken.Function function), chars)
  else (None, rest).

(** The outer loop.  [None]: the fuel ran out before the input did. *)
Fixpoint tokenize_loop (fuel : nat) (chars : list N) : option (list DaxToken) :=
  match chars with
  | [] => Some []
  | c :: rest =>
      match fuel with
      | O => None
      | S fuel' =>
          let '(token, chars') := tokenize_step c rest in
          let? tokens := tokenize_loop fuel' chars' in
          Some (option_list token ++ tokens)
      end
  end.

Definition tokenize (input : rstring) : list DaxToken :=
  default [] (tokenize_loop (length input) input).

(** ** Every iteration consumes a character *)

(** The iterator only moves forward: an iteration leaves it at a position
    after the character it was entered with. *)
Lemma tokenize_step_suffix c rest : suffix (tokenize_step c rest).2 rest.
Proof.
  unfold tokenize_step.
  destruct (in_range _ _ c) eqn:Ed.
  { rewrite span_cons_true by (unfold number_char, is_digit10; by rewrite Ed).
    apply span_rest_suffix. }
  destruct (c =? ch "[").
  { pose proof (span_rest_suffix column_char rest) as Hs.
    destruct (span column_char rest) as [column [|? chars]]; simpl in *; [done|].
    by eapply suffix_cons_l. }
  do 3 (destruct (c =? _); [done|]).
  destruct (is_operator c); [done|].
  destruct (is_space c); [done|].
  destruct (is_ascii_letter c) eqn:El; [|done].
  rewrite span_cons_true by (by apply is_alphabetic_letter).
  apply span_rest_suffix.
Qed.

Lemma tokenize_step_consumes c rest :
  (length (tokenize_step c rest).2 <= length rest)%nat.
Proof. apply suffix_length, tokenize_step_suffix. Qed.

Lemma tokenize_loop_is_Some fuel chars :
  (length chars <= fuel)%nat -> is_Some (tokenize_loop fuel chars).
Proof.
  revert chars. induction fuel as [|fuel IH]; intros [|c rest] Hlen;
    simpl in *; try by eauto.
  { lia. }
  pose proof (tokenize_step_consumes c rest).
  destruct (tokenize_step c rest) as [token chars'] eqn:Es; simpl in *.
  destruct (IH chars') as [tokens ->]; [lia|]. eauto.
Qed.

(** More fuel does not change the result. *)
Lemma tokenize_loop_fuel fuel fuel' chars tokens :
  tokenize_loop fuel chars = Some tokens -> (fuel <= fuel')%nat ->
  tokenize_loop fuel' chars = Some tokens.
Proof.
  revert fuel' chars tokens.
  induction fuel as [|fuel IH]; intros fuel' [|c rest] tokens; simpl;
    try done; try (by destruct fuel').
  intros Ht Hle. destruct fuel' as [|fuel']; [lia|]. simpl.
  destruct (tokenize_step c rest) as [token chars'].
  destruct (tokenize_loop fuel chars') as [ts|] eqn:Et; [|done].
  rewrite (IH fuel' chars' ts); [done..|lia].
Qed.

Lemma tokenize_loop_tokenize fuel chars :
  (length chars <= fuel)%nat -> tokenize_loop fuel chars = Some (tokenize chars).
Proof.
  intros Hlen. unfold tokenize.
  destruct (tokenize_loop_is_Some (length chars) chars) as [ts Hts]; [done|].
  rewrite Hts. simpl. by apply (tokenize_loop_fuel (length chars)).
Qed.

(** ** The loop, unfolded *)

Lemma tokenize_nil : tokenize [] = [].
Proof. done. Qed.

Lemma tokenize_cons c rest :
  tokenize (c :: rest) =
  option_list (tokenize_step c rest).1 ++ tokenize (tokenize_step c rest).2.
Proof.
  pose proof (tokenize_loop_tokenize (length (c :: rest)) (c :: rest)) as Ht.
  simpl in Ht. pose proof (tokenize_step_consumes c rest) as Hc.
  destruct (tokenize_step c rest) as [token chars'] eqn:Es; simpl in *.
  rewrite (tokenize_loop_tokenize (length rest) chars') in Ht by done.
  specialize (Ht (Nat.le_refl _)). by injection Ht as <-.
Qed.

(** ** The arms of the outer loop *)

Lemma tokenize_step_letter c rest :
  is_ascii_letter c = true ->
  tokenize_step c rest =
  (Some (DaxToken.Function (span is_alphabetic (c :: rest)).1),
   (span is_alphabetic (c :: rest)).2).
Proof.
  intros Hc. unfold tokenize_step. do 7 arm_false. rewrite Hc.
  by destruct (span is_alphabetic (c :: rest)).
Qed.

Lemma tokenize_step_digit c rest :
  is_digit10 c = true ->
  tokenize_step c rest =
  (DaxToken.Number <$> f64_from_str (span number_char (c :: rest)).1,
   (span number_char (c :: rest)).2).
Proof.
  intros Hc. unfold tokenize_step. unfold is_digit10 in Hc. rewrite Hc.
  by destruct (span number_char (c :: rest)).
Qed.

Lemma tokenize_step_bracket rest :
  tokenize_step (ch "[") rest =
  (Some (DaxToken.Column (span column_char rest).1),
   match (span column_char rest).2 with [] => [] | _ :: chars => chars end).
Proof.
  unfold tokenize_step.
  replace (in_range (ch "0") (ch "9") (ch "[")) with false by done.
  replace (ch "[" =? ch "[") with true by done.
  by destruct (span column_char rest).
Qed.

Lemma tokenize_step_other c rest :
  in_range (ch "0") (ch "9") c = false -> (c =? ch "[") = false ->
  (c =? ch "(") = false -> (c =? ch ")") = false -> (c =? ch ",") = false ->
  is_operator c = false -> is_space c = false -> is_ascii_letter c = false ->
  tokenize_step c rest = (None, rest).
Proof. unfold tokenize_step. by intros -> -> -> -> -> -> -> ->. Qed.

(** ** Tokens of a prefix *)

(** A name: a non-empty run of ASCII letters. *)
Definition is_name (name : list N) : Prop :=
  name <> [] /\ Forall (fun c => is_ascii_letter c = true) name.

Lemma tokenize_name name c rest :
  is_name name -> is_alphabetic c = false ->
  tokenize (name ++ c :: rest) = DaxToken.Function name :: tokenize (c :: rest).
Proof.
  intros [Hne Hl] Hc. destruct name as [|n name]; [done|]. invc Hl.
  rewrite <- app_comm_cons, tokenize_cons, tokenize_step_letter by done.
  rewrite app_comm_cons, span_app_stop; [done| |done].
  constructor; [by apply is_alphabetic_letter|].
  eapply Forall_impl; [done|]. intros. by apply is_alphabetic_letter.
Qed.

Lemma tokenize_column column rest :
  Forall (fun c => column_char c = true) column ->
  tokenize (ch "[" :: column ++ ch "]" :: rest) =
  DaxToken.Column column :: tokenize rest.
Proof.
  intros Hcol. rewrite tokenize_cons, tokenize_step_bracket.
  by rewrite span_app_stop.
Qed.

Lemma tokenize_column_open column :
  Forall (fun c => column_char c = true) column ->
  tokenize (ch "[" :: column) = [DaxToken.Column column].
Proof.
  intros Hcol. rewrite tokenize_cons, tokenize_step_bracket.
  by rewrite span_all.
Qed.

Lemma tokenize_paren_open rest :
  tokenize (ch "(" :: rest) = DaxToken.ParenOpen :: tokenize rest.
Proof. by rewrite tokenize_cons. Qed.

Lemma tokenize_paren_close rest :
  tokenize (ch ")" :: rest) = DaxToken.ParenClose :: tokenize rest.
Proof. by rewrite tokenize_cons. Qed.

Lemma tokenize_comma rest :
  tokenize (ch "," :: rest) = DaxToken.Comma :: tokenize rest.
Proof. by rewrite tokenize_cons. Qed.

Lemma tokenize_operator c rest :
  is_operator c = true ->
  tokenize (c :: rest) = DaxToken.Operator c :: tokenize rest.
Proof.
  intros Hc. rewrite tokenize_cons. unfold tokenize_step. do 5 arm_false.
  by rewrite Hc.
Qed.

Lemma tokenize_space c rest :
  is_space c = true ->
  tokenize (c :: rest) = DaxToken.Whitespace :: tokenize rest.
Proof.
  intros Hc. rewrite tokenize_cons. unfold tokenize_step. do 6 arm_false.
  by rewrite Hc.
Qed.

(** ** Numbers

    A number starts at a digit and runs over the digits and full stops that
    follow; the run is then parsed as a whole. *)

Lemma digits_number_chars int : digits int -> number_chars int.
Proof. intros Hint. eapply Forall_impl; [done|]. intros c Hc. unfold number_char. by rewrite Hc. Qed.

Lemma lowercase_number_chars num :
  number_chars num -> map to_ascii_lowercase num = num.
Proof.
  induction 1 as [|c num Hc _ IH]; simpl; [done|]. rewrite IH. f_equal.
  unfold to_ascii_lowercase. destruct (in_range _ _ c) eqn:E; [|done].
  simpl in Hc. exfalso. char_arith.
Qed.

(** The run starts with a digit. *)
Definition digit_first (num : list N) : Prop :=
  match num with
  | c :: _ => is_digit10 c = true
  | [] => False
  end.

Lemma digits_digit_first int s : int <> [] -> digits int -> digit_first (int ++ s).
Proof. intros Hne Hint. destruct Hint; [done|]. by simpl. Qed.

Lemma tokenize_number_run num rest :
  digit_first num -> number_chars num -> stops number_char rest ->
  tokenize (num ++ rest) =
  option_list (DaxToken.Number <$> parse_number false num) ++ tokenize rest.
Proof.
  intros Hc Hnum Hrest. destruct num as [|c num]; [done|]. simpl in Hc.
  rewrite <- app_comm_cons, tokenize_cons, tokenize_step_digit by done.
  rewrite app_comm_cons, span_stops by done. simpl.
  by rewrite f64_from_str_digit_first by (by rewrite ?lowercase_number_chars).
Qed.

Lemma number_chars_dot : number_char (ch ".") = true.
Proof. done. Qed.

End Tokenize.

#[export] Hint Rewrite @tokenize_nil @tokenize_paren_open @tokenize_paren_close
  @tokenize_comma : dax.
#[export] Hint Resolve tokenize_step_consumes : dax.

(** ** Induction on the iterations of the outer loop *)

Section TokenizeInd.
Context `{Unicode}.

Lemma tokenize_ind (P : list N -> list DaxToken -> Prop) :
  P [] [] ->
  (forall c rest,
     P (tokenize_step c rest).2 (tokenize (tokenize_step c rest).2) ->
     P (c :: rest)
       (option_list (tokenize_step c rest).1 ++ tokenize (tokenize_step c rest).2)) ->
  forall input, P input (tokenize input).
Proof.
  intros Hnil Hcons input.
  induction (Nat.lt_wf_0_projected (@length N) input) as [input _ IH].
  destruct input as [|c rest]; [done|]. rewrite tokenize_cons.
  apply Hcons, IH. pose proof (tokenize_step_consumes c rest). simpl. lia.
Qed.

(** What one iteration can push. *)
Definition token_wf (token : DaxToken) : Prop :=
  match token with
  | DaxToken.Function name =>
      (exists c rest, name = c :: rest /\ is_ascii_letter c = true) /\
      Forall (fun c => is_alphabetic c = true) name
  | DaxToken.Column name => Forall (fun c => column_char c = true) name
  | DaxToken.Operator op => is_operator op = true
  | _ => True
  end.

Lemma tokenize_step_wf c rest token :
  (tokenize_step c rest).1 = Some token -> token_wf token.
Proof.
  unfold tokenize_step.
  destruct (in_range _ _ c).
  { destruct (span number_char (c :: rest)) as [num chars]; simpl.
    by destruct (f64_from_str num); intros [= <-]. }
  destruct (c =? ch "[").
  { pose proof (span_run_Forall column_char rest).
    destruct (span column_char rest) as [column chars]. by intros [= <-]. }
  do 3 (destruct (c =? _); [by intros [= <-]|]).
  destruct (is_operator c) eqn:Eo; [by intros [= <-]|].
  destruct (is_space c); [by intros [= <-]|].
  destruct (is_ascii_letter c) eqn:El; [|done].
  pose proof (span_run_Forall is_alphabetic (c :: rest)) as Hrun.
  rewrite span_cons_true in * by (by apply is_alphabetic_letter).
  intros [= <-]. split; [by eauto|done].
Qed.

(** Only a letter starts a function name. *)
Lemma tokenize_step_function c rest name :
  (tokenize_step c rest).1 = Some (DaxToken.Function name) ->
  is_ascii_letter c = true.
Proof.
  unfold tokenize_step.
  destruct (in_range _ _ c).
  { destruct (span number_char (c :: rest)) as [num chars]; simpl.
    by destruct (f64_from_str num). }
  destruct (c =? ch "["); [by destruct (span column_char rest)|].
  do 3 (destruct (c =? _); [done|]).
  destruct (is_operator c); [done|]. destruct (is_space c); [done|].
  by destruct (is_ascii_letter c).
Qed.

(** A column name is shorter than the text it is read from: the opening
    bracket is not part of it. *)
Definition column_shorter (n : nat) (token : DaxToken) : Prop :=
  match token with
  | DaxToken.Column name => (length name < n)%nat
  | _ => True
  end.

Lemma tokenize_step_column_shorter c rest token :
  (tokenize_step c rest).1 = Some token -> column_shorter (S (length rest)) token.
Proof.
  unfold tokenize_step.
  destruct (in_range _ _ c).
  { destruct (span number_char (c :: rest)) as [num chars]; simpl.
    by destruct (f64_from_str num); intros [= <-]. }
  destruct (c =? ch "[").
  { pose proof (span_length column_char rest) as Hl.
    destruct (span column_char rest) as [column chars]. intros [= <-].
    simpl in *. lia. }
  do 3 (destruct (c =? _); [by intros [= <-]|]).
  destruct (is_operator c); [by intros [= <-]|].
  destruct (is_space c); [by intros [= <-]|].
  destruct (is_ascii_letter c); [|done].
  destruct (span is_alphabetic (c :: rest)). by intros [= <-].
Qed.

Lemma column_shorter_le n n' token :
  (n <= n')%nat -> column_shorter n token -> column_shorter n' token.
Proof. destruct token; simpl; lia. Qed.

Lemma tokenize_column_shorter input :
  Forall (column_shorter (length input)) (tokenize input).
Proof.
  pattern input, (tokenize input). apply tokenize_ind; [done|].
  intros c rest IH. apply Forall_app. split.
  - destruct (tokenize_step c rest).1 as [token|] eqn:E; [|done].
    repeat constructor. by apply (tokenize_step_column_shorter c rest).
  - eapply Forall_impl; [done|]. intros token. apply column_shorter_le.
    pose proof (tokenize_step_consumes c rest). simpl. lia.
Qed.

(** A well-formed function name is one token. *)
Lemma tokenize_tokens_wf input : Forall token_wf (tokenize input).
Proof.
  pattern input, (tokenize input). apply tokenize_ind; [done|].
  intros c rest IH. pose proof (tokenize_step_wf c rest) as Hwf.
  destruct (tokenize_step c rest) as [[token|] chars]; simpl in *; [|done].
  constructor; auto.
Qed.

(** At most one token per character. *)
Lemma tokenize_length input : (length (tokenize input) <= length input)%nat.
Proof.
  pattern input, (tokenize input). apply tokenize_ind; [done|].
  intros c rest IH. pose proof (tokenize_step_consumes c rest) as Hc.
  destruct (tokenize_step c rest) as [[token|] chars]; simpl in *; lia.
Qed.

Lemma tokenize_function_name name :
  token_wf (DaxToken.Function name) -> tokenize name = [DaxToken.Function name].
Proof.
  intros [(c & rest & -> & Hc) Hall].
  rewrite tokenize_cons, tokenize_step_letter by done. by rewrite span_all.
Qed.

End TokenizeInd.

(** ** The grammar of the tokens

    [lex input tokens]: the tokens of the input, read from left to right,
    each token as long as it can be.  The relation is the specification of
    the tokenizer; it does not mention the loop. *)

(** A character the outer loop drops: it starts no token. *)
Definition starts_no_token (c : N) : bool :=
  negb (is_digit10 c || (c =? ch "[") || (c =? ch "(") || (c =? ch ")")
        || (c =? ch ",") || is_operator c || is_space c || is_ascii_letter c).

Section Lex.
Context `{Unicode}.

Inductive lex : list N -> list DaxToken -> Prop :=
| lex_nil : lex [] []
| lex_number num rest tokens :
    digit_first num -> number_chars num -> stops number_char rest ->
    lex rest tokens ->
    lex (num ++ rest) (option_list (DaxToken.Number <$> parse_number false num) ++ tokens)
| lex_column column rest tokens :
    Forall (fun c => column_char c = true) column -> lex rest tokens ->
    lex (ch "[" :: column ++ ch "]" :: rest) (DaxToken.Column column :: tokens)
| lex_column_open column :
    Forall (fun c => column_char c = true) column ->
    lex (ch "[" :: column) [DaxToken.Column column]
| lex_paren_open rest tokens :
    lex rest tokens -> lex (ch "(" :: rest) (DaxToken.ParenOpen :: tokens)
| lex_paren_close rest tokens :
    lex rest tokens -> lex (ch ")" :: rest) (DaxToken.ParenClose :: tokens)
| lex_comma rest tokens :
    lex rest tokens -> lex (ch "," :: rest) (DaxToken.Comma :: tokens)
| lex_operator c rest tokens :
    is_operator c = true -> lex rest tokens ->
    lex (c :: rest) (DaxToken.Operator c :: tokens)
| lex_space c rest tokens :
    is_space c = true -> lex rest tokens ->
    lex (c :: rest) (DaxToken.Whitespace :: tokens)
| lex_function name rest tokens :
    token_wf (DaxToken.Function name) -> stops is_alphabetic rest ->
    lex rest tokens ->
    lex (name ++ rest) (DaxToken.Function name :: tokens)
| lex_skip c rest tokens :
    starts_no_token c = true -> lex rest tokens -> lex (c :: rest) tokens.

(** *** The tokenizer reads the grammar *)

Lemma tokenize_function_run name rest :
  token_wf (DaxToken.Function name) -> stops is_alphabetic rest ->
  tokenize (name ++ rest) = DaxToken.Function name :: tokenize rest.
Proof.
  intros [(c & name' & -> & Hc) Hall] Hrest.
  rewrite <- app_comm_cons, tokenize_cons, tokenize_step_letter by done.
  by rewrite app_comm_cons, span_stops.
Qed.

Lemma tokenize_skip c rest :
  starts_no_token c = true -> tokenize (c :: rest) = tokenize rest.
Proof.
  unfold starts_no_token, is_digit10. rewrite negb_true_iff, !orb_false_iff.
  intros [[[[[[[? ?] ?] ?] ?] ?] ?] ?]. rewrite tokenize_cons.
  by rewrite tokenize_step_other.
Qed.

Lemma lex_tokenize input tokens : lex input tokens -> tokenize input = tokens.
Proof.
  induction 1 as [|num rest tokens Hd Hn Hs _ IH|column rest tokens Hc _ IH|column Hc
                  |rest tokens _ IH|rest tokens _ IH|rest tokens _ IH
                  |c rest tokens Hc _ IH|c rest tokens Hc _ IH
                  |name rest tokens Hw Hs _ IH|c rest tokens Hc _ IH].
  - done.
  - by rewrite tokenize_number_run, IH.
  - by rewrite tokenize_column, IH.
  - by rewrite tokenize_column_open.
  - by rewrite tokenize_paren_open, IH.
  - by rewrite tokenize_paren_close, IH.
  - by rewrite tokenize_comma, IH.
  - by rewrite tokenize_operator, IH.
  - by rewrite tokenize_space, IH.
  - by rewrite tokenize_function_run, IH.
  - by rewrite tokenize_skip, IH.
Qed.

(** *** Every iteration of the loop is a rule of the grammar *)

Lemma lex_step_digit c rest tokens :
  is_digit10 c = true -> lex (tokenize_step c rest).2 tokens ->
  lex (c :: rest) (option_list (tokenize_step c rest).1 ++ tokens).
Proof.
  intros Hc. rewrite tokenize_step_digit by done.
  assert (number_char c = true) as Hn by (unfold number_char; by rewrite Hc).
  pose proof (span_app number_char (c :: rest)) as Happ.
  pose proof (span_run_Forall number_char (c :: rest)) as Hrun.
  pose proof (span_rest_stops number_char (c :: rest)) as Hstop.
  rewrite span_cons_true in * by done. cbn [fst snd] in *.
  rewrite f64_from_str_digit_first by (by rewrite ?lowercase_number_chars).
  intros Hl. rewrite <- Happ at 1. by apply lex_number.
Qed.

Lemma lex_step_bracket rest tokens :
  lex (tokenize_step (ch "[") rest).2 tokens ->
  lex (ch "[" :: rest) (option_list (tokenize_step (ch "[") rest).1 ++ tokens).
Proof.
  rewrite tokenize_step_bracket. cbn [fst snd option_list app].
  pose proof (span_app column_char rest) as Happ.
  pose proof (span_run_Forall column_char rest) as Hrun.
  pose proof (span_rest_stops column_char rest) as Hstop.
  destruct (span column_char rest) as [column [|x chars]]; simpl in *; intros Hl.
  - rewrite app_nil_r in Happ. subst. apply lex_tokenize in Hl as <-. by constructor.
  - apply negb_false_iff, N.eqb_eq in Hstop as ->. subst. by constructor.
Qed.

Lemma lex_step_letter c rest tokens :
  is_ascii_letter c = true -> lex (tokenize_step c rest).2 tokens ->
  lex (c :: rest) (option_list (tokenize_step c rest).1 ++ tokens).
Proof.
  intros Hc. rewrite tokenize_step_letter by done.
  pose proof (is_alphabetic_letter c Hc) as Ha.
  pose proof (span_app is_alphabetic (c :: rest)) as Happ.
  pose proof (span_run_Forall is_alphabetic (c :: rest)) as Hrun.
  pose proof (span_rest_stops is_alphabetic (c :: rest)) as Hstop.
  rewrite span_cons_true in * by done. cbn [fst snd option_list app] in *.
  intros Hl. rewrite <- Happ at 1.
  apply (lex_function (c :: (span is_alphabetic rest).1) (span is_alphabetic rest).2);
    [split; [by eauto|done]|done..].
Qed.

Lemma lex_step c rest tokens :
  lex (tokenize_step c rest).2 tokens ->
  lex (c :: rest) (option_list (tokenize_step c rest).1 ++ tokens).
Proof.
  destruct (is_digit10 c) eqn:Ed; [by apply lex_step_digit|].
  destruct (N.eqb_spec c (ch "[")) as [->|Eb]; [by apply lex_step_bracket|].
  destruct (is_ascii_letter c) eqn:El; [by apply lex_step_letter|].
  apply N.eqb_neq in Eb. unfold tokenize_step. unfold is_digit10 in Ed. rewrite Ed, Eb.
  destruct (N.eqb_spec c (ch "(")) as [->|Eo]; [by constructor|].
  destruct (N.eqb_spec c (ch ")")) as [->|Ec]; [by constructor|].
  destruct (N.eqb_spec c (ch ",")) as [->|Em]; [by constructor|].
  destruct (is_operator c) eqn:Eop; [by constructor|].
  destruct (is_space c) eqn:Es; [by constructor|].
  rewrite El. simpl. apply lex_skip. unfold starts_no_token, is_digit10.
  apply N.eqb_neq in Eo, Ec, Em. by rewrite Ed, Eb, Eo, Ec, Em, Eop, Es, El.
Qed.

Lemma tokenize_lex input : lex input (tokenize input).
Proof.
  pattern input, (tokenize input). apply tokenize_ind; [constructor|].
  intros c rest. apply lex_step.
Qed.

End Lex.

#[export] Hint Constructors lex : dax.

(** ** ASCII input

    The table of [char::is_alphabetic] matters only outside ASCII: on an
    ASCII input every instance of [Unicode] gives the tokens of
    [ascii_unicode], which compute. *)

Abbreviation ascii_chars := (Forall (fun c => c < 128)).

Section Ascii.
Context `{Unicode}.

Lemma tokenize_step_ascii c rest :
  ascii_chars (c :: rest) ->
  tokenize_step c rest = tokenize_step (H := ascii_unicode) c rest.
Proof.
  intros Ha. unfold tokenize_step.
  rewrite (span_ext is_alphabetic (is_alphabetic (Unicode := ascii_unicode))); [done|].
  eapply Forall_impl; [done|]. intros x Hx. by apply is_alphabetic_ascii.
Qed.

Lemma tokenize_ascii input :
  ascii_chars input -> tokenize input = tokenize (H := ascii_unicode) input.
Proof.
  induction (Nat.lt_wf_0_projected (@length N) input) as [input _ IH].
  destruct input as [|c rest]; [done|]. intros Ha.
  rewrite !tokenize_cons, tokenize_step_ascii by done.
  pose proof (tokenize_step_suffix (H := ascii_unicode) c rest) as Hs.
  rewrite IH; [done| |].
  - apply suffix_length in Hs. simpl. lia.
  - apply Forall_cons in Ha as [_ Ha]. by eapply Forall_suffix.
Qed.

End Ascii.

(** ** Properties *)

Section LexerProperties.
Context `{Unicode}.

(** C13: the tokenizer terminates: the outer loop consumes at least one
    character per iteration, so with one unit of fuel per character of the
    input it runs to the end of the input and returns the tokens; it never
    fails. *)
Theorem tokenize_terminates input :
  tokenize_loop (length input) input = Some (tokenize input).
Proof. by apply tokenize_loop_tokenize. Qed.

(** C9: every token the tokenizer emits is well formed: a function name
    starts with an ASCII letter and consists of alphabetic characters, a
    column name holds no closing bracket, an operator is one of the four
    operator characters; and there is at most one token per character of
    the input (whitespace is not coalesced). *)
Theorem tokenize_wf input :
  Forall token_wf (tokenize input) /\
  (length (tokenize input) <= length input)%nat.
Proof. split; [apply tokenize_tokens_wf|apply tokenize_length]. Qed.

(** C8: the tokenizer implements the grammar of the tokens, and the
    grammar determines the tokens: [tokenize] returns [tokens] on an input
    exactly when [lex] derives them.  A number is a longest run of digits
    and full stops after a digit, and yields a token only if it parses; a
    column is the text up to the next closing bracket or the end; a
    function name is a longest alphabetic run after an ASCII letter; a
    character that starts no token (a full stop included) is dropped. *)
Theorem tokenize_spec input tokens :
  tokenize input = tokens <-> lex input tokens.
Proof. split; [intros <-; apply tokenize_lex|apply lex_tokenize]. Qed.

(** C10: the number arm, on every run it can meet.  A run of digits is the
    number they spell; a run of digits with one full stop, after at least
    one digit, is the decimal number they spell (correctly rounded); a run
    with a second full stop is consumed whole and pushes no token, whatever
    digits and full stops follow the second one. *)
Theorem tokenize_number int frac more rest :
  int <> [] -> digits int -> digits frac -> number_chars more ->
  stops number_char rest ->
  tokenize (int ++ rest) =
    DaxToken.Number (decimal_to_f64 false (digits_value int) 0) :: tokenize rest /\
  tokenize (int ++ ch "." :: frac ++ rest) =
    DaxToken.Number
      (decimal_to_f64 false (digits_value (int ++ frac)) (- Z.of_nat (length frac)))
    :: tokenize rest /\
  tokenize (int ++ ch "." :: frac ++ ch "." :: more ++ rest) = tokenize rest.
Proof.
  intros Hne Hint Hfrac Hmore Hrest.
  pose proof number_chars_dot as Hdot.
  pose proof (digits_number_chars _ Hint) as Hint'.
  pose proof (digits_number_chars _ Hfrac) as Hfrac'.
  split_and!.
  - rewrite tokenize_number_run, parse_number_digits; try done.
    rewrite <- (app_nil_r int). by apply digits_digit_first.
  - change (int ++ ch "." :: frac ++ rest) with (int ++ (ch "." :: frac) ++ rest).
    rewrite app_assoc, tokenize_number_run, parse_number_decimal;
      auto using digits_digit_first, Forall_app_2.
  - replace (int ++ ch "." :: frac ++ ch "." :: more ++ rest)
      with ((int ++ ch "." :: frac ++ ch "." :: more) ++ rest)
      by (by rewrite <- !app_assoc, <- !app_comm_cons, <- app_assoc).
    rewrite tokenize_number_run, parse_number_two_dots;
      auto 6 using digits_digit_first, Forall_app_2.
Qed.

End LexerProperties.


Lemma tokenize_number_witness :
  tokenize (H := ascii_unicode) (str "12" ++ str ")") =
    DaxToken.Number (decimal_to_f64 false (digits_value (str "12")) 0)
    :: tokenize (H := ascii_unicode) (str ")") /\
  tokenize (H := ascii_unicode) (str "12" ++ ch "." :: str "5" ++ str ")") =
    DaxToken.Number
      (decimal_to_f64 false (digits_value (str "12" ++ str "5"))
         (- Z.of_nat (length (str "5"))))
    :: tokenize (H := ascii_unicode) (str ")") /\
  tokenize (H := ascii_unicode)
    (str "12" ++ ch "." :: str "5" ++ ch "." :: str "3" ++ str ")") =
    tokenize (H := ascii_unicode) (str ")").
Proof.
  refine (tokenize_number (H := ascii_unicode) (str "12") (str "5") (str "3") (str ")")
            _ _ _ _ eq_refl); by vm_compute; repeat constructor.
Defined.
