(* ===== verification/TokenFmt.v ===== *)
(** * TokenFmt: tokens as text ([src/dax-macro-impl/src/lib.rs])

    [DaxToken_fmt] is [impl fmt::Display for DaxToken], as the text written;
    [DaxToken_to_tokens] is [impl ToTokens for DaxToken], as the source text
    handed to the compiler for the expansion of [parse_dax!], and
    [parse_dax] the macro ([src/dax-macro/src/lib.rs]) from its input to the
    texts of the elements of the vector it expands to.  [to_tokens] hands
    its text to the lexer of the compiler ([TokenStream2::from_str]) and
    unwraps the result: that step is not modelled, and a text that does
    not lex is one that [read_token] does not read.  The theorems show
    which tokens read back from their text and which do not. *)

From Stdlib Require Import String.
From S2P Require Import Prelude F64 Chars Escape Fmt FromStr Syn Lexer.

(** ** Operations *)

(** [impl fmt::Display for DaxToken]. *)
Definition DaxToken_fmt (self : DaxToken) : rstring :=
  match self with
  | DaxToken.Function name => name
  | DaxToken.Number n => format_shortest n
  | DaxToken.Operator op => [op]
  | DaxToken.Column name => name
  | DaxToken.Comma => str ","
  | DaxToken.ParenOpen => str "("
  | DaxToken.ParenClose => str ")"
  | DaxToken.Whitespace => str " "
  end.

(** [impl ToTokens for DaxToken]: the text [token_str].  The method hands
    it to the lexer of the compiler and unwraps the result; whether the
    text lexes is not modelled. *)
Definition DaxToken_to_tokens (self : DaxToken) : rstring :=
  match self with
  | DaxToken.Function name =>
      str "DaxToken::Function(" ++ QUOTE :: name ++ QUOTE :: str ".to_string())"
  | DaxToken.Number n => str "DaxToken::Number(" ++ format_debug n ++ str ")"
  | DaxToken.Operator op => str "DaxToken::Operator('" ++ op :: str "')"
  | DaxToken.Column name =>
      str "DaxToken::Column(" ++ QUOTE :: name ++ QUOTE :: str ".to_string())"
  | DaxToken.Comma => str "DaxToken::Comma"
  | DaxToken.ParenOpen => str "DaxToken::ParenOpen"
  | DaxToken.ParenClose => str "DaxToken::ParenClose"
  | DaxToken.Whitespace => str "DaxToken::Whitespace"
  end.

Section ParseDax.
Context `{Unicode}.

(** [parse_dax!]: the input is one string literal; the expansion is a
    vector, given by the texts of its elements.  An element that does not
    lex is a panic of the macro, which is not modelled: it is an element
    that [read_token] does not read. *)
Definition parse_dax (input : TokenStream) : Result (list rstring) SynError :=
  let! dax_str := parse_macro_input parse_LitStr input in
  let tokens := tokenize dax_str in
  Ok (DaxToken_to_tokens <$> tokens).

End ParseDax.

(** ** Reading the expansion

    The elements of the vector that [parse_dax!] expands to are source
    text.  [read_token] is the compiler on the eight expressions that
    [ToTokens] means to write: a unit variant, or a variant applied to a
    string literal with [.to_string()], to a float literal, or to a
    character literal.  On any other text it is [None]: the text is not
    one of these expressions. *)

(** A float literal: it starts with a digit and has a fraction or an
    exponent, and its value is the nearest float. *)
Definition read_float_literal (text : rstring) : option f64 :=
  match text with
  | c :: _ =>
      if is_digit10 c
         && existsb (fun x => (x =? ch ".") || (x =? ch "e") || (x =? ch "E"))%N text
         && negb (contains text (str ".e")) && negb (contains text (str ".E"))
      then f64_from_str text
      else None
  | [] => None
  end.

(** A float literal, or the negation of one. *)
Definition read_float_expr (text : rstring) : option f64 :=
  match strip_prefix (str "-") text with
  | Some text => PrimFloat.opp <$> read_float_literal text
  | None => read_float_literal text
  end.

(** The argument of a variant that holds a [String]. *)
Definition read_name (arg : rstring) : option rstring :=
  let? lit := strip_suffix (str ".to_string())") arg in
  read_str_literal lit.

Definition read_token (text : rstring) : option DaxToken :=
  if str_eqb text (str "DaxToken::Comma") then Some DaxToken.Comma
  else if str_eqb text (str "DaxToken::ParenOpen") then Some DaxToken.ParenOpen
  else if str_eqb text (str "DaxToken::ParenClose") then Some DaxToken.ParenClose
  else if str_eqb text (str "DaxToken::Whitespace") then Some DaxToken.Whitespace
  else
    match strip_prefix (str "DaxToken::Function(") text with
    | Some arg => DaxToken.Function <$> read_name arg
    | None =>
    match strip_prefix (str "DaxToken::Column(") text with
    | Some arg => DaxToken.Column <$> read_name arg
    | None =>
    match strip_prefix (str "DaxToken::Number(") text with
    | Some arg => DaxToken.Number <$> (strip_suffix (str ")") arg ≫= read_float_expr)
    | None =>
    match strip_prefix (str "DaxToken::Operator(") text with
    | Some arg => DaxToken.Operator <$> (strip_suffix (str ")") arg ≫= read_char_literal)
    | None => None
    end end end end.

(** ** Facts *)

(** The text that [ToTokens] writes for a name reads as the string that
    the literal between the parentheses denotes. *)
Lemma read_name_quoted name :
  read_name (QUOTE :: name ++ QUOTE :: str ".to_string())") =
  read_str_literal (QUOTE :: name ++ [QUOTE]).
Proof.
  unfold read_name.
  by rewrite (proj2 (strip_suffix_spec _ _ (QUOTE :: name ++ [QUOTE])))
    by (by rewrite <- app_comm_cons, <- app_assoc).
Qed.

Lemma read_token_Function name :
  read_token (DaxToken_to_tokens (DaxToken.Function name)) =
  DaxToken.Function <$> read_str_literal (QUOTE :: name ++ [QUOTE]).
Proof. by rewrite <- read_name_quoted. Qed.

Lemma read_token_Column name :
  read_token (DaxToken_to_tokens (DaxToken.Column name)) =
  DaxToken.Column <$> read_str_literal (QUOTE :: name ++ [QUOTE]).
Proof. by rewrite <- read_name_quoted. Qed.

Lemma read_token_Number n :
  read_token (DaxToken_to_tokens (DaxToken.Number n)) =
  DaxToken.Number <$> read_float_expr (format_debug n).
Proof.
  unfold DaxToken_to_tokens.
  change (read_token (str "DaxToken::Number(" ++ ?t)) with
    (DaxToken.Number <$> (strip_suffix (str ")") t ≫= read_float_expr)).
  by rewrite (proj2 (strip_suffix_spec _ _ (format_debug n))).
Qed.

Lemma read_token_Operator op :
  is_operator op = true ->
  read_token (DaxToken_to_tokens (DaxToken.Operator op)) = Some (DaxToken.Operator op).
Proof.
  unfold is_operator. rewrite !orb_true_iff, !N.eqb_eq. by intros [[[->| ->]| ->]| ->].
Qed.

(** A float that is not a number or not finite is written as a name, which
    is no literal. *)
Lemma read_float_expr_not_finite n :
  f64_is_nan n = true \/ f64_is_infinite n = true -> read_float_expr (format_debug n) = None.
Proof.
  rewrite f64_is_nan_spec, f64_is_infinite_spec. unfold format_debug.
  destruct (Prim2SF n) as [| [] | |]; by intros [?|?].
Qed.

Section TokenFmtFacts.
Context `{Unicode}.

(** The text of a token without letters, a name of a float apart. *)
Lemma DaxToken_fmt_Number_cases n :
  DaxToken_fmt (DaxToken.Number n) = str "NaN" \/
  DaxToken_fmt (DaxToken.Number n) = str "inf" \/
  DaxToken_fmt (DaxToken.Number n) = str "-inf" \/
  Forall (fun c => is_ascii_letter c = false) (DaxToken_fmt (DaxToken.Number n)).
Proof.
  destruct (format_shortest_cases n) as [?|[?|[?|Hd]]]; auto.
  do 3 right. eapply Forall_impl; [done|]. apply decimal_char_not_letter.
Qed.

(** A letter is none of the characters that a literal escapes. *)
Lemma is_alphabetic_plain c : is_alphabetic c = true -> plain_char c.
Proof.
  intros Hc. repeat split; intros ->;
    by rewrite is_alphabetic_ascii in Hc by (by vm_compute).
Qed.

End TokenFmtFacts.

(** The printer and the parser of floats agree on these texts: each of
    them parses to a float that prints as the text. *)
Lemma format_shortest_examples :
  Forall (fun s => format_shortest <$> f64_from_str (str s) = Some (str s))
    ["0"; "1"; "0.1"; "0.3"; "0.5"; "2"; "4.35"; "11.25"; "100"; "123.456"; "450";
     "3.14159"; "0.000025"; "0.0000001"; "9007199254740992"; "123456789012345680";
     "1.0000000000000002"; "0.00000095367431640625"; "10000000000000000";
     "100000000000000000000000"; "8410000000000000000000"; "inf"; "NaN"]%string.
Proof. apply (bool_decide_unpack _). by vm_compute. Qed.

(** The tokens whose element reads back whatever the texts of floats
    are: every token but a number, with a column name that can stand
    between quotes as it is. *)
Definition readable (token : DaxToken) : Prop :=
  match token with
  | DaxToken.Column name => Forall plain_char name
  | DaxToken.Number _ => False
  | _ => True
  end.

Lemma read_token_readable `{Unicode} token :
  token_wf token -> readable token ->
  read_token (DaxToken_to_tokens token) = Some token.
Proof.
  destruct token as [name|n|op|name| | | |]; try done.
  - intros [_ Hn] _. rewrite read_token_Function.
    rewrite (proj2 (read_str_literal_quoted name)); [done|].
    eapply Forall_impl; [done|]. apply is_alphabetic_plain.
  - intros Hop _. by apply read_token_Operator.
  - intros _ Hp. by rewrite read_token_Column, (proj2 (read_str_literal_quoted name)).
Qed.

Lemma read_tokens_readable `{Unicode} tokens :
  Forall token_wf tokens -> Forall readable tokens ->
  mapM read_token (DaxToken_to_tokens <$> tokens) = Some tokens.
Proof.
  induction 1 as [|token tokens Hwf _ IH]; [done|].
  intros [Hr Hrs]%Forall_cons_1. cbn. by rewrite read_token_readable, IH.
Qed.

(** ** Properties *)

Section TokenFmtProperties.
Context `{Unicode}.

(** C32: what [parse_dax!] expands to: on one string literal, the vector
    of the elements that [ToTokens] writes for the tokens of
    [tokenize], in their order, which the compiler reads as these tokens
    when none of them is a number and the column names can stand between
    quotes as they are; on any other input, an error of the compiler. *)
Theorem parse_dax_spec input :
  match parse_dax input with
  | Ok texts =>
      exists dax_str,
        input = [Literal (LitStr dax_str)] /\
        texts = DaxToken_to_tokens <$> tokenize dax_str /\
        (Forall readable (tokenize dax_str) ->
         mapM read_token texts = Some (tokenize dax_str))
  | Err e => forall dax_str, input <> [Literal (LitStr dax_str)]
  end.
Proof.
  unfold parse_dax, parse_macro_input, parse_LitStr.
  destruct input as [|[| | |[dax_str| |]] [|]]; try done.
  exists dax_str. split_and!; [done..|].
  apply read_tokens_readable, tokenize_tokens_wf.
Qed.

(** C35: printing a token and tokenizing the text gives the token back
    for a function name, an operator, a comma, a parenthesis and a blank,
    as the tokenizer emits them.  It never does for a column, which prints
    as its name without the brackets, and it does not for a number that is
    not a number, which prints as a name. *)
Theorem DaxToken_fmt_tokenize token :
  token_wf token ->
  match token with
  | DaxToken.Column name => tokenize (DaxToken_fmt token) <> [token]
  | DaxToken.Number n =>
      f64_is_nan n = true ->
      tokenize (DaxToken_fmt token) = [DaxToken.Function (str "NaN")]
  | _ => tokenize (DaxToken_fmt token) = [token]
  end.
Proof.
  destruct token; simpl; intros Hwf; try done.
  - by apply tokenize_function_name.
  - rewrite f64_is_nan_spec. unfold format_shortest.
    destruct (Prim2SF n) as [| | |]; try done. intros _.
    apply tokenize_function_name. split; [by eauto|].
    repeat constructor; by apply is_alphabetic_letter.
  - by rewrite tokenize_operator.
  - intros E. pose proof (tokenize_column_shorter name) as Hs.
    rewrite E in Hs. apply Forall_cons in Hs as [Hs _]. simpl in Hs. lia.
Qed.

(** A run of digits that is too large for a float is the number
    infinity: the tokenizer emits [Number(inf)] for it, and the source
    text [parse_dax!] writes for that token is [DaxToken::Number(inf)],
    which names no value. *)
Theorem tokenize_number_overflow :
  tokenize (replicate 310 (ch "9")) = [DaxToken.Number infinity] /\
  parse_dax [Literal (LitStr (replicate 310 (ch "9")))] =
    Ok [str "DaxToken::Number(inf)"].
Proof.
  unfold parse_dax, parse_macro_input, parse_LitStr.
  rewrite tokenize_ascii by (apply Forall_replicate; by vm_compute).
  by vm_compute.
Qed.

(** C34: what the expansion of [parse_dax!] denotes.  The text that
    [ToTokens] writes for a token, read as the compiler reads it, is the
    token for a function name, an operator, a comma, a parenthesis and a
    blank.  For a column it is the token exactly when the name holds no
    backslash, no double quote and no carriage return, because the name is
    written between quotes as it is; and for a number that is not finite
    it is nothing, because [{:?}] writes a name for it. *)
Theorem read_token_to_tokens token :
  token_wf token ->
  match token with
  | DaxToken.Column name =>
      read_token (DaxToken_to_tokens token) = Some token <-> Forall plain_char name
  | DaxToken.Number n =>
      f64_is_nan n = true \/ f64_is_infinite n = true ->
      read_token (DaxToken_to_tokens token) = None
  | _ => read_token (DaxToken_to_tokens token) = Some token
  end.
Proof.
  destruct token as [name|n|op|name| | | |]; try done.
  - intros [_ Hn]. rewrite read_token_Function.
    rewrite (proj2 (read_str_literal_quoted name)); [done|].
    eapply Forall_impl; [done|]. apply is_alphabetic_plain.
  - intros _ Hn. by rewrite read_token_Number, read_float_expr_not_finite.
  - apply read_token_Operator.
  - intros _. rewrite read_token_Column, <- read_str_literal_quoted.
    destruct (read_str_literal _); simpl; split; by intros [= ->].
Qed.

End TokenFmtProperties.

Lemma DaxToken_fmt_tokenize_witness :
  tokenize (H := ascii_unicode) (DaxToken_fmt (DaxToken.Operator (ch "/"))) =
  [DaxToken.Operator (ch "/")].
Proof.
  exact (DaxToken_fmt_tokenize (H := ascii_unicode) (DaxToken.Operator (ch "/")) eq_refl).
Defined.

Lemma read_token_to_tokens_witness :
  read_token (DaxToken_to_tokens (DaxToken.Column (str "Sales"))) =
    Some (DaxToken.Column (str "Sales")) <->
  Forall plain_char (str "Sales").
Proof.
  exact (read_token_to_tokens (H := ascii_unicode) (DaxToken.Column (str "Sales"))
           ltac:(by repeat constructor)).
Defined.
