(* ===== verification/Evaluate.v ===== *)
(** * Evaluate: the evaluator ([evaluate_dax] of [src/src/table.rs])

    [evaluate_dax] tokenizes the expression and scans the tokens once, with
    one iterator shared by the outer loop and by the inner loop of each
    function arm.  The iterator is the list of tokens not yet taken.  An
    inner loop either returns from the function or runs the iterator dry
    ([Flow]); in the second case the outer [iter.next()] finds nothing and
    the function returns its final error.

    [eval_spec] is what the evaluator promises, stated on the token list
    without loops; [evaluate_tokens_spec] shows that [evaluate_tokens]
    computes exactly that.  [no_result] is why an operation has no result
    on a column; [evaluate_dax_errors] shows which errors an expression
    evaluates to, and the cause of each. *)

From Stdlib Require Import String.
From stdpp Require Import gmap.
From S2P Require Import Prelude F64 Chars Types Collections TableOps FromStr Lexer.

(** ** Data *)

Module DaxResult.

Inductive t : Type :=
| Number (n : f64)
| Text (s : rstring)
| Boolean (b : bool)
| Error (msg : rstring).

End DaxResult.

Abbreviation DaxResult := DaxResult.t (only parsing).

#[export] Instance DaxResult_eq_dec : EqDecision DaxResult.t.
Proof. solve_decision. Defined.

(** How an inner loop ends: by [return], or with the iterator exhausted. *)
Inductive Flow : Type :=
| Return (r : DaxResult)
| Exhausted.

(** ** Messages *)

Definition could_not_calculate (func : string) (col_name : rstring) : rstring :=
  str "Could not calculate " ++ str func ++ str " for column " ++ col_name.

Definition unsupported_function (name : rstring) : rstring :=
  str "Unsupported function: " ++ name.

Definition invalid_expression : rstring :=
  str "Invalid or unsupported DAX expression".

(** ** Operations *)

(** The result of a function arm once it has its column:
    [match self.op(&col_name) { Some(x) => Number(x), None => Error(format!(..)) }]. *)
Definition column_result (op : rstring -> option f64) (func : string)
    (col_name : rstring) : DaxResult :=
  match op col_name with
  | Some x => DaxResult.Number x
  | None => DaxResult.Error (could_not_calculate func col_name)
  end.

(** The inner loop of a function arm:
    [while let Some(token) = iter.next() { if let Column(col_name) = token { return .. } }]. *)
Fixpoint column_loop (op : rstring -> option f64) (func : string)
    (iter : list DaxToken) : Flow :=
  match iter with
  | [] => Exhausted
  | DaxToken.Column col_name :: _ => Return (column_result op func col_name)
  | _ :: iter' => column_loop op func iter'
  end.

Section Evaluate.
Context `{Unicode} `{Probe (list HasherWrite)}.

(** [self.distinctcount(&col_name)] with its [dc as f64]. *)
Definition distinctcount_f64 (self : Table) (col_name : rstring) : option f64 :=
  (fun dc => usize_as_f64 (Z.of_nat dc)) <$> Table.distinctcount self col_name.

(** The arms of [match name.as_str()]: the inner loop of a recognised
    name, or the return of the catch-all arm. *)
Definition function_arm (self : Table) (name : rstring) (iter : list DaxToken) : Flow :=
  if bool_decide (name = str "SUM") then
    column_loop (Table.sum self) "SUM" iter
  else if bool_decide (name = str "AVERAGE") then
    column_loop (Table.average self) "AVERAGE" iter
  else if bool_decide (name = str "MIN") then
    column_loop (Table.min self) "MIN" iter
  else if bool_decide (name = str "MAX") then
    column_loop (Table.max self) "MAX" iter
  else if bool_decide (name = str "DISTINCTCOUNT") then
    column_loop (distinctcount_f64 self) "DISTINCTCOUNT" iter
  else Return (DaxResult.Error (unsupported_function name)).

(** The outer loop, from the iterator position [iter]. *)
Fixpoint evaluate_tokens (self : Table) (iter : list DaxToken) : DaxResult :=
  match iter with
  | [] => DaxResult.Error invalid_expression
  | DaxToken.Function name :: iter' =>
      match function_arm self name iter' with
      | Return r => r
      | Exhausted => DaxResult.Error invalid_expression
      end
  | _ :: iter' => evaluate_tokens self iter'
  end.

Definition evaluate_dax (self : Table) (expression : rstring) : DaxResult :=
  evaluate_tokens self (tokenize expression).

End Evaluate.

(** ** [eval_dax] of [src/src/main.rs] *)

Module DaxValue.

Inductive t : Type :=
| Number (n : f64)
| Text (s : rstring)
| Boolean (b : bool).

End DaxValue.

Abbreviation DaxValue := DaxValue.t (only parsing).

Definition eval_dax `{Unicode} `{Probe (list HasherWrite)}
    (table : Table) (dax_expr : rstring) : Result DaxValue rstring :=
  match evaluate_dax table dax_expr with
  | DaxResult.Number n => Ok (DaxValue.Number n)
  | DaxResult.Text s => Ok (DaxValue.Text s)
  | DaxResult.Boolean b => Ok (DaxValue.Boolean b)
  | DaxResult.Error e => Err e
  end.

(** ** The specification of the evaluator *)

Definition is_function (token : DaxToken) : bool :=
  match token with DaxToken.Function _ => true | _ => false end.

Definition is_column (token : DaxToken) : bool :=
  match token with DaxToken.Column _ => true | _ => false end.

Abbreviation no_function := (Forall (fun token => is_function token = false)).
Abbreviation no_column := (Forall (fun token => is_column token = false)).

Section Spec.
Context `{Unicode} `{Probe (list HasherWrite)}.
Implicit Types (self : Table) (name col : rstring) (iter pre mid post : list DaxToken).

(** The table operation a function name stands for, with the name as the
    messages spell it. *)
Definition dispatch self name : option ((rstring -> option f64) * string) :=
  if bool_decide (name = str "SUM") then Some (Table.sum self, "SUM"%string)
  else if bool_decide (name = str "AVERAGE") then Some (Table.average self, "AVERAGE"%string)
  else if bool_decide (name = str "MIN") then Some (Table.min self, "MIN"%string)
  else if bool_decide (name = str "MAX") then Some (Table.max self, "MAX"%string)
  else if bool_decide (name = str "DISTINCTCOUNT") then
    Some (distinctcount_f64 self, "DISTINCTCOUNT"%string)
  else None.

(** What [evaluate_dax] returns on a token list: decided by the first
    function token and the first column token after it, and by nothing
    else. *)
Inductive eval_spec self : list DaxToken -> DaxResult -> Prop :=
| eval_no_function iter :
    no_function iter ->
    eval_spec self iter (DaxResult.Error invalid_expression)
| eval_unsupported pre name post :
    no_function pre -> dispatch self name = None ->
    eval_spec self (pre ++ DaxToken.Function name :: post)
      (DaxResult.Error (unsupported_function name))
| eval_no_column pre name op func post :
    no_function pre -> dispatch self name = Some (op, func) -> no_column post ->
    eval_spec self (pre ++ DaxToken.Function name :: post)
      (DaxResult.Error invalid_expression)
| eval_call pre name op func mid col post :
    no_function pre -> dispatch self name = Some (op, func) -> no_column mid ->
    eval_spec self (pre ++ DaxToken.Function name :: mid ++ DaxToken.Column col :: post)
      (column_result op func col).

(** Why a recognised function has no result on a column: the column does
    not exist, or the function is [MIN] or [MAX] and the column holds no
    number. *)
Definition no_result self name col : Prop :=
  Table.get_column self col = None \/
  ((name = str "MIN" \/ name = str "MAX") /\
   exists column, Table.get_column self col = Some column /\ numbers column = []).

(** *** The loops, characterised *)

Lemma function_arm_dispatch self name iter :
  function_arm self name iter =
  match dispatch self name with
  | Some (op, func) => column_loop op func iter
  | None => Return (DaxResult.Error (unsupported_function name))
  end.
Proof. unfold function_arm, dispatch. by repeat case_bool_decide. Qed.

Lemma column_loop_no_column op func iter :
  no_column iter -> column_loop op func iter = Exhausted.
Proof.
  induction 1 as [|token iter Ht _ IH]; simpl; [done|]. by destruct token.
Qed.

Lemma column_loop_first op func mid col post :
  no_column mid ->
  column_loop op func (mid ++ DaxToken.Column col :: post) =
  Return (column_result op func col).
Proof.
  induction 1 as [|token mid Ht _ IH]; simpl; [done|]. by destruct token.
Qed.

(** A token list has no column, or a first one. *)
Lemma first_column iter :
  no_column iter \/
  exists mid col post, iter = mid ++ DaxToken.Column col :: post /\ no_column mid.
Proof.
  induction iter as [|token iter [IH|(mid & col & post & -> & Hmid)]].
  - left. constructor.
  - destruct (is_column token) eqn:E.
    + right. destruct token; try done. by exists [], name, iter.
    + left. by constructor.
  - right. destruct (is_column token) eqn:E.
    + destruct token; try done. by exists [], name, (mid ++ DaxToken.Column col :: post).
    + exists (token :: mid), col, post. split; [done|by constructor].
Qed.

Lemma evaluate_tokens_skip self pre iter :
  no_function pre -> evaluate_tokens self (pre ++ iter) = evaluate_tokens self iter.
Proof.
  induction 1 as [|token pre Ht _ IH]; simpl; [done|]. by destruct token.
Qed.

Lemma evaluate_tokens_no_function self iter :
  no_function iter -> evaluate_tokens self iter = DaxResult.Error invalid_expression.
Proof.
  induction 1 as [|token iter Ht _ IH]; simpl; [done|]. by destruct token.
Qed.

Lemma evaluate_tokens_function self name iter :
  evaluate_tokens self (DaxToken.Function name :: iter) =
  match dispatch self name with
  | Some (op, func) =>
      match column_loop op func iter with
      | Return r => r
      | Exhausted => DaxResult.Error invalid_expression
      end
  | None => DaxResult.Error (unsupported_function name)
  end.
Proof.
  simpl. rewrite function_arm_dispatch.
  by destruct (dispatch self name) as [[op func]|].
Qed.

(** Only [MIN] and [MAX] can fail on a column that exists. *)
Lemma dispatch_no_result self name op func col :
  dispatch self name = Some (op, func) -> op col = None <-> no_result self name col.
Proof.
  unfold dispatch, no_result. repeat case_bool_decide; intros; simplify_eq.
  - rewrite sum_None. split; [by left|by intros [|[[[=]|[=]] _]]].
  - rewrite average_None. split; [by left|by intros [|[[[=]|[=]] _]]].
  - rewrite min_None. split; [intros [|]; eauto|intros [|[_ ?]]; eauto].
  - rewrite max_None. split; [intros [|]; eauto|intros [|[_ ?]]; eauto].
  - unfold distinctcount_f64. rewrite fmap_None, distinctcount_None.
    split; [by left|by intros [|[[[=]|[=]] _]]].
Qed.

Lemma column_result_Error op func col msg :
  column_result op func col = DaxResult.Error msg <->
  op col = None /\ msg = could_not_calculate func col.
Proof.
  unfold column_result. destruct (op col); [by split; [|intros []]|].
  split; [by intros [= <-]|by intros [_ ->]].
Qed.

End Spec.

#[export] Hint Constructors eval_spec : dax.
#[export] Hint Rewrite @evaluate_tokens_function : dax.

(** ** Properties *)

Section EvaluateProperties.
Context `{Unicode} `{Probe (list HasherWrite)}.
Implicit Types (self : Table) (name col : rstring) (iter pre mid post : list DaxToken).

Lemma eval_spec_cons self token iter r :
  is_function token = false -> eval_spec self iter r ->
  eval_spec self (token :: iter) r.
Proof.
  intros Ht. destruct 1; rewrite ?app_comm_cons;
    eauto using Forall_cons_2 with dax.
Qed.

(** An expression without a letter has no function. *)
Lemma tokenize_no_letters input :
  Forall (fun c => is_ascii_letter c = false) input -> no_function (tokenize input).
Proof.
  pattern input, (tokenize input). apply tokenize_ind; [done|].
  intros c rest IH Hin. apply Forall_app. split.
  - destruct (tokenize_step c rest).1 as [token|] eqn:E; [|done].
    repeat constructor. destruct token; try done.
    apply tokenize_step_function in E. apply Forall_cons in Hin as [? _]. congruence.
  - apply IH. apply Forall_cons in Hin as [_ Hin].
    eapply Forall_suffix; [apply tokenize_step_suffix|done].
Qed.

Lemma evaluate_dax_no_letters self expression :
  Forall (fun c => is_ascii_letter c = false) expression ->
  evaluate_dax self expression = DaxResult.Error invalid_expression.
Proof. intros Hl. by apply evaluate_tokens_no_function, tokenize_no_letters. Qed.

(** An operator before an expression is skipped. *)
Lemma evaluate_dax_operator self c expression :
  is_operator c = true ->
  evaluate_dax self (c :: expression) = evaluate_dax self expression.
Proof. intros Hc. unfold evaluate_dax. by rewrite tokenize_operator. Qed.

(** A function name alone is not a call. *)
Lemma evaluate_dax_function_name self name :
  token_wf (DaxToken.Function name) ->
  exists msg, evaluate_dax self name = DaxResult.Error msg.
Proof.
  intros Hwf. unfold evaluate_dax. rewrite tokenize_function_name by done.
  simpl. unfold function_arm. repeat case_bool_decide; simpl; eauto.
Qed.

(** On an ASCII expression the table of [char::is_alphabetic] plays no
    part. *)
Lemma evaluate_dax_ascii self expression :
  ascii_chars expression ->
  evaluate_dax self expression = evaluate_dax (H := ascii_unicode) self expression.
Proof. intros Ha. unfold evaluate_dax. by rewrite tokenize_ascii. Qed.

Lemma evaluate_tokens_sound self iter :
  eval_spec self iter (evaluate_tokens self iter).
Proof.
  induction iter as [|token iter IH]; [by eauto with dax|].
  destruct (is_function token) eqn:E; [|by destruct token; eauto using eval_spec_cons].
  destruct token as [name| | | | | | |]; try done.
  rewrite evaluate_tokens_function.
  destruct (dispatch self name) as [[op func]|] eqn:Ed;
    [|by apply (eval_unsupported self [])].
  destruct (first_column iter) as [Hn|(mid & col & post & -> & Hmid)].
  - rewrite column_loop_no_column by done. by eapply (eval_no_column self []).
  - rewrite column_loop_first by done. by eapply (eval_call self []).
Qed.

Lemma evaluate_tokens_complete self iter r :
  eval_spec self iter r -> evaluate_tokens self iter = r.
Proof.
  destruct 1 as [iter Hn|pre name post Hp Hd|pre name op func post Hp Hd Hn
                |pre name op func mid col post Hp Hd Hm];
    [by apply evaluate_tokens_no_function|..];
    rewrite evaluate_tokens_skip, evaluate_tokens_function, Hd by done;
    [done|by rewrite column_loop_no_column|by rewrite column_loop_first].
Qed.

(** C1: the evaluator implements its specification, and the specification
    determines the result: on every token list the two nested loops of
    [evaluate_dax] return [r] exactly when [eval_spec] allows [r], that is
    the generic error when there is no function token or no column after a
    recognised first function, the unsupported-function error for an
    unrecognised first function, and otherwise the recognised operation
    applied to the first column after the first function. *)
Theorem evaluate_tokens_spec self iter r :
  evaluate_tokens self iter = r <-> eval_spec self iter r.
Proof.
  split; [intros <-; apply evaluate_tokens_sound|apply evaluate_tokens_complete].
Qed.

(** C2: single dispatch on the text of an expression: for a name of ASCII
    letters and a column name without a closing bracket, the expression
    [NAME([column]...] evaluates to the named operation on that column, or
    to the unsupported-function error, whatever text follows the closing
    bracket of the column: a second call, an operator or an operand after
    it is never looked at. *)
Theorem evaluate_dax_call self name col rest :
  is_name name -> Forall (fun c => column_char c = true) col ->
  evaluate_dax self (name ++ ch "(" :: ch "[" :: col ++ ch "]" :: rest) =
  match dispatch self name with
  | Some (op, func) => column_result op func col
  | None => DaxResult.Error (unsupported_function name)
  end.
Proof.
  intros Hname Hcol. unfold evaluate_dax.
  rewrite tokenize_name, tokenize_paren_open, tokenize_column;
    [|done..|by rewrite is_alphabetic_ascii].
  rewrite evaluate_tokens_function.
  by destruct (dispatch self name) as [[op func]|].
Qed.

(** C26: the errors of the evaluator and their causes.  An expression
    evaluates to an error in three cases and in no other: the generic
    error, when its tokens hold no function name, or no column after a
    recognised first function name; the unsupported-function error with
    the name, when the first function name is not recognised; and the
    error of the operation with the function and the column, when the
    first column after a recognised first function name does not exist, or
    when the function is [MIN] or [MAX] and the column holds no number.
    [SUM], [AVERAGE] and [DISTINCTCOUNT] never fail on a column that
    exists. *)
Theorem evaluate_dax_errors self expression msg :
  evaluate_dax self expression = DaxResult.Error msg <->
  (msg = invalid_expression /\
   (no_function (tokenize expression) \/
    exists pre name post,
      tokenize expression = pre ++ DaxToken.Function name :: post /\
      no_function pre /\ is_Some (dispatch self name) /\ no_column post)) \/
  (exists pre name post,
     tokenize expression = pre ++ DaxToken.Function name :: post /\
     no_function pre /\ dispatch self name = None /\
     msg = unsupported_function name) \/
  (exists pre name op func mid col post,
     tokenize expression =
       pre ++ DaxToken.Function name :: mid ++ DaxToken.Column col :: post /\
     no_function pre /\ dispatch self name = Some (op, func) /\ no_column mid /\
     no_result self name col /\ msg = could_not_calculate func col).
Proof.
  unfold evaluate_dax. split.
  - intros He. pose proof (evaluate_tokens_sound self (tokenize expression)) as Hs.
    rewrite He in Hs. inversion Hs as [iter Hn|pre name post Hp Hd|pre name op func post Hp Hd Hn
                                      |pre name op func mid col post Hp Hd Hm Ht Hr];
      simplify_eq; [left; eauto|right; left; eauto 8|left; eauto 10|].
    apply column_result_Error in Hr as [Hop ->]. right. right.
    apply (dispatch_no_result _ _ _ _ _ Hd) in Hop. eauto 15.
  - intros [[-> [Hn|(pre & name & post & -> & Hp & [[op func] Hd] & Hn)]]
           |[(pre & name & post & -> & Hp & Hd & ->)
            |(pre & name & op & func & mid & col & post & -> & Hp & Hd & Hm & Hr & ->)]];
      apply evaluate_tokens_complete; eauto with dax.
    apply (dispatch_no_result _ _ _ _ _ Hd) in Hr.
    replace (DaxResult.Error _) with (column_result op func col)
      by (by apply column_result_Error).
    by apply eval_call.
Qed.

(** A recognised function with no column token anywhere after it gives
    the generic error, whatever else follows it, other function names
    included: the inner loop of the arm consumes the iterator the outer loop
    shares, so the outer loop finds nothing left to dispatch. *)
Theorem evaluate_tokens_function_without_column self pre name op func post :
  no_function pre -> dispatch self name = Some (op, func) -> no_column post ->
  evaluate_tokens self (pre ++ DaxToken.Function name :: post) =
  DaxResult.Error invalid_expression.
Proof. intros. apply evaluate_tokens_complete. by eapply eval_no_column. Qed.

End EvaluateProperties.

(** ** Witnesses *)

Lemma evaluate_dax_call_witness :
  evaluate_dax (H := ascii_unicode) (H0 := exact_probe _) main_table
    (str "SUM([Sales]) / SUM([Quantity])") = DaxResult.Number 450.
Proof.
  exact (evaluate_dax_call (H := ascii_unicode) (H0 := exact_probe _) main_table
           (str "SUM") (str "Sales") (str ") / SUM([Quantity])")
           ltac:(split; [done|by repeat constructor]) ltac:(by repeat constructor)).
Defined.
