(* ===== verification/Divide.v ===== *)
(** * Divide: the division of two arguments ([evaluate_divide] of
    [src/src/table.rs])

    [evaluate_divide] takes the arguments of a [DIVIDE] call as tokens,
    prints each of them and evaluates the text as an expression of its own.
    The method is private and is not called.  The theorems show what it
    computes when it succeeds, and that it cannot succeed on the tokens of
    an argument list as the tokenizer emits them, unless the arguments are
    columns whose names spell expressions. *)

From Stdlib Require Import String.
From stdpp Require Import gmap.
From S2P Require Import Prelude F64 Chars Fmt Types Collections TableOps.
From S2P Require Import FromStr Lexer TokenFmt Evaluate.

Section Divide.
Context `{Unicode} `{Probe (list HasherWrite)}.
Implicit Types (self : Table) (args : list DaxToken) (token : DaxToken).

(** ** Operations *)

(** [match self.evaluate_dax(&arg.to_string()) { Number(n) => n, _ => return Err(msg) }]. *)
Definition evaluate_arg self token : option f64 :=
  match evaluate_dax self (DaxToken_fmt token) with
  | DaxResult.Number n => Some n
  | _ => None
  end.

(** [evaluate_divide]. *)
Definition evaluate_divide self args : Result DaxResult rstring :=
  if (length args <? 2)%nat || (3 <? length args)%nat then
    Err (str "DIVIDE requires 2 or 3 arguments")
  else
    match args with
    | arg0 :: arg1 :: rest =>
        match evaluate_arg self arg0 with
        | None => Err (str "Numerator must be a number")
        | Some numerator =>
            match evaluate_arg self arg1 with
            | None => Err (str "Denominator must be a number")
            | Some denominator =>
                if f64_eq denominator 0 then
                  match rest with
                  | arg2 :: _ =>
                      match evaluate_arg self arg2 with
                      | Some n => Ok (DaxResult.Number n)
                      | None => Err (str "Alternate result must be a number")
                      end
                  | [] => Err (str "Division by zero")
                  end
                else Ok (DaxResult.Number (numerator / denominator))
            end
        end
    | _ => Err (str "DIVIDE requires 2 or 3 arguments")
    end.

(** ** Reference: the arguments as values *)

(** The alternate result, when there is a third argument that evaluates. *)
Definition alternate self args : option f64 :=
  args !! 2%nat ≫= evaluate_arg self.

(** ** Facts *)

(** The text of a token that is not a column does not evaluate. *)
Lemma evaluate_arg_not_column self token :
  token_wf token -> evaluate_arg self token = None \/ exists name, token = DaxToken.Column name.
Proof.
  intros Hwf. unfold evaluate_arg.
  destruct token as [name|n|op|name| | | |]; eauto; left; cbn [DaxToken_fmt].
  - by destruct (evaluate_dax_function_name self name Hwf) as [msg ->].
  - destruct (DaxToken_fmt_Number_cases n) as [E|[E|[E|Hl]]];
      cbn [DaxToken_fmt] in *; rewrite ?E.
    + by destruct (evaluate_dax_function_name self (str "NaN")) as [msg ->];
        [split; [by eauto|repeat constructor; by apply is_alphabetic_letter]|].
    + by destruct (evaluate_dax_function_name self (str "inf")) as [msg ->];
        [split; [by eauto|repeat constructor; by apply is_alphabetic_letter]|].
    + change (str "-inf") with (ch "-" :: str "inf").
      rewrite evaluate_dax_operator by done.
      by destruct (evaluate_dax_function_name self (str "inf")) as [msg ->];
        [split; [by eauto|repeat constructor; by apply is_alphabetic_letter]|].
    + by rewrite evaluate_dax_no_letters.
  - rewrite evaluate_dax_no_letters; [done|]. simpl in Hwf. repeat constructor.
    revert Hwf. unfold is_operator, is_ascii_letter. rewrite !orb_true_iff, !N.eqb_eq.
    intros Hop. apply orb_false_iff. split; apply not_true_iff_false;
      rewrite in_range_spec; revert Hop; eval_ch; lia.
  all: by rewrite evaluate_dax_no_letters by (by repeat constructor).
Qed.

(** What a success is made of. *)
Lemma evaluate_divide_Ok self args r :
  evaluate_divide self args = Ok r ->
  exists arg0 arg1 numerator denominator,
    args !! 0%nat = Some arg0 /\ args !! 1%nat = Some arg1 /\
    evaluate_arg self arg0 = Some numerator /\
    evaluate_arg self arg1 = Some denominator /\
    (DaxResult.Number <$> Table.divide self numerator denominator (alternate self args))
      = Some r.
Proof.
  unfold evaluate_divide, alternate, Table.divide. case_match; [done|].
  destruct args as [|arg0 [|arg1 rest]]; try done.
  destruct (evaluate_arg self arg0) as [numerator|] eqn:E0; [|done].
  destruct (evaluate_arg self arg1) as [denominator|] eqn:E1; [|done].
  intros Hr. exists arg0, arg1, numerator, denominator. split_and!; try done.
  destruct (f64_eq denominator 0); [|by simplify_eq].
  destruct rest as [|arg2 rest]; [done|]. simpl.
  destruct (evaluate_arg self arg2); by simplify_eq.
Qed.

End Divide.

(** ** Properties *)

Section DivideProperties.
Context `{Unicode} `{Probe (list HasherWrite)}.
Implicit Types (self : Table) (args : list DaxToken).

(** C31: when [evaluate_divide] succeeds, its result is [Table::divide]
    of the values of its first two arguments, with the value of the third
    as the alternate result: the quotient, or the alternate when the
    denominator is zero. *)
Theorem evaluate_divide_divide self args r :
  evaluate_divide self args = Ok r ->
  exists numerator denominator,
    (args !! 0%nat ≫= evaluate_arg self) = Some numerator /\
    (args !! 1%nat ≫= evaluate_arg self) = Some denominator /\
    (DaxResult.Number <$> Table.divide self numerator denominator (alternate self args))
      = Some r.
Proof.
  intros (arg0 & arg1 & n & d & -> & -> & ? & ? & ?)%evaluate_divide_Ok. eauto.
Qed.

(** C30: on tokens as the tokenizer emits them, [evaluate_divide]
    succeeds only when its first two arguments are columns: the text of a
    function name, a number, an operator or a parenthesis is not an
    expression that evaluates to a number, and a column prints as its
    name, which evaluates only if the name itself spells a call. *)
Theorem evaluate_divide_columns self args r :
  Forall token_wf args -> evaluate_divide self args = Ok r ->
  exists numerator denominator,
    args !! 0%nat = Some (DaxToken.Column numerator) /\
    args !! 1%nat = Some (DaxToken.Column denominator).
Proof.
  intros Hwf (arg0 & arg1 & n & d & Ha0 & Ha1 & E0 & E1 & _)%evaluate_divide_Ok.
  rewrite Forall_lookup in Hwf.
  destruct (evaluate_arg_not_column self arg0) as [?|[num ->]]; [by eauto|congruence|].
  destruct (evaluate_arg_not_column self arg1) as [?|[den ->]]; [by eauto|congruence|].
  eauto.
Qed.

End DivideProperties.

(** ** Witnesses *)

(** Two columns whose names spell calls: the only arguments that divide. *)
Definition column_args : list DaxToken :=
  [DaxToken.Column (str "SUM([Sales"); DaxToken.Column (str "SUM([Quantity")].

Lemma evaluate_divide_column_args :
  evaluate_divide (H := ascii_unicode) (H0 := exact_probe _) main_table column_args =
  Ok (DaxResult.Number 11.25).
Proof. by vm_compute. Qed.

Lemma evaluate_divide_divide_witness :
  exists numerator denominator,
    (column_args !! 0%nat ≫=
       evaluate_arg (H := ascii_unicode) (H0 := exact_probe _) main_table) = Some numerator /\
    (column_args !! 1%nat ≫=
       evaluate_arg (H := ascii_unicode) (H0 := exact_probe _) main_table) = Some denominator /\
    (DaxResult.Number <$>
       Table.divide main_table numerator denominator
         (alternate (H := ascii_unicode) (H0 := exact_probe _) main_table column_args))
      = Some (DaxResult.Number 11.25).
Proof.
  exact (evaluate_divide_divide (H := ascii_unicode) (H0 := exact_probe _)
           main_table column_args (DaxResult.Number 11.25)
           ltac:(by vm_compute)).
Defined.

Lemma evaluate_divide_columns_witness :
  exists numerator denominator,
    column_args !! 0%nat = Some (DaxToken.Column numerator) /\
    column_args !! 1%nat = Some (DaxToken.Column denominator).
Proof.
  exact (evaluate_divide_columns (H := ascii_unicode) (H0 := exact_probe _)
           main_table column_args (DaxResult.Number 11.25)
           ltac:(by repeat constructor) ltac:(by vm_compute)).
Defined.
