(* ===== verification/Machine.v ===== *)
(** * Machine: the evaluator as a state machine

    The scan of [evaluate_dax] has two states, scanning for a function and
    scanning for the column of a recognised function, and one exit.  [step]
    is the transition relation on one token, [run] its closure over a token
    list, [step_fn] and [run_fn] the same as functions.  [eventually] is
    the modality of progress over the tokens still to read, and [has_call]
    the token lists on which the scan returns before the tokens end.

    The theorems show that the machine is deterministic and total, that
    its outcome is the result of [evaluate_tokens], that it never goes back
    from scanning for a column to scanning for a function, and that it
    reaches its exit exactly on the token lists that hold a call. *)

From Stdlib Require Import String.
From stdpp Require Import gmap.
From S2P Require Import Prelude F64 Chars Types Collections TableOps FromStr Lexer Evaluate.

(** ** States and transitions *)

Inductive EvalState : Type :=
| ScanFunction
| ScanColumn (op : rstring -> option f64) (func : string)
| Finished (r : DaxResult).

Section Machine.
Context `{Probe (list HasherWrite)}.
Implicit Types (self : Table) (s : EvalState) (token : DaxToken) (iter : list DaxToken).

Inductive step self : EvalState -> DaxToken -> EvalState -> Prop :=
| step_skip token :
    is_function token = false -> step self ScanFunction token ScanFunction
| step_function name op func :
    dispatch self name = Some (op, func) ->
    step self ScanFunction (DaxToken.Function name) (ScanColumn op func)
| step_unsupported name :
    dispatch self name = None ->
    step self ScanFunction (DaxToken.Function name)
      (Finished (DaxResult.Error (unsupported_function name)))
| step_wait op func token :
    is_column token = false -> step self (ScanColumn op func) token (ScanColumn op func)
| step_column op func col :
    step self (ScanColumn op func) (DaxToken.Column col)
      (Finished (column_result op func col))
| step_finished r token : step self (Finished r) token (Finished r).

Inductive run self : EvalState -> list DaxToken -> EvalState -> Prop :=
| run_nil s : run self s [] s
| run_cons s token s' iter s'' :
    step self s token s' -> run self s' iter s'' -> run self s (token :: iter) s''.

(** The transition as a function. *)
Definition step_fn self s token : EvalState :=
  match s, token with
  | ScanFunction, DaxToken.Function name =>
      match dispatch self name with
      | Some (op, func) => ScanColumn op func
      | None => Finished (DaxResult.Error (unsupported_function name))
      end
  | ScanFunction, _ => ScanFunction
  | ScanColumn op func, DaxToken.Column col => Finished (column_result op func col)
  | ScanColumn op func, _ => ScanColumn op func
  | Finished r, _ => Finished r
  end.

Definition run_fn self s iter : EvalState := fold_left (step_fn self) iter s.

(** What the function returns when the tokens end in state [s]. *)
Definition outcome s : DaxResult :=
  match s with
  | Finished r => r
  | _ => DaxResult.Error invalid_expression
  end.

(** ** The relation and the function agree *)

Lemma step_step_fn self s token : step self s token (step_fn self s token).
Proof.
  destruct s as [|op func|r], token; simpl; try by constructor.
  destruct (dispatch self name) as [[op func]|] eqn:E; by constructor.
Qed.

Lemma step_fn_step self s token s' : step self s token s' -> step_fn self s token = s'.
Proof.
  destruct 1 as [token Ht|name op func Hd|name Hd|op func token Ht|op func col|r token];
    simpl; rewrite ?Hd; try done; by destruct token.
Qed.

Lemma run_run_fn self s iter : run self s iter (run_fn self s iter).
Proof.
  revert s. induction iter as [|token iter IH]; intros s; [constructor|].
  econstructor; [apply step_step_fn|apply IH].
Qed.

Lemma run_fn_run self s iter s' : run self s iter s' -> run_fn self s iter = s'.
Proof.
  induction 1 as [|s token s' iter s'' Hs _ IH]; [done|].
  simpl. by rewrite (step_fn_step _ _ _ _ Hs).
Qed.

(** ** Invariants of the runs *)

(** The states that are not scanning for a function. *)
Definition past_function s : Prop := s <> ScanFunction.

Lemma step_past_function self s token s' :
  step self s token s' -> past_function s -> past_function s'.
Proof. by destruct 1. Qed.

Lemma run_past_function self s iter s' :
  run self s iter s' -> past_function s -> past_function s'.
Proof. induction 1; eauto using step_past_function. Qed.

Lemma run_fn_finished self r iter : run_fn self (Finished r) iter = Finished r.
Proof. induction iter as [|token iter IH]; [done|apply IH]. Qed.

Lemma run_finished self r iter s : run self (Finished r) iter s -> s = Finished r.
Proof. intros Hr. by rewrite <- (run_fn_run _ _ _ _ Hr), run_fn_finished. Qed.

(** ** Progress of the scan *)

(** The machine has returned. *)
Definition finished s : Prop := exists r, s = Finished r.

(** [P] holds of the state now, or after some of the tokens still to read
    have been read. *)
Inductive eventually self (P : EvalState -> Prop) : EvalState -> list DaxToken -> Prop :=
| eventually_now s iter : P s -> eventually self P s iter
| eventually_later s token s' iter :
    step self s token s' -> eventually self P s' iter ->
    eventually self P s (token :: iter).

(** The token lists on which the scan returns before the tokens end: a
    first function token that is not recognised, or a recognised one with a
    column token somewhere after it. *)
Definition has_call self iter : Prop :=
  exists pre name post,
    iter = pre ++ DaxToken.Function name :: post /\ no_function pre /\
    (dispatch self name = None \/ Exists (fun token => is_column token = true) post).

Lemma eventually_mono self (P Q : EvalState -> Prop) s iter :
  (forall s, P s -> Q s) -> eventually self P s iter -> eventually self Q s iter.
Proof. intros HPQ. induction 1; [apply eventually_now|eapply eventually_later]; eauto. Qed.

Lemma run_fn_app self s pre iter :
  run_fn self s (pre ++ iter) = run_fn self (run_fn self s pre) iter.
Proof. apply fold_left_app. Qed.

(** [eventually] is: after a prefix of the tokens. *)
Lemma eventually_take self P s iter :
  eventually self P s iter <-> exists n, P (run_fn self s (take n iter)).
Proof.
  split.
  - induction 1 as [s iter HP|s token s' iter Hs _ [n Hn]]; [by exists 0%nat|].
    exists (S n). simpl. by rewrite (step_fn_step _ _ _ _ Hs).
  - intros [n Hn]. revert s iter Hn.
    induction n as [|n IH]; intros s [|token iter] Hn; try by apply eventually_now.
    eapply eventually_later; [apply step_step_fn|by apply IH].
Qed.

(** What holds from some point on for good holds when the tokens end. *)
Lemma eventually_stable self (P : EvalState -> Prop) s iter :
  (forall s token, P s -> P (step_fn self s token)) ->
  eventually self P s iter -> P (run_fn self s iter).
Proof.
  intros HP. induction 1 as [s iter Hs|s token s' iter Hs _ IH].
  - revert s Hs. induction iter as [|token iter IH]; intros s Hs; [done|].
    apply IH, HP, Hs.
  - simpl. by rewrite (step_fn_step _ _ _ _ Hs).
Qed.

Lemma eventually_finished self s iter :
  eventually self finished s iter <-> finished (run_fn self s iter).
Proof.
  split.
  - apply eventually_stable. intros ? token [r ->]. by exists r.
  - intros Hf. apply eventually_take. exists (length iter). by rewrite firstn_all.
Qed.

(** *** The two waits of the scan *)

Lemma has_call_skip self token iter :
  is_function token = false -> has_call self (token :: iter) <-> has_call self iter.
Proof.
  intros Ht. split; intros (pre & name & post & Hi & Hpre & Hc).
  - destruct pre as [|token' pre]; simplify_eq/=.
    apply Forall_cons in Hpre as [_ Hpre]. by exists pre, name, post.
  - exists (token :: pre), name, post. subst iter. split_and!; [done|by constructor|done].
Qed.

Lemma has_call_function self name iter :
  has_call self (DaxToken.Function name :: iter) <->
  dispatch self name = None \/ Exists (fun token => is_column token = true) iter.
Proof.
  split.
  - intros ([|token pre] & name' & post & Hi & Hpre & Hc); simplify_eq/=; [done|].
    by apply Forall_cons in Hpre as [? _].
  - intros Hc. by exists [], name, iter.
Qed.

(** From the state that scans for a column, a column token leads to the
    return, and nothing else does. *)
Lemma scan_column_finishes self op func iter :
  finished (run_fn self (ScanColumn op func) iter) <->
  Exists (fun token => is_column token = true) iter.
Proof.
  induction iter as [|token iter IH].
  - rewrite Exists_nil. split; [by intros [r ?]|done].
  - rewrite Exists_cons. destruct token; simpl; rewrite ?IH, ?run_fn_finished;
      try (split; [by right|by intros [|]]).
    split; [by left|by eexists].
Qed.

(** From the state that scans for a function, a call leads to the return,
    and nothing else does. *)
Lemma scan_function_finishes self iter :
  finished (run_fn self ScanFunction iter) <-> has_call self iter.
Proof.
  induction iter as [|token iter IH].
  - split; [by intros [r ?]|]. intros (pre & ? & ? & ? & _). by destruct pre.
  - destruct (is_function token) eqn:Ht.
    + destruct token; try done. rewrite has_call_function. simpl.
      destruct (dispatch self name) as [[op func]|].
      * rewrite scan_column_finishes. split; [by right|by intros [|]].
      * rewrite run_fn_finished. split; [by left|by eexists].
    + rewrite has_call_skip by done. by destruct token.
Qed.

(** ** The machine and the loops *)

Lemma run_fn_scan_column self op func iter :
  outcome (run_fn self (ScanColumn op func) iter) =
  match column_loop op func iter with
  | Return r => r
  | Exhausted => DaxResult.Error invalid_expression
  end.
Proof.
  induction iter as [|token iter IH]; [done|].
  destruct token; simpl; try apply IH. by rewrite run_fn_finished.
Qed.

Lemma run_fn_scan_function self iter :
  outcome (run_fn self ScanFunction iter) = evaluate_tokens self iter.
Proof.
  induction iter as [|token iter IH]; [done|].
  destruct token; try apply IH.
  rewrite evaluate_tokens_function. simpl.
  destruct (dispatch self name) as [[op func]|].
  - apply run_fn_scan_column.
  - by rewrite run_fn_finished.
Qed.

End Machine.

#[export] Hint Constructors step run eventually : dax.
#[export] Hint Resolve step_step_fn run_run_fn : dax.

(** ** Properties *)

Section MachineProperties.
Context `{Probe (list HasherWrite)}.
Implicit Types (self : Table) (s : EvalState) (iter : list DaxToken).

(** C14: the evaluator is the two-state machine of its design: from the
    state that scans for a function the machine has exactly one run over
    any token list, and the outcome of that run (the result it finished
    with, or the generic error when the tokens end before it finishes) is
    what the nested loops of [evaluate_dax] return. *)
Theorem machine_evaluates self iter :
  exists s,
    run self ScanFunction iter s /\
    (forall s', run self ScanFunction iter s' -> s' = s) /\
    outcome s = evaluate_tokens self iter.
Proof.
  exists (run_fn self ScanFunction iter).
  split_and!; [apply run_run_fn| |apply run_fn_scan_function].
  intros s' Hr. by rewrite <- (run_fn_run _ _ _ _ Hr).
Qed.

(** C15: the scan makes progress to its return exactly on a call: when the
    tokens hold a first function token that is not recognised, or a
    recognised one and a column token after it, the machine started in the
    state that scans for a function reaches, after some of the tokens, the
    state that has returned the result of [evaluate_dax], and on no other
    token list does it ever reach that state. *)
Theorem machine_finishes self iter :
  has_call self iter <->
  eventually self (fun s => s = Finished (evaluate_tokens self iter)) ScanFunction iter.
Proof.
  rewrite <- scan_function_finishes. split.
  - intros [r Hr]. apply eventually_take. exists (length iter).
    by rewrite firstn_all, <- run_fn_scan_function, Hr.
  - intros He. apply eventually_finished.
    eapply eventually_mono; [|done]. intros s ->. by eexists.
Qed.

(** No re-entry: once a function has been dispatched the machine never
    scans for a function again, whatever tokens follow, and once it has
    finished its result never changes. *)
Lemma machine_never_rescans self s iter s' :
  run self s iter s' -> past_function s ->
  past_function s' /\ (forall r, s = Finished r -> s' = s).
Proof.
  intros Hr Hs. split; [by eapply run_past_function|].
  intros r ->. by eapply run_finished.
Qed.

End MachineProperties.
