(* ===== verification/Pipeline.v ===== *)
(** * Pipeline: from a file to a result and to a grid

    The components composed as a program that uses the library composes
    them: [read_csv] builds the table, [evaluate_dax] queries it and
    [Display] prints it.  Nothing here is new code: the theorems are about
    [read_csv] of [src/src/io.rs], [evaluate_dax] and [fmt] of
    [src/src/table.rs] and [tokenize] of [src/dax-macro-impl/src/lib.rs],
    and they are proved from the theorems of the components.

    [number_fields j rows] is the reference for a query: the fields at
    position [j] of the lines that have one and that read as a number.
    [complete header rows] says that every line has a field for every
    name of the first line; it is what makes the columns of the table one
    length, and the text of the table the same in every order of the hash
    map. *)

From Stdlib Require Import String.
From stdpp Require Import gmap.
From S2P Require Import Prelude F64 Chars Errors Types Collections TableOps Render FromStr.
From S2P Require Import Lexer Evaluate Io.

(** ** Reference *)

(** The numbers of the fields at position [j]. *)
Definition number_fields (j : nat) (rows : list rstring) : list f64 :=
  omap (fun row => field j row ≫= f64_from_str) rows.

(** Every line has a field for every name. *)
Definition complete (header : rstring) (rows : list rstring) : Prop :=
  Forall (fun row => length (split (ch ",") header) <= length (split (ch ",") row)) rows.

#[export] Instance complete_dec header rows : Decision (complete header rows).
Proof. unfold complete. apply _. Defined.

(** ** From the file to the columns *)

Section PipelineFacts.
Implicit Types (header h : rstring) (rows : list rstring) (j : nat).

Lemma as_number_parse_value value : as_number (parse_value value) = f64_from_str value.
Proof.
  unfold parse_value. destruct (f64_from_str value); [done|].
  by repeat case_match.
Qed.

Lemma numbers_column_of j rows : numbers (column_of j rows) = number_fields j rows.
Proof.
  induction rows as [|row rows IH]; [done|].
  rewrite column_of_cons, numbers_app, IH. unfold number_fields. cbn.
  destruct (field j row) as [value|]; cbn; [|done].
  rewrite <- as_number_parse_value. by destruct (parse_value value).
Qed.

Lemma complete_column_length header rows j :
  complete header rows -> j < length (split (ch ",") header) ->
  length (column_of j rows) = length rows.
Proof.
  intros Hc Hj. apply length_omap_all. eapply Forall_impl; [exact Hc|].
  intros row Hrow. apply fmap_is_Some. unfold field. apply lookup_lt_is_Some.
  simpl in Hrow. lia.
Qed.

(** The table of a file with complete lines has one value per line in
    every column. *)
Lemma csv_rectangular header rows :
  complete header rows ->
  rectangular (length rows) (build_table (csv_state header rows)).
Proof.
  intros Hc. apply map_Forall_lookup_2. intros name values Hv.
  apply build_table_columns in Hv as (j & Hh%lookup_lt_Some & Hv).
  rewrite csv_state_column in Hv by done. injection Hv as <-.
  by eapply complete_column_length.
Qed.

(** In a first line without a repeated name every name reads the column
    of its position. *)
Lemma csv_column header rows j h :
  NoDup (split (ch ",") header) -> split (ch ",") header !! j = Some h ->
  Table.get_column (build_table (csv_state header rows)) h = Some (column_of j rows).
Proof.
  intros Hnd Hj. eapply build_table_lookup; [done| |].
  - apply csv_state_column. by eapply lookup_lt_Some.
  - intros k Hk Hh. pose proof (NoDup_lookup _ _ _ _ Hnd Hj Hh). lia.
Qed.

(** Every line has a first field. *)
Lemma first_column_length rows : length (column_of 0 rows) = length rows.
Proof.
  apply length_omap_all, Forall_forall. intros row _.
  apply fmap_is_Some. unfold field. apply lookup_lt_is_Some.
  pose proof (split_not_nil (ch ",") row). destruct (split _ row); simpl; [done|lia].
Qed.

(** A column as long as the file has a field on every line. *)
Lemma column_length_complete rows j :
  length (column_of j rows) = length rows ->
  Forall (fun row => j < length (split (ch ",") row)) rows.
Proof.
  intros Hl%length_omap_all_inv. eapply Forall_impl; [exact Hl|].
  intros row Hr%fmap_is_Some. by apply lookup_lt_is_Some.
Qed.

(** The table of a file without a repeated name has columns of one length
    only when every line is complete. *)
Lemma csv_rectangular_complete header rows n :
  NoDup (split (ch ",") header) ->
  rectangular n (build_table (csv_state header rows)) -> complete header rows.
Proof.
  intros Hnd Hrect.
  destruct (split (ch ",") header) as [|h hs] eqn:Eh using rev_ind;
    [by apply split_not_nil in Eh|]. clear IHhs.
  assert (exists h0, (hs ++ [h]) !! 0 = Some h0) as [h0 H0]
    by (destruct hs; simpl; eauto).
  rewrite <- Eh in Hnd, H0.
  pose proof (Hrect _ _ (csv_column header rows 0 h0 Hnd H0)) as Hn. simpl in Hn.
  rewrite first_column_length in Hn.
  assert (split (ch ",") header !! length hs = Some h) as Hlast
    by (rewrite Eh; apply list_lookup_middle; done).
  pose proof (Hrect _ _ (csv_column header rows _ h Hnd Hlast)) as Hl. simpl in Hl.
  rewrite <- Hn in Hl. apply column_length_complete in Hl.
  unfold complete. rewrite Eh, length_app. simpl.
  eapply Forall_impl; [exact Hl|]. intros row Hr. simpl in Hr. lia.
Qed.

(** The table of a file with a first line has a column. *)
Lemma csv_columns_nonempty header rows :
  TableOps.columns (build_table (csv_state header rows)) <> ∅.
Proof.
  destruct (split (ch ",") header) as [|h hs] eqn:Eh using rev_ind;
    [by apply split_not_nil in Eh|]. clear IHhs.
  intros He. assert (length (hs ++ [h]) = S (length hs)) as Hl
    by (rewrite length_app; simpl; lia).
  pose proof (build_table_lookup (csv_state header rows) (length hs) h
                (column_of (length hs) rows)) as Hb.
  unfold Table.get_column in Hb. rewrite He, lookup_empty in Hb.
  discriminate Hb.
  - simpl. rewrite Eh. by apply list_lookup_middle.
  - apply csv_state_column. rewrite Eh. lia.
  - intros k Hk. simpl. rewrite Eh, lookup_ge_None_2; [done|lia].
Qed.

End PipelineFacts.

(** An empty file is read as the table without columns, which [Display]
    does not print: it panics. *)
Lemma csv_empty_file `{HashOrder} :
  read_csv_text [] = Ok Table.new /\ fmt Table.new = None.
Proof. split; [done|]. unfold fmt. by rewrite (proj2 (fmt_panics Table.new)). Qed.

(** ** Properties *)

Section PipelineProperties.
Context `{HU : Unicode} `{HP : Probe (list HasherWrite)} `{HO : HashOrder}.
Implicit Types (header h rest : rstring) (rows : list rstring) (j : nat).

(** C16: a sum over a column of a file: for a file that is read without
    a failure and a name [h] of its first line without a closing bracket,
    the expression [SUM([h])], whatever follows it, evaluates on the table
    of the file to the sum, from [0.0] and in the order of the lines, of
    the fields at the last position of [h] that read as numbers; lines
    without such a field and fields that are no number are skipped. *)
Theorem csv_sum header rows j h rest :
  split (ch ",") header !! j = Some h ->
  (forall k, j < k -> split (ch ",") header !! k <> Some h) ->
  Forall (fun c => column_char c = true) h ->
  exists table,
    read_csv (Ok (Ok <$> header :: rows)) = Ok table /\
    evaluate_dax table (str "SUM([" ++ h ++ ch "]" :: rest) =
    DaxResult.Number (fsum (number_fields j rows)).
Proof.
  intros Hj Hlast Hh. destruct (read_csv_columns header rows) as (table & Hr & Hc & _).
  exists table. split; [done|].
  assert (is_name (str "SUM")) by (split; [done|by repeat constructor]).
  change (str "SUM([" ++ h ++ ch "]" :: rest)
    with (str "SUM" ++ ch "(" :: ch "[" :: h ++ ch "]" :: rest).
  rewrite evaluate_dax_call by done. change (dispatch table (str "SUM"))
    with (Some (Table.sum table, "SUM"%string)).
  unfold column_result.
  by rewrite sum_spec, (Hc j h Hj Hlast), <- numbers_column_of.
Qed.

(** C17: a file with complete lines prints as a grid, and only such a
    file prints in one way: when every line after the first has a field for
    every name of the first, the table of the file has one value per line
    in every column, and its text is a top border, the line of the names, a
    separator, one row per line and a bottom border, the same in every
    order of the hash map; and when the names of the first line are
    different and a line is short, there are two orders of the hash map in
    which the table is written differently. *)
Theorem csv_fmt header rows :
  exists table,
    read_csv (Ok (Ok <$> header :: rows)) = Ok table /\
    (complete header rows ->
     rectangular (length rows) table /\
     (forall o, fmt_lines (H := o) table = fmt_lines (H := HO) table) /\
     exists top names sep grid bottom,
       fmt_lines table = Some ([top; names; sep] ++ grid ++ [bottom]) /\
       length grid = length rows) /\
    (NoDup (split (ch ",") header) ->
     (forall o1 o2, fmt_lines (H := o1) table = fmt_lines (H := o2) table) ->
     complete header rows).
Proof.
  exists (build_table (csv_state header rows)). split_and!; [apply read_csv_lines|..].
  - intros Hc. pose proof (csv_rectangular header rows Hc) as Hrect.
    destruct (fmt_grid _ _ (csv_columns_nonempty header rows) Hrect)
      as (b & top & names & sep & grid & bottom & Hf & Hl & _).
    split_and!; [done|intros o; by apply (fmt_lines_order _ _ _ _ Hrect)|eauto 10].
  - intros Hnd [n Hrect]%fmt_lines_rectangular. by eapply csv_rectangular_complete.
Qed.

End PipelineProperties.

(** ** Witnesses *)

Lemma csv_sum_witness :
  exists table,
    read_csv (Ok (Ok <$> str "Product,Sales" :: [str "Apple,100"; str "Pear"; str "Plum,x"; str "Fig,2.5"])) = Ok table /\
    evaluate_dax (H := ascii_unicode) (H0 := exact_probe _) table
      (str "SUM([Sales]) / 2") = DaxResult.Number 102.5.
Proof.
  exact (csv_sum (HU := ascii_unicode) (HP := exact_probe _) (str "Product,Sales")
           [str "Apple,100"; str "Pear"; str "Plum,x"; str "Fig,2.5"] 1
           (str "Sales") (str ") / 2") eq_refl
           ltac:(intros k Hk; do 2 (destruct k as [|k]; [lia|]); by vm_compute)
           ltac:(by repeat constructor)).
Defined.
