(* ===== verification/Main.v ===== *)
(** * Main: the program ([src/src/main.rs])

    [main] builds a table with [table!], evaluates two expressions on it
    and prints the results with [{:?}], then prints the table.  The
    standard output is a [Writer] of [Formatter]: it may refuse a write,
    and [println!] panics when it does.  [print] is that step of
    [println!], [println_args] the macro on arguments that are written by
    a computation; [main_with] is the body of [main] after the table is
    built, [main] the program: the macro expanded, then the body.
    [println] and [lines_text] are the text of the lines on an output that
    accepts them.

    [DaxValue_debug] and [Result_debug] are the derived [Debug] of
    [DaxValue] and the [Debug] of [Result<DaxValue, String>].

    The theorem shows the text that [main] prints, whatever the hasher,
    the order of the hash map and the tables of Unicode are, and that it
    ends with a panic, having printed a prefix of that text, only when the
    standard output refuses a write. *)

From Stdlib Require Import String.
From stdpp Require Import gmap.
From S2P Require Import Prelude F64 Chars Escape Fmt Types Collections TableOps Render.
From S2P Require Import Formatter FromStr Syn Macros Lexer Evaluate.

(** ** The standard output *)

(** What [println!("{}", text)] adds to [out] on an output that accepts
    it. *)
Definition println (out text : rstring) : rstring := out ++ text ++ [10%N].

(** The text of lines, each ended by a line feed. *)
Definition lines_text (lines : list rstring) : rstring :=
  concat ((fun line => line ++ [10%N]) <$> lines).

Section Main.
Context `{Unicode} `{Probe (list HasherWrite)} `{HashOrder} `{UnicodeDebug} `{Writer W}.

(** ** Operations *)

(** [#[derive(Debug)]] of [DaxValue]. *)
Definition DaxValue_debug (v : DaxValue) : rstring :=
  match v with
  | DaxValue.Number n => str "Number(" ++ format_debug n ++ str ")"
  | DaxValue.Text s => str "Text(" ++ str_debug s ++ str ")"
  | DaxValue.Boolean b => str "Boolean(" ++ format_bool b ++ str ")"
  end.

(** [Debug] of [Result<DaxValue, String>]. *)
Definition Result_debug (r : Result DaxValue rstring) : rstring :=
  match r with
  | Ok v => str "Ok(" ++ DaxValue_debug v ++ str ")"
  | Err e => str "Err(" ++ str_debug e ++ str ")"
  end.

(** [std::io::_print]: the arguments are written to the standard output,
    and a write that fails is a panic. *)
Definition print (args : Fmt W unit) : Fmt W unit := fun w =>
  match args w with
  | (w', Returned (Err _)) => (w', Panicked)
  | (w', Returned (Ok tt)) => (w', Returned (Ok tt))
  | (w', Panicked) => (w', Panicked)
  end.

(** [println!("{..}", x)] where [arg] writes [x]: the line feed is the
    last piece of the arguments. *)
Definition println_args (arg : Fmt W unit) : Fmt W unit :=
  print (arg;; write [10%N]).

(** The statements of [main] after [let table = ..]. *)
Definition main_with (table : Table) : Fmt W unit :=
  println_args (write (Result_debug (eval_dax table (str "SUM([Quantity])"))));;
  println_args (write (Result_debug (eval_dax table (str "AVERAGE([Quantity]"))));;
  println_args (fmt_io table).

(** [main]; [None] when the invocation of [table!] does not expand to a
    table, and there is no program. *)
Definition main : option (Fmt W unit) :=
  match table main_tokens with
  | Built table => Some (main_with table)
  | _ => None
  end.

End Main.

(** ** Reference: the output *)

(** The lines of the output of [main]. *)
Definition main_lines : list rstring :=
  [ str "Ok(Number(40.0))";
    str "Ok(Number(13.333333333333334))";
    border TOP_LEFT TOP_RIGHT 40;
    str " Discount " ++ VBAR :: str " Product " ++ VBAR :: str " Quantity " ++
      VBAR :: str " Sales  ";
    border MID_LEFT MID_RIGHT 40;
    str "     0.00 " ++ VBAR :: str " Apple   " ++ VBAR :: str "    10.00 " ++
      VBAR :: str " 100.00 ";
    str "     0.00 " ++ VBAR :: str " Banana  " ++ VBAR :: str "    15.00 " ++
      VBAR :: str " 150.00 ";
    str "     0.00 " ++ VBAR :: str " Orange  " ++ VBAR :: str "    15.00 " ++
      VBAR :: str " 200.00 ";
    border BOTTOM_LEFT BOTTOM_RIGHT 40;
    [] ].

(** ** Facts *)

Lemma main_table_rectangular : rectangular 3 main_table.
Proof. apply (bool_decide_unpack _). by vm_compute. Qed.

Section MainFacts.
Context `{Unicode} `{Probe (list HasherWrite)} `{HashOrder} `{UnicodeDebug}.

(** The two results that [main] prints. *)
Lemma main_results :
  eval_dax main_table (str "SUM([Quantity])") = Ok (DaxValue.Number 40) /\
  eval_dax main_table (str "AVERAGE([Quantity]") =
    Ok (DaxValue.Number 0x1.aaaaaaaaaaaabp+3).
Proof.
  unfold eval_dax.
  rewrite (evaluate_dax_ascii (H := H) _ (str "SUM([Quantity])")),
    (evaluate_dax_ascii (H := H) _ (str "AVERAGE([Quantity]"))
    by (apply (bool_decide_unpack _); by vm_compute).
  split; by vm_compute.
Qed.

(** The table of [main] prints in one way. *)
Lemma main_table_fmt : fmt main_table = fmt (H := gmap_order) main_table.
Proof.
  unfold fmt. by rewrite (fmt_lines_order _ gmap_order main_table 3 main_table_rectangular).
Qed.

(** [println!] writes a line, or panics having written a prefix of it. *)
Lemma println_args_writes `{Writer W} (arg : Fmt W unit) text :
  writes arg text -> writes_or Panicked (println_args arg) (text ++ [10%N]).
Proof.
  intros Ha w. unfold println_args, print.
  destruct (writes_bind _ _ _ _ Ha (writes_write [10%N]) w)
    as [(w' & -> & Hw)|(w' & pre & -> & Hpre & Hw & Hf)];
    [left; by exists w'|right; by exists w', pre].
Qed.

(** A panic of the argument is the panic of [println!]. *)
Lemma println_args_panics `{Writer W} (arg : Fmt W unit) w w' :
  arg w = (w', Panicked) -> println_args arg w = (w', Panicked).
Proof. intros Ha. unfold println_args, print, mbind, Fmt_bind. by rewrite Ha. Qed.

(** The body of [main] on its table writes the lines of [main_lines], or
    panics having written a prefix of them. *)
Lemma main_with_writes `{Writer W} :
  writes_or Panicked (main_with (W := W) main_table) (lines_text main_lines).
Proof.
  assert (fmt main_table = Some (lines_text (removelast (drop 2 main_lines))))
    as Hfmt by (rewrite main_table_fmt; by vm_compute).
  unfold main_with. destruct main_results as [-> ->]. eapply writes_or_eq.
  - do 2 (apply writes_or_bind; [done|apply println_args_writes, writes_write|]).
    apply println_args_writes, fmt_io_writes, Hfmt.
  - by vm_compute.
Qed.

End MainFacts.

(** ** Properties *)

Section MainProperties.
Context `{Unicode} `{Probe (list HasherWrite)} `{HashOrder} `{UnicodeDebug} `{Writer W}.

(** C21: the program prints the sum and the average of [Quantity], the
    second expression evaluating although its parenthesis is not closed,
    and then the table with its columns in the order of their names, and
    ends without a panic; or the standard output refuses a write, and the
    program panics having printed a prefix of that text.  The text is the
    same for every hasher, every iteration order of the hash map and every
    version of the Unicode tables. *)
Theorem main_prints (w : W) :
  exists c, main = Some c /\
    ((exists w', c w = (w', Returned (Ok tt)) /\
                 written w' = written w ++ lines_text main_lines) \/
     (exists w' pre, c w = (w', Panicked) /\ pre `prefix_of` lines_text main_lines /\
                     written w' = written w ++ pre /\ can_fail)).
Proof.
  unfold main. rewrite table_main. eexists. split; [done|]. apply main_with_writes.
Qed.

End MainProperties.

(** ** Runs *)

(** On an output that accepts every write, as a pipe that is read or a
    [String], [main] prints its lines and returns. *)
Lemma main_on_string `{Unicode} `{Probe (list HasherWrite)} `{HashOrder} `{UnicodeDebug} :
  exists c, main (W := rstring) = Some c /\
            c [] = (lines_text main_lines, Returned (Ok tt)).
Proof.
  unfold main. rewrite table_main. eexists. split; [done|].
  destruct (main_with_writes (W := rstring) [])
    as [(w' & -> & Hw)|(? & ? & _ & _ & _ & Hf)]; [simpl in Hw; by subst|].
  by destruct string_writer_total.
Qed.

(** On an output that accepts twenty characters (a pipe that is closed by
    its reader) the first line is printed, the second [println!] panics,
    and the table is not printed. *)
Lemma main_on_closed_pipe :
  exists c,
    main (H := ascii_unicode) (H0 := exact_probe _) (H1 := gmap_order)
      (H2 := ascii_debug) (W := Bounded) = Some c /\
    c {| capacity := 20; buffer := [] |} =
      ({| capacity := 0; buffer := str "Ok(Number(40.0))" ++ 10%N :: str "Ok(" |},
       Panicked).
Proof. eexists. split; by vm_compute. Qed.
