(* ===== verification/Tests.v ===== *)
(** * Tests: the tests of the repository ([src/tests/table_test.rs] and
      the unit tests of [src/src/table.rs])

    Each test is the boolean its assertions compute: [true] when every
    assertion holds and no [panic!] is reached.  [assert_eq!] on [f64] is
    [==]; [e.contains(..)] is [contains]; [iter.any(..)] is [iter_any],
    which leaves the iterator after the first match, so that the calls of
    [test_tokenization] on one iterator find their tokens in order.  A
    [parse_dax!] invocation stands for the vector [tokenize] returns on its
    literal.  The tests of [mod tests] of [table.rs] are in [TableTests];
    their [x.into()] is [Value::from(x)].  [doc_example] is the example of
    the documentation of [Table], a test too, as the text it prints.

    [repository_tests] shows that every test passes, whatever the table of
    [char::is_alphabetic] outside ASCII and whatever the hasher. *)

From Stdlib Require Import String.
From stdpp Require Import gmap.
From S2P Require Import Prelude F64 Chars Fmt Types Collections TableOps FromStr Lexer Evaluate.
From S2P Require Import Main.

(** ** The patterns of [matches!] *)

Definition is_function_named (n : string) (t : DaxToken) : bool :=
  match t with
  | DaxToken.Function name => bool_decide (name = str n)
  | _ => false
  end.

Definition is_column_named (n : string) (t : DaxToken) : bool :=
  match t with
  | DaxToken.Column name => bool_decide (name = str n)
  | _ => false
  end.

Definition is_operator_char (c : string) (t : DaxToken) : bool :=
  match t with
  | DaxToken.Operator op => bool_decide (str c = [op])
  | _ => false
  end.

(** [match table.evaluate_dax(..) { Number(n) => assert_eq!(n, x), _ => panic!() }]
    and [match .. { Error(e) => assert!(e.contains(pat)), _ => panic!() }]. *)
Definition expect_number (r : DaxResult) (x : f64) : bool :=
  match r with
  | DaxResult.Number n => f64_eq n x
  | _ => false
  end.

Definition expect_error (r : DaxResult) (pat : string) : bool :=
  match r with
  | DaxResult.Error e => contains e (str pat)
  | _ => false
  end.

(** ** The tests *)

Section Tests.
Context `{Unicode} `{Probe (list HasherWrite)}.

Definition test_empty_table : bool :=
  let table := Table.new in
  expect_error (evaluate_dax table (str "SUM([Sales])")) "Could not calculate".

Definition test_mixed_data_types : bool :=
  let table := Table.new in
  let table := Table.add_column table (str "Mixed")
                 [Number 100; Text (str "Not a number"); Number 300] in
  expect_number (evaluate_dax table (str "SUM([Mixed])")) 400.

Definition test_large_numbers : bool :=
  let table := Table.new in
  let table := Table.add_column table (str "Large")
                 [Number 1000000; Number 2000000; Number 3000000] in
  expect_number (evaluate_dax table (str "SUM([Large])")) 6000000.

Definition test_zero_values : bool :=
  let table := Table.new in
  let table := Table.add_column table (str "Zeros") [Number 0; Number 0; Number 0] in
  expect_number (evaluate_dax table (str "AVERAGE([Zeros])")) 0.

Definition test_single_value : bool :=
  let table := Table.new in
  let table := Table.add_column table (str "Single") [Number 42] in
  expect_number (evaluate_dax table (str "AVERAGE([Single])")) 42.

Definition test_distinct_count_with_special_floats : bool :=
  let table := Table.new in
  let values := [Number nan; Number nan; Number infinity; Number neg_infinity] in
  let table := Table.add_column table (str "special") values in
  bool_decide (Table.distinctcount table (str "special") = Some 3%nat).

Definition test_nan_equality : bool :=
  let nan1 := Number nan in
  let nan2 := Number nan in
  let set := [] in
  let set := hs_insert Value_eq Value_hash set nan1 in
  let set := hs_insert Value_eq Value_hash set nan2 in
  Value_eq nan1 nan2 && bool_decide (length set = 1%nat).

(** The literal [3.7] is the double [0x1.d99999999999ap+1]. *)
Definition test_distinct_count_with_floats : bool :=
  let table := Table.new in
  let values := [Number 1; Number 1; Number 2.5; Number 0x1.d99999999999ap+1; Number 0x1.d99999999999ap+1] in
  let table := Table.add_column table (str "test") values in
  bool_decide (Table.distinctcount table (str "test") = Some 3%nat).

Definition test_invalid_function : bool :=
  let table := Table.new in
  let table := Table.add_column table (str "Sales") [Number 100; Number 200] in
  expect_error (evaluate_dax table (str "INVALID([Sales])")) "Unsupported".

Definition test_tokenization : bool :=
  let tokens := tokenize (str "SUM([Sales]) + AVERAGE([Quantity])") in
  let iter := tokens in
  let '(a1, iter) := iter_any (is_function_named "SUM") iter in
  let '(a2, iter) := iter_any (is_column_named "Sales") iter in
  let '(a3, iter) := iter_any (is_operator_char "+") iter in
  let '(a4, iter) := iter_any (is_function_named "AVERAGE") iter in
  let '(a5, iter) := iter_any (is_column_named "Quantity") iter in
  a1 && a2 && a3 && a4 && a5.

Definition test_basic_table_operations : bool :=
  let table := Table.new in
  let table := Table.add_column table (str "Sales")
                 [Number 100; Number 200; Number 300] in
  let table := Table.add_column table (str "Quantity")
                 [Number 10; Number 20; Number 30] in
  let tokens := tokenize (str "SUM([Sales])") in
  let a1 := (iter_any (is_function_named "SUM") tokens).1 in
  let a2 := (iter_any (is_column_named "Sales") tokens).1 in
  let tokens := tokenize (str "AVERAGE([Quantity])") in
  let a3 := (iter_any (is_function_named "AVERAGE") tokens).1 in
  let a4 := (iter_any (is_column_named "Quantity") tokens).1 in
  let tokens := tokenize (str "SUM([Sales]) / SUM([Quantity])") in
  let a5 := (iter_any (is_column_named "Sales") tokens).1 in
  let a6 := (iter_any (is_column_named "Quantity") tokens).1 in
  let a7 := (iter_any (is_operator_char "/") tokens).1 in
  a1 && a2 && a3 && a4 && a5 && a6 && a7.

Definition test_dax_evaluation : bool :=
  let table := Table.new in
  let table := Table.add_column table (str "Sales")
                 [Number 100; Number 200; Number 300] in
  expect_number (evaluate_dax table (str "SUM([Sales])")) 600.

Definition test_dax_average : bool :=
  let table := Table.new in
  let table := Table.add_column table (str "Sales")
                 [Number 100; Number 200; Number 300] in
  expect_number (evaluate_dax table (str "AVERAGE([Sales])")) 200.

Definition test_invalid_column : bool :=
  let table := Table.new in
  let table := Table.add_column table (str "Sales")
                 [Number 100; Number 200; Number 300] in
  match evaluate_dax table (str "SUM([NonExistent])") with
  | DaxResult.Error _ => true
  | _ => false
  end.

End Tests.

(** ** The unit tests of [src/src/table.rs] *)

Module TableTests.
Section TableTests.
Context `{Unicode} `{Probe (list HasherWrite)}.

Definition test_dax_sum : bool :=
  let table := Table.new in
  let table := Table.add_column table (str "Sales")
                 [Value_from_f64 10; Value_from_f64 20; Value_from_f64 30] in
  expect_number (evaluate_dax table (str "SUM([Sales])")) 60.

Definition test_dax_average : bool :=
  let table := Table.new in
  let table := Table.add_column table (str "Sales")
                 [Value_from_f64 10; Value_from_f64 20; Value_from_f64 30] in
  expect_number (evaluate_dax table (str "AVERAGE([Sales])")) 20.

(** The example of the documentation of [Table], which [cargo test] runs:
    what it writes to the standard output. *)
Definition doc_example : rstring :=
  let table := Table.new in
  let table := Table.add_column table (str "Sales")
                 [Number 100; Number 200; Number 300] in
  match evaluate_dax table (str "SUM([Sales])") with
  | DaxResult.Number n => println [] (str "Total sales: " ++ format_shortest n)
  | DaxResult.Error e => println [] (str "Error: " ++ e)
  | _ => println [] (str "Unexpected result type")
  end.

End TableTests.
End TableTests.

(** ** Running a test *)

(** [ascii_input]: the literal of the goal is ASCII, by evaluation. *)
Ltac ascii_input := apply (bool_decide_unpack _); by vm_compute.

(** [zeros_agree_input]: the column of the goal does not hold both zeros. *)
Ltac zeros_agree_input := apply (bool_decide_unpack _); by vm_compute.

Section TestFacts.
Context `{HU : Unicode} `{HP : Probe (list HasherWrite)}.

(** [run_test]: replace the table of [char::is_alphabetic] by the one that
    computes, and evaluate. *)
Ltac run_test :=
  cbv zeta;
  rewrite ?(evaluate_dax_ascii (H := HU)), ?(tokenize_ascii (H := HU)) by ascii_input;
  by vm_compute.

Lemma evaluation_tests_pass :
  test_empty_table = true /\ test_mixed_data_types = true /\
  test_large_numbers = true /\ test_zero_values = true /\
  test_single_value = true /\ test_invalid_function = true /\
  test_dax_evaluation = true /\ test_dax_average = true /\
  test_invalid_column = true.
Proof.
  unfold test_empty_table, test_mixed_data_types, test_large_numbers,
    test_zero_values, test_single_value, test_invalid_function,
    test_dax_evaluation, test_dax_average, test_invalid_column.
  split_and!; run_test.
Qed.

Lemma table_unit_tests_pass :
  TableTests.test_dax_sum = true /\ TableTests.test_dax_average = true /\
  TableTests.doc_example = lines_text [str "Total sales: 600"].
Proof.
  unfold TableTests.test_dax_sum, TableTests.test_dax_average, TableTests.doc_example.
  split_and!; run_test.
Qed.

Lemma tokenization_tests_pass :
  test_tokenization = true /\ test_basic_table_operations = true.
Proof.
  unfold test_tokenization, test_basic_table_operations. split; run_test.
Qed.

Lemma distinct_count_tests_pass :
  test_distinct_count_with_special_floats = true /\
  test_distinct_count_with_floats = true /\
  test_nan_equality = true.
Proof.
  unfold test_distinct_count_with_special_floats, test_distinct_count_with_floats,
    test_nan_equality. cbv zeta. split_and!.
  - erewrite distinctcount_zeros_agree; [|apply get_column_add_eq|zeros_agree_input].
    by vm_compute.
  - erewrite distinctcount_zeros_agree; [|apply get_column_add_eq|zeros_agree_input].
    by vm_compute.
  - change (hs_insert Value_eq Value_hash (hs_insert Value_eq Value_hash [] ?a) ?b)
      with (hs_collect Value_eq Value_hash [a; b]).
    rewrite hs_collect_zeros_agree; [by vm_compute|zeros_agree_input].
Qed.

End TestFacts.

(** ** Properties *)

(** every test of the repository passes: the assertions of
    [tests/table_test.rs] and of the unit tests of [src/table.rs] hold of
    the definitions, and the example of the documentation of [Table]
    prints the total, for every table of [char::is_alphabetic] that is
    right on ASCII and for every hasher. *)
Theorem repository_tests `{Unicode} `{Probe (list HasherWrite)} :
  test_empty_table = true /\ test_mixed_data_types = true /\
  test_large_numbers = true /\ test_zero_values = true /\
  test_single_value = true /\ test_distinct_count_with_special_floats = true /\
  test_nan_equality = true /\ test_distinct_count_with_floats = true /\
  test_invalid_function = true /\ test_tokenization = true /\
  test_basic_table_operations = true /\ test_dax_evaluation = true /\
  test_dax_average = true /\ test_invalid_column = true /\
  TableTests.test_dax_sum = true /\ TableTests.test_dax_average = true /\
  TableTests.doc_example = lines_text [str "Total sales: 600"].
Proof.
  destruct evaluation_tests_pass as (? & ? & ? & ? & ? & ? & ? & ? & ?).
  destruct tokenization_tests_pass as (? & ?).
  destruct distinct_count_tests_pass as (? & ? & ?).
  destruct table_unit_tests_pass as (? & ? & ?).
  by split_and!.
Qed.
